(** * lit_review_app: hybrid retrieval ranking and collection analytics

    A shallow embedding of
      - [retrieval/query_understanding.py]  ([parse_query]),
      - [retrieval/search.py]               ([hybrid_search],
                                             [search_with_distributions]),
      - [retrieval/db.py]                   ([fetch_papers_by_ids],
                                             [fetch_features]),
      - [analysis/service.py]               ([CollectionAnalyzer]:
                                             [_enrich_papers],
                                             [perform_clustering],
                                             [build_cooccurrence_network],
                                             [analyze_trends],
                                             [analyze_attitude_evolution]),
    followed by the properties of the specification that concern them.

    Conventions.
      - A Python [str] is a list of Unicode code points ([pystr]).  White
        space is Python's complete table; digits, letter case and word
        characters are those of ASCII and of the CJK ideographs.
      - Python floats are modelled by exact rationals ([Q]); no statement
        below depends on rounding.
      - Python dictionaries whose iteration order is observable
        ([id_scores], [Counter], [defaultdict]) are association lists in
        insertion order; dictionaries that are only looked up are [gmap]s.
      - Dictionaries that are shared between caller and callee live in an
        explicit heap.
      - A call that raises is the result [None].
      - What lies outside the repository is a parameter: the two search
        indexes, the SQL engine behind [search_sqlite], the models behind
        [SinglePaperProcessor], and scikit-learn's k-means. *)

From Stdlib Require Import ZArith NArith QArith Qminmax List String Lia Lqa Bool.
From Stdlib Require Import Permutation Sorted.
From Stdlib.Strings Require Import Byte.
From Stdlib Require Import DecimalString.
From stdpp Require Import gmap list.
Import ListNotations.

Unset Default Proof Using.

(* ================================================================== *)
(** * Python strings                                                   *)
(* ================================================================== *)

Definition pystr := list N.

(** Decoder for UTF-8, so that string constants of the source can be
    written as they appear there. *)
Fixpoint utf8_decode (bs : list N) : pystr :=
  match bs with
  | [] => []
  | b :: r1 =>
      if (b <? 128)%N then b :: utf8_decode r1
      else if (b <? 224)%N then
        match r1 with
        | c1 :: r2 => ((b - 192) * 64 + (c1 - 128))%N :: utf8_decode r2
        | _ => []
        end
      else if (b <? 240)%N then
        match r1 with
        | c1 :: c2 :: r3 =>
            (((b - 224) * 64 + (c1 - 128)) * 64 + (c2 - 128))%N
              :: utf8_decode r3
        | _ => []
        end
      else
        match r1 with
        | c1 :: c2 :: c3 :: r4 =>
            ((((b - 240) * 64 + (c1 - 128)) * 64 + (c2 - 128)) * 64
             + (c3 - 128))%N :: utf8_decode r4
        | _ => []
        end
  end.

Definition u (s : string) : pystr :=
  utf8_decode (List.map Byte.to_N (list_byte_of_string s)).

Definition in_range (lo hi c : N) : bool := ((lo <=? c) && (c <=? hi))%N.

Definition in_ranges (t : list (N * N)) (c : N) : bool :=
  existsb (fun r => in_range (fst r) (snd r) c) t.

(** ** The character tables of the interpreter

    The tables are those of CPython 3.11 (Unicode 14.0): ranges of code
    points, both ends included. *)

(** The decimal digits (category [Nd]): each range is made of runs of ten
    code points with the values 0 to 9. *)
Definition decimal_ranges : list (N * N) :=
  [(48, 57); (1632, 1641); (1776, 1785); (1984, 1993); (2406, 2415);
   (2534, 2543); (2662, 2671); (2790, 2799); (2918, 2927); (3046, 3055);
   (3174, 3183); (3302, 3311); (3430, 3439); (3558, 3567); (3664, 3673);
   (3792, 3801); (3872, 3881); (4160, 4169); (4240, 4249); (6112, 6121);
   (6160, 6169); (6470, 6479); (6608, 6617); (6784, 6793); (6800, 6809);
   (6992, 7001); (7088, 7097); (7232, 7241); (7248, 7257); (42528, 42537);
   (43216, 43225); (43264, 43273); (43472, 43481); (43504, 43513);
   (43600, 43609); (44016, 44025); (65296, 65305); (66720, 66729);
   (68912, 68921); (69734, 69743); (69872, 69881); (69942, 69951);
   (70096, 70105); (70384, 70393); (70736, 70745); (70864, 70873);
   (71248, 71257); (71360, 71369); (71472, 71481); (71904, 71913);
   (72016, 72025); (72784, 72793); (73040, 73049); (73120, 73129);
   (92768, 92777); (92864, 92873); (93008, 93017); (120782, 120831);
   (123200, 123209); (123632, 123641); (125264, 125273); (130032, 130041)]%N.

(** The other code points that [str.isdigit] accepts: superscripts,
    subscripts, circled digits and the like.  They are no decimal digits. *)
Definition other_digit_ranges : list (N * N) :=
  [(178, 179); (185, 185); (4969, 4977); (6618, 6618); (8304, 8304);
   (8308, 8313); (8320, 8329); (9312, 9320); (9332, 9340); (9352, 9360);
   (9450, 9450); (9461, 9469); (9471, 9471); (10102, 10110); (10112, 10120);
   (10122, 10130); (68160, 68163); (69216, 69224); (69714, 69722);
   (127232, 127242)]%N.

(** [\w]: the alphanumeric code points and the underscore. *)
Definition word_ranges : list (N * N) :=
  [(48, 57); (65, 90); (95, 95); (97, 122); (170, 170); (178, 179);
   (181, 181); (185, 186); (188, 190); (192, 214); (216, 246); (248, 705);
   (710, 721); (736, 740); (748, 748); (750, 750); (880, 884); (886, 887);
   (890, 893); (895, 895); (902, 902); (904, 906); (908, 908); (910, 929);
   (931, 1013); (1015, 1153); (1162, 1327); (1329, 1366); (1369, 1369);
   (1376, 1416); (1488, 1514); (1519, 1522); (1568, 1610); (1632, 1641);
   (1646, 1647); (1649, 1747); (1749, 1749); (1765, 1766); (1774, 1788);
   (1791, 1791); (1808, 1808); (1810, 1839); (1869, 1957); (1969, 1969);
   (1984, 2026); (2036, 2037); (2042, 2042); (2048, 2069); (2074, 2074);
   (2084, 2084); (2088, 2088); (2112, 2136); (2144, 2154); (2160, 2183);
   (2185, 2190); (2208, 2249); (2308, 2361); (2365, 2365); (2384, 2384);
   (2392, 2401); (2406, 2415); (2417, 2432); (2437, 2444); (2447, 2448);
   (2451, 2472); (2474, 2480); (2482, 2482); (2486, 2489); (2493, 2493);
   (2510, 2510); (2524, 2525); (2527, 2529); (2534, 2545); (2548, 2553);
   (2556, 2556); (2565, 2570); (2575, 2576); (2579, 2600); (2602, 2608);
   (2610, 2611); (2613, 2614); (2616, 2617); (2649, 2652); (2654, 2654);
   (2662, 2671); (2674, 2676); (2693, 2701); (2703, 2705); (2707, 2728);
   (2730, 2736); (2738, 2739); (2741, 2745); (2749, 2749); (2768, 2768);
   (2784, 2785); (2790, 2799); (2809, 2809); (2821, 2828); (2831, 2832);
   (2835, 2856); (2858, 2864); (2866, 2867); (2869, 2873); (2877, 2877);
   (2908, 2909); (2911, 2913); (2918, 2927); (2929, 2935); (2947, 2947);
   (2949, 2954); (2958, 2960); (2962, 2965); (2969, 2970); (2972, 2972);
   (2974, 2975); (2979, 2980); (2984, 2986); (2990, 3001); (3024, 3024);
   (3046, 3058); (3077, 3084); (3086, 3088); (3090, 3112); (3114, 3129);
   (3133, 3133); (3160, 3162); (3165, 3165); (3168, 3169); (3174, 3183);
   (3192, 3198); (3200, 3200); (3205, 3212); (3214, 3216); (3218, 3240);
   (3242, 3251); (3253, 3257); (3261, 3261); (3293, 3294); (3296, 3297);
   (3302, 3311); (3313, 3314); (3332, 3340); (3342, 3344); (3346, 3386);
   (3389, 3389); (3406, 3406); (3412, 3414); (3416, 3425); (3430, 3448);
   (3450, 3455); (3461, 3478); (3482, 3505); (3507, 3515); (3517, 3517);
   (3520, 3526); (3558, 3567); (3585, 3632); (3634, 3635); (3648, 3654);
   (3664, 3673); (3713, 3714); (3716, 3716); (3718, 3722); (3724, 3747);
   (3749, 3749); (3751, 3760); (3762, 3763); (3773, 3773); (3776, 3780);
   (3782, 3782); (3792, 3801); (3804, 3807); (3840, 3840); (3872, 3891);
   (3904, 3911); (3913, 3948); (3976, 3980); (4096, 4138); (4159, 4169);
   (4176, 4181); (4186, 4189); (4193, 4193); (4197, 4198); (4206, 4208);
   (4213, 4225); (4238, 4238); (4240, 4249); (4256, 4293); (4295, 4295);
   (4301, 4301); (4304, 4346); (4348, 4680); (4682, 4685); (4688, 4694);
   (4696, 4696); (4698, 4701); (4704, 4744); (4746, 4749); (4752, 4784);
   (4786, 4789); (4792, 4798); (4800, 4800); (4802, 4805); (4808, 4822);
   (4824, 4880); (4882, 4885); (4888, 4954); (4969, 4988); (4992, 5007);
   (5024, 5109); (5112, 5117); (5121, 5740); (5743, 5759); (5761, 5786);
   (5792, 5866); (5870, 5880); (5888, 5905); (5919, 5937); (5952, 5969);
   (5984, 5996); (5998, 6000); (6016, 6067); (6103, 6103); (6108, 6108);
   (6112, 6121); (6128, 6137); (6160, 6169); (6176, 6264); (6272, 6276);
   (6279, 6312); (6314, 6314); (6320, 6389); (6400, 6430); (6470, 6509);
   (6512, 6516); (6528, 6571); (6576, 6601); (6608, 6618); (6656, 6678);
   (6688, 6740); (6784, 6793); (6800, 6809); (6823, 6823); (6917, 6963);
   (6981, 6988); (6992, 7001); (7043, 7072); (7086, 7141); (7168, 7203);
   (7232, 7241); (7245, 7293); (7296, 7304); (7312, 7354); (7357, 7359);
   (7401, 7404); (7406, 7411); (7413, 7414); (7418, 7418); (7424, 7615);
   (7680, 7957); (7960, 7965); (7968, 8005); (8008, 8013); (8016, 8023);
   (8025, 8025); (8027, 8027); (8029, 8029); (8031, 8061); (8064, 8116);
   (8118, 8124); (8126, 8126); (8130, 8132); (8134, 8140); (8144, 8147);
   (8150, 8155); (8160, 8172); (8178, 8180); (8182, 8188); (8304, 8305);
   (8308, 8313); (8319, 8329); (8336, 8348); (8450, 8450); (8455, 8455);
   (8458, 8467); (8469, 8469); (8473, 8477); (8484, 8484); (8486, 8486);
   (8488, 8488); (8490, 8493); (8495, 8505); (8508, 8511); (8517, 8521);
   (8526, 8526); (8528, 8585); (9312, 9371); (9450, 9471); (10102, 10131);
   (11264, 11492); (11499, 11502); (11506, 11507); (11517, 11517);
   (11520, 11557); (11559, 11559); (11565, 11565); (11568, 11623);
   (11631, 11631); (11648, 11670); (11680, 11686); (11688, 11694);
   (11696, 11702); (11704, 11710); (11712, 11718); (11720, 11726);
   (11728, 11734); (11736, 11742); (11823, 11823); (12293, 12295);
   (12321, 12329); (12337, 12341); (12344, 12348); (12353, 12438);
   (12445, 12447); (12449, 12538); (12540, 12543); (12549, 12591);
   (12593, 12686); (12690, 12693); (12704, 12735); (12784, 12799);
   (12832, 12841); (12872, 12879); (12881, 12895); (12928, 12937);
   (12977, 12991); (13312, 19903); (19968, 42124); (42192, 42237);
   (42240, 42508); (42512, 42539); (42560, 42606); (42623, 42653);
   (42656, 42735); (42775, 42783); (42786, 42888); (42891, 42954);
   (42960, 42961); (42963, 42963); (42965, 42969); (42994, 43009);
   (43011, 43013); (43015, 43018); (43020, 43042); (43056, 43061);
   (43072, 43123); (43138, 43187); (43216, 43225); (43250, 43255);
   (43259, 43259); (43261, 43262); (43264, 43301); (43312, 43334);
   (43360, 43388); (43396, 43442); (43471, 43481); (43488, 43492);
   (43494, 43518); (43520, 43560); (43584, 43586); (43588, 43595);
   (43600, 43609); (43616, 43638); (43642, 43642); (43646, 43695);
   (43697, 43697); (43701, 43702); (43705, 43709); (43712, 43712);
   (43714, 43714); (43739, 43741); (43744, 43754); (43762, 43764);
   (43777, 43782); (43785, 43790); (43793, 43798); (43808, 43814);
   (43816, 43822); (43824, 43866); (43868, 43881); (43888, 44002);
   (44016, 44025); (44032, 55203); (55216, 55238); (55243, 55291);
   (63744, 64109); (64112, 64217); (64256, 64262); (64275, 64279);
   (64285, 64285); (64287, 64296); (64298, 64310); (64312, 64316);
   (64318, 64318); (64320, 64321); (64323, 64324); (64326, 64433);
   (64467, 64829); (64848, 64911); (64914, 64967); (65008, 65019);
   (65136, 65140); (65142, 65276); (65296, 65305); (65313, 65338);
   (65345, 65370); (65382, 65470); (65474, 65479); (65482, 65487);
   (65490, 65495); (65498, 65500); (65536, 65547); (65549, 65574);
   (65576, 65594); (65596, 65597); (65599, 65613); (65616, 65629);
   (65664, 65786); (65799, 65843); (65856, 65912); (65930, 65931);
   (66176, 66204); (66208, 66256); (66273, 66299); (66304, 66339);
   (66349, 66378); (66384, 66421); (66432, 66461); (66464, 66499);
   (66504, 66511); (66513, 66517); (66560, 66717); (66720, 66729);
   (66736, 66771); (66776, 66811); (66816, 66855); (66864, 66915);
   (66928, 66938); (66940, 66954); (66956, 66962); (66964, 66965);
   (66967, 66977); (66979, 66993); (66995, 67001); (67003, 67004);
   (67072, 67382); (67392, 67413); (67424, 67431); (67456, 67461);
   (67463, 67504); (67506, 67514); (67584, 67589); (67592, 67592);
   (67594, 67637); (67639, 67640); (67644, 67644); (67647, 67669);
   (67672, 67702); (67705, 67742); (67751, 67759); (67808, 67826);
   (67828, 67829); (67835, 67867); (67872, 67897); (67968, 68023);
   (68028, 68047); (68050, 68096); (68112, 68115); (68117, 68119);
   (68121, 68149); (68160, 68168); (68192, 68222); (68224, 68255);
   (68288, 68295); (68297, 68324); (68331, 68335); (68352, 68405);
   (68416, 68437); (68440, 68466); (68472, 68497); (68521, 68527);
   (68608, 68680); (68736, 68786); (68800, 68850); (68858, 68899);
   (68912, 68921); (69216, 69246); (69248, 69289); (69296, 69297);
   (69376, 69415); (69424, 69445); (69457, 69460); (69488, 69505);
   (69552, 69579); (69600, 69622); (69635, 69687); (69714, 69743);
   (69745, 69746); (69749, 69749); (69763, 69807); (69840, 69864);
   (69872, 69881); (69891, 69926); (69942, 69951); (69956, 69956);
   (69959, 69959); (69968, 70002); (70006, 70006); (70019, 70066);
   (70081, 70084); (70096, 70106); (70108, 70108); (70113, 70132);
   (70144, 70161); (70163, 70187); (70272, 70278); (70280, 70280);
   (70282, 70285); (70287, 70301); (70303, 70312); (70320, 70366);
   (70384, 70393); (70405, 70412); (70415, 70416); (70419, 70440);
   (70442, 70448); (70450, 70451); (70453, 70457); (70461, 70461);
   (70480, 70480); (70493, 70497); (70656, 70708); (70727, 70730);
   (70736, 70745); (70751, 70753); (70784, 70831); (70852, 70853);
   (70855, 70855); (70864, 70873); (71040, 71086); (71128, 71131);
   (71168, 71215); (71236, 71236); (71248, 71257); (71296, 71338);
   (71352, 71352); (71360, 71369); (71424, 71450); (71472, 71483);
   (71488, 71494); (71680, 71723); (71840, 71922); (71935, 71942);
   (71945, 71945); (71948, 71955); (71957, 71958); (71960, 71983);
   (71999, 71999); (72001, 72001); (72016, 72025); (72096, 72103);
   (72106, 72144); (72161, 72161); (72163, 72163); (72192, 72192);
   (72203, 72242); (72250, 72250); (72272, 72272); (72284, 72329);
   (72349, 72349); (72368, 72440); (72704, 72712); (72714, 72750);
   (72768, 72768); (72784, 72812); (72818, 72847); (72960, 72966);
   (72968, 72969); (72971, 73008); (73030, 73030); (73040, 73049);
   (73056, 73061); (73063, 73064); (73066, 73097); (73112, 73112);
   (73120, 73129); (73440, 73458); (73648, 73648); (73664, 73684);
   (73728, 74649); (74752, 74862); (74880, 75075); (77712, 77808);
   (77824, 78894); (82944, 83526); (92160, 92728); (92736, 92766);
   (92768, 92777); (92784, 92862); (92864, 92873); (92880, 92909);
   (92928, 92975); (92992, 92995); (93008, 93017); (93019, 93025);
   (93027, 93047); (93053, 93071); (93760, 93846); (93952, 94026);
   (94032, 94032); (94099, 94111); (94176, 94177); (94179, 94179);
   (94208, 100343); (100352, 101589); (101632, 101640); (110576, 110579);
   (110581, 110587); (110589, 110590); (110592, 110882); (110928, 110930);
   (110948, 110951); (110960, 111355); (113664, 113770); (113776, 113788);
   (113792, 113800); (113808, 113817); (119520, 119539); (119648, 119672);
   (119808, 119892); (119894, 119964); (119966, 119967); (119970, 119970);
   (119973, 119974); (119977, 119980); (119982, 119993); (119995, 119995);
   (119997, 120003); (120005, 120069); (120071, 120074); (120077, 120084);
   (120086, 120092); (120094, 120121); (120123, 120126); (120128, 120132);
   (120134, 120134); (120138, 120144); (120146, 120485); (120488, 120512);
   (120514, 120538); (120540, 120570); (120572, 120596); (120598, 120628);
   (120630, 120654); (120656, 120686); (120688, 120712); (120714, 120744);
   (120746, 120770); (120772, 120779); (120782, 120831); (122624, 122654);
   (123136, 123180); (123191, 123197); (123200, 123209); (123214, 123214);
   (123536, 123565); (123584, 123627); (123632, 123641); (124896, 124902);
   (124904, 124907); (124909, 124910); (124912, 124926); (124928, 125124);
   (125127, 125135); (125184, 125251); (125259, 125259); (125264, 125273);
   (126065, 126123); (126125, 126127); (126129, 126132); (126209, 126253);
   (126255, 126269); (126464, 126467); (126469, 126495); (126497, 126498);
   (126500, 126500); (126503, 126503); (126505, 126514); (126516, 126519);
   (126521, 126521); (126523, 126523); (126530, 126530); (126535, 126535);
   (126537, 126537); (126539, 126539); (126541, 126543); (126545, 126546);
   (126548, 126548); (126551, 126551); (126553, 126553); (126555, 126555);
   (126557, 126557); (126559, 126559); (126561, 126562); (126564, 126564);
   (126567, 126570); (126572, 126578); (126580, 126583); (126585, 126588);
   (126590, 126590); (126592, 126601); (126603, 126619); (126625, 126627);
   (126629, 126633); (126635, 126651); (127232, 127244); (130032, 130041);
   (131072, 173791); (173824, 177976); (177984, 178205); (178208, 183969);
   (183984, 191456); (194560, 195101); (196608, 201546)]%N.

(** The simple lower-case mapping: [(first, last, step, image of first)];
    within a run the code points [first], [first + step], ... are mapped to
    consecutive positions of the same distance. *)
Definition lower_runs : list (N * N * N * N) :=
  [(65, 90, 1, 97); (192, 214, 1, 224); (216, 222, 1, 248);
   (256, 302, 2, 257); (304, 304, 1, 105); (306, 310, 2, 307);
   (313, 327, 2, 314); (330, 374, 2, 331); (376, 376, 1, 255);
   (377, 381, 2, 378); (385, 385, 1, 595); (386, 388, 2, 387);
   (390, 390, 1, 596); (391, 391, 1, 392); (393, 394, 1, 598);
   (395, 395, 1, 396); (398, 398, 1, 477); (399, 399, 1, 601);
   (400, 400, 1, 603); (401, 401, 1, 402); (403, 403, 1, 608);
   (404, 404, 1, 611); (406, 406, 1, 617); (407, 407, 1, 616);
   (408, 408, 1, 409); (412, 412, 1, 623); (413, 413, 1, 626);
   (415, 415, 1, 629); (416, 420, 2, 417); (422, 422, 1, 640);
   (423, 423, 1, 424); (425, 425, 1, 643); (428, 428, 1, 429);
   (430, 430, 1, 648); (431, 431, 1, 432); (433, 434, 1, 650);
   (435, 437, 2, 436); (439, 439, 1, 658); (440, 440, 1, 441);
   (444, 444, 1, 445); (452, 452, 1, 454); (453, 453, 1, 454);
   (455, 455, 1, 457); (456, 456, 1, 457); (458, 458, 1, 460);
   (459, 475, 2, 460); (478, 494, 2, 479); (497, 497, 1, 499);
   (498, 500, 2, 499); (502, 502, 1, 405); (503, 503, 1, 447);
   (504, 542, 2, 505); (544, 544, 1, 414); (546, 562, 2, 547);
   (570, 570, 1, 11365); (571, 571, 1, 572); (573, 573, 1, 410);
   (574, 574, 1, 11366); (577, 577, 1, 578); (579, 579, 1, 384);
   (580, 580, 1, 649); (581, 581, 1, 652); (582, 590, 2, 583);
   (880, 882, 2, 881); (886, 886, 1, 887); (895, 895, 1, 1011);
   (902, 902, 1, 940); (904, 906, 1, 941); (908, 908, 1, 972);
   (910, 911, 1, 973); (913, 929, 1, 945); (931, 939, 1, 963);
   (975, 975, 1, 983); (984, 1006, 2, 985); (1012, 1012, 1, 952);
   (1015, 1015, 1, 1016); (1017, 1017, 1, 1010); (1018, 1018, 1, 1019);
   (1021, 1023, 1, 891); (1024, 1039, 1, 1104); (1040, 1071, 1, 1072);
   (1120, 1152, 2, 1121); (1162, 1214, 2, 1163); (1216, 1216, 1, 1231);
   (1217, 1229, 2, 1218); (1232, 1326, 2, 1233); (1329, 1366, 1, 1377);
   (4256, 4293, 1, 11520); (4295, 4295, 1, 11559); (4301, 4301, 1, 11565);
   (5024, 5103, 1, 43888); (5104, 5109, 1, 5112); (7312, 7354, 1, 4304);
   (7357, 7359, 1, 4349); (7680, 7828, 2, 7681); (7838, 7838, 1, 223);
   (7840, 7934, 2, 7841); (7944, 7951, 1, 7936); (7960, 7965, 1, 7952);
   (7976, 7983, 1, 7968); (7992, 7999, 1, 7984); (8008, 8013, 1, 8000);
   (8025, 8031, 2, 8017); (8040, 8047, 1, 8032); (8072, 8079, 1, 8064);
   (8088, 8095, 1, 8080); (8104, 8111, 1, 8096); (8120, 8121, 1, 8112);
   (8122, 8123, 1, 8048); (8124, 8124, 1, 8115); (8136, 8139, 1, 8050);
   (8140, 8140, 1, 8131); (8152, 8153, 1, 8144); (8154, 8155, 1, 8054);
   (8168, 8169, 1, 8160); (8170, 8171, 1, 8058); (8172, 8172, 1, 8165);
   (8184, 8185, 1, 8056); (8186, 8187, 1, 8060); (8188, 8188, 1, 8179);
   (8486, 8486, 1, 969); (8490, 8490, 1, 107); (8491, 8491, 1, 229);
   (8498, 8498, 1, 8526); (8544, 8559, 1, 8560); (8579, 8579, 1, 8580);
   (9398, 9423, 1, 9424); (11264, 11311, 1, 11312); (11360, 11360, 1, 11361);
   (11362, 11362, 1, 619); (11363, 11363, 1, 7549); (11364, 11364, 1, 637);
   (11367, 11371, 2, 11368); (11373, 11373, 1, 593); (11374, 11374, 1, 625);
   (11375, 11375, 1, 592); (11376, 11376, 1, 594); (11378, 11378, 1, 11379);
   (11381, 11381, 1, 11382); (11390, 11391, 1, 575);
   (11392, 11490, 2, 11393); (11499, 11501, 2, 11500);
   (11506, 11506, 1, 11507); (42560, 42604, 2, 42561);
   (42624, 42650, 2, 42625); (42786, 42798, 2, 42787);
   (42802, 42862, 2, 42803); (42873, 42875, 2, 42874);
   (42877, 42877, 1, 7545); (42878, 42886, 2, 42879);
   (42891, 42891, 1, 42892); (42893, 42893, 1, 613);
   (42896, 42898, 2, 42897); (42902, 42920, 2, 42903);
   (42922, 42922, 1, 614); (42923, 42923, 1, 604); (42924, 42924, 1, 609);
   (42925, 42925, 1, 620); (42926, 42926, 1, 618); (42928, 42928, 1, 670);
   (42929, 42929, 1, 647); (42930, 42930, 1, 669); (42931, 42931, 1, 43859);
   (42932, 42946, 2, 42933); (42948, 42948, 1, 42900);
   (42949, 42949, 1, 642); (42950, 42950, 1, 7566); (42951, 42953, 2, 42952);
   (42960, 42960, 1, 42961); (42966, 42968, 2, 42967);
   (42997, 42997, 1, 42998); (65313, 65338, 1, 65345);
   (66560, 66599, 1, 66600); (66736, 66771, 1, 66776);
   (66928, 66938, 1, 66967); (66940, 66954, 1, 66979);
   (66956, 66962, 1, 66995); (66964, 66965, 1, 67003);
   (68736, 68786, 1, 68800); (71840, 71871, 1, 71872);
   (93760, 93791, 1, 93792); (125184, 125217, 1, 125218)]%N.

(** Cased code points that are not case-ignorable. *)
Definition cased_ranges : list (N * N) :=
  [(65, 90); (97, 122); (170, 170); (181, 181); (186, 186); (192, 214);
   (216, 246); (248, 442); (444, 447); (452, 659); (661, 687); (880, 883);
   (886, 887); (891, 893); (895, 895); (902, 902); (904, 906); (908, 908);
   (910, 929); (931, 1013); (1015, 1153); (1162, 1327); (1329, 1366);
   (1376, 1416); (4256, 4293); (4295, 4295); (4301, 4301); (4304, 4346);
   (4349, 4351); (5024, 5109); (5112, 5117); (7296, 7304); (7312, 7354);
   (7357, 7359); (7424, 7467); (7531, 7543); (7545, 7578); (7680, 7957);
   (7960, 7965); (7968, 8005); (8008, 8013); (8016, 8023); (8025, 8025);
   (8027, 8027); (8029, 8029); (8031, 8061); (8064, 8116); (8118, 8124);
   (8126, 8126); (8130, 8132); (8134, 8140); (8144, 8147); (8150, 8155);
   (8160, 8172); (8178, 8180); (8182, 8188); (8450, 8450); (8455, 8455);
   (8458, 8467); (8469, 8469); (8473, 8477); (8484, 8484); (8486, 8486);
   (8488, 8488); (8490, 8493); (8495, 8500); (8505, 8505); (8508, 8511);
   (8517, 8521); (8526, 8526); (8544, 8575); (8579, 8580); (9398, 9449);
   (11264, 11387); (11390, 11492); (11499, 11502); (11506, 11507);
   (11520, 11557); (11559, 11559); (11565, 11565); (42560, 42605);
   (42624, 42651); (42786, 42863); (42865, 42887); (42891, 42894);
   (42896, 42954); (42960, 42961); (42963, 42963); (42965, 42969);
   (42997, 42998); (43002, 43002); (43824, 43866); (43872, 43880);
   (43888, 43967); (64256, 64262); (64275, 64279); (65313, 65338);
   (65345, 65370); (66560, 66639); (66736, 66771); (66776, 66811);
   (66928, 66938); (66940, 66954); (66956, 66962); (66964, 66965);
   (66967, 66977); (66979, 66993); (66995, 67001); (67003, 67004);
   (68736, 68786); (68800, 68850); (71840, 71903); (93760, 93823);
   (119808, 119892); (119894, 119964); (119966, 119967); (119970, 119970);
   (119973, 119974); (119977, 119980); (119982, 119993); (119995, 119995);
   (119997, 120003); (120005, 120069); (120071, 120074); (120077, 120084);
   (120086, 120092); (120094, 120121); (120123, 120126); (120128, 120132);
   (120134, 120134); (120138, 120144); (120146, 120485); (120488, 120512);
   (120514, 120538); (120540, 120570); (120572, 120596); (120598, 120628);
   (120630, 120654); (120656, 120686); (120688, 120712); (120714, 120744);
   (120746, 120770); (120772, 120779); (122624, 122633); (122635, 122654);
   (125184, 125251); (127280, 127305); (127312, 127337); (127344, 127369)]%N.

(** Case-ignorable code points. *)
Definition case_ignorable_ranges : list (N * N) :=
  [(39, 39); (46, 46); (58, 58); (94, 94); (96, 96); (168, 168); (173, 173);
   (175, 175); (180, 180); (183, 184); (688, 879); (884, 885); (890, 890);
   (900, 901); (903, 903); (1155, 1161); (1369, 1369); (1375, 1375);
   (1425, 1469); (1471, 1471); (1473, 1474); (1476, 1477); (1479, 1479);
   (1524, 1524); (1536, 1541); (1552, 1562); (1564, 1564); (1600, 1600);
   (1611, 1631); (1648, 1648); (1750, 1757); (1759, 1768); (1770, 1773);
   (1807, 1807); (1809, 1809); (1840, 1866); (1958, 1968); (2027, 2037);
   (2042, 2042); (2045, 2045); (2070, 2093); (2137, 2139); (2184, 2184);
   (2192, 2193); (2200, 2207); (2249, 2306); (2362, 2362); (2364, 2364);
   (2369, 2376); (2381, 2381); (2385, 2391); (2402, 2403); (2417, 2417);
   (2433, 2433); (2492, 2492); (2497, 2500); (2509, 2509); (2530, 2531);
   (2558, 2558); (2561, 2562); (2620, 2620); (2625, 2626); (2631, 2632);
   (2635, 2637); (2641, 2641); (2672, 2673); (2677, 2677); (2689, 2690);
   (2748, 2748); (2753, 2757); (2759, 2760); (2765, 2765); (2786, 2787);
   (2810, 2815); (2817, 2817); (2876, 2876); (2879, 2879); (2881, 2884);
   (2893, 2893); (2901, 2902); (2914, 2915); (2946, 2946); (3008, 3008);
   (3021, 3021); (3072, 3072); (3076, 3076); (3132, 3132); (3134, 3136);
   (3142, 3144); (3146, 3149); (3157, 3158); (3170, 3171); (3201, 3201);
   (3260, 3260); (3263, 3263); (3270, 3270); (3276, 3277); (3298, 3299);
   (3328, 3329); (3387, 3388); (3393, 3396); (3405, 3405); (3426, 3427);
   (3457, 3457); (3530, 3530); (3538, 3540); (3542, 3542); (3633, 3633);
   (3636, 3642); (3654, 3662); (3761, 3761); (3764, 3772); (3782, 3782);
   (3784, 3789); (3864, 3865); (3893, 3893); (3895, 3895); (3897, 3897);
   (3953, 3966); (3968, 3972); (3974, 3975); (3981, 3991); (3993, 4028);
   (4038, 4038); (4141, 4144); (4146, 4151); (4153, 4154); (4157, 4158);
   (4184, 4185); (4190, 4192); (4209, 4212); (4226, 4226); (4229, 4230);
   (4237, 4237); (4253, 4253); (4348, 4348); (4957, 4959); (5906, 5908);
   (5938, 5939); (5970, 5971); (6002, 6003); (6068, 6069); (6071, 6077);
   (6086, 6086); (6089, 6099); (6103, 6103); (6109, 6109); (6155, 6159);
   (6211, 6211); (6277, 6278); (6313, 6313); (6432, 6434); (6439, 6440);
   (6450, 6450); (6457, 6459); (6679, 6680); (6683, 6683); (6742, 6742);
   (6744, 6750); (6752, 6752); (6754, 6754); (6757, 6764); (6771, 6780);
   (6783, 6783); (6823, 6823); (6832, 6862); (6912, 6915); (6964, 6964);
   (6966, 6970); (6972, 6972); (6978, 6978); (7019, 7027); (7040, 7041);
   (7074, 7077); (7080, 7081); (7083, 7085); (7142, 7142); (7144, 7145);
   (7149, 7149); (7151, 7153); (7212, 7219); (7222, 7223); (7288, 7293);
   (7376, 7378); (7380, 7392); (7394, 7400); (7405, 7405); (7412, 7412);
   (7416, 7417); (7468, 7530); (7544, 7544); (7579, 7679); (8125, 8125);
   (8127, 8129); (8141, 8143); (8157, 8159); (8173, 8175); (8189, 8190);
   (8203, 8207); (8216, 8217); (8228, 8228); (8231, 8231); (8234, 8238);
   (8288, 8292); (8294, 8303); (8305, 8305); (8319, 8319); (8336, 8348);
   (8400, 8432); (11388, 11389); (11503, 11505); (11631, 11631);
   (11647, 11647); (11744, 11775); (11823, 11823); (12293, 12293);
   (12330, 12333); (12337, 12341); (12347, 12347); (12441, 12446);
   (12540, 12542); (40981, 40981); (42232, 42237); (42508, 42508);
   (42607, 42610); (42612, 42621); (42623, 42623); (42652, 42655);
   (42736, 42737); (42752, 42785); (42864, 42864); (42888, 42890);
   (42994, 42996); (43000, 43001); (43010, 43010); (43014, 43014);
   (43019, 43019); (43045, 43046); (43052, 43052); (43204, 43205);
   (43232, 43249); (43263, 43263); (43302, 43309); (43335, 43345);
   (43392, 43394); (43443, 43443); (43446, 43449); (43452, 43453);
   (43471, 43471); (43493, 43494); (43561, 43566); (43569, 43570);
   (43573, 43574); (43587, 43587); (43596, 43596); (43632, 43632);
   (43644, 43644); (43696, 43696); (43698, 43700); (43703, 43704);
   (43710, 43711); (43713, 43713); (43741, 43741); (43756, 43757);
   (43763, 43764); (43766, 43766); (43867, 43871); (43881, 43883);
   (44005, 44005); (44008, 44008); (44013, 44013); (64286, 64286);
   (64434, 64450); (65024, 65039); (65043, 65043); (65056, 65071);
   (65106, 65106); (65109, 65109); (65279, 65279); (65287, 65287);
   (65294, 65294); (65306, 65306); (65342, 65342); (65344, 65344);
   (65392, 65392); (65438, 65439); (65507, 65507); (65529, 65531);
   (66045, 66045); (66272, 66272); (66422, 66426); (67456, 67461);
   (67463, 67504); (67506, 67514); (68097, 68099); (68101, 68102);
   (68108, 68111); (68152, 68154); (68159, 68159); (68325, 68326);
   (68900, 68903); (69291, 69292); (69446, 69456); (69506, 69509);
   (69633, 69633); (69688, 69702); (69744, 69744); (69747, 69748);
   (69759, 69761); (69811, 69814); (69817, 69818); (69821, 69821);
   (69826, 69826); (69837, 69837); (69888, 69890); (69927, 69931);
   (69933, 69940); (70003, 70003); (70016, 70017); (70070, 70078);
   (70089, 70092); (70095, 70095); (70191, 70193); (70196, 70196);
   (70198, 70199); (70206, 70206); (70367, 70367); (70371, 70378);
   (70400, 70401); (70459, 70460); (70464, 70464); (70502, 70508);
   (70512, 70516); (70712, 70719); (70722, 70724); (70726, 70726);
   (70750, 70750); (70835, 70840); (70842, 70842); (70847, 70848);
   (70850, 70851); (71090, 71093); (71100, 71101); (71103, 71104);
   (71132, 71133); (71219, 71226); (71229, 71229); (71231, 71232);
   (71339, 71339); (71341, 71341); (71344, 71349); (71351, 71351);
   (71453, 71455); (71458, 71461); (71463, 71467); (71727, 71735);
   (71737, 71738); (71995, 71996); (71998, 71998); (72003, 72003);
   (72148, 72151); (72154, 72155); (72160, 72160); (72193, 72202);
   (72243, 72248); (72251, 72254); (72263, 72263); (72273, 72278);
   (72281, 72283); (72330, 72342); (72344, 72345); (72752, 72758);
   (72760, 72765); (72767, 72767); (72850, 72871); (72874, 72880);
   (72882, 72883); (72885, 72886); (73009, 73014); (73018, 73018);
   (73020, 73021); (73023, 73029); (73031, 73031); (73104, 73105);
   (73109, 73109); (73111, 73111); (73459, 73460); (78896, 78904);
   (92912, 92916); (92976, 92982); (92992, 92995); (94031, 94031);
   (94095, 94111); (94176, 94177); (94179, 94180); (110576, 110579);
   (110581, 110587); (110589, 110590); (113821, 113822); (113824, 113827);
   (118528, 118573); (118576, 118598); (119143, 119145); (119155, 119170);
   (119173, 119179); (119210, 119213); (119362, 119364); (121344, 121398);
   (121403, 121452); (121461, 121461); (121476, 121476); (121499, 121503);
   (121505, 121519); (122880, 122886); (122888, 122904); (122907, 122913);
   (122915, 122916); (122918, 122922); (123184, 123197); (123566, 123566);
   (123628, 123631); (125136, 125142); (125252, 125259); (127995, 127999);
   (917505, 917505); (917536, 917631); (917760, 917999)]%N.

(** The code points that have another case for [re.I]: they differ from
    their simple lower-case or upper-case image. *)
Definition sre_cased_ranges : list (N * N) :=
  [(65, 90); (97, 122); (181, 181); (192, 214); (216, 246); (248, 311);
   (313, 396); (398, 410); (412, 425); (428, 441); (444, 445); (447, 447);
   (452, 544); (546, 563); (570, 596); (598, 599); (601, 601); (603, 604);
   (608, 609); (611, 611); (613, 614); (616, 620); (623, 623); (625, 626);
   (629, 629); (637, 637); (640, 640); (642, 643); (647, 652); (658, 658);
   (669, 670); (837, 837); (880, 883); (886, 887); (891, 893); (895, 895);
   (902, 902); (904, 906); (908, 908); (910, 929); (931, 977); (981, 1013);
   (1015, 1019); (1021, 1153); (1162, 1327); (1329, 1366); (1377, 1415);
   (4256, 4293); (4295, 4295); (4301, 4301); (4304, 4346); (4349, 4351);
   (5024, 5109); (5112, 5117); (7296, 7304); (7312, 7354); (7357, 7359);
   (7545, 7545); (7549, 7549); (7566, 7566); (7680, 7835); (7838, 7838);
   (7840, 7957); (7960, 7965); (7968, 8005); (8008, 8013); (8016, 8023);
   (8025, 8025); (8027, 8027); (8029, 8029); (8031, 8061); (8064, 8116);
   (8118, 8124); (8126, 8126); (8130, 8132); (8134, 8140); (8144, 8147);
   (8150, 8155); (8160, 8172); (8178, 8180); (8182, 8188); (8486, 8486);
   (8490, 8491); (8498, 8498); (8526, 8526); (8544, 8575); (8579, 8580);
   (9398, 9449); (11264, 11376); (11378, 11379); (11381, 11382);
   (11390, 11491); (11499, 11502); (11506, 11507); (11520, 11557);
   (11559, 11559); (11565, 11565); (42560, 42605); (42624, 42651);
   (42786, 42799); (42802, 42863); (42873, 42887); (42891, 42893);
   (42896, 42900); (42902, 42926); (42928, 42954); (42960, 42961);
   (42966, 42969); (42997, 42998); (43859, 43859); (43888, 43967);
   (64256, 64262); (64275, 64279); (65313, 65338); (65345, 65370);
   (66560, 66639); (66736, 66771); (66776, 66811); (66928, 66938);
   (66940, 66954); (66956, 66962); (66964, 66965); (66967, 66977);
   (66979, 66993); (66995, 67001); (67003, 67004); (68736, 68786);
   (68800, 68850); (71840, 71903); (93760, 93823); (125184, 125251)]%N.

(** Lower-case code points that share their upper case with others
    ([re._casefix._EXTRA_CASES]). *)
Definition extra_cases : list (N * list N) :=
  [(105, [305]); (115, [383]); (181, [956]); (305, [105]); (383, [115]);
   (837, [953; 8126]); (912, [8147]); (944, [8163]); (946, [976]);
   (949, [1013]); (952, [977]); (953, [837; 8126]); (954, [1008]);
   (956, [181]); (960, [982]); (961, [1009]); (962, [963]); (963, [962]);
   (966, [981]); (976, [946]); (977, [952]); (981, [966]); (982, [960]);
   (1008, [954]); (1009, [961]); (1013, [949]); (1074, [7296]);
   (1076, [7297]); (1086, [7298]); (1089, [7299]); (1090, [7300; 7301]);
   (1098, [7302]); (1123, [7303]); (7296, [1074]); (7297, [1076]);
   (7298, [1086]); (7299, [1089]); (7300, [1090; 7301]);
   (7301, [1090; 7300]); (7302, [1098]); (7303, [1123]); (7304, [42571]);
   (7777, [7835]); (7835, [7777]); (8126, [837; 953]); (8147, [912]);
   (8163, [944]); (42571, [7304]); (64261, [64262]); (64262, [64261])]%N.

(** [str.isspace] for one code point, which is also [\s]. *)
Definition is_space (c : N) : bool :=
  in_range 9 13 c || in_range 28 32 c || (c =? 133)%N || (c =? 160)%N
  || (c =? 5760)%N || in_range 8192 8202 c || (c =? 8232)%N
  || (c =? 8233)%N || (c =? 8239)%N || (c =? 8287)%N || (c =? 12288)%N.

(** [str.isdecimal] for one code point, which is also [\d]. *)
Definition is_decimal (c : N) : bool := in_ranges decimal_ranges c.

(** The value of a decimal digit. *)
Definition decimal_value (c : N) : option N :=
  match List.find (fun r => in_range (fst r) (snd r) c) decimal_ranges with
  | Some r => Some ((c - fst r) mod 10)%N
  | None => None
  end.

(** [str.isdigit] for one code point. *)
Definition is_digit (c : N) : bool :=
  is_decimal c || in_ranges other_digit_ranges c.

Definition is_ascii_upper (c : N) : bool := in_range 65 90 c.
Definition is_ascii_lower (c : N) : bool := in_range 97 122 c.
Definition is_ascii_letter (c : N) : bool :=
  is_ascii_upper c || is_ascii_lower c.

(** CJK Unified Ideographs, the class [一-鿿] of the tokenizer. *)
Definition is_cjk (c : N) : bool := in_range 19968 40959 c.

(** [\w], which decides where [\b] matches. *)
Definition is_word (c : N) : bool := in_ranges word_ranges c.

(** The simple lower-case image of a code point. *)
Definition lower_char (c : N) : N :=
  match
    List.find
      (fun r =>
         let '(a, b, step, _) := r in
         in_range a b c && ((c - a) mod step =? 0)%N)
      lower_runs
  with
  | Some (a, _, _, image) => (image + (c - a))%N
  | None => c
  end.

Definition is_cased (c : N) : bool := in_ranges cased_ranges c.
Definition is_case_ignorable (c : N) : bool :=
  in_ranges case_ignorable_ranges c.

(** The next code point that is not case-ignorable exists and is cased. *)
Fixpoint cased_follows (s : pystr) : bool :=
  match s with
  | [] => false
  | c :: s' => if is_case_ignorable c then cased_follows s' else is_cased c
  end.

(** [str.lower].  Every code point has its simple lower-case image, but
    for two: [İ] becomes [i] followed by a combining dot, and [Σ] becomes
    the final [ς] when a cased letter precedes it and none follows
    (case-ignorable code points in between do not count), and [σ]
    otherwise.  [after_cased] tells whether a cased letter precedes. *)
Fixpoint lower_from (after_cased : bool) (s : pystr) : pystr :=
  match s with
  | [] => []
  | c :: s' =>
      let rest :=
        lower_from (if is_case_ignorable c then after_cased else is_cased c)
          s' in
      if (c =? 931)%N then
        (if after_cased && negb (cased_follows s') then 962%N else 963%N)
          :: rest
      else if (c =? 304)%N then 105%N :: 775%N :: rest
      else lower_char c :: rest
  end.

Definition lower (s : pystr) : pystr := lower_from false s.

Fixpoint lstrip (s : pystr) : pystr :=
  match s with
  | c :: s' => if is_space c then lstrip s' else s
  | [] => []
  end.

Definition rstrip (s : pystr) : pystr := rev (lstrip (rev s)).

(** [s.strip()] *)
Definition strip (s : pystr) : pystr := rstrip (lstrip s).

Fixpoint str_eqb (a b : pystr) : bool :=
  match a, b with
  | [], [] => true
  | c :: a', d :: b' => (c =? d)%N && str_eqb a' b'
  | _, _ => false
  end.

Fixpoint starts_with (p s : pystr) : bool :=
  match p, s with
  | [], _ => true
  | c :: p', d :: s' => (c =? d)%N && starts_with p' s'
  | _ :: _, [] => false
  end.

(** [needle in hay] *)
Fixpoint str_in (needle hay : pystr) : bool :=
  starts_with needle hay
  || match hay with
     | [] => false
     | _ :: hay' => str_in needle hay'
     end.

(** [a <= b] on strings: lexicographic on code points. *)
Fixpoint str_leb (a b : pystr) : bool :=
  match a, b with
  | [], _ => true
  | _ :: _, [] => false
  | c :: a', d :: b' =>
      if (c <? d)%N then true
      else if (d <? c)%N then false
      else str_leb a' b'
  end.

(** Truth value of a string. *)
Definition truthy (s : pystr) : bool :=
  match s with [] => false | _ => true end.

(** [x or y] on optional strings: [None] and the empty string are falsy. *)
Definition or_str (x : option pystr) (d : pystr) : pystr :=
  match x with
  | Some s => if truthy s then s else d
  | None => d
  end.

(** [l[start:stop]]: Python's slice, negative indices counted from the
    end and both bounds clamped. *)
Definition slice_index (len i : Z) : Z :=
  if (i <? 0)%Z then Z.max 0 (i + len) else Z.min i len.

Definition py_slice {A} (l : list A) (start stop : Z) : list A :=
  let len := Z.of_nat (length l) in
  let a := slice_index len start in
  let b := slice_index len stop in
  firstn (Z.to_nat (b - a)) (skipn (Z.to_nat a) l).

(** ** [int(s)] for a string

    [int] first replaces every white space beyond ASCII by a blank and
    every decimal digit beyond ASCII by its ASCII digit; another code
    point beyond ASCII makes the string invalid.  Then surrounding ASCII
    white space is ignored, a sign is allowed, and digits may be
    separated by single underscores.  A string of more than
    [int_max_str_digits] digits is refused.  [None] stands for
    [ValueError]. *)
Definition int_char (c : N) : option N :=
  if (c <? 128)%N then Some c
  else if is_space c then Some 32%N
  else option_map (N.add 48) (decimal_value c).

Fixpoint int_chars (s : pystr) : option pystr :=
  match s with
  | [] => Some []
  | c :: s' =>
      match int_char c, int_chars s' with
      | Some a, Some r => Some (a :: r)
      | _, _ => None
      end
  end.

(** White space for the parser of [int]: ASCII 9 to 13 and the blank. *)
Definition is_ascii_space (c : N) : bool := in_range 9 13 c || (c =? 32)%N.
Definition is_ascii_digit (c : N) : bool := in_range 48 57 c.

Fixpoint drop_while (f : N -> bool) (s : pystr) : pystr :=
  match s with
  | c :: s' => if f c then drop_while f s' else s
  | [] => []
  end.

Fixpoint int_digits (acc : Z) (after_us : bool) (s : pystr) : option Z :=
  match s with
  | [] => if after_us then None else Some acc
  | c :: s' =>
      if is_ascii_digit c then
        int_digits (acc * 10 + Z.of_N (c - 48)) false s'
      else if (c =? 95)%N then
        if after_us then None else int_digits acc true s'
      else None
  end.

(** [sys.get_int_max_str_digits()], which the repository leaves at its
    default. *)
Definition int_max_str_digits : nat := 4300.

Definition int_unsigned (s : pystr) : option Z :=
  match s with
  | c :: _ =>
      if is_ascii_digit c
         && (length (List.filter is_ascii_digit s) <=? int_max_str_digits)%nat
      then int_digits 0 false s
      else None
  | [] => None
  end.

Definition int_of_str (s : pystr) : option Z :=
  match int_chars s with
  | None => None
  | Some a =>
      match
        rev (drop_while is_ascii_space
               (rev (drop_while is_ascii_space a)))
      with
      | 45%N :: s' => option_map Z.opp (int_unsigned s')
      | 43%N :: s' => int_unsigned s'
      | s' => int_unsigned s'
      end
  end.

(** [s.isdigit()] *)
Definition isdigit (s : pystr) : bool :=
  truthy s && forallb is_digit s.

(* ================================================================== *)
(** * The metadata store ([retrieval/db.py])                           *)
(* ================================================================== *)

(** A row of table [papers], as [sqlite3] hands it over.  Every column
    is [TEXT] and may be [NULL]. *)
Record row := {
  row_paper_id : pystr;
  row_title    : option pystr;
  row_authors  : option pystr;
  row_year     : option pystr;
  row_journal  : option pystr;
  row_abstract : option pystr;
  row_keywords : option pystr;
  row_field    : option pystr;
  row_source   : option pystr;
  row_pdf_path : option pystr;
}.

(** The value stored under ["year"] in a paper dictionary: [None], an
    [int], or a string that [str.isdigit] rejected. *)
Inductive year_val :=
| YNone
| YInt (z : Z)
| YStr (s : pystr).

(** What [json.loads] returns.  The decoder belongs to the standard
    library; the model takes it as a parameter of type [json_decoder],
    with [None] for [JSONDecodeError]. *)
Unset Elimination Schemes.
Inductive json :=
| JNull
| JBool (b : bool)
| JInt (z : Z)
| JFloat (q : Q)
| JNaN
| JInfinity (negative : bool)
| JStr (s : pystr)
| JList (l : list json)
| JDict (d : list (pystr * json)).
Set Elimination Schemes.

Definition json_decoder := pystr -> option json.

(** The dictionary built for one row by [fetch_papers_by_ids] and
    [search_sqlite]. *)
Record paper := {
  paper_id : pystr;
  title    : pystr;
  authors  : json;
  year     : year_val;
  journal  : pystr;
  abstract : pystr;
  keywords : list pystr;
  field    : pystr;
  source   : pystr;
  pdf_path : pystr;
}.

(** [r[6].split(",")] *)
Fixpoint split_comma_aux (cur : pystr) (s : pystr) : list pystr :=
  match s with
  | [] => [rev cur]
  | c :: s' =>
      if (c =? 44)%N then rev cur :: split_comma_aux [] s'
      else split_comma_aux (c :: cur) s'
  end.

Definition split_comma (s : pystr) : list pystr := split_comma_aux [] s.

(** [json.loads(r[2]) if r[2] else []]; [None] when the decoder raises. *)
Definition authors_of_column (loads : json_decoder) (c : option pystr)
  : option json :=
  match c with
  | Some s => if truthy s then loads s else Some (JList [])
  | None => Some (JList [])
  end.

(** [int(r[3]) if r[3] and str(r[3]).isdigit() else r[3]].  The call of
    [int] is not guarded: [None] is the [ValueError] that it raises on a
    string which [str.isdigit] accepts and [int] does not. *)
Definition year_of_column (c : option pystr) : option year_val :=
  match c with
  | None => Some YNone
  | Some s =>
      if truthy s && isdigit s then option_map YInt (int_of_str s)
      else Some (YStr s)
  end.

(** [(r[6].split(",") if isinstance(r[6], str) else []) if r[6] else []] *)
Definition keywords_of_column (c : option pystr) : list pystr :=
  match c with
  | Some s => if truthy s then split_comma s else []
  | None => []
  end.

(** The dictionary of one row; [None] when building it raises. *)
Definition paper_of_row (loads : json_decoder) (r : row) : option paper :=
  match authors_of_column loads (row_authors r) with
  | None => None
  | Some a =>
      match year_of_column (row_year r) with
      | None => None
      | Some y =>
          Some {| paper_id := row_paper_id r;
                  title    := or_str (row_title r) [];
                  authors  := a;
                  year     := y;
                  journal  := or_str (row_journal r) [];
                  abstract := or_str (row_abstract r) [];
                  keywords := keywords_of_column (row_keywords r);
                  field    := or_str (row_field r) [];
                  source   := or_str (row_source r) [];
                  pdf_path := or_str (row_pdf_path r) [] |}
      end
  end.

(** [fetch_papers_by_ids]: the rows whose key is among [paper_ids], as a
    dictionary keyed by [paper_id] ([out[r[0]] = {...}] for each row);
    [None] when the dictionary of a selected row cannot be built. *)
Definition fetch_row (loads : json_decoder) (paper_ids : list pystr)
  (out : option (gmap pystr paper)) (r : row) : option (gmap pystr paper) :=
  match out with
  | None => None
  | Some d =>
      if existsb (str_eqb (row_paper_id r)) paper_ids
      then
        match paper_of_row loads r with
        | Some p => Some (<[row_paper_id r := p]> d)
        | None => None
        end
      else Some d
  end.

Definition fetch_rows (loads : json_decoder) (table : list row)
  (paper_ids : list pystr) : option (gmap pystr paper) :=
  fold_left (fetch_row loads paper_ids) table (Some ∅).

Definition fetch_papers_by_ids (loads : json_decoder) (table : list row)
  (paper_ids : list pystr) : option (gmap pystr paper) :=
  match paper_ids with
  | [] => Some ∅
  | _ => fetch_rows loads table paper_ids
  end.

(** A row of table [paper_features], after [fetch_features] replaced
    [NULL] by the empty string. *)
Record features := {
  topic_id       : pystr;
  attitude_label : pystr;
  methods_label  : pystr;
}.

Record feature_row := {
  frow_paper_id       : pystr;
  frow_topic_id       : option pystr;
  frow_attitude_label : option pystr;
  frow_methods_label  : option pystr;
}.

Definition features_of_row (r : feature_row) : features :=
  {| topic_id := or_str (frow_topic_id r) [];
     attitude_label := or_str (frow_attitude_label r) [];
     methods_label := or_str (frow_methods_label r) [] |}.

Definition fetch_feature_rows (table : list feature_row)
  (paper_ids : list pystr) : gmap pystr features :=
  fold_left
    (fun out r =>
       if existsb (str_eqb (frow_paper_id r)) paper_ids
       then <[frow_paper_id r := features_of_row r]> out
       else out)
    table ∅.

Definition fetch_features (table : list feature_row) (paper_ids : list pystr)
  : gmap pystr features :=
  match paper_ids with
  | [] => ∅
  | _ => fetch_feature_rows table paper_ids
  end.

(* ================================================================== *)
(** * Sorting as Python does it                                        *)
(* ================================================================== *)

(** [list.sort] and [sorted] are stable.  [prec y x] reads "[y] must come
    strictly before [x]"; an element is inserted behind exactly those. *)
Fixpoint insert_stable {A} (prec : A -> A -> bool) (x : A) (l : list A)
  : list A :=
  match l with
  | [] => [x]
  | y :: l' =>
      if prec y x then y :: insert_stable prec x l' else x :: y :: l'
  end.

Fixpoint stable_sort {A} (prec : A -> A -> bool) (l : list A) : list A :=
  match l with
  | [] => []
  | x :: l' => insert_stable prec x (stable_sort prec l')
  end.

(** [Qlt] as a boolean. *)
Definition Qlt_bool (a b : Q) : bool := negb (Qle_bool b a).

(** [l.sort(key=lambda x: x[1], reverse=True)] *)
Definition sort_by_score_desc {A} (l : list (A * Q)) : list (A * Q) :=
  stable_sort (fun y x => Qlt_bool (snd x) (snd y)) l.

(* ================================================================== *)
(** * Score fusion ([retrieval/search.py])                             *)
(* ================================================================== *)

Definition DEFAULT_W1 : Q := (45 # 100)%Q.
Definition DEFAULT_W2 : Q := (25 # 100)%Q.
Definition DEFAULT_W3 : Q := (1 # 10)%Q.
Definition DEFAULT_W4 : Q := (1 # 10)%Q.
Definition DEFAULT_TITLE_BONUS : Q := (2 # 10)%Q.

(** [_title_match_bonus].  The guard evaluates
    [(topic_terms or raw_query or "").strip()]: when [topic_terms] is a
    non-empty list, the operand of [.strip()] is that list and Python
    raises [AttributeError]; this is the result [None].  The guard is
    only reached for a non-empty title. *)
Definition _title_match_bonus (title : pystr)
  (topic_terms : option (list pystr)) (raw_query : pystr) : option Q :=
  if negb (truthy title) then Some 0%Q
  else
    match topic_terms with
    | Some (_ :: _) => None
    | _ =>
        if negb (truthy (strip raw_query)) then Some 0%Q
        else
          let title_lower := lower (strip title) in
          let q := strip raw_query in
          if truthy q && str_in (lower q) title_lower then Some 1%Q
          else Some 0%Q
    end.

Definition high_journals : list pystr :=
  [u "经济研究"; u "管理世界"; u "journal of finance";
   u "journal of political economy"; u "american economic review"].

(** [_journal_weight] *)
Definition _journal_weight (journal : pystr) : Q :=
  if negb (truthy journal) then 0%Q
  else
    let j := lower (strip journal) in
    if existsb (fun h => str_in h j) high_journals then (9 # 10)%Q
    else if str_in (u "学报") j || str_in (u "journal") j
            || str_in (u "review") j
    then (1 # 2)%Q
    else (2 # 10)%Q.

(** [_user_pref_score] *)
Definition _user_pref_score (text : pystr) (pref_terms : list pystr) : Q :=
  match pref_terms with
  | [] => 0%Q
  | _ =>
      if negb (truthy text) then 0%Q
      else
        let t := lower text in
        let hits :=
          length (List.filter (fun p => str_in (lower p) t) pref_terms) in
        Qmin 1
          (inject_Z (Z.of_nat hits)
           / inject_Z (Z.max 1 (Z.of_nat (length pref_terms)))
           * (1 # 2) + (1 # 2))%Q
  end.


(** ** Candidate collection *)

(** The raw signals of one candidate: each is present only if the
    corresponding backend returned the paper. *)
Record signals := {
  bm25 : option Q;
  vec  : option Q;
}.

Definition no_signals : signals := {| bm25 := None; vec := None |}.
Definition set_bm25 (s : Q) (x : signals) : signals :=
  {| bm25 := Some s; vec := vec x |}.
Definition set_vec (s : Q) (x : signals) : signals :=
  {| bm25 := bm25 x; vec := Some s |}.

(** [id_scores[pid] = id_scores.get(pid, {}); id_scores[pid][name] = score]
    on a dictionary in insertion order: a known key keeps its position, a
    new key goes to the end. *)
Fixpoint set_signal (upd : signals -> signals) (pid : pystr)
  (d : list (pystr * signals)) : list (pystr * signals) :=
  match d with
  | [] => [(pid, upd no_signals)]
  | (k, v) :: d' =>
      if str_eqb k pid then (k, upd v) :: d'
      else (k, v) :: set_signal upd pid d'
  end.

Definition record_hits (upd : Q -> signals -> signals)
  (hits : list (pystr * Q)) (d : list (pystr * signals))
  : list (pystr * signals) :=
  fold_left (fun d h => set_signal (upd (snd h)) (fst h) d) hits d.

(** One step of [max]: the first of several maximal values is kept. *)
Definition running_max (m : Q) (h : pystr * Q) : Q :=
  if Qlt_bool m (snd h) then snd h else m.

(** [max(s for _, s in hits) or 1.0], and [1.0] when there are no hits. *)
Definition max_or_one (hits : list (pystr * Q)) : Q :=
  match hits with
  | [] => 1%Q
  | h :: hits' =>
      let m := fold_left running_max hits' (snd h) in
      if Qeq_bool m 0 then 1%Q else m
  end.

(** What the ranker consults outside itself: the two search backends with
    their availability, the JSON decoder, the SQLite tables, and the
    answer of the SQL engine to the two statements of [search_sqlite]:
    the rows of the page and the number of matching rows. *)
Record backends := {
  index_exists   : bool;
  index_ready    : bool;
  bm25_search    :
    pystr -> option Z -> option Z -> option pystr -> Z -> list (pystr * Q);
  vector_search  : pystr -> Z -> list (pystr * Q);
  json_loads     : json_decoder;
  papers_table   : list row;
  features_table : list feature_row;
  sqlite_select  :
    pystr -> option Z -> option Z -> option pystr -> Z -> Z
    -> list row * nat;
}.

Record gathered := {
  id_scores : list (pystr * signals);
  max_bm25  : Q;
  max_vec   : Q;
}.

Definition bm25_hits (E : backends) (q : pystr)
  (start_year end_year : option Z) (src : option pystr) (limit : Z)
  : list (pystr * Q) :=
  if index_exists E
  then bm25_search E q start_year end_year src (limit * 2)%Z
  else [].

Definition vec_hits (E : backends) (q : pystr) (limit : Z)
  : list (pystr * Q) :=
  if index_ready E && truthy q && truthy (strip q)
  then vector_search E q (limit * 2)%Z
  else [].

Definition gather (E : backends) (q : pystr)
  (start_year end_year : option Z) (src : option pystr) (limit : Z)
  : gathered :=
  let bh := bm25_hits E q start_year end_year src limit in
  let vh := vec_hits E q limit in
  {| id_scores := record_hits set_vec vh (record_hits set_bm25 bh []);
     max_bm25 := max_or_one bh;
     max_vec := max_or_one vh |}.

(** Every raw signal recorded for a candidate is the score of some hit of
    the corresponding backend. *)
Definition signals_from (bh vh : list (pystr * Q)) (sc : signals) : Prop :=
  (forall x, bm25 sc = Some x -> exists h, In h bh /\ snd h = x)
  /\ (forall x, vec sc = Some x -> exists h, In h vh /\ snd h = x).

(** ** Hard filters *)

(** [int(md.get("year") or 0)]; [None] is [ValueError]. *)
Definition year_or_zero (y : year_val) : option Z :=
  match y with
  | YNone => Some 0%Z
  | YInt z => Some z
  | YStr s => if truthy s then int_of_str s else Some 0%Z
  end.

Definition md_year (md : option paper) : year_val :=
  match md with Some p => year p | None => YNone end.

Definition passes_start (start_year : option Z) (md : option paper) : bool :=
  match start_year with
  | None => true
  | Some sy =>
      match year_or_zero (md_year md) with
      | Some y => negb (y <? sy)%Z
      | None => false
      end
  end.

Definition passes_end (end_year : option Z) (md : option paper) : bool :=
  match end_year with
  | None => true
  | Some ey =>
      match year_or_zero (md_year md) with
      | Some y => negb (y >? ey)%Z
      | None => false
      end
  end.

(** [if source and (md.get("source") or "") != source: continue] *)
Definition passes_source (src : option pystr) (md : option paper) : bool :=
  match src with
  | Some s =>
      if truthy s
      then str_eqb (match md with Some p => source p | None => [] end) s
      else true
  | None => true
  end.

Definition passes_filters (start_year end_year : option Z)
  (src : option pystr) (md : option paper) : bool :=
  passes_start start_year md && passes_end end_year md
  && passes_source src md.

(** ** Fusion *)

Record weights := {
  w1 : Q;
  w2 : Q;
  w3 : Q;
  w4 : Q;
  title_bonus : Q;
}.

Definition default_weights : weights :=
  {| w1 := DEFAULT_W1; w2 := DEFAULT_W2; w3 := DEFAULT_W3;
     w4 := DEFAULT_W4; title_bonus := DEFAULT_TITLE_BONUS |}.

Definition md_text (f : paper -> pystr) (md : option paper) : pystr :=
  match md with Some p => f p | None => [] end.

Definition signal_or_zero (s : option Q) : Q :=
  match s with Some x => x | None => 0%Q end.

(** The score of a candidate that passed the filters; [None] when
    [_title_match_bonus] raises. *)
Definition fused_score (W : weights) (g : gathered) (pref : list pystr)
  (topic_terms : option (list pystr)) (q : pystr) (md : option paper)
  (scores : signals) : option Q :=
  let bm := (signal_or_zero (bm25 scores) / max_bm25 g)%Q in
  let vc := (signal_or_zero (vec scores) / max_vec g)%Q in
  let jw := _journal_weight (md_text journal md) in
  let up :=
    _user_pref_score (md_text title md ++ u " " ++ md_text abstract md) pref in
  match _title_match_bonus (md_text title md) topic_terms q with
  | None => None
  | Some tb =>
      Some (w1 W * bm + w2 W * vc + w3 W * jw + w4 W * up
            + title_bonus W * tb)%Q
  end.

(** The loop over [id_scores.items()] that fills [combined]; [None] when
    an iteration raises. *)
Fixpoint fuse (keep : option paper -> bool)
  (score : option paper -> signals -> option Q)
  (meta : gmap pystr paper) (d : list (pystr * signals))
  : option (list (pystr * Q)) :=
  match d with
  | [] => Some []
  | (pid, scores) :: d' =>
      let md := meta !! pid in
      if keep md then
        match score md scores with
        | None => None
        | Some s =>
            match fuse keep score meta d' with
            | None => None
            | Some rest => Some ((pid, s) :: rest)
            end
        end
      else fuse keep score meta d'
  end.

(** ** Ranking and pagination *)

(** A returned item: the paper dictionary with the fused score under
    ["score"]; the direct SQLite path adds no score. *)
Record hit := {
  hit_paper : paper;
  hit_score : option Q;
}.

(** [next((s for i, s in combined if i == pid), 0.0)] *)
Definition first_score (combined : list (pystr * Q)) (pid : pystr) : Q :=
  match List.find (fun c => str_eqb (fst c) pid) combined with
  | Some c => snd c
  | None => 0%Q
  end.

Fixpoint page_results (meta : gmap pystr paper)
  (combined : list (pystr * Q)) (pids : list pystr) : list hit :=
  match pids with
  | [] => []
  | pid :: pids' =>
      match meta !! pid with
      | None => page_results meta combined pids'
      | Some p =>
          {| hit_paper := p; hit_score := Some (first_score combined pid) |}
            :: page_results meta combined pids'
      end
  end.

(** [fetch_papers_by_ids(pids_all)] for the candidates of a call. *)
Definition fetch_meta (E : backends) (g : gathered)
  : option (gmap pystr paper) :=
  fetch_papers_by_ids (json_loads E) (papers_table E)
    (List.map fst (id_scores g)).

(** The dictionary [meta] of a call that got that far. *)
Definition candidates_meta (E : backends) (g : gathered) : gmap pystr paper :=
  match fetch_meta E g with
  | Some meta => meta
  | None => ∅
  end.

(** [combined] before it is sorted; [None] when fetching the metadata or
    scoring a candidate raises. *)
Definition fused_candidates (E : backends) (q : pystr)
  (start_year end_year : option Z) (src : option pystr) (limit : Z)
  (W : weights) (pref : list pystr) (topic_terms : option (list pystr))
  : option (list (pystr * Q)) :=
  let g := gather E q start_year end_year src limit in
  match fetch_meta E g with
  | None => None
  | Some meta =>
      fuse (passes_filters start_year end_year src)
        (fused_score W g pref topic_terms q) meta (id_scores g)
  end.

(** [combined[offset : offset + limit]], as paper ids. *)
Definition page_window (combined : list (pystr * Q)) (limit offset : Z)
  : list pystr :=
  List.map fst (py_slice combined offset (offset + limit)).

(** The dictionaries of the rows in their order; [None] when one of
    them cannot be built. *)
Fixpoint papers_of_rows (loads : json_decoder) (rows : list row)
  : option (list paper) :=
  match rows with
  | [] => Some []
  | r :: rows' =>
      match paper_of_row loads r, papers_of_rows loads rows' with
      | Some p, Some ps => Some (p :: ps)
      | _, _ => None
      end
  end.

(** [search_sqlite]: the rows that the engine selected, as
    dictionaries, and the count. *)
Definition search_sqlite (E : backends) (q : pystr)
  (start_year end_year : option Z) (src : option pystr) (limit offset : Z)
  : option (list paper * nat) :=
  let '(rows, total) :=
    sqlite_select E q start_year end_year src limit offset in
  match papers_of_rows (json_loads E) rows with
  | Some rs => Some (rs, total)
  | None => None
  end.

Definition sqlite_fallback (E : backends) (q : pystr)
  (start_year end_year : option Z) (src : option pystr) (limit offset : Z)
  : option (list hit * nat) :=
  match search_sqlite E q start_year end_year src limit offset with
  | Some (rs, total) =>
      Some (List.map (fun p => {| hit_paper := p; hit_score := None |}) rs,
            total)
  | None => None
  end.

(** [hybrid_search]: [(results, total)], or [None] when the call raises. *)
Definition hybrid_search (E : backends) (q : pystr)
  (start_year end_year : option Z) (src : option pystr) (limit offset : Z)
  (W : weights) (user_pref_terms topic_terms : option (list pystr))
  : option (list hit * nat) :=
  let pref := match user_pref_terms with Some l => l | None => [] end in
  if index_exists E || index_ready E then
    let g := gather E q start_year end_year src limit in
    match id_scores g with
    | [] => sqlite_fallback E q start_year end_year src limit offset
    | _ :: _ =>
        match fetch_meta E g with
        | None => None
        | Some meta =>
            match
              fuse (passes_filters start_year end_year src)
                (fused_score W g pref topic_terms q) meta (id_scores g)
            with
            | None => None
            | Some combined =>
                let combined := sort_by_score_desc combined in
                let pids := page_window combined limit offset in
                Some (page_results meta combined pids, length combined)
            end
        end
    end
  else sqlite_fallback E q start_year end_year src limit offset.


(* ================================================================== *)
(** * Regular expressions, as far as the source uses them              *)
(* ================================================================== *)

(** The fragment of [re] that occurs in [parse_query]: literals,
    character classes, sequence, ordered alternation, greedy [?], greedy
    [*] over a class, and the word boundary. *)
Inductive regex :=
| Eps
| Lit (c : N)
| Cls (f : N -> bool)
| Seq (r1 r2 : regex)
| Alt (r1 r2 : regex)
| Opt (r : regex)
| Star (f : N -> bool)
| Bound.

(** [re.I] for a code point that has another case. *)
Definition sre_iscased (c : N) : bool := in_ranges sre_cased_ranges c.

Definition case_fixes (lo : N) : list N :=
  match List.find (fun e => (fst e =? lo)%N) extra_cases with
  | Some e => snd e
  | None => []
  end.

(** Comparison of a literal [c] of the pattern with an input character
    [d]; [ci] is [re.I].  Under [re.I] a cased literal is compiled to its
    lower-case image together with the code points of [extra_cases], and
    the input character is lowered before it is compared. *)
Definition char_matches (ci : bool) (c d : N) : bool :=
  if ci && sre_iscased c then
    existsb (N.eqb (lower_char d))
      (lower_char c :: case_fixes (lower_char c))
  else (c =? d)%N.

Definition is_word_before (prev : option N) : bool :=
  match prev with Some c => is_word c | None => false end.

Definition is_word_at (s : pystr) : bool :=
  match s with c :: _ => is_word c | [] => false end.

(** Greedy [f*]: take as many characters as possible, give them back one
    by one while the continuation fails. *)
Fixpoint star_match {R} (f : N -> bool) (prev : option N) (s : pystr)
  (k : option N -> pystr -> option R) : option R :=
  match s with
  | c :: s' =>
      if f c then
        match star_match f (Some c) s' k with
        | Some x => Some x
        | None => k prev s
        end
      else k prev s
  | [] => k prev s
  end.

(** Backtracking matcher in continuation style: [prev] is the character
    before the current position, [k] receives the position reached. *)
Fixpoint rmatch {R} (ci : bool) (r : regex) (prev : option N) (s : pystr)
  (k : option N -> pystr -> option R) : option R :=
  match r with
  | Eps => k prev s
  | Lit c =>
      match s with
      | d :: s' => if char_matches ci c d then k (Some d) s' else None
      | [] => None
      end
  | Cls f =>
      match s with
      | d :: s' => if f d then k (Some d) s' else None
      | [] => None
      end
  | Seq r1 r2 => rmatch ci r1 prev s (fun p s' => rmatch ci r2 p s' k)
  | Alt r1 r2 =>
      match rmatch ci r1 prev s k with
      | Some x => Some x
      | None => rmatch ci r2 prev s k
      end
  | Opt r1 =>
      match rmatch ci r1 prev s k with
      | Some x => Some x
      | None => k prev s
      end
  | Star f => star_match f prev s k
  | Bound =>
      if xorb (is_word_before prev) (is_word_at s) then k prev s else None
  end.

(** Length of the match of [r] at the head of [s]. *)
Definition match_here (ci : bool) (r : regex) (prev : option N) (s : pystr)
  : option nat :=
  match rmatch ci r prev s (fun _ rest => Some rest) with
  | Some rest => Some (length s - length rest)%nat
  | None => None
  end.

(** [re.search]: the leftmost match, as [(m.start(), m.end())]. *)
Fixpoint search_from (ci : bool) (r : regex) (prev : option N) (s : pystr)
  (pos : nat) : option (nat * nat) :=
  match match_here ci r prev s with
  | Some n => Some (pos, (pos + n)%nat)
  | None =>
      match s with
      | [] => None
      | c :: s' => search_from ci r (Some c) s' (S pos)
      end
  end.

Definition re_search (ci : bool) (r : regex) (s : pystr)
  : option (nat * nat) :=
  search_from ci r None s 0.

(** [re.findall] for a pattern without groups that does not match the
    empty string; [skip] counts the characters of the last match that are
    still to be passed. *)
Fixpoint findall_from (ci : bool) (r : regex) (prev : option N) (s : pystr)
  (skip : nat) : list pystr :=
  match s with
  | [] => []
  | c :: s' =>
      match skip with
      | S n => findall_from ci r (Some c) s' n
      | O =>
          match match_here ci r prev s with
          | Some (S n) => firstn (S n) s :: findall_from ci r (Some c) s' n
          | _ => findall_from ci r (Some c) s' 0
          end
      end
  end.

Definition re_findall (ci : bool) (r : regex) (s : pystr) : list pystr :=
  findall_from ci r None s 0.

(** [re.sub(r, repl, s)] under the same proviso. *)
Fixpoint sub_from (ci : bool) (r : regex) (repl : pystr) (prev : option N)
  (s : pystr) (skip : nat) : pystr :=
  match s with
  | [] => []
  | c :: s' =>
      match skip with
      | S n => sub_from ci r repl (Some c) s' n
      | O =>
          match match_here ci r prev s with
          | Some (S n) => repl ++ sub_from ci r repl (Some c) s' n
          | _ => c :: sub_from ci r repl (Some c) s' 0
          end
      end
  end.

Definition re_sub (ci : bool) (r : regex) (repl s : pystr) : pystr :=
  sub_from ci r repl None s 0.

(** The characters of a string, one after the other. *)
Fixpoint lits (s : pystr) : regex :=
  match s with
  | [] => Eps
  | [c] => Lit c
  | c :: s' => Seq (Lit c) (lits s')
  end.

Definition word (s : string) : regex := lits (u s).

(** [r1 r2 ... rn] *)
Fixpoint seq (rs : list regex) : regex :=
  match rs with
  | [] => Eps
  | [r] => r
  | r :: rs' => Seq r (seq rs')
  end.

(** [r1|r2|...|rn] *)
Fixpoint alt (rs : list regex) : regex :=
  match rs with
  | [] => Eps
  | [r] => r
  | r :: rs' => Alt r (alt rs')
  end.

Definition one_of (s : string) : regex :=
  Cls (fun c => existsb (N.eqb c) (u s)).

(** [\s*] and [\d] *)
Definition spaces : regex := Star is_space.
Definition digit : regex := Cls is_decimal.

(* ================================================================== *)
(** * Query understanding ([retrieval/query_understanding.py])         *)
(* ================================================================== *)

Record ParsedQuery := {
  topic_terms   : list pystr;
  start_year    : option Z;
  end_year      : option Z;
  language      : option pystr;
  journal_level : option pystr;
  raw_query     : pystr;
}.

Inductive year_kind := KRange | KStart | KEnd.

(** [(?:19|20)\d{2}] *)
Definition year4 : regex := seq [alt [word "19"; word "20"]; digit; digit].

Definition year_patterns : list (regex * year_kind) :=
  [ (seq [year4; spaces; one_of "-–至到"; spaces; year4], KRange);
    (seq [year4; spaces; word "年"; spaces; alt [word "至今"; word "以后"]],
     KStart);
    (seq [alt [word "after"; word "since"; word "从"]; spaces; year4],
     KStart);
    (seq [alt [word "before"; word "之前"]; spaces; year4], KEnd);
    (seq [year4; spaces; Opt (word "年"); alt [word "以前"; word "之前"]],
     KEnd) ].

(** [19\d{2}|20\d{2}] *)
Definition year_number : regex :=
  alt [seq [word "19"; digit; digit]; seq [word "20"; digit; digit]].

Definition ints_of (xs : list pystr) : list Z :=
  flat_map (fun x => match int_of_str x with Some z => [z] | None => [] end)
    xs.

Definition list_min (z : Z) (l : list Z) : Z := fold_left Z.min l z.
Definition list_max (z : Z) (l : list Z) : Z := fold_left Z.max l z.

(** The state threaded through the loop over [year_patterns]. *)
Record year_state := {
  ys_start     : option Z;
  ys_end       : option Z;
  ys_remaining : pystr;
}.

Definition year_step (st : year_state) (pk : regex * year_kind)
  : year_state :=
  let remaining := ys_remaining st in
  match re_search true (fst pk) remaining with
  | None => st
  | Some (ms, me) =>
      let group0 := firstn (me - ms) (skipn ms remaining) in
      let nums := ints_of (re_findall false year_number group0) in
      let cut := firstn ms remaining ++ u " " ++ skipn me remaining in
      match snd pk, nums with
      | KRange, n1 :: n2 :: ns =>
          {| ys_start := Some (list_min n1 (n2 :: ns));
             ys_end := Some (list_max n1 (n2 :: ns));
             ys_remaining := cut |}
      | KStart, n1 :: ns =>
          {| ys_start := Some (list_max n1 ns);
             ys_end := ys_end st;
             ys_remaining := cut |}
      | KEnd, n1 :: ns =>
          {| ys_start := ys_start st;
             ys_end := Some (list_min n1 ns);
             ys_remaining := cut |}
      | _, _ =>
          {| ys_start := ys_start st;
             ys_end := ys_end st;
             ys_remaining := cut |}
      end
  end.

(** [\b(中文|汉语|china|chinese)\b] and [\b(英文|英语|english)\b] *)
Definition zh_marker : regex :=
  seq [Bound; alt [word "中文"; word "汉语"; word "china"; word "chinese"];
       Bound].
Definition en_marker : regex :=
  seq [Bound; alt [word "英文"; word "英语"; word "english"]; Bound].

Definition detect_language (remaining : pystr) : option pystr * pystr :=
  match re_search true zh_marker remaining with
  | Some _ => (Some (u "zh"), re_sub true zh_marker (u " ") remaining)
  | None =>
      match re_search true en_marker remaining with
      | Some _ => (Some (u "en"), re_sub true en_marker (u " ") remaining)
      | None => (None, remaining)
      end
  end.

Definition stop : list pystr :=
  List.map u
    ["的"; "与"; "和"; "及"; "等"; "之"; "在"; "是"; "有"; "为"; "对"; "从";
     "到"; "关于"; "研究"; "分析"; "the"; "and"; "for"; "with"; "from";
     "about"]%string.

(** [[a-zA-Z]{2,}|[一-鿿]+] *)
Definition token : regex :=
  alt [seq [Cls is_ascii_letter; Cls is_ascii_letter; Star is_ascii_letter];
       seq [Cls is_cjk; Star is_cjk]].

(** The text left after the year phrases and the language marker have
    been cut out. *)
Definition remaining_text (raw : pystr) : pystr :=
  let st :=
    fold_left year_step year_patterns
      {| ys_start := None; ys_end := None; ys_remaining := strip raw |} in
  snd (detect_language (ys_remaining st)).

(** The tokens of the remaining text that are not stop words. *)
Definition tokenized_terms (raw : pystr) : list pystr :=
  List.filter (fun t => truthy t && negb (existsb (str_eqb t) stop))
    (re_findall false token (remaining_text raw)).

(** [parse_query] *)
Definition parse_query (raw : pystr) : ParsedQuery :=
  let raw := strip raw in
  let st :=
    fold_left year_step year_patterns
      {| ys_start := None; ys_end := None; ys_remaining := raw |} in
  let '(language, remaining) := detect_language (ys_remaining st) in
  let tokens := re_findall false token remaining in
  let terms :=
    List.filter (fun t => truthy t && negb (existsb (str_eqb t) stop))
      tokens in
  {| topic_terms :=
       match terms with
       | [] => if truthy (strip raw) then [firstn 50 (strip raw)] else []
       | _ => terms
       end;
     start_year := ys_start st;
     end_year := ys_end st;
     language := language;
     journal_level := None;
     raw_query := raw |}.

(* ================================================================== *)
(** * Distributions ([search_with_distributions])                      *)
(* ================================================================== *)

(** [collections.Counter]: keys in the order of their first increment. *)
Fixpoint counter_incr {K} (eqb : K -> K -> bool) (k : K)
  (c : list (K * nat)) : list (K * nat) :=
  match c with
  | [] => [(k, 1%nat)]
  | (k', n) :: c' =>
      if eqb k' k then (k', S n) :: c'
      else (k', n) :: counter_incr eqb k c'
  end.

(** [Counter.most_common(n)]: by count, descending, ties in insertion
    order. *)
Definition most_common {K} (n : nat) (c : list (K * nat)) : list (K * nat) :=
  firstn n (stable_sort (fun y x => (snd x <? snd y)%nat) c).

(** [sorted(counter.items())] for integer keys: tuples in ascending
    order. *)
Definition sorted_items (c : list (Z * nat)) : list (Z * nat) :=
  stable_sort
    (fun y x =>
       (fst y <? fst x)%Z || ((fst y =? fst x)%Z && (snd y <? snd x)%nat))
    c.

(** [int(y)] for the value under ["year"], [None] for [TypeError] and
    [ValueError]. *)
Definition year_int (y : year_val) : option Z :=
  match y with
  | YNone => None
  | YInt z => Some z
  | YStr s => int_of_str s
  end.

(** The loop over the returned items that fills both counters. *)
Definition count_year (c : list (Z * nat)) (r : hit) : list (Z * nat) :=
  match year_int (year (hit_paper r)) with
  | Some y => counter_incr Z.eqb y c
  | None => c
  end.

Definition topic_of (feats : gmap pystr features) (r : hit) : pystr :=
  match feats !! paper_id (hit_paper r) with
  | Some f => topic_id f
  | None => []
  end.

Definition count_topic (feats : gmap pystr features)
  (c : list (pystr * nat)) (r : hit) : list (pystr * nat) :=
  let tid := topic_of feats r in
  if truthy tid then counter_incr str_eqb tid c else c.

Record search_output := {
  out_results            : list hit;
  out_total              : nat;
  out_topic_distribution : list (pystr * nat);
  out_year_distribution  : list (Z * nat);
}.

(** [" ".join(terms)] *)
Fixpoint join_space (terms : list pystr) : pystr :=
  match terms with
  | [] => []
  | [t] => t
  | t :: ts => t ++ u " " ++ join_space ts
  end.

(** The arguments that [search_with_distributions] passes on to
    [hybrid_search]: query text, year bounds and topic terms. *)
Definition understood_query (use_query_understanding : bool) (q : pystr)
  (sy0 ey0 : option Z)
  : pystr * option Z * option Z * option (list pystr) :=
  if use_query_understanding && truthy q && truthy (strip q) then
    let pq := parse_query q in
    let sy := match sy0 with Some _ => sy0 | None => start_year pq end in
    let ey := match ey0 with Some _ => ey0 | None => end_year pq end in
    match topic_terms pq with
    | [] => (q, sy, ey, Some [strip q])
    | ts => (join_space ts, sy, ey, Some ts)
    end
  else
    (q, sy0, ey0, if truthy (strip q) then Some [strip q] else None).

(** [search_with_distributions]; [None] when [hybrid_search] raises. *)
Definition search_with_distributions (E : backends) (q : pystr)
  (sy0 ey0 : option Z) (src : option pystr) (limit offset : Z)
  (use_query_understanding : bool) : option search_output :=
  let '(topic_str, sy, ey, terms) :=
    understood_query use_query_understanding q sy0 ey0 in
  match hybrid_search E topic_str sy ey src limit offset default_weights
          None terms with
  | None => None
  | Some ([], _) =>
      Some {| out_results := []; out_total := 0;
              out_topic_distribution := []; out_year_distribution := [] |}
  | Some (results, total) =>
      let pids := List.map (fun r => paper_id (hit_paper r)) results in
      let feats := fetch_features (features_table E) pids in
      let year_cnt := fold_left count_year results [] in
      let topic_cnt := fold_left (count_topic feats) results [] in
      Some {| out_results := results;
              out_total := total;
              out_topic_distribution := most_common 20 topic_cnt;
              out_year_distribution := sorted_items year_cnt |}
  end.

(* ================================================================== *)
(** * Collection analytics ([analysis/service.py])                     *)
(* ================================================================== *)

(** ** Paper dictionaries on the heap

    The analyzer receives a list of dictionaries from its caller and
    copies them with [dict(p)] before it writes.  The copy is shallow:
    the dictionary under ["features"] stays shared.  Both kinds of
    dictionary therefore live in a heap and are named by references. *)

Definition loc := nat.

(** A value that is a string or [None]. *)
Inductive pyval :=
| VNone
| VStr (s : pystr).

(** The dictionary under ["features"]: its two keys that the analyzer
    reads and writes, and whether it holds any other key. *)
Record feat_dict := {
  fd_attitude      : option pyval;
  fd_methods_label : option pyval;
  fd_other_keys    : bool;
}.

(** A paper dictionary.  [None] stands for a key that is absent or whose
    value is [None]; the analyzer does not tell the two apart, except for
    ["methods_label"], where [Some VNone] is the key present with value
    [None]. *)
Record pdict := {
  pd_paper_id       : option pystr;
  pd_id             : option pystr;
  pd_title          : option pystr;
  pd_abstract       : option pystr;
  pd_keywords       : option (list pystr);
  pd_vector         : option (list Q);
  pd_features       : option loc;
  pd_attitude_label : option pystr;
  pd_methods_label  : option pyval;
  pd_year           : year_val;
}.

Record heap := {
  h_papers : list pdict;
  h_feats  : list feat_dict;
}.

(** Computations on the heap; [None] is a raised exception. *)
Definition M (A : Type) : Type := heap -> option (A * heap).

Definition ret {A} (a : A) : M A := fun h => Some (a, h).

Definition bind {A B} (m : M A) (k : A -> M B) : M B :=
  fun h =>
    match m h with
    | Some (a, h') => k a h'
    | None => None
    end.

Definition raise {A} : M A := fun _ => None.

Notation "'do' x <- m ; k" := (bind m (fun x => k))
  (at level 10, x pattern, m at level 100, k at level 200).

(** [p[...]] *)
Definition read_paper (l : loc) : M pdict :=
  fun h =>
    match h_papers h !! l with
    | Some p => Some (p, h)
    | None => None
    end.

(** [dict(p)]: a new dictionary with the same items. *)
Definition copy_paper (l : loc) : M loc :=
  fun h =>
    match h_papers h !! l with
    | Some p =>
        Some (length (h_papers h),
              {| h_papers := h_papers h ++ [p]; h_feats := h_feats h |})
    | None => None
    end.

(** [p[key] = value] *)
Definition write_paper (l : loc) (f : pdict -> pdict) : M unit :=
  fun h =>
    match h_papers h !! l with
    | Some p =>
        Some (tt, {| h_papers := <[l := f p]> (h_papers h);
                     h_feats := h_feats h |})
    | None => None
    end.

Definition read_feats (l : loc) : M feat_dict :=
  fun h =>
    match h_feats h !! l with
    | Some f => Some (f, h)
    | None => None
    end.

(** [{...}]: a new features dictionary. *)
Definition new_feats (f : feat_dict) : M loc :=
  fun h =>
    Some (length (h_feats h),
          {| h_papers := h_papers h; h_feats := h_feats h ++ [f] |}).

(** [p["features"][key] = value] *)
Definition write_feats (l : loc) (f : feat_dict -> feat_dict) : M unit :=
  fun h =>
    match h_feats h !! l with
    | Some d =>
        Some (tt, {| h_papers := h_papers h;
                     h_feats := <[l := f d]> (h_feats h) |})
    | None => None
    end.

Fixpoint mapM {A B} (f : A -> M B) (l : list A) : M (list B) :=
  match l with
  | [] => ret []
  | a :: l' => do b <- f a; do bs <- mapM f l'; ret (b :: bs)
  end.

Definition set_keywords (v : list pystr) (p : pdict) : pdict :=
  {| pd_paper_id := pd_paper_id p; pd_id := pd_id p;
     pd_title := pd_title p; pd_abstract := pd_abstract p;
     pd_keywords := Some v; pd_vector := pd_vector p;
     pd_features := pd_features p;
     pd_attitude_label := pd_attitude_label p;
     pd_methods_label := pd_methods_label p; pd_year := pd_year p |}.

Definition set_vector (v : option (list Q)) (p : pdict) : pdict :=
  {| pd_paper_id := pd_paper_id p; pd_id := pd_id p;
     pd_title := pd_title p; pd_abstract := pd_abstract p;
     pd_keywords := pd_keywords p; pd_vector := v;
     pd_features := pd_features p;
     pd_attitude_label := pd_attitude_label p;
     pd_methods_label := pd_methods_label p; pd_year := pd_year p |}.

Definition set_features (v : loc) (p : pdict) : pdict :=
  {| pd_paper_id := pd_paper_id p; pd_id := pd_id p;
     pd_title := pd_title p; pd_abstract := pd_abstract p;
     pd_keywords := pd_keywords p; pd_vector := pd_vector p;
     pd_features := Some v;
     pd_attitude_label := pd_attitude_label p;
     pd_methods_label := pd_methods_label p; pd_year := pd_year p |}.

Definition set_id (v : pystr) (p : pdict) : pdict :=
  {| pd_paper_id := pd_paper_id p; pd_id := Some v;
     pd_title := pd_title p; pd_abstract := pd_abstract p;
     pd_keywords := pd_keywords p; pd_vector := pd_vector p;
     pd_features := pd_features p;
     pd_attitude_label := pd_attitude_label p;
     pd_methods_label := pd_methods_label p; pd_year := pd_year p |}.

Definition set_attitude (v : pyval) (d : feat_dict) : feat_dict :=
  {| fd_attitude := Some v; fd_methods_label := fd_methods_label d;
     fd_other_keys := fd_other_keys d |}.

Definition set_methods_label (v : pyval) (d : feat_dict) : feat_dict :=
  {| fd_attitude := fd_attitude d; fd_methods_label := Some v;
     fd_other_keys := fd_other_keys d |}.

(** ** The feature-extraction collaborator

    [SinglePaperProcessor] wraps models that are loaded from outside the
    repository; its three methods are taken as given functions. *)
Record processor := {
  extract_keywords  : pystr -> nat -> list pystr;
  get_embedding     : pystr -> option (list Q);
  classify_attitude : pystr -> pystr;
}.

(** [x or y] on optional strings, with an optional result. *)
Definition or_opt (x y : option pystr) : option pystr :=
  match x with
  | Some s => if truthy s then x else y
  | None => y
  end.

Definition val_truthy (v : option pyval) : option pystr :=
  match v with
  | Some (VStr s) => if truthy s then Some s else None
  | _ => None
  end.

(** The dictionary is empty. *)
Definition feats_empty (d : feat_dict) : bool :=
  match fd_attitude d, fd_methods_label d with
  | None, None => negb (fd_other_keys d)
  | _, _ => false
  end.

(** ["features" not in p or not p["features"]] *)
Definition features_missing (p : pdict) : M bool :=
  match pd_features p with
  | None => ret true
  | Some fl => do d <- read_feats fl; ret (feats_empty d)
  end.

Definition keywords_missing (p : pdict) : bool :=
  match pd_keywords p with
  | Some (_ :: _) => false
  | _ => true
  end.

(** One iteration of the loop of [_enrich_papers]; the result is the
    dictionary appended to [out], if any. *)
Definition enrich_one (P : processor) (l : loc) : M (option loc) :=
  do p0 <- read_paper l;
  let title := or_str (pd_title p0) [] in
  let abstract := or_str (pd_abstract p0) [] in
  match or_opt (pd_paper_id p0) (pd_id p0) with
  | None => ret None
  | Some pid =>
      if negb (truthy pid) then ret None
      else
        let full := title ++ u ". " ++ abstract in
        do l1 <-
          (if keywords_missing p0 then
             do l' <- copy_paper l;
             do _ <- write_paper l' (set_keywords (extract_keywords P full 5));
             ret l'
           else ret l);
        do p1 <- read_paper l1;
        do l2 <-
          (match pd_vector p1 with
           | None =>
               do l' <- copy_paper l1;
               do _ <- write_paper l' (set_vector (get_embedding P full));
               ret l'
           | Some _ => ret l1
           end);
        do p2 <- read_paper l2;
        do missing <- features_missing p2;
        do l3 <- copy_paper l2;
        do p3 <- read_paper l3;
        do _ <-
          (if missing : bool then
             let att :=
               match or_opt (pd_attitude_label p3) None with
               | Some a => a
               | None =>
                   classify_attitude P
                     (if truthy abstract then abstract else title)
               end in
             do fl <-
               new_feats
                 {| fd_attitude := Some (VStr att);
                    fd_methods_label :=
                      Some (match pd_methods_label p3 with
                            | Some v => v
                            | None => VStr []
                            end);
                    fd_other_keys := false |};
             write_paper l3 (set_features fl)
           else
             match pd_features p3 with
             | None => raise
             | Some fl =>
                 do d <- read_feats fl;
                 do _ <-
                   write_feats fl
                     (set_attitude
                        (VStr
                           (match or_opt (pd_attitude_label p3)
                                    (val_truthy (fd_attitude d)) with
                            | Some a => a
                            | None => u "谨慎中性"
                            end)));
                 do d' <- read_feats fl;
                 write_feats fl
                   (set_methods_label
                      (match val_truthy (pd_methods_label p3) with
                       | Some m => VStr m
                       | None =>
                           match fd_methods_label d' with
                           | Some v => v
                           | None => VStr []
                           end
                       end))
             end);
        do _ <- write_paper l3 (set_id pid);
        ret (Some l3)
  end.

(** [_enrich_papers] *)
Definition _enrich_papers (P : processor) (papers : list loc) : M (list loc) :=
  do out <- mapM (enrich_one P) papers;
  ret (flat_map (fun o => match o with Some l => [l] | None => [] end) out).

(** The enriched dictionaries as the analyses read them: none of the
    analyses writes after the enrichment. *)
Definition enriched (P : processor) (papers : list loc) : M (list pdict) :=
  do papers <- _enrich_papers P papers;
  mapM read_paper papers.

(** ** Clustering *)

(** numpy and scikit-learn: whether they can be imported, and
    [KMeans(n_clusters=n, random_state=42, n_init=10).fit_predict(X)],
    which answers one label per row of [X] or raises. *)
Record ml := {
  ml_available : bool;
  fit_predict  : Z -> list (list Q) -> option (list Z);
}.

Record cluster := {
  cluster_id : Z;
  topic_name : pystr;
  count      : nat;
  paper_ids  : list (option pystr);
}.

(** [clusters[label].append(v)] on a [defaultdict(list)]. *)
Fixpoint group_append {V} (k : Z) (v : V) (g : list (Z * list V))
  : list (Z * list V) :=
  match g with
  | [] => [(k, [v])]
  | (k', vs) :: g' =>
      if (k' =? k)%Z then (k', vs ++ [v]) :: g'
      else (k', vs) :: group_append k v g'
  end.

(** [for i, label in enumerate(labels): clusters[int(label)].append(valid[i])];
    [None] is the [IndexError] of [valid[i]]. *)
Fixpoint assign_labels {V} (labels : list Z) (valid : list V)
  (g : list (Z * list V)) : option (list (Z * list V)) :=
  match labels, valid with
  | [], _ => Some g
  | lab :: labels', v :: valid' =>
      assign_labels labels' valid' (group_append lab v g)
  | _ :: _, [] => None
  end.

(** [Counter(xs)] *)
Definition counter_of (xs : list pystr) : list (pystr * nat) :=
  fold_left (fun c x => counter_incr str_eqb x c) xs [].

(** [k[:n] + ("…" if len(k) > n else "")] *)
Definition truncate (n : nat) (k : pystr) : pystr :=
  firstn n k ++ (if (n <? length k)%nat then u "…" else []).

(** [sep.join(parts)] *)
Fixpoint join (sep : pystr) (parts : list pystr) : pystr :=
  match parts with
  | [] => []
  | [t] => t
  | t :: ts => t ++ sep ++ join sep ts
  end.

(** [str(n)] for an integer. *)
Definition str_of_Z (z : Z) : pystr :=
  u (NilZero.string_of_int (Z.to_int z)).

Definition paper_keywords (p : pdict) : list pystr :=
  match pd_keywords p with Some l => l | None => [] end.

Definition summarize (label : Z) (items : list pdict) : cluster :=
  let all_kw := flat_map paper_keywords items in
  let top_k := most_common 3 (counter_of all_kw) in
  let parts := List.map (fun kv => truncate 8 (fst kv)) (firstn 2 top_k) in
  {| cluster_id := label;
     topic_name :=
       match parts with
       | [] => u "主题" ++ str_of_Z label
       | _ => join (u " / ") parts
       end;
     count := length items;
     paper_ids :=
       List.map (fun it => or_opt (pd_paper_id it) (pd_id it)) items |}.

(** The papers that carry a usable embedding: [v is not None and
    len(v) > 0]. *)
Definition usable_vector (p : pdict) : bool :=
  match pd_vector p with
  | Some (_ :: _) => true
  | _ => false
  end.

Definition vector_of (p : pdict) : list Q :=
  match pd_vector p with Some v => v | None => [] end.

(** [perform_clustering] *)
Definition perform_clustering (P : processor) (L : ml) (papers : list loc)
  (n_clusters : Z) : M (list cluster) :=
  do ps <- enriched P papers;
  match ps with
  | [] => ret []
  | _ =>
      if negb (ml_available L) then ret []
      else
        let valid := List.filter usable_vector ps in
        let vectors := List.map vector_of valid in
        match vectors with
        | [] => ret []
        | _ =>
            let n := Z.min n_clusters (Z.of_nat (length vectors)) in
            match fit_predict L n vectors with
            | None => raise
            | Some labels =>
                match assign_labels labels valid [] with
                | None => raise
                | Some clusters =>
                    ret (List.map (fun kv => summarize (fst kv) (snd kv))
                           (stable_sort (fun y x => (fst y <? fst x)%Z)
                              clusters))
                end
            end
        end
  end.

(** ** Keyword co-occurrence *)

(** [tuple(sorted([a, b]))] *)
Definition sorted_pair (a b : pystr) : pystr * pystr :=
  if str_leb a b then (a, b) else (b, a).

Definition pair_eqb (x y : pystr * pystr) : bool :=
  str_eqb (fst x) (fst y) && str_eqb (snd x) (snd y).

(** The double loop over the positions [i < j] of one keyword list. *)
Fixpoint count_pairs (kws : list pystr) (c : list (pystr * pystr * nat))
  : list (pystr * pystr * nat) :=
  match kws with
  | [] => c
  | a :: rest =>
      count_pairs rest
        (fold_left (fun c b => counter_incr pair_eqb (sorted_pair a b) c)
           rest c)
  end.

(** [word_counts.update(kws)] *)
Definition count_words (kws : list pystr) (c : list (pystr * nat))
  : list (pystr * nat) :=
  fold_left (fun c k => counter_incr str_eqb k c) kws c.

(** [set.add], the elements kept in the order of their first
    insertion (the order in which Python iterates over the set is not
    specified). *)
Definition set_add (x : pystr) (s : list pystr) : list pystr :=
  if existsb (str_eqb x) s then s else s ++ [x].

Definition counter_get (c : list (pystr * nat)) (k : pystr) : nat :=
  match List.find (fun kv => str_eqb (fst kv) k) c with
  | Some kv => snd kv
  | None => 0%nat
  end.

(** A node of the graph; the display size, a logarithm of the frequency,
    is left out. *)
Record node := {
  node_id    : pystr;
  node_name  : pystr;
  node_value : nat;
}.

Record link := {
  link_source : pystr;
  link_target : pystr;
  link_value  : nat;
}.

Record network := {
  nodes : list node;
  links : list link;
}.

Definition heavy (min_weight : Z) (kv : pystr * pystr * nat) : bool :=
  (min_weight <=? Z.of_nat (snd kv))%Z.

(** The part of [build_cooccurrence_network] after the enrichment. *)
Definition cooccurrence (ps : list pdict) (min_weight : Z) : network :=
  let pair_counts :=
    fold_left (fun c p => count_pairs (paper_keywords p) c) ps [] in
  let word_counts :=
    fold_left (fun c p => count_words (paper_keywords p) c) ps [] in
  let kept := List.filter (heavy min_weight) pair_counts in
  let valid_nodes :=
    fold_left
      (fun s kv => set_add (snd (fst kv)) (set_add (fst (fst kv)) s))
      kept [] in
  {| nodes :=
       List.map
         (fun n => {| node_id := n; node_name := truncate 12 n;
                      node_value := counter_get word_counts n |})
         valid_nodes;
     links :=
       List.map
         (fun kv => {| link_source := fst (fst kv);
                       link_target := snd (fst kv);
                       link_value := snd kv |})
         kept |}.

(** [build_cooccurrence_network] *)
Definition build_cooccurrence_network (P : processor) (papers : list loc)
  (min_weight : Z) : M network :=
  do ps <- enriched P papers;
  ret (cooccurrence ps min_weight).

(** ** Trends and attitude evolution *)

(** A named series; the name is a keyword or an attitude. *)
Record series := {
  series_name : pyval;
  series_data : list nat;
}.

Record timeline := {
  years       : list Z;
  all_series  : list series;
}.

Definition year_val_eqb (a b : year_val) : bool :=
  match a, b with
  | YNone, YNone => true
  | YInt x, YInt y => (x =? y)%Z
  | YStr x, YStr y => str_eqb x y
  | _, _ => false
  end.

Definition pyval_eqb (a b : pyval) : bool :=
  match a, b with
  | VNone, VNone => true
  | VStr x, VStr y => str_eqb x y
  | _, _ => false
  end.

(** The value of [y] after [try: y = int(y) ... except: pass]: the
    integer, or the unparsed value when [int] raises. *)
Definition year_key (y : year_val) : year_val :=
  match year_int y with
  | Some z => YInt z
  | None => y
  end.

(** [sorted(years_set)] for the set of the years that [int] accepted. *)
Definition sorted_years (ys : list year_val) : list Z :=
  stable_sort (fun y x => (y <? x)%Z)
    (fold_left
       (fun s y =>
          match year_int y with
          | Some z => if existsb (Z.eqb z) s then s else s ++ [z]
          | None => s
          end)
       ys []).

(** [d[y][k] += 1] on a [defaultdict] of counters. *)
Fixpoint nested_incr {K} (eqb : K -> K -> bool) (y : year_val) (k : K)
  (d : list (year_val * list (K * nat))) : list (year_val * list (K * nat)) :=
  match d with
  | [] => [(y, [(k, 1%nat)])]
  | (y', c) :: d' =>
      if year_val_eqb y' y then (y', counter_incr eqb k c) :: d'
      else (y', c) :: nested_incr eqb y k d'
  end.

(** [d[y].get(k, 0)] *)
Definition nested_get {K} (eqb : K -> K -> bool)
  (d : list (year_val * list (K * nat))) (y : year_val) (k : K) : nat :=
  match List.find (fun yc => year_val_eqb (fst yc) y) d with
  | Some yc =>
      match List.find (fun kv => eqb (fst kv) k) (snd yc) with
      | Some kv => snd kv
      | None => 0%nat
      end
  | None => 0%nat
  end.

(** [counter[k] += n] *)
Fixpoint counter_add (k : pystr) (n : nat) (c : list (pystr * nat))
  : list (pystr * nat) :=
  match c with
  | [] => [(k, n)]
  | (k', m) :: c' =>
      if str_eqb k' k then (k', (m + n)%nat) :: c'
      else (k', m) :: counter_add k n c'
  end.

(** [all_kw.update(c)] for a counter [c]. *)
Definition counter_update (c all : list (pystr * nat)) : list (pystr * nat) :=
  fold_left (fun all kv => counter_add (fst kv) (snd kv) all) c all.

(** The part of [analyze_trends] after the enrichment. *)
Definition trends (ps : list pdict) : timeline :=
  match ps with
  | [] => {| years := []; all_series := [] |}
  | _ =>
      let year_kw :=
        fold_left
          (fun d p =>
             match pd_year p with
             | YNone => d
             | y =>
                 fold_left (fun d kw => nested_incr str_eqb (year_key y) kw d)
                   (paper_keywords p) d
             end)
          ps [] in
      let years := sorted_years (List.map pd_year ps) in
      let all_kw :=
        fold_left (fun all yc => counter_update (snd yc) all) year_kw [] in
      let top_keywords := List.map fst (most_common 10 all_kw) in
      {| years := years;
         all_series :=
           List.map
             (fun kw =>
                {| series_name := VStr kw;
                   series_data :=
                     List.map
                       (fun y => nested_get str_eqb year_kw (YInt y) kw)
                       years |})
             top_keywords |}
  end.

(** [analyze_trends] *)
Definition analyze_trends (P : processor) (papers : list loc) : M timeline :=
  do ps <- enriched P papers;
  ret (trends ps).

(** [(p.get("features") or {}).get("attitude", "谨慎中性")] *)
Definition attitude_of (p : pdict) : M pyval :=
  match pd_features p with
  | None => ret (VStr (u "谨慎中性"))
  | Some fl =>
      do d <- read_feats fl;
      ret (if feats_empty d then VStr (u "谨慎中性")
           else match fd_attitude d with
                | Some v => v
                | None => VStr (u "谨慎中性")
                end)
  end.

Definition set_add_val (x : pyval) (s : list pyval) : list pyval :=
  if existsb (pyval_eqb x) s then s else s ++ [x].

Definition strings_of (vs : list pyval) : list pystr :=
  flat_map (fun v => match v with VStr x => [x] | VNone => [] end) vs.

(** [sorted(all_att)]: strings in ascending order; [None] next to a
    string cannot be compared, which is the [TypeError] [None]. *)
Definition sorted_attitudes (s : list pyval) : option (list pyval) :=
  match s with
  | [] | [_] => Some s
  | _ =>
      if forallb (fun v => match v with VStr _ => true | VNone => false end) s
      then Some (List.map VStr
                   (stable_sort (fun y x => negb (str_leb x y))
                      (strings_of s)))
      else None
  end.

(** The part of [analyze_attitude_evolution] after the enrichment, on the
    papers paired with their attitudes. *)
Definition attitude_evolution (ps : list (pdict * pyval)) : option timeline :=
  match ps with
  | [] => Some {| years := []; all_series := [] |}
  | _ =>
      let year_att :=
        fold_left
          (fun d pa =>
             match pd_year (fst pa) with
             | YNone => d
             | y => nested_incr pyval_eqb (year_key y) (snd pa) d
             end)
          ps [] in
      let years := sorted_years (List.map (fun pa => pd_year (fst pa)) ps) in
      let all_att :=
        fold_left
          (fun s yc =>
             fold_left (fun s kv => set_add_val (fst kv) s) (snd yc) s)
          year_att [] in
      match sorted_attitudes all_att with
      | None => None
      | Some categories =>
          Some {| years := years;
                  all_series :=
                    List.map
                      (fun cat =>
                         {| series_name := cat;
                            series_data :=
                              List.map
                                (fun y =>
                                   nested_get pyval_eqb year_att (YInt y) cat)
                                years |})
                      categories |}
      end
  end.

(** [analyze_attitude_evolution] *)
Definition analyze_attitude_evolution (P : processor) (papers : list loc)
  : M timeline :=
  do ps <- enriched P papers;
  do atts <- mapM (fun p => do a <- attitude_of p; ret (p, a)) ps;
  match attitude_evolution atts with
  | Some t => ret t
  | None => raise
  end.

(** ** Keywords without KeyBERT

    [SinglePaperProcessor.extract_keywords] when the KeyBERT model cannot
    be loaded: the most frequent words of the text. *)

Definition is_word_letter (c : N) : bool := is_ascii_letter c || is_cjk c.

(** [\b[a-zA-Z一-鿿]{2,}\b] *)
Definition plain_word : regex :=
  seq [Bound; Cls is_word_letter; Cls is_word_letter; Star is_word_letter;
       Bound].

Definition fallback_extract_keywords (text : pystr) (top_n : nat)
  : list pystr :=
  if negb (truthy text) || negb (truthy (strip text)) then []
  else
    List.map fst
      (most_common top_n (counter_of (re_findall false plain_word text))).

(** ** The dashboard *)

(** [counter[k]], 0 for a key that was never counted. *)
Definition count_of {K} (eqb : K -> K -> bool) (c : list (K * nat)) (k : K)
  : nat :=
  match List.find (fun kv => eqb (fst kv) k) c with
  | Some kv => snd kv
  | None => 0%nat
  end.






(** ** The agent's search tool ([agent/tools.py])

    [search_papers] merges the stored features into the returned items
    and gives each a features dictionary of its own, before the analyzer
    sees them.  The items become the paper dictionaries of the session:
    item [i] is the dictionary at location [i], and its features
    dictionary is at location [i] as well. *)

(** [f.get(key, "")] for [f = features.get(paper_id, {})] *)
Definition label_of (f : option features) (key : features -> pystr) : pystr :=
  match f with Some x => key x | None => [] end.

(** [{"attitude": attitude_label or "谨慎中性",
      "methods_label": methods_label or ""}] *)
Definition session_features (f : option features) : feat_dict :=
  let att := label_of f attitude_label in
  let meth := label_of f methods_label in
  {| fd_attitude := Some (VStr (if truthy att then att else u "谨慎中性"));
     fd_methods_label := Some (VStr (if truthy meth then meth else []));
     fd_other_keys := false |}.

Definition session_paper (f : option features) (fl : loc) (r : hit) : pdict :=
  {| pd_paper_id := Some (paper_id (hit_paper r));
     pd_id := None;
     pd_title := Some (title (hit_paper r));
     pd_abstract := Some (abstract (hit_paper r));
     pd_keywords := Some (keywords (hit_paper r));
     pd_vector := None;
     pd_features := Some fl;
     pd_attitude_label := Some (label_of f attitude_label);
     pd_methods_label := Some (VStr (label_of f methods_label));
     pd_year := year (hit_paper r) |}.

(** [search_papers]: the returned items and the heap that holds them;
    [None] when the search raises. *)
Definition search_papers (E : backends) (topic : pystr)
  (start_year end_year : option Z) (src : option pystr) (limit : Z)
  : option (list hit * heap) :=
  match search_with_distributions E topic start_year end_year src limit 0
          true with
  | None => None
  | Some out =>
      let results := out_results out in
      let feats :=
        fetch_features (features_table E)
          (List.map (fun r => paper_id (hit_paper r)) results) in
      Some (results,
            {| h_papers :=
                 imap
                   (fun i r =>
                      session_paper (feats !! paper_id (hit_paper r)) i r)
                   results;
               h_feats :=
                 List.map
                   (fun r => session_features (feats !! paper_id (hit_paper r)))
                   results |})
  end.

(** ** Vocabulary for the statements *)

(** The characters a regular expression can consume. *)
Fixpoint re_chars (ci : bool) (r : regex) (c : N) : bool :=
  match r with
  | Eps | Bound => false
  | Lit d => char_matches ci d c
  | Cls f | Star f => f c
  | Seq r1 r2 | Alt r1 r2 => re_chars ci r1 c || re_chars ci r2 c
  | Opt r1 => re_chars ci r1 c
  end.


(** The character in front of a position: the last one of the text [a]
    that precedes it, or [prev] when [a] is empty. *)
Definition prev_char (prev : option N) (a : pystr) : option N :=
  fold_left (fun _ c => Some c) a prev.

(** The amended claim on year phrases in its own words: the leftmost
    match of a pattern in a text, if there is one, is cut out and
    replaced by a blank.  [a] is the text in front of the match, [m] the
    matched phrase, [b] the text behind it. *)
Inductive cut_leftmost (r : regex) : pystr -> pystr -> Prop :=
| cut_nothing (s : pystr) :
    (forall a b, s = a ++ b -> match_here true r (prev_char None a) b = None) ->
    cut_leftmost r s s
| cut_phrase (a m b : pystr) :
    match_here true r (prev_char None a) (m ++ b) = Some (length m) ->
    (forall a' b',
       a ++ m ++ b = a' ++ b' -> (length a' < length a)%nat ->
       match_here true r (prev_char None a') b' = None) ->
    cut_leftmost r (a ++ m ++ b) (a ++ u " " ++ b).

(** One pattern after the other, each on the text that the one before it
    left. *)
Inductive cut_all : list regex -> pystr -> pystr -> Prop :=
| cut_all_nil (s : pystr) : cut_all [] s s
| cut_all_cons (r : regex) (rs : list regex) (s s1 s2 : pystr) :
    cut_leftmost r s s1 -> cut_all rs s1 s2 -> cut_all (r :: rs) s s2.

(** The text that the loop over the year patterns leaves. *)
Definition year_cut_text (raw : pystr) : pystr :=
  ys_remaining
    (fold_left year_step year_patterns
       {| ys_start := None; ys_end := None; ys_remaining := strip raw |}).


(** The returned item has a year that is present and that [int] accepts. *)
Definition has_year (r : hit) : bool :=
  match year_int (year (hit_paper r)) with Some _ => true | None => false end.

(** The features fetched for a page of results. *)
Definition page_features (E : backends) (results : list hit)
  : gmap pystr features :=
  fetch_features (features_table E)
    (List.map (fun r => paper_id (hit_paper r)) results).

Definition has_topic (E : backends) (results : list hit) (r : hit) : bool :=
  truthy (topic_of (page_features E results) r).

Definition sum_counts {K} (c : list (K * nat)) : nat :=
  list_sum (List.map snd c).

(** The enriched papers of a call, and those among them that carry a
    usable embedding. *)
Definition enriched_papers (P : processor) (papers : list loc) (h : heap)
  : list pdict :=
  match enriched P papers h with
  | Some (ps, _) => ps
  | None => []
  end.

Definition usable_papers (P : processor) (papers : list loc) (h : heap)
  : list pdict :=
  List.filter usable_vector (enriched_papers P papers h).

(** What scikit-learn guarantees about the labels it returns: one label
    per row, each below the number of clusters asked for. *)
Definition kmeans_contract (L : ml) : Prop :=
  forall n X labels,
    fit_predict L n X = Some labels ->
    length labels = length X
    /\ Forall (fun lab => (0 <= lab < n)%Z) labels.

Definition link_key (e : link) : pystr * pystr :=
  (link_source e, link_target e).

(** The first [n] paper dictionaries of the heap are what they were, and
    no dictionary has disappeared. *)
Definition frame (n : nat) (h h' : heap) : Prop :=
  (n <= length (h_papers h))%nat
  /\ (length (h_papers h) <= length (h_papers h'))%nat
  /\ forall l, (l < n)%nat -> h_papers h' !! l = h_papers h !! l.

(** The number of papers in all groups. *)
Definition group_sizes {V} (g : list (Z * list V)) : nat :=
  list_sum (List.map (fun kv => length (snd kv)) g).

(** ** Small stores and backends for the examples *)

Definition mk_row (id : string) (ttl yr jrnl : option string) : row :=
  {| row_paper_id := u id;
     row_title := option_map u ttl;
     row_authors := None;
     row_year := option_map u yr;
     row_journal := option_map u jrnl;
     row_abstract := None;
     row_keywords := None;
     row_field := None;
     row_source := None;
     row_pdf_path := None |}.

(** The decoder on the one text that the examples hold. *)
Definition loads_empty_list : json_decoder :=
  fun s => if str_eqb s (u "[]") then Some (JList []) else None.

Definition mk_feature_row (id topic : string) : feature_row :=
  {| frow_paper_id := u id;
     frow_topic_id := Some (u topic);
     frow_attitude_label := None;
     frow_methods_label := None |}.

(** A keyword index that answers every query with its [size] best hits
    out of a fixed ranking; no vector index has been built. *)
Definition keyword_index_only (ranking : list (pystr * Q))
  (table : list row) (ftable : list feature_row) : backends :=
  {| index_exists := true;
     index_ready := false;
     bm25_search := fun _ _ _ _ size => firstn (Z.to_nat size) ranking;
     vector_search := fun _ _ => [];
     json_loads := loads_empty_list;
     papers_table := table;
     features_table := ftable;
     sqlite_select := fun _ _ _ _ _ _ => ([], 0%nat) |}.

(** A vector index that answers every query with its [top_k] nearest
    papers; it does not filter by year or source, which [vector_search]
    leaves to its caller.  No keyword index exists. *)
Definition vector_index_only (ranking : list (pystr * Q))
  (table : list row) (ftable : list feature_row) : backends :=
  {| index_exists := false;
     index_ready := true;
     bm25_search := fun _ _ _ _ _ => [];
     vector_search := fun _ top_k => firstn (Z.to_nat top_k) ranking;
     json_loads := loads_empty_list;
     papers_table := table;
     features_table := ftable;
     sqlite_select := fun _ _ _ _ _ _ => ([], 0%nat) |}.

(** One hit of the vector index whose row has no year. *)
Definition env_missing_year : backends :=
  vector_index_only [(u "p1", (8 # 10)%Q)]
    [mk_row "p1" (Some "Digital governance"%string) None None] [].

(** Two hits with the same raw score and the same metadata, the larger
    id first in the backend's answer. *)
Definition env_ties : backends :=
  keyword_index_only [(u "b", 1%Q); (u "a", 1%Q)]
    [mk_row "a" (Some "Notes"%string) (Some "2020"%string) None;
     mk_row "b" (Some "Notes"%string) (Some "2020"%string) None] [].

(** Both indexes answer: the keyword index with [zeta] and [a], the
    vector index with [c] and [a].  The three papers have the same
    metadata. *)
Definition env_two_indexes : backends :=
  {| index_exists := true;
     index_ready := true;
     bm25_search := fun _ _ _ _ _ => [(u "zeta", 1%Q); (u "a", 1%Q)];
     vector_search := fun _ _ => [(u "c", 1%Q); (u "a", 1%Q)];
     json_loads := loads_empty_list;
     papers_table :=
       [mk_row "a" (Some "Notes"%string) (Some "2020"%string) None;
        mk_row "c" (Some "Notes"%string) (Some "2020"%string) None;
        mk_row "zeta" (Some "Notes"%string) (Some "2020"%string) None];
     features_table := [];
     sqlite_select := fun _ _ _ _ _ _ => ([], 0%nat) |}.

(** Equal weights for the two indexes. *)
Definition even_weights : weights :=
  {| w1 := (1 # 4)%Q; w2 := (1 # 4)%Q; w3 := DEFAULT_W3; w4 := DEFAULT_W4;
     title_bonus := DEFAULT_TITLE_BONUS |}.

(** Three hits; the third one is weak for the keyword index but sits in a
    top venue and has the query in its title. *)
Definition env_three : backends :=
  keyword_index_only [(u "a", 3%Q); (u "b", 2%Q); (u "c", 1%Q)]
    [mk_row "a" (Some "Alpha"%string) (Some "2020"%string) None;
     mk_row "b" None (Some "2021"%string) None;
     mk_row "c" (Some "Deep learning"%string) (Some "2021"%string)
       (Some "经济研究"%string)]
    [mk_feature_row "a" "t1"; mk_feature_row "b" "t2";
     mk_feature_row "c" "t1"].

(** Three hits, the second of which has no row in the metadata store. *)
Definition env_ghost : backends :=
  keyword_index_only [(u "a", 3%Q); (u "ghost", 2%Q); (u "c", 1%Q)]
    [mk_row "a" (Some "Alpha"%string) (Some "2020"%string) None;
     mk_row "c" (Some "Gamma"%string) (Some "2021"%string) None] [].

(** A processor whose models did not load: no embedding, the neutral
    attitude.  The examples below do not ask it for keywords. *)
Definition offline_processor : processor :=
  {| extract_keywords := fun _ _ => [];
     get_embedding := fun _ => None;
     classify_attitude := fun _ => u "neutral" |}.

(** k-means when it is asked for a single cluster: every row receives
    label 0.  Other requests are not answered by this instance. *)
Definition kmeans_single : ml :=
  {| ml_available := true;
     fit_predict :=
       fun n X => if (n =? 1)%Z then Some (List.map (fun _ => 0%Z) X)
                  else None |}.

Definition mk_pdict (id : string) (kws : list string) (v : option (list Q))
  (feats : option loc) (att : option string) : pdict :=
  {| pd_paper_id := Some (u id);
     pd_id := None;
     pd_title := Some (u "Title");
     pd_abstract := Some (u "Abstract");
     pd_keywords := Some (List.map u kws);
     pd_vector := v;
     pd_features := feats;
     pd_attitude_label := option_map u att;
     pd_methods_label := None;
     pd_year := YInt 2020 |}.

(** The caller holds one paper with keywords, an embedding and a
    features dictionary that records the attitude "optimistic"; the
    paper's own attitude label says "critical". *)
Definition heap_labelled : heap :=
  {| h_papers :=
       [mk_pdict "p1" ["ai"; "law"]%string (Some [1%Q; 0%Q]) (Some 0%nat)
          (Some "critical"%string)];
     h_feats :=
       [{| fd_attitude := Some (VStr (u "optimistic"));
           fd_methods_label := None;
           fd_other_keys := false |}] |}.

(** One paper whose keyword list names the same keyword twice. *)
Definition heap_duplicate_keyword : heap :=
  {| h_papers :=
       [mk_pdict "p1" ["ai"; "ai"]%string (Some [1%Q; 0%Q]) None None];
     h_feats := [] |}.

(** Two papers that share the keywords "ai" and "law", listed in
    opposite orders. *)
Definition heap_two_papers : heap :=
  {| h_papers :=
       [mk_pdict "p1" ["law"; "ai"]%string (Some [1%Q; 0%Q]) None None;
        mk_pdict "p2" ["ai"; "law"; "ethics"]%string None None None];
     h_feats := [] |}.

Definition value_of {A} (a : A) (r : option (A * heap)) : A :=
  match r with Some (x, _) => x | None => a end.

Definition heap_of (r : heap) {A} (x : option (A * heap)) : heap :=
  match x with Some (_, h) => h | None => r end.

Definition hit_ids (r : option (list hit * nat)) : list pystr :=
  match r with
  | Some (hs, _) => List.map (fun h => paper_id (hit_paper h)) hs
  | None => []
  end.

Definition hits_of (r : option (list hit * nat)) : list hit :=
  match r with Some (hs, _) => hs | None => [] end.

Definition hit_id (h : hit) : pystr := paper_id (hit_paper h).

(** [combined] after it was sorted, as paper ids: the ranking of the
    candidates that passed the filters. *)
Definition ranking (E : backends) (q : pystr)
  (start_year end_year : option Z) (src : option pystr) (limit : Z)
  (W : weights) (pref : list pystr) (topic_terms : option (list pystr))
  : list (pystr * Q) :=
  match
    fused_candidates E q start_year end_year src limit W pref topic_terms
  with
  | Some combined => sort_by_score_desc combined
  | None => []
  end.

Definition has_metadata (meta : gmap pystr paper) (pid : pystr) : bool :=
  match meta !! pid with Some _ => true | None => false end.

(** The elements of a list without those that are in [seen] or occurred
    earlier in the list. *)
Fixpoint first_occurrences (seen l : list pystr) : list pystr :=
  match l with
  | [] => []
  | x :: l' =>
      if existsb (str_eqb x) seen then first_occurrences seen l'
      else x :: first_occurrences (x :: seen) l'
  end.

(** The order in which the candidates are collected, as the amended
    claim on ties words it: the keyword hits in the order of the
    response, then the vector hits that were not seen before. *)
Definition collection_order (E : backends) (q : pystr)
  (start_year end_year : option Z) (src : option pystr) (limit : Z)
  : list pystr :=
  first_occurrences []
    (List.map fst (bm25_hits E q start_year end_year src limit)
     ++ List.map fst (vec_hits E q limit)).

(** [x] occurs in [l], and [y] occurs behind it. *)
Fixpoint before {A} (x y : A) (l : list A) : Prop :=
  match l with
  | [] => False
  | a :: l' => (a = x /\ In y l') \/ before x y l'
  end.

(** A row that cannot be turned into a dictionary: the decoder rejects
    its authors, or its year is made of digits that [int] rejects,
    because one of them is no decimal digit or because they are more than
    the interpreter converts. *)
Definition unreadable_row (loads : json_decoder) (r : row) : Prop :=
  (exists s, row_authors r = Some s /\ s <> [] /\ loads s = None)
  \/ (exists s,
        row_year r = Some s /\ isdigit s = true
        /\ (forallb is_decimal s = false
            \/ (int_max_str_digits < length s)%nat)).


Definition total_of (r : option (list hit * nat)) : nat :=
  match r with Some (_, t) => t | None => 0%nat end.

Definition output_of (o : option search_output) : search_output :=
  match o with
  | Some out => out
  | None =>
      {| out_results := []; out_total := 0;
         out_topic_distribution := []; out_year_distribution := [] |}
  end.


(** ** Vocabulary for the further properties *)

(** [d.get(k)] on a dictionary in insertion order. *)
Definition assoc {V} (d : list (pystr * V)) (k : pystr) : option V :=
  option_map snd (List.find (fun kv => str_eqb (fst kv) k) d).

(** The score of the last hit that a backend returned for [pid]. *)
Fixpoint last_score (hits : list (pystr * Q)) (pid : pystr) : option Q :=
  match hits with
  | [] => None
  | h :: hits' =>
      match last_score hits' pid with
      | Some s => Some s
      | None => if str_eqb (fst h) pid then Some (snd h) else None
      end
  end.

(** The score under ["score"], 0 where the key is absent. *)
Definition score_of (h : hit) : Q :=
  match hit_score h with Some s => s | None => 0%Q end.


(** How many items of [rs] are counted under the key [k]. *)
Definition occurrences {A K} (eqb : K -> K -> bool) (key : A -> option K)
  (k : K) (rs : list A) : nat :=
  length
    (List.filter
       (fun r => match key r with Some k' => eqb k' k | None => false end)
       rs).

(** The keys under which the loop of [search_with_distributions] counts
    a returned item: its year as [int] reads it, and its non-empty topic
    id. *)
Definition result_year (r : hit) : option Z := year_int (year (hit_paper r)).

Definition result_topic (feats : gmap pystr features) (r : hit)
  : option pystr :=
  let tid := topic_of feats r in if truthy tid then Some tid else None.


(** ** Keywords on their way into the store

    [normalize_keywords] of [data/normalizers.py] and the column that
    [run_import] of [data/import_pipeline.py] writes for a list of
    keywords. *)

(** [re.split] on a class of single characters. *)
Fixpoint split_where_aux (sep : N -> bool) (cur : pystr) (s : pystr)
  : list pystr :=
  match s with
  | [] => [rev cur]
  | c :: s' =>
      if sep c then rev cur :: split_where_aux sep [] s'
      else split_where_aux sep (c :: cur) s'
  end.

Definition split_where (sep : N -> bool) (s : pystr) : list pystr :=
  split_where_aux sep [] s.

(** The class [[,;；\n]]. *)
Definition is_keyword_separator (c : N) : bool :=
  (c =? 44)%N || (c =? 59)%N || (c =? 65307)%N || (c =? 10)%N.

(** The argument of [normalize_keywords]: [None], a string or a list. *)
Inductive keywords_value :=
| KNone
| KStr (s : pystr)
| KList (l : list pystr).

Definition normalize_keywords (kw : keywords_value) : list pystr :=
  let clean parts :=
    List.map strip
      (List.filter (fun p => truthy p && truthy (strip p)) parts) in
  match kw with
  | KNone => []
  | KStr s =>
      if truthy s then clean (split_where is_keyword_separator s) else []
  | KList l => clean l
  end.

(** [",".join(keywords) if keywords else None] *)
Definition keywords_column (keywords : list pystr) : option pystr :=
  match keywords with
  | [] => None
  | _ => Some (join (u ",") keywords)
  end.

Definition comma_free (k : pystr) : bool :=
  forallb (fun c => negb (c =? 44)%N) k.

Definition separator_free (k : pystr) : bool :=
  forallb (fun c => negb (is_keyword_separator c)) k.

(** The pairs that the double loop of [build_cooccurrence_network]
    counts for one keyword list, and for all papers; all keywords of all
    papers. *)
Fixpoint ordered_pairs (kws : list pystr) : list (pystr * pystr) :=
  match kws with
  | [] => []
  | a :: rest => List.map (sorted_pair a) rest ++ ordered_pairs rest
  end.

Definition keyword_pairs (ps : list pdict) : list (pystr * pystr) :=
  flat_map (fun p => ordered_pairs (paper_keywords p)) ps.

Definition all_keywords (ps : list pdict) : list pystr :=
  flat_map paper_keywords ps.

(** The year of a paper as [int] reads it, the keywords of the papers
    paired with that year, and the papers' attitudes paired with it. *)
Definition paper_year (p : pdict) : option Z := year_int (pd_year p).

Definition dated_keywords (ps : list pdict) : list (Z * pystr) :=
  flat_map
    (fun p =>
       match paper_year p with
       | Some y => List.map (pair y) (paper_keywords p)
       | None => []
       end)
    ps.

Definition dated_attitudes (ps : list (pdict * pyval)) : list (Z * pyval) :=
  flat_map
    (fun pa =>
       match paper_year (fst pa) with
       | Some y => [(y, snd pa)]
       | None => []
       end)
    ps.

(** The keys of all counters of a [defaultdict] of counters. *)
Definition inner_keys {K} (d : list (year_val * list (K * nat))) : list K :=
  flat_map (fun yc => List.map fst (snd yc)) d.

Definition dated_eqb {K} (eqb : K -> K -> bool) (a b : Z * K) : bool :=
  (fst a =? fst b)%Z && eqb (snd a) (snd b).

(** Every features reference of a paper dictionary points into the
    heap. *)
Definition wf_heap (h : heap) : Prop :=
  forall l p fl,
    h_papers h !! l = Some p -> pd_features p = Some fl ->
    (fl < length (h_feats h))%nat.

(** The features dictionary holds a string under ["attitude"] and has the
    key ["methods_label"]. *)
Definition labelled (d : feat_dict) : Prop :=
  (exists a, fd_attitude d = Some (VStr a)) /\ fd_methods_label d <> None.

(** What [_enrich_papers] establishes for a dictionary that it returns:
    a non-empty id, a list of keywords, and a labelled features
    dictionary. *)
Definition enriched_paper (h : heap) (p : pdict) : Prop :=
  (exists pid, pd_id p = Some pid /\ pid <> [])
  /\ (exists kws, pd_keywords p = Some kws)
  /\ exists fl d,
       pd_features p = Some fl /\ h_feats h !! fl = Some d /\ labelled d.

(** [p.get("paper_id") or p.get("id")] where it is truthy: the id under
    which the enrichment keeps a paper. *)
Definition effective_id (p : pdict) : option pystr :=
  match or_opt (pd_paper_id p) (pd_id p) with
  | Some pid => if truthy pid then Some pid else None
  | None => None
  end.

(** The ids under ["id"] of the dictionaries at [ls]. *)
Definition ids_at (h : heap) (ls : list loc) : list (option pystr) :=
  List.map
    (fun l => match h_papers h !! l with Some p => pd_id p | None => None end)
    ls.

(** The effective ids of the dictionaries at [ls], those without one
    left out. *)
Definition kept_ids (h : heap) (ls : list loc) : list (option pystr) :=
  flat_map
    (fun l =>
       match h_papers h !! l with
       | Some p =>
           match effective_id p with Some pid => [Some pid] | None => [] end
       | None => []
       end)
    ls.

(** A non-empty features dictionary after the two assignments that
    [_enrich_papers] makes into it for the paper [p]. *)
Definition relabel (p : pdict) (d : feat_dict) : feat_dict :=
  let d1 :=
    set_attitude
      (VStr
         match or_opt (pd_attitude_label p) (val_truthy (fd_attitude d)) with
         | Some a => a
         | None => u "谨慎中性"
         end) d in
  set_methods_label
    match val_truthy (pd_methods_label p) with
    | Some m => VStr m
    | None =>
        match fd_methods_label d1 with
        | Some v => v
        | None => VStr []
        end
    end d1.

(** The paper at [l] has a features dictionary that is not empty and that
    the assignments of [_enrich_papers] leave as it is. *)
Definition prefilled (h : heap) (l : loc) : Prop :=
  exists p fl d,
    h_papers h !! l = Some p /\ pd_features p = Some fl
    /\ h_feats h !! fl = Some d /\ feats_empty d = false
    /\ relabel p d = d.

(** The features dictionaries of [h] are still there in [h'], and those
    that were labelled still are. *)
Definition feats_kept (h h' : heap) : Prop :=
  (length (h_feats h) <= length (h_feats h'))%nat
  /\ forall fl d,
       h_feats h !! fl = Some d -> labelled d ->
       exists d', h_feats h' !! fl = Some d' /\ labelled d'.

(* ################################################################## *)
(** * Part II: properties                                              *)
(* ################################################################## *)

(* ================================================================== *)
(** * Characters and [int]                                             *)
(* ================================================================== *)

Lemma forallb_rev (P : N -> bool) (s : pystr) :
  forallb P (rev s) = forallb P s.
Proof.
  induction s as [|c s IH]; simpl; [reflexivity|].
  rewrite List.forallb_app, IH. simpl. rewrite andb_true_r, andb_comm.
  reflexivity.
Qed.

(** A code point of a range that meets no range of a table is not in the
    table. *)
Lemma in_ranges_disjoint (t : list (N * N)) (lo hi c : N) :
  forallb (fun r => (snd r <? lo)%N || (hi <? fst r)%N) t = true ->
  in_range lo hi c = true -> in_ranges t c = false.
Proof.
  unfold in_ranges, in_range. intros Ht Hc.
  apply andb_true_iff in Hc. destruct Hc as [H1 H2].
  apply N.leb_le in H1, H2.
  induction t as [|[a b] t IH]; [reflexivity|].
  simpl in Ht. apply andb_true_iff in Ht. destruct Ht as [Hr Ht].
  simpl. rewrite (IH Ht), orb_false_r.
  apply orb_true_iff in Hr. apply andb_false_iff.
  destruct Hr as [Hr|Hr]; apply N.ltb_lt in Hr;
    [right|left]; apply N.leb_gt; lia.
Qed.


Lemma in_ranges_find (t : list (N * N)) (c : N) :
  in_ranges t c = true ->
  exists r,
    List.find (fun r => in_range (fst r) (snd r) c) t = Some r
    /\ In r t /\ in_range (fst r) (snd r) c = true.
Proof.
  unfold in_ranges. induction t as [|r t IH]; simpl; [discriminate|].
  destruct (in_range (fst r) (snd r) c) eqn:Hr.
  - intros _. exists r. auto.
  - simpl. intros H. destruct (IH H) as (r' & Hf & Hin & Hc).
    exists r'. auto.
Qed.

Lemma space_not_decimal (c : N) : is_space c = true -> is_decimal c = false.
Proof.
  unfold is_space. rewrite !orb_true_iff, !N.eqb_eq.
  assert (Hone : forall a, in_range a a c = true <-> c = a).
  { intros a. unfold in_range. rewrite andb_true_iff, !N.leb_le. lia. }
  rewrite <- !Hone.
  intros H; repeat destruct H as [H|H];
    (eapply in_ranges_disjoint; [|exact H]); vm_compute; reflexivity.
Qed.

(** What [int] makes of a decimal digit: the ASCII digit of its value. *)
Lemma decimal_int_char (d : N) :
  is_decimal d = true ->
  exists v,
    In v [0; 1; 2; 3; 4; 5; 6; 7; 8; 9]%N /\ int_char d = Some (48 + v)%N.
Proof.
  intros Hd.
  assert (Hten : forall v, (v < 10)%N ->
                           In v [0; 1; 2; 3; 4; 5; 6; 7; 8; 9]%N).
  { intros v Hv.
    assert (v = 0 \/ v = 1 \/ v = 2 \/ v = 3 \/ v = 4 \/ v = 5 \/ v = 6
            \/ v = 7 \/ v = 8 \/ v = 9)%N as Hc by lia.
    simpl. intuition auto. }
  destruct (in_ranges_find _ _ Hd) as ([a b] & Hf & Hin & Hc).
  unfold int_char. destruct (d <? 128)%N eqn:Hlt.
  - apply N.ltb_lt in Hlt.
    assert (Hall : forallb
                     (fun r => (128 <=? fst r)%N
                               || ((fst r =? 48) && (snd r =? 57))%N)
                     decimal_ranges = true) by (vm_compute; reflexivity).
    rewrite forallb_forall in Hall. specialize (Hall _ Hin).
    unfold in_range in Hc. simpl in Hc, Hall.
    apply andb_true_iff in Hc. destruct Hc as [H1 H2].
    apply N.leb_le in H1, H2.
    apply orb_true_iff in Hall. destruct Hall as [Hall|Hall].
    + apply N.leb_le in Hall. lia.
    + apply andb_true_iff in Hall. destruct Hall as [Ha Hb].
      apply N.eqb_eq in Ha, Hb. subst a b.
      exists (d - 48)%N. split; [apply Hten; lia|f_equal; lia].
  - destruct (is_space d) eqn:Hs;
      [apply space_not_decimal in Hs; congruence|].
    unfold decimal_value. rewrite Hf. simpl.
    exists ((d - a) mod 10)%N. split; [|reflexivity].
    apply Hten, N.mod_lt. discriminate.
Qed.

Lemma find_in_ranges_None (t : list (N * N)) (c : N) :
  in_ranges t c = false ->
  List.find (fun r => in_range (fst r) (snd r) c) t = None.
Proof.
  unfold in_ranges. induction t as [|r t IH]; simpl; [reflexivity|].
  destruct (in_range (fst r) (snd r) c); [discriminate|]. exact IH.
Qed.

Lemma in_ranges_above (t : list (N * N)) (lo c : N) :
  forallb (fun r => (lo <=? fst r)%N) t = true ->
  in_ranges t c = true -> (lo <= c)%N.
Proof.
  intros Ht Hc. destruct (in_ranges_find _ _ Hc) as (r & _ & Hin & Hr).
  rewrite forallb_forall in Ht. specialize (Ht _ Hin).
  apply N.leb_le in Ht. unfold in_range in Hr.
  apply andb_true_iff in Hr. destruct Hr as [Hr _].
  apply N.leb_le in Hr. lia.
Qed.

Lemma space_not_other_digit (c : N) :
  is_space c = true -> in_ranges other_digit_ranges c = false.
Proof.
  unfold is_space. rewrite !orb_true_iff, !N.eqb_eq.
  assert (Hone : forall a, in_range a a c = true <-> c = a).
  { intros a. unfold in_range. rewrite andb_true_iff, !N.leb_le. lia. }
  rewrite <- !Hone.
  intros H; repeat destruct H as [H|H];
    (eapply in_ranges_disjoint; [|exact H]); vm_compute; reflexivity.
Qed.

(** [int] refuses the digits that are no decimal digits. *)
Lemma int_char_other_digit (c : N) :
  is_digit c = true -> is_decimal c = false -> int_char c = None.
Proof.
  unfold is_digit. intros Hd Hn. rewrite Hn, orb_false_l in Hd.
  assert (H128 : (128 <= c)%N).
  { apply (in_ranges_above other_digit_ranges); [|exact Hd].
    vm_compute. reflexivity. }
  unfold int_char.
  destruct (c <? 128)%N eqn:Hlt; [apply N.ltb_lt in Hlt; lia|].
  destruct (is_space c) eqn:Hs.
  { apply space_not_other_digit in Hs. congruence. }
  unfold decimal_value. unfold is_decimal in Hn.
  rewrite (find_in_ranges_None _ _ Hn). reflexivity.
Qed.

Lemma int_chars_decimal (s : pystr) :
  forallb is_decimal s = true ->
  exists a,
    int_chars s = Some a /\ length a = length s
    /\ forallb is_ascii_digit a = true.
Proof.
  induction s as [|c s IH]; simpl.
  - exists []. auto.
  - rewrite andb_true_iff. intros [Hc Hs].
    destruct (IH Hs) as (a & Ha & Hl & Hd).
    destruct (decimal_int_char _ Hc) as (v & Hv & E).
    rewrite E, Ha. exists ((48 + v)%N :: a).
    split; [reflexivity|]. split; [simpl; congruence|].
    simpl. rewrite Hd, andb_true_r.
    simpl in Hv.
    repeat (destruct Hv as [<-|Hv]; [reflexivity|]). destruct Hv.
Qed.

Lemma int_chars_None (s : pystr) :
  (exists c, In c s /\ int_char c = None) -> int_chars s = None.
Proof.
  induction s as [|c s IH]; simpl; intros (x & Hin & Hx); [destruct Hin|].
  destruct Hin as [->|Hin].
  - rewrite Hx. reflexivity.
  - rewrite IH by eauto. destruct (int_char c); reflexivity.
Qed.

Lemma ascii_digit_not_space (c : N) :
  is_ascii_digit c = true -> is_ascii_space c = false.
Proof.
  unfold is_ascii_digit, is_ascii_space, in_range.
  rewrite andb_true_iff, !N.leb_le. intros [H1 H2].
  apply orb_false_iff. split.
  - apply andb_false_iff. right. apply N.leb_gt. lia.
  - apply N.eqb_neq. lia.
Qed.

Lemma drop_while_digits (a : pystr) :
  forallb is_ascii_digit a = true -> drop_while is_ascii_space a = a.
Proof.
  destruct a as [|c a]; simpl; [reflexivity|].
  rewrite andb_true_iff. intros [Hc _].
  rewrite (ascii_digit_not_space _ Hc). reflexivity.
Qed.

Lemma int_digits_returns (a : pystr) :
  forallb is_ascii_digit a = true ->
  forall acc, exists z, int_digits acc false a = Some z.
Proof.
  induction a as [|c a IH]; simpl; intros Ha acc; [eauto|].
  apply andb_true_iff in Ha. destruct Ha as [Hc Ha].
  rewrite Hc. apply (IH Ha).
Qed.

Lemma filter_all {A} (f : A -> bool) (l : list A) :
  forallb f l = true -> List.filter f l = l.
Proof.
  induction l as [|x l IH]; simpl; [reflexivity|].
  rewrite andb_true_iff. intros [Hx Hl]. rewrite Hx, (IH Hl). reflexivity.
Qed.

(** On a string that [str.isdigit] accepts, [int] raises exactly when a
    character is no decimal digit or there are more digits than the
    interpreter converts. *)
Lemma int_of_digit_string (s : pystr) :
  isdigit s = true ->
  int_of_str s = None
  <-> forallb is_decimal s = false
      \/ (int_max_str_digits < length s)%nat.
Proof.
  unfold isdigit. rewrite andb_true_iff. intros [Hne Hdig].
  destruct (forallb is_decimal s) eqn:Hdec.
  - destruct (int_chars_decimal _ Hdec) as (a & Ha & Hl & Hd).
    unfold int_of_str. rewrite Ha.
    rewrite (drop_while_digits _ Hd).
    assert (Hrev : forallb is_ascii_digit (rev a) = true).
    { rewrite forallb_rev. exact Hd. }
    rewrite (drop_while_digits _ Hrev), rev_involutive.
    destruct a as [|c a].
    { destruct s; [discriminate|discriminate]. }
    assert (Hc : is_ascii_digit c = true).
    { simpl in Hd. apply andb_true_iff in Hd. tauto. }
    assert (Hu : int_unsigned (c :: a) = None
                 <-> (int_max_str_digits < length s)%nat).
    { unfold int_unsigned. rewrite Hc, (filter_all _ _ Hd), Hl. simpl andb.
      destruct (length s <=? int_max_str_digits)%nat eqn:Hle.
      - apply Nat.leb_le in Hle.
        destruct (int_digits_returns _ Hd 0%Z) as (z & ->).
        split; [discriminate|lia].
      - apply Nat.leb_gt in Hle. split; [intros _; exact Hle|reflexivity]. }
    assert (H45 : c <> 45%N /\ c <> 43%N).
    { unfold is_ascii_digit, in_range in Hc.
      apply andb_true_iff in Hc. rewrite !N.leb_le in Hc. lia. }
    assert (Hm : match c :: a with
                 | 45%N :: s' => option_map Z.opp (int_unsigned s')
                 | 43%N :: s' => int_unsigned s'
                 | s' => int_unsigned s'
                 end = int_unsigned (c :: a)).
    { destruct H45 as [N45 N43].
      destruct c as [|p]; [reflexivity|].
      repeat (destruct p as [p|p|]; try reflexivity); congruence. }
    rewrite Hm, Hu. split; [auto|]. intros [H|H]; [discriminate|exact H].
  - split; [auto|]. intros _.
    unfold int_of_str. rewrite int_chars_None; [reflexivity|].
    assert (Hex : exists c, In c s /\ is_decimal c = false).
    { clear -Hdec. induction s as [|c s IH]; simpl in *; [discriminate|].
      destruct (is_decimal c) eqn:Hc.
      - destruct (IH Hdec) as (x & Hx & H). exists x. auto.
      - exists c. auto. }
    destruct Hex as (c & Hin & Hc). exists c. split; [exact Hin|].
    apply int_char_other_digit; [|exact Hc].
    rewrite forallb_forall in Hdig. apply Hdig, Hin.
Qed.

(** * Python primitives                                                *)
(* ================================================================== *)

Example utf8_decode_example :
  u "a至" = [97%N; 33267%N].
Proof. reflexivity. Qed.

Example int_of_str_examples :
  int_of_str (u " 2020 ") = Some 2020%Z
  /\ int_of_str (u "-1_0") = Some (-10)%Z
  /\ int_of_str (u "20a") = None /\ int_of_str (u "") = None.
Proof. repeat split; reflexivity. Qed.

Example py_slice_examples :
  py_slice [1;2;3;4;5] 1 3 = [2;3] /\ py_slice [1;2;3;4;5] 3 10 = [4;5]
  /\ py_slice [1;2;3;4;5] 7 9 = [] /\ py_slice [1;2;3;4;5] (-2) 5 = [4;5].
Proof. repeat split; reflexivity. Qed.

Lemma str_eqb_eq (a b : pystr) : str_eqb a b = true <-> a = b.
Proof.
  revert b; induction a as [|c a IH]; intros [|d b]; simpl;
    try (split; [discriminate | congruence]); try tauto.
  rewrite andb_true_iff, N.eqb_eq, IH. split.
  - intros [-> ->]; reflexivity.
  - intros [= -> ->]; auto.
Qed.

Lemma str_eqb_refl (a : pystr) : str_eqb a a = true.
Proof. apply str_eqb_eq; reflexivity. Qed.

Lemma str_eqb_neq (a b : pystr) : str_eqb a b = false <-> a <> b.
Proof.
  rewrite <- str_eqb_eq. destruct (str_eqb a b); split; congruence.
Qed.

Lemma str_eqb_sym (a b : pystr) : str_eqb a b = str_eqb b a.
Proof.
  destruct (str_eqb a b) eqn:E1, (str_eqb b a) eqn:E2; auto.
  - apply str_eqb_eq in E1. subst. rewrite str_eqb_refl in E2. discriminate.
  - apply str_eqb_eq in E2. subst. rewrite str_eqb_refl in E1. discriminate.
Qed.

Lemma firstn_plus {A} (a b : nat) (l : list A) :
  firstn (a + b) l = firstn a l ++ firstn b (skipn a l).
Proof.
  revert l; induction a as [|a IH]; intros [|x l]; simpl; auto.
  - destruct b; reflexivity.
  - rewrite IH. reflexivity.
Qed.

(** Consecutive pages of a list: [l[0:k] ++ l[k:2k] = l[0:2k]]. *)
Lemma py_slice_pages {A} (l : list A) (k : Z) :
  (0 < k)%Z ->
  py_slice l 0 (0 + k) ++ py_slice l k (k + k) = py_slice l 0 (0 + (k + k)).
Proof.
  intros Hk. unfold py_slice, slice_index.
  set (n := Z.of_nat (length l)).
  assert (Hn : (0 <= n)%Z) by (subst n; lia).
  replace (0 <? 0)%Z with false by reflexivity.
  replace (0 + k <? 0)%Z with false by (symmetry; apply Z.ltb_ge; lia).
  replace (k <? 0)%Z with false by (symmetry; apply Z.ltb_ge; lia).
  replace (k + k <? 0)%Z with false by (symmetry; apply Z.ltb_ge; lia).
  replace (0 + (k + k) <? 0)%Z with false by (symmetry; apply Z.ltb_ge; lia).
  rewrite (Z.min_l 0 n) by lia. simpl skipn. rewrite !Z.sub_0_r, !Z.add_0_l.
  destruct (Z.le_gt_cases n k) as [Hle|Hgt].
  - rewrite !(Z.min_r k n), !(Z.min_r (k + k) n) by lia.
    rewrite Z.sub_diag. simpl. apply app_nil_r.
  - rewrite !(Z.min_l k n) by lia.
    set (m := Z.min (k + k) n).
    assert (Hm : (k <= m)%Z) by (subst m; lia).
    replace (Z.to_nat m) with (Z.to_nat k + Z.to_nat (m - k))%nat by lia.
    apply eq_sym, firstn_plus.
Qed.

(* ================================================================== *)
(** * Stable sorting                                                   *)
(* ================================================================== *)

Section StableSort.
Context {A : Type} (prec : A -> A -> bool).

Lemma insert_stable_perm (x : A) (l : list A) :
  Permutation (insert_stable prec x l) (x :: l).
Proof.
  induction l as [|y l IH]; simpl.
  - reflexivity.
  - destruct (prec y x).
    + rewrite IH. apply perm_swap.
    + reflexivity.
Qed.

Lemma stable_sort_perm (l : list A) : Permutation (stable_sort prec l) l.
Proof.
  induction l as [|x l IH]; simpl.
  - reflexivity.
  - rewrite insert_stable_perm. constructor. exact IH.
Qed.

Lemma stable_sort_length (l : list A) :
  length (stable_sort prec l) = length l.
Proof. apply Permutation_length, stable_sort_perm. Qed.

(** The order [R] that the sort establishes. *)
Context (R : A -> A -> Prop).
Hypothesis R_trans : forall x y z, R x y -> R y z -> R x z.
Hypothesis prec_R : forall y x, prec y x = true -> R y x.
Hypothesis not_prec_R : forall y x, prec y x = false -> R x y.

Lemma insert_stable_sorted (x : A) (l : list A) :
  StronglySorted R l -> StronglySorted R (insert_stable prec x l).
Proof.
  induction 1 as [|y l Hs IH Hy]; simpl.
  - repeat constructor.
  - destruct (prec y x) eqn:Hp.
    + constructor; [exact IH|].
      eapply Permutation_Forall.
      * symmetry. apply insert_stable_perm.
      * constructor; [apply prec_R; exact Hp | exact Hy].
    + constructor; [constructor; assumption|].
      constructor; [apply not_prec_R; exact Hp|].
      eapply List.Forall_impl; [|exact Hy]. intros z Hz.
      eapply R_trans; [apply not_prec_R; exact Hp | exact Hz].
Qed.

Lemma stable_sort_sorted (l : list A) : StronglySorted R (stable_sort prec l).
Proof.
  induction l as [|x l IH]; simpl.
  - constructor.
  - apply insert_stable_sorted, IH.
Qed.

(** Stability: a class [f] of elements none of which must precede
    another keeps its order. *)
Context (f : A -> bool).
Hypothesis f_ties : forall x y, f x = true -> f y = true -> prec y x = false.

Lemma insert_stable_filter (x : A) (l : list A) :
  List.filter f (insert_stable prec x l) = List.filter f (x :: l).
Proof.
  induction l as [|y l IH]; simpl.
  - reflexivity.
  - destruct (prec y x) eqn:Hp; [|reflexivity].
    simpl. rewrite IH. simpl.
    destruct (f x) eqn:Hx, (f y) eqn:Hy; try reflexivity.
    rewrite (f_ties x y Hx Hy) in Hp. discriminate.
Qed.

Lemma stable_sort_filter (l : list A) :
  List.filter f (stable_sort prec l) = List.filter f l.
Proof.
  induction l as [|x l IH]; simpl.
  - reflexivity.
  - rewrite insert_stable_filter. simpl. rewrite IH. reflexivity.
Qed.

End StableSort.

(* ================================================================== *)
(** * The metadata store                                               *)
(* ================================================================== *)

Lemma paper_of_row_id (loads : json_decoder) (r : row) (p : paper) :
  paper_of_row loads r = Some p -> paper_id p = row_paper_id r.
Proof.
  unfold paper_of_row.
  destruct (authors_of_column loads (row_authors r)); [|discriminate].
  destruct (year_of_column (row_year r)); [|discriminate].
  intros [= <-]. reflexivity.
Qed.

Lemma fetch_row_None (loads : json_decoder) (ids : list pystr)
  (table : list row) :
  fold_left (fetch_row loads ids) table None = None.
Proof. induction table as [|r table IH]; simpl; [reflexivity|exact IH]. Qed.

Lemma existsb_str_eqb (k : pystr) (ids : list pystr) :
  existsb (str_eqb k) ids = true <-> In k ids.
Proof.
  rewrite List.existsb_exists. split.
  - intros (x & Hin & Heq). apply str_eqb_eq in Heq. subst x. exact Hin.
  - intros Hin. exists k. split; [exact Hin|apply str_eqb_refl].
Qed.

(** The fetch raises exactly when the dictionary of a selected row
    cannot be built. *)
Lemma fetch_rows_None (loads : json_decoder) (ids : list pystr)
  (table : list row) (out : gmap pystr paper) :
  fold_left (fetch_row loads ids) table (Some out) = None
  <-> exists r,
        In r table /\ In (row_paper_id r) ids
        /\ paper_of_row loads r = None.
Proof.
  revert out. induction table as [|r table IH]; intros out; simpl.
  - split; [discriminate|]. intros (r & [] & _).
  - destruct (existsb (str_eqb (row_paper_id r)) ids) eqn:Hex.
    + apply existsb_str_eqb in Hex.
      destruct (paper_of_row loads r) as [p|] eqn:Hp.
      * rewrite IH. split.
        -- intros (r' & Hin & H). exists r'. split; [right; exact Hin|exact H].
        -- intros (r' & [<-|Hin] & Hid & Hn); [congruence|].
           exists r'. auto.
      * rewrite fetch_row_None. split; [|reflexivity].
        intros _. exists r. split; [left; reflexivity|]. auto.
    + rewrite IH. split.
      * intros (r' & Hin & H). exists r'. split; [right; exact Hin|exact H].
      * intros (r' & [<-|Hin] & Hid & Hn).
        -- apply existsb_str_eqb in Hid. congruence.
        -- exists r'. auto.
Qed.

Lemma fetch_rows_fold_key (loads : json_decoder) (ids : list pystr)
  (table : list row) :
  forall (out d : gmap pystr paper),
    (forall k p, out !! k = Some p -> paper_id p = k) ->
    fold_left (fetch_row loads ids) table (Some out) = Some d ->
    forall k p, d !! k = Some p -> paper_id p = k.
Proof.
  induction table as [|r table IH]; intros out d Hout; simpl.
  - intros [= <-]. exact Hout.
  - destruct (existsb (str_eqb (row_paper_id r)) ids); [|apply IH, Hout].
    destruct (paper_of_row loads r) as [p0|] eqn:Hp.
    + apply IH. intros k p.
      destruct (decide (row_paper_id r = k)) as [<-|Hne].
      * rewrite lookup_insert_eq. intros [= <-].
        apply (paper_of_row_id _ _ _ Hp).
      * rewrite lookup_insert_ne by exact Hne. apply Hout.
    + rewrite fetch_row_None. discriminate.
Qed.

Lemma fetch_papers_by_ids_key (loads : json_decoder) (table : list row)
  (ids : list pystr) (d : gmap pystr paper) (k : pystr) (p : paper) :
  fetch_papers_by_ids loads table ids = Some d ->
  d !! k = Some p -> paper_id p = k.
Proof.
  destruct ids as [|i ids]; simpl.
  - intros [= <-]. rewrite lookup_empty. discriminate.
  - intros H.
    apply (fetch_rows_fold_key loads (i :: ids) table ∅ d); [|exact H].
    intros k' p'. rewrite lookup_empty. discriminate.
Qed.

Lemma candidates_meta_fetched (E : backends) (g : gathered)
  (meta : gmap pystr paper) :
  fetch_meta E g = Some meta -> candidates_meta E g = meta.
Proof. unfold candidates_meta. intros ->. reflexivity. Qed.

(** When [combined] exists, the metadata were fetched, and [combined] is
    what the loop makes of them. *)
Lemma fused_candidates_fuse (E : backends) (q : pystr) (sy ey : option Z)
  (src : option pystr) (limit : Z) (W : weights) (pref : list pystr)
  (tt : option (list pystr)) (combined : list (pystr * Q)) :
  fused_candidates E q sy ey src limit W pref tt = Some combined ->
  fetch_meta E (gather E q sy ey src limit)
  = Some (candidates_meta E (gather E q sy ey src limit))
  /\ fuse (passes_filters sy ey src)
       (fused_score W (gather E q sy ey src limit) pref tt q)
       (candidates_meta E (gather E q sy ey src limit))
       (id_scores (gather E q sy ey src limit)) = Some combined.
Proof.
  unfold fused_candidates, candidates_meta.
  destruct (fetch_meta E (gather E q sy ey src limit)); [|discriminate].
  auto.
Qed.

Lemma candidates_meta_key (E : backends) (g : gathered) (k : pystr)
  (p : paper) :
  candidates_meta E g !! k = Some p -> paper_id p = k.
Proof.
  unfold candidates_meta.
  destruct (fetch_meta E g) as [meta|] eqn:Hf.
  - apply (fetch_papers_by_ids_key _ _ _ _ _ _ Hf).
  - rewrite lookup_empty. discriminate.
Qed.

(* ================================================================== *)
(** * Hard filters                                                     *)
(* ================================================================== *)



(** A year outside the requested interval excludes the candidate. *)
Lemma year_outside_range_excluded (sy ey : option Z) (src : option pystr)
  (md : option paper) (y : Z) :
  year_or_zero (md_year md) = Some y ->
  (exists s, sy = Some s /\ (y < s)%Z) \/ (exists e, ey = Some e /\ (e < y)%Z) ->
  passes_filters sy ey src md = false.
Proof.
  intros Hy [[s [-> Hs]]|[e [-> He]]]; unfold passes_filters.
  - unfold passes_start. rewrite Hy.
    apply Z.ltb_lt in Hs. rewrite Hs. reflexivity.
  - unfold passes_end at 1. rewrite Hy.
    assert (G : (y >? e)%Z = true) by (rewrite Z.gtb_ltb; apply Z.ltb_lt, He).
    rewrite G. simpl. rewrite andb_false_r. reflexivity.
Qed.

(** A year that [int] rejects excludes the candidate under either bound. *)
Lemma malformed_year_excluded (sy ey : option Z) (src : option pystr)
  (md : option paper) :
  year_or_zero (md_year md) = None ->
  sy <> None \/ ey <> None ->
  passes_filters sy ey src md = false.
Proof.
  intros Hy H. unfold passes_filters, passes_start, passes_end. rewrite Hy.
  destruct sy as [s|]; [reflexivity|].
  destruct ey as [e|]; [reflexivity|].
  destruct H as [H|H]; congruence.
Qed.

(** A missing year counts as year 0: a positive lower bound excludes the
    candidate. *)
Lemma missing_year_excluded_by_start (sy : Z) (ey : option Z)
  (src : option pystr) (md : option paper) :
  md_year md = YNone -> (0 < sy)%Z ->
  passes_filters (Some sy) ey src md = false.
Proof.
  intros Hy Hs. unfold passes_filters, passes_start. rewrite Hy. simpl.
  apply Z.ltb_lt in Hs. rewrite Hs. reflexivity.
Qed.

(** The same missing year passes every non-negative upper bound. *)
Lemma missing_year_passes_end (ey : Z) (md : option paper) :
  md_year md = YNone -> (0 <= ey)%Z -> passes_end (Some ey) md = true.
Proof.
  intros Hy He. unfold passes_end. rewrite Hy. simpl.
  rewrite Z.gtb_ltb. apply negb_true_iff, Z.ltb_ge. exact He.
Qed.

(* ================================================================== *)
(** * The fusion loop                                                  *)
(* ================================================================== *)

Section Fuse.
Context (keep : option paper -> bool)
        (score : option paper -> signals -> option Q)
        (meta : gmap pystr paper).

Lemma fuse_In (d : list (pystr * signals)) (c : list (pystr * Q))
  (pid : pystr) (s : Q) :
  fuse keep score meta d = Some c -> In (pid, s) c ->
  exists sc, In (pid, sc) d /\ keep (meta !! pid) = true
             /\ score (meta !! pid) sc = Some s.
Proof.
  revert c; induction d as [|[k sc] d IH]; intros c; simpl.
  - intros [= <-] [].
  - destruct (keep (meta !! k)) eqn:Hk.
    + destruct (score (meta !! k) sc) as [s'|] eqn:Hs; [|discriminate].
      destruct (fuse keep score meta d) as [rest|]; [|discriminate].
      intros [= <-] [[= <- <-]|Hin].
      * exists sc. auto.
      * destruct (IH rest eq_refl Hin) as (sc' & H1 & H2). exists sc'. auto.
    + intros Hc Hin. destruct (IH c Hc Hin) as (sc' & H1 & H2).
      exists sc'. auto.
Qed.

(** The candidates kept are, in order, those that pass the filter. *)
Lemma fuse_keys (d : list (pystr * signals)) (c : list (pystr * Q)) :
  fuse keep score meta d = Some c ->
  List.map fst c
  = List.map fst (List.filter (fun x => keep (meta !! fst x)) d).
Proof.
  revert c; induction d as [|[k sc] d IH]; intros c; simpl.
  - intros [= <-]. reflexivity.
  - destruct (keep (meta !! k)) eqn:Hk.
    + destruct (score (meta !! k) sc) as [s'|]; [|discriminate].
      destruct (fuse keep score meta d) as [rest|]; [|discriminate].
      intros [= <-]. simpl. f_equal. apply IH. reflexivity.
    + apply IH.
Qed.

(** The loop raises exactly when the score of a kept candidate does. *)
Lemma fuse_returns (d : list (pystr * signals)) :
  (forall pid sc, In (pid, sc) d -> keep (meta !! pid) = true ->
                  score (meta !! pid) sc <> None) ->
  exists c, fuse keep score meta d = Some c.
Proof.
  induction d as [|[k sc] d IH]; intros H; simpl.
  - eauto.
  - destruct IH as [rest Hrest].
    { intros pid sc' Hin. apply H. right. exact Hin. }
    rewrite Hrest. destruct (keep (meta !! k)) eqn:Hk; [|eauto].
    destruct (score (meta !! k) sc) as [s'|] eqn:Hs; [eauto|].
    exfalso. apply (H k sc); auto. left. reflexivity.
Qed.

End Fuse.

(* ================================================================== *)
(** * Bounds on the signals                                            *)
(* ================================================================== *)

Section Signals.
Local Open Scope Q_scope.

Lemma Qlt_bool_iff (a b : Q) : Qlt_bool a b = true <-> a < b.
Proof.
  unfold Qlt_bool. rewrite negb_true_iff. split.
  - intros H. apply Qnot_le_lt. intros Hle.
    apply Qle_bool_iff in Hle. congruence.
  - intros H. destruct (Qle_bool b a) eqn:E; [|reflexivity].
    apply Qle_bool_iff in E. exfalso. exact (Qlt_not_le _ _ H E).
Qed.

Lemma Qlt_bool_false (a b : Q) : Qlt_bool a b = false <-> b <= a.
Proof.
  unfold Qlt_bool. rewrite negb_false_iff. apply Qle_bool_iff.
Qed.

Lemma running_max_ge (l : list (pystr * Q)) (m0 : Q) :
  m0 <= fold_left running_max l m0
  /\ Forall (fun h => snd h <= fold_left running_max l m0) l.
Proof.
  revert m0; induction l as [|h l IH]; intros m0; simpl.
  - split; [apply Qle_refl | constructor].
  - destruct (IH (running_max m0 h)) as [H1 H2].
    assert (Hm : m0 <= running_max m0 h /\ snd h <= running_max m0 h).
    { unfold running_max. destruct (Qlt_bool m0 (snd h)) eqn:E.
      - apply Qlt_bool_iff in E. split; [apply Qlt_le_weak, E | apply Qle_refl].
      - apply Qlt_bool_false in E. split; [apply Qle_refl | exact E]. }
    destruct Hm as [Hm1 Hm2]. split.
    + eapply Qle_trans; eassumption.
    + constructor; [eapply Qle_trans; eassumption | exact H2].
Qed.

Lemma max_or_one_pos (hits : list (pystr * Q)) :
  Forall (fun h => 0 <= snd h) hits -> 0 < max_or_one hits.
Proof.
  destruct hits as [|h hits]; simpl; [reflexivity|].
  intros H. inversion H as [|? ? H0 _]; subst.
  destruct (running_max_ge hits (snd h)) as [Hge _].
  destruct (Qeq_bool (fold_left running_max hits (snd h)) 0) eqn:E;
    [reflexivity|].
  apply Qeq_bool_neq in E.
  apply Qle_lt_or_eq in H0. destruct H0 as [H0|H0].
  - eapply Qlt_le_trans; eassumption.
  - assert (Hle : 0 <= fold_left running_max hits (snd h))
      by (rewrite H0 at 1; exact Hge).
    apply Qle_lt_or_eq in Hle. destruct Hle as [Hlt|Heq]; [exact Hlt|].
    exfalso. apply E. symmetry. exact Heq.
Qed.

Lemma max_or_one_ge (hits : list (pystr * Q)) (h : pystr * Q) :
  Forall (fun h => 0 <= snd h) hits -> In h hits -> snd h <= max_or_one hits.
Proof.
  intros Hnn Hin.
  destruct hits as [|h0 hits]; [destruct Hin|]. simpl.
  destruct (running_max_ge hits (snd h0)) as [H1 H2].
  assert (Hle : snd h <= fold_left running_max hits (snd h0)).
  { destruct Hin as [<-|Hin]; [exact H1|].
    rewrite List.Forall_forall in H2. apply H2, Hin. }
  destruct (Qeq_bool (fold_left running_max hits (snd h0)) 0) eqn:E;
    [|exact Hle].
  apply Qeq_bool_eq in E. rewrite E in Hle.
  eapply Qle_trans; [exact Hle|]. discriminate.
Qed.

(** A raw signal divided by the call's maximum lies in the unit
    interval; so does an absent signal, which counts as 0. *)
Lemma ratio_unit (s m : Q) : 0 <= s -> s <= m -> 0 < m -> 0 <= s / m <= 1.
Proof.
  intros Hs Hm Hpos. split.
  - apply Qle_shift_div_l; [exact Hpos|]. rewrite Qmult_0_l. exact Hs.
  - apply Qle_shift_div_r; [exact Hpos|]. rewrite Qmult_1_l. exact Hm.
Qed.

Lemma normalised_signal_unit (hits : list (pystr * Q)) (s : option Q) :
  Forall (fun h => 0 <= snd h) hits ->
  (forall x, s = Some x -> exists h, In h hits /\ snd h = x) ->
  0 <= signal_or_zero s / max_or_one hits <= 1.
Proof.
  intros Hnn Hs. pose proof (max_or_one_pos hits Hnn) as Hpos.
  destruct s as [x|]; simpl.
  - destruct (Hs x eq_refl) as (h & Hin & <-).
    apply ratio_unit; [|apply max_or_one_ge; assumption|exact Hpos].
    rewrite List.Forall_forall in Hnn. apply Hnn, Hin.
  - apply ratio_unit; [apply Qle_refl|apply Qlt_le_weak, Hpos|exact Hpos].
Qed.

Lemma journal_weight_unit (j : pystr) : 0 <= _journal_weight j <= 1.
Proof.
  unfold _journal_weight.
  destruct (negb (truthy j)); [split; discriminate|].
  destruct (existsb _ high_journals); [split; discriminate|].
  destruct (_ || _)%bool; split; discriminate.
Qed.

Lemma user_pref_score_unit (text : pystr) (pref : list pystr) :
  0 <= _user_pref_score text pref <= 1.
Proof.
  unfold _user_pref_score.
  destruct pref as [|p pref]; [split; discriminate|].
  destruct (negb (truthy text)); [split; discriminate|].
  split; [|apply Q.le_min_l].
  apply Q.min_glb; [discriminate|].
  set (hits := length _). set (n := Z.max 1 _).
  assert (Hn : 0 < inject_Z n).
  { replace 0 with (inject_Z 0) by reflexivity. rewrite <- Zlt_Qlt.
    subst n. lia. }
  assert (Hh : 0 <= inject_Z (Z.of_nat hits)).
  { replace 0 with (inject_Z 0) by reflexivity. rewrite <- Zle_Qle. lia. }
  assert (Hd : 0 <= inject_Z (Z.of_nat hits) / inject_Z n).
  { apply Qle_shift_div_l; [exact Hn|]. rewrite Qmult_0_l. exact Hh. }
  lra.
Qed.

Lemma title_match_bonus_unit (t : pystr) (tt : option (list pystr))
  (q : pystr) (b : Q) :
  _title_match_bonus t tt q = Some b -> 0 <= b <= 1.
Proof.
  unfold _title_match_bonus.
  destruct (negb (truthy t)); [intros [= <-]; split; discriminate|].
  destruct tt as [[|? ?]|]; try discriminate;
    (destruct (negb (truthy (strip q))); [intros [= <-]; split; discriminate|]);
    (destruct (_ && _)%bool; intros [= <-]; split; discriminate).
Qed.


Lemma weighted_sum_bound (a b c d e x1 x2 x3 x4 x5 : Q) :
  0 <= a -> 0 <= b -> 0 <= c -> 0 <= d -> 0 <= e ->
  0 <= x1 <= 1 -> 0 <= x2 <= 1 -> 0 <= x3 <= 1 -> 0 <= x4 <= 1 ->
  0 <= x5 <= 1 ->
  0 <= a * x1 + b * x2 + c * x3 + d * x4 + e * x5 <= a + b + c + d + e.
Proof.
  intros Ha Hb Hc Hd He [L1 U1] [L2 U2] [L3 U3] [L4 U4] [L5 U5].
  assert (T : forall w x, 0 <= w -> 0 <= x -> x <= 1 -> 0 <= w * x <= w).
  { intros w x Hw Hx Hx1. split.
    - apply Qmult_le_0_compat; assumption.
    - rewrite <- (Qmult_1_r w) at 2.
      rewrite (Qmult_comm w x), (Qmult_comm w 1).
      apply Qmult_le_compat_r; assumption. }
  destruct (T a x1 Ha L1 U1), (T b x2 Hb L2 U2), (T c x3 Hc L3 U3),
    (T d x4 Hd L4 U4), (T e x5 He L5 U5).
  split; lra.
Qed.

End Signals.

(* ================================================================== *)
(** * Candidate collection                                             *)
(* ================================================================== *)

Section Collect.
Context (P : signals -> Prop).

Lemma set_signal_Forall (upd : signals -> signals) (pid : pystr)
  (d : list (pystr * signals)) :
  P (upd no_signals) -> (forall v, P v -> P (upd v)) ->
  Forall (fun kv => P (snd kv)) d ->
  Forall (fun kv => P (snd kv)) (set_signal upd pid d).
Proof.
  intros H0 Hupd. induction 1 as [|[k v] d Hv Hd IH]; simpl.
  - repeat constructor. exact H0.
  - destruct (str_eqb k pid); constructor; simpl in *; auto.
Qed.

Lemma record_hits_Forall (upd : Q -> signals -> signals)
  (hits : list (pystr * Q)) (d : list (pystr * signals)) :
  (forall h, In h hits -> P (upd (snd h) no_signals)) ->
  (forall h v, In h hits -> P v -> P (upd (snd h) v)) ->
  Forall (fun kv => P (snd kv)) d ->
  Forall (fun kv => P (snd kv)) (record_hits upd hits d).
Proof.
  unfold record_hits. revert d.
  induction hits as [|h hits IH]; intros d H0 Hupd Hd; simpl.
  - exact Hd.
  - apply IH.
    + intros h' Hin. apply H0. right. exact Hin.
    + intros h' v Hin. apply Hupd. right. exact Hin.
    + apply set_signal_Forall.
      * apply H0. left. reflexivity.
      * intros v. apply Hupd. left. reflexivity.
      * exact Hd.
Qed.

End Collect.

Lemma gather_signals (E : backends) (q : pystr) (sy ey : option Z)
  (src : option pystr) (limit : Z) :
  Forall
    (fun kv =>
       signals_from (bm25_hits E q sy ey src limit) (vec_hits E q limit)
         (snd kv))
    (id_scores (gather E q sy ey src limit)).
Proof.
  unfold gather; simpl.
  set (bh := bm25_hits E q sy ey src limit). set (vh := vec_hits E q limit).
  apply record_hits_Forall.
  - intros h Hin. split; simpl; [discriminate|].
    intros x [= <-]. eauto.
  - intros h v Hin [Hb Hv]. split; simpl; [exact Hb|].
    intros x [= <-]. eauto.
  - eapply List.Forall_impl;
      [|apply (record_hits_Forall
                 (fun sc => (forall x, bm25 sc = Some x ->
                                       exists h, In h bh /\ snd h = x)
                            /\ vec sc = None))].
    + intros kv [Hb Hv]. split; [exact Hb|]. rewrite Hv. discriminate.
    + intros h Hin. split; simpl; [|reflexivity]. intros x [= <-]. eauto.
    + intros h v Hin [Hb Hv]. split; simpl; [|exact Hv].
      intros x [= <-]. eauto.
    + constructor.
Qed.

(* ================================================================== *)
(** * Properties of [hybrid_search]                                    *)
(* ================================================================== *)

(** On the fused path the call returns the page cut from the sorted
    candidates, together with their number. *)
Lemma hybrid_search_fused (E : backends) (q : pystr) (sy ey : option Z)
  (src : option pystr) (limit offset : Z) (W : weights)
  (up tt : option (list pystr)) (results : list hit) (total : nat) :
  (index_exists E || index_ready E) = true ->
  id_scores (gather E q sy ey src limit) <> [] ->
  hybrid_search E q sy ey src limit offset W up tt = Some (results, total) ->
  exists combined,
    fused_candidates E q sy ey src limit W
      (match up with Some l => l | None => [] end) tt = Some combined
    /\ results
       = page_results (candidates_meta E (gather E q sy ey src limit))
           (sort_by_score_desc combined)
           (page_window (sort_by_score_desc combined) limit offset)
    /\ total = length combined.
Proof.
  intros Hav Hne. unfold hybrid_search, fused_candidates. rewrite Hav.
  destruct (id_scores (gather E q sy ey src limit)) as [|c0 d] eqn:Hd;
    [congruence|].
  destruct (fetch_meta E (gather E q sy ey src limit)) as [meta|] eqn:Hf;
    [|discriminate].
  rewrite (candidates_meta_fetched _ _ _ Hf).
  destruct (fuse _ _ meta (c0 :: d)) as [combined|]; [|discriminate].
  intros [= <- <-]. exists combined. repeat split.
  unfold sort_by_score_desc. apply stable_sort_length.
Qed.

Example hybrid_search_raises_with_topic_terms :
  hybrid_search env_three (u "deep") None None None 10 0 default_weights
    None (Some [u "deep"]) = None.
Proof. vm_compute. reflexivity. Qed.

(** C1 (failing input).  The vector index returns one paper whose row
    has no year; the caller asks for papers up to 2020.  The year filter
    is active, the year is missing, and the paper is returned. *)
Theorem missing_year_kept_under_end_year :
  exists h,
    hybrid_search env_missing_year (u "governance") None (Some 2020%Z) None
      10 0 default_weights None None = Some ([h], 1%nat)
    /\ paper_id (hit_paper h) = u "p1"
    /\ year (hit_paper h) = YNone.
Proof.
  eexists. split; [vm_compute; reflexivity|]. split; reflexivity.
Qed.

(** The same store and request with a lower bound instead: the paper is
    excluded, as the sibling branch of the filter intends. *)
Example missing_year_dropped_under_start_year :
  hybrid_search env_missing_year (u "governance") (Some 2018%Z) None None
    10 0 default_weights None None = Some ([], 0%nat).
Proof. vm_compute. reflexivity. Qed.

(** C2 (counterexample).  Two candidates with identical fused score are
    returned with the larger paper id first. *)
Lemma ties_not_ordered_by_paper_id :
  exists h1 h2 s,
    hybrid_search env_ties (u "notes") None None None 10 0 default_weights
      None None = Some ([h1; h2], 2%nat)
    /\ hit_score h1 = Some s /\ hit_score h2 = Some s
    /\ paper_id (hit_paper h1) = u "b" /\ paper_id (hit_paper h2) = u "a"
    /\ str_leb (u "a") (u "b") = true /\ str_leb (u "b") (u "a") = false.
Proof.
  do 3 eexists. split; [vm_compute; reflexivity|].
  repeat split; reflexivity.
Qed.

(** ** The order of the candidates *)

Lemma first_occurrences_ext (l : list pystr) :
  forall seen seen',
    (forall x, In x seen <-> In x seen') ->
    first_occurrences seen l = first_occurrences seen' l.
Proof.
  induction l as [|x l IH]; intros seen seen' Hs; simpl; [reflexivity|].
  assert (He : existsb (str_eqb x) seen = existsb (str_eqb x) seen').
  { apply eq_true_iff_eq.
    rewrite !List.existsb_exists. split; intros (y & Hy & E);
      exists y; (split; [apply Hs; exact Hy|exact E]). }
  rewrite He. destruct (existsb (str_eqb x) seen').
  - apply IH, Hs.
  - f_equal. apply IH. intros y. simpl. rewrite Hs. reflexivity.
Qed.

Lemma first_occurrences_app (l1 : list pystr) :
  forall seen l2,
    first_occurrences seen (l1 ++ l2)
    = first_occurrences seen l1 ++ first_occurrences (l1 ++ seen) l2.
Proof.
  induction l1 as [|x l1 IH]; intros seen l2; simpl; [reflexivity|].
  destruct (existsb (str_eqb x) seen) eqn:Hx.
  - rewrite IH. f_equal. apply first_occurrences_ext.
    intros y. simpl. rewrite !in_app_iff. split; [auto|].
    intros [<-|H]; [|exact H]. right.
    apply List.existsb_exists in Hx. destruct Hx as (z & Hz & E).
    apply str_eqb_eq in E. subst z. exact Hz.
  - simpl. rewrite IH. f_equal. f_equal. apply first_occurrences_ext.
    intros y. simpl. rewrite !in_app_iff. simpl. tauto.
Qed.

Lemma set_signal_keys (upd : signals -> signals) (pid : pystr)
  (d : list (pystr * signals)) :
  List.map fst (set_signal upd pid d)
  = List.map fst d ++ first_occurrences (List.map fst d) [pid].
Proof.
  induction d as [|[k v] d IH]; simpl; [reflexivity|].
  rewrite (str_eqb_sym pid k).
  destruct (str_eqb k pid) eqn:E; simpl.
  - rewrite app_nil_r. reflexivity.
  - rewrite IH. reflexivity.
Qed.

Lemma record_hits_keys (upd : Q -> signals -> signals)
  (hits : list (pystr * Q)) :
  forall d,
    List.map fst (record_hits upd hits d)
    = List.map fst d
      ++ first_occurrences (List.map fst d) (List.map fst hits).
Proof.
  unfold record_hits.
  induction hits as [|h hits IH]; intros d; simpl.
  - rewrite app_nil_r. reflexivity.
  - rewrite IH, set_signal_keys. simpl.
    destruct (existsb (str_eqb (fst h)) (List.map fst d)) eqn:Hx.
    + rewrite app_nil_r. reflexivity.
    + rewrite <- app_assoc. simpl. f_equal. f_equal.
      apply first_occurrences_ext. intros y.
      rewrite in_app_iff. simpl. tauto.
Qed.

Lemma first_occurrences_In (l : list pystr) :
  forall seen x,
    In x (first_occurrences seen l) <-> In x l /\ ~ In x seen.
Proof.
  induction l as [|a l IH]; intros seen x; simpl; [tauto|].
  destruct (existsb (str_eqb a) seen) eqn:Ha.
  - apply List.existsb_exists in Ha. destruct Ha as (z & Hz & E).
    apply str_eqb_eq in E. subst z.
    rewrite IH. split; [tauto|]. intros [[<-|H] Hn]; [contradiction|auto].
  - assert (Hn : ~ In a seen).
    { intros H.
      assert (Ht : existsb (str_eqb a) seen = true).
      { apply List.existsb_exists. exists a. split; [exact H|].
        apply str_eqb_refl. }
      congruence. }
    simpl. rewrite IH. simpl. split.
    + intros [<-|[H1 H2]]; [auto|]. split; [auto|]. tauto.
    + intros [[<-|H1] H2]; [auto|].
      destruct (decide (a = x)) as [->|Hne]; [auto|].
      right. split; [exact H1|]. intros [H|H]; [congruence|contradiction].
Qed.

(** The candidates are listed in the order in which they were collected:
    the keyword hits in the order of the response, then the vector hits
    that were not seen before. *)
Lemma gather_keys_order (E : backends) (q : pystr) (sy ey : option Z)
  (src : option pystr) (limit : Z) :
  List.map fst (id_scores (gather E q sy ey src limit))
  = collection_order E q sy ey src limit.
Proof.
  unfold gather, collection_order. cbn [id_scores].
  rewrite !record_hits_keys. simpl.
  rewrite first_occurrences_app. f_equal.
  apply first_occurrences_ext. intros x.
  rewrite first_occurrences_In, in_app_iff. simpl. tauto.
Qed.

Lemma before_In {A} (x y : A) (l : list A) :
  before x y l -> In x l /\ In y l.
Proof.
  induction l as [|a l IH]; simpl; [intros []|].
  intros [[-> H]|H]; [auto|]. destruct (IH H). auto.
Qed.

Lemma before_filter {A} (f : A -> bool) (x y : A) (l : list A) :
  before x y (List.filter f l) -> before x y l.
Proof.
  induction l as [|a l IH]; simpl; [intros []|].
  destruct (f a); simpl.
  - intros [[-> H]|H]; [|right; apply IH, H].
    left. split; [reflexivity|]. apply List.filter_In in H. tauto.
  - intros H. right. apply IH, H.
Qed.

Lemma before_filter_intro {A} (f : A -> bool) (x y : A) (l : list A) :
  f x = true -> f y = true -> before x y l ->
  before x y (List.filter f l).
Proof.
  intros Hx Hy. induction l as [|a l IH]; simpl; [intros []|].
  intros [[-> H]|H].
  - rewrite Hx. simpl. left. split; [reflexivity|].
    apply List.filter_In. auto.
  - destruct (f a); simpl; [right|]; apply IH, H.
Qed.

Lemma before_map {A B} (f : A -> B) (x y : A) (l : list A) :
  before x y l -> before (f x) (f y) (List.map f l).
Proof.
  induction l as [|a l IH]; simpl; [intros []|].
  intros [[-> H]|H]; [left|right; apply IH, H].
  split; [reflexivity|apply List.in_map, H].
Qed.

Lemma map_fst_filter {A B} (f : A -> bool) (l : list (A * B)) :
  List.map fst (List.filter (fun c => f (fst c)) l)
  = List.filter f (List.map fst l).
Proof.
  induction l as [|c l IH]; simpl; [reflexivity|].
  destruct (f (fst c)); simpl; rewrite IH; reflexivity.
Qed.

(** C2 (amended).  On the fused path the returned page is cut from a
    ranking that is a permutation of the filtered candidates and is
    descending in the fused score.  The candidates are listed in the
    order in which they were collected, the keyword hits in the order of
    the response and then the vector hits that were not seen before; and
    of two candidates with identical fused score, the one that the
    ranking places first was also collected first.  The paper id plays no
    part. *)
Theorem ranking_ties_keep_candidate_order (E : backends) (q : pystr)
  (sy ey : option Z) (src : option pystr) (limit offset : Z) (W : weights)
  (up tt : option (list pystr)) (results : list hit) (total : nat) :
  (index_exists E || index_ready E) = true ->
  id_scores (gather E q sy ey src limit) <> [] ->
  hybrid_search E q sy ey src limit offset W up tt = Some (results, total) ->
  exists combined ranked,
    fused_candidates E q sy ey src limit W
      (match up with Some l => l | None => [] end) tt = Some combined
    /\ List.map fst combined
       = List.map fst
           (List.filter
              (fun c =>
                 passes_filters sy ey src
                   (candidates_meta E (gather E q sy ey src limit) !! fst c))
              (id_scores (gather E q sy ey src limit)))
    /\ List.map fst combined
       = List.filter
           (fun pid =>
              passes_filters sy ey src
                (candidates_meta E (gather E q sy ey src limit) !! pid))
           (collection_order E q sy ey src limit)
    /\ results
       = page_results (candidates_meta E (gather E q sy ey src limit))
           ranked (page_window ranked limit offset)
    /\ Permutation ranked combined
    /\ StronglySorted (fun x y => (snd y <= snd x)%Q) ranked
    /\ (forall s : Q,
          List.filter (fun c => Qeq_bool (snd c) s) ranked
          = List.filter (fun c => Qeq_bool (snd c) s) combined)
    /\ forall a b,
         before a b ranked -> (snd a == snd b)%Q ->
         before (fst a) (fst b) (collection_order E q sy ey src limit).
Proof.
  intros Hav Hne Hs.
  destruct (hybrid_search_fused _ _ _ _ _ _ _ _ _ _ _ _ Hav Hne Hs)
    as (combined & Hc & Hr & Ht).
  exists combined, (sort_by_score_desc combined).
  pose proof (fuse_keys _ _ _ _ _
                (proj2 (fused_candidates_fuse _ _ _ _ _ _ _ _ _ _ Hc)))
    as Hkeys.
  assert (Hord : List.map fst combined
                 = List.filter
                     (fun pid =>
                        passes_filters sy ey src
                          (candidates_meta E (gather E q sy ey src limit)
                             !! pid))
                     (collection_order E q sy ey src limit)).
  { rewrite Hkeys, <- gather_keys_order.
    apply (map_fst_filter
             (fun pid =>
                passes_filters sy ey src
                  (candidates_meta E (gather E q sy ey src limit) !! pid))). }
  assert (Hties : forall s : Q,
             List.filter (fun c => Qeq_bool (snd c) s)
               (sort_by_score_desc combined)
             = List.filter (fun c => Qeq_bool (snd c) s) combined).
  { intros s. apply stable_sort_filter.
    intros x y Hx Hy. apply Qeq_bool_eq in Hx, Hy.
    apply Qlt_bool_false. rewrite Hx, Hy. apply Qle_refl. }
  split; [exact Hc|]. split; [exact Hkeys|]. split; [exact Hord|].
  split; [exact Hr|]. unfold sort_by_score_desc.
  split; [apply stable_sort_perm|]. split; [|split; [exact Hties|]].
  - apply stable_sort_sorted.
    + intros x y z Hxy Hyz. eapply Qle_trans; eassumption.
    + intros y x H. apply Qlt_bool_iff in H. apply Qlt_le_weak, H.
    + intros y x H. apply Qlt_bool_false in H. exact H.
  - intros a b Hab Heq.
    apply (before_filter_intro (fun c => Qeq_bool (snd c) (snd a))) in Hab.
    + fold (sort_by_score_desc combined) in Hab. rewrite Hties in Hab.
      apply before_filter in Hab.
      apply (before_map fst) in Hab. rewrite Hord in Hab.
      apply before_filter in Hab. exact Hab.
    + apply Qeq_eq_bool. reflexivity.
    + apply Qeq_eq_bool. symmetry. exact Heq.
Qed.

(** Two indexes with equal weights: [zeta], a keyword hit, and [c], a
    vector hit, have the same fused score; [zeta] was collected first and
    is ranked first, behind [a], which both indexes returned. *)
Lemma ranking_ties_keep_candidate_order_witness :
  collection_order env_two_indexes (u "notes") None None None 10
  = [u "zeta"; u "a"; u "c"]
  /\ hit_ids (hybrid_search env_two_indexes (u "notes") None None None 10 0
                even_weights None None)
     = [u "a"; u "zeta"; u "c"]
  /\ List.map (fun h => option_map Qred (hit_score h))
       (hits_of (hybrid_search env_two_indexes (u "notes") None None None
                   10 0 even_weights None None))
     = [Some (7 # 10)%Q; Some (9 # 20)%Q; Some (9 # 20)%Q]
  /\ exists combined ranked,
       fused_candidates env_two_indexes (u "notes") None None None 10
         even_weights [] None = Some combined
       /\ hits_of (hybrid_search env_two_indexes (u "notes") None None None
                     10 0 even_weights None None)
          = page_results
              (candidates_meta env_two_indexes
                 (gather env_two_indexes (u "notes") None None None 10))
              ranked (page_window ranked 10 0)
       /\ Permutation ranked combined
       /\ StronglySorted (fun x y => (snd y <= snd x)%Q) ranked
       /\ forall a b,
            before a b ranked -> (snd a == snd b)%Q ->
            before (fst a) (fst b)
              (collection_order env_two_indexes (u "notes") None None None
                 10).
Proof.
  split; [vm_compute; reflexivity|].
  split; [vm_compute; reflexivity|].
  split; [vm_compute; reflexivity|].
  destruct (ranking_ties_keep_candidate_order env_two_indexes (u "notes")
              None None None 10 0 even_weights None None
              (hits_of (hybrid_search env_two_indexes (u "notes") None None
                          None 10 0 even_weights None None))
              3%nat)
    as (combined & ranked & Hc & _ & _ & Hr & Hperm & Hsorted & _ & Hb).
  - reflexivity.
  - vm_compute. discriminate.
  - vm_compute. reflexivity.
  - exists combined, ranked. auto.
Defined.

(** C3.  With non-negative weights and non-negative raw scores from the
    backends, every candidate of the fused path has a fused score in
    [[0, w1 + w2 + w3 + w4 + title_bonus]], and so has every returned
    item. *)
Theorem fused_score_bounded (E : backends) (q : pystr) (sy ey : option Z)
  (src : option pystr) (limit offset : Z) (W : weights)
  (up tt : option (list pystr)) (results : list hit) (total : nat) :
  (0 <= w1 W)%Q -> (0 <= w2 W)%Q -> (0 <= w3 W)%Q -> (0 <= w4 W)%Q ->
  (0 <= title_bonus W)%Q ->
  Forall (fun h => (0 <= snd h)%Q) (bm25_hits E q sy ey src limit) ->
  Forall (fun h => (0 <= snd h)%Q) (vec_hits E q limit) ->
  (index_exists E || index_ready E) = true ->
  id_scores (gather E q sy ey src limit) <> [] ->
  hybrid_search E q sy ey src limit offset W up tt = Some (results, total) ->
  exists combined,
    fused_candidates E q sy ey src limit W
      (match up with Some l => l | None => [] end) tt = Some combined
    /\ Forall
         (fun c =>
            (0 <= snd c <= w1 W + w2 W + w3 W + w4 W + title_bonus W)%Q)
         combined
    /\ Forall
         (fun h =>
            exists s, hit_score h = Some s
              /\ (0 <= s <= w1 W + w2 W + w3 W + w4 W + title_bonus W)%Q)
         results.
Proof.
  intros H1 H2 H3 H4 H5 Hb Hv Hav Hne Hs.
  destruct (hybrid_search_fused _ _ _ _ _ _ _ _ _ _ _ _ Hav Hne Hs)
    as (combined & Hc & Hr & Ht).
  exists combined. split; [exact Hc|].
  assert (Hbound :
            Forall
              (fun c =>
                 (0 <= snd c <= w1 W + w2 W + w3 W + w4 W + title_bonus W)%Q)
              combined).
  { apply List.Forall_forall. intros [pid s] Hin.
    destruct (fuse_In _ _ _ _ _ pid s
                (proj2 (fused_candidates_fuse _ _ _ _ _ _ _ _ _ _ Hc)) Hin) as (sc & Hsc & _ & Hscore).
    pose proof (gather_signals E q sy ey src limit) as Hg.
    rewrite List.Forall_forall in Hg. destruct (Hg _ Hsc) as [Gb Gv].
    simpl in Gb, Gv. unfold fused_score in Hscore.
    destruct (_title_match_bonus _ tt q) as [tb|] eqn:Htb; [|discriminate].
    injection Hscore as <-. simpl.
    apply weighted_sum_bound; try assumption.
    - apply normalised_signal_unit; assumption.
    - apply normalised_signal_unit; assumption.
    - apply journal_weight_unit.
    - apply user_pref_score_unit.
    - eapply title_match_bonus_unit; exact Htb. }
  split; [exact Hbound|].
  assert (Hz : (0 <= w1 W + w2 W + w3 W + w4 W + title_bonus W)%Q) by lra.
  assert (Hsorted :
            Forall
              (fun c =>
                 (0 <= snd c <= w1 W + w2 W + w3 W + w4 W + title_bonus W)%Q)
              (sort_by_score_desc combined)).
  { eapply Permutation_Forall; [|exact Hbound].
    symmetry. apply stable_sort_perm. }
  subst results.
  generalize (page_window (sort_by_score_desc combined) limit offset).
  intros pids. induction pids as [|pid pids IH]; simpl; [constructor|].
  destruct (_ !! pid); [|exact IH].
  constructor; [|exact IH]. simpl. eexists. split; [reflexivity|].
  unfold first_score.
  destruct (List.find _ (sort_by_score_desc combined)) as [c|] eqn:Hf.
  - apply List.find_some in Hf. destruct Hf as [Hin _].
    rewrite List.Forall_forall in Hsorted. apply Hsorted, Hin.
  - split; [apply Qle_refl | exact Hz].
Qed.

Lemma fused_score_bounded_witness :
  exists combined,
    fused_candidates env_three (u "deep") None None None 10 default_weights
      [] None = Some combined
    /\ Forall
         (fun c =>
            (0 <= snd c
             <= w1 default_weights + w2 default_weights + w3 default_weights
                + w4 default_weights + title_bonus default_weights)%Q)
         combined
    /\ Forall
         (fun h =>
            exists s, hit_score h = Some s
              /\ (0 <= s
                  <= w1 default_weights + w2 default_weights
                     + w3 default_weights + w4 default_weights
                     + title_bonus default_weights)%Q)
         (hits_of (hybrid_search env_three (u "deep") None None None 10 0
                     default_weights None None)).
Proof.
  apply (fused_score_bounded env_three (u "deep") None None None 10 0
           default_weights None None _ 3%nat).
  - discriminate.
  - discriminate.
  - discriminate.
  - discriminate.
  - discriminate.
  - vm_compute. repeat constructor; discriminate.
  - vm_compute. constructor.
  - reflexivity.
  - vm_compute. discriminate.
  - vm_compute. reflexivity.
Defined.

(** A run through the three signals of [env_three]: the normalised BM25
    score, the journal tier and the title bonus. *)
Example fused_scores_env_three :
  option_map (List.map (fun c => (fst c, Qred (snd c))))
    (fused_candidates env_three (u "deep") None None None 10 default_weights
       [] None)
  = Some [(u "a", 9 # 20); (u "b", 3 # 10); (u "c", 11 # 25)]%Q.
Proof. vm_compute. reflexivity. Qed.

Lemma page_results_app (meta : gmap pystr paper) (c : list (pystr * Q))
  (p1 p2 : list pystr) :
  page_results meta c (p1 ++ p2)
  = page_results meta c p1 ++ page_results meta c p2.
Proof.
  induction p1 as [|pid p1 IH]; simpl; [reflexivity|].
  destruct (meta !! pid); simpl; rewrite IH; reflexivity.
Qed.

(** C5 (counterexample).  With one and the same keyword index, the pages
    for [limit = 1] at offsets 0 and 1 hold papers a and b, while the page
    for [limit = 2] at offset 0 holds a and c: the larger limit makes the
    ranker ask the index for more hits, and the additional hit c outranks
    b after fusion. *)
Lemma pages_depend_on_limit :
  hit_ids (hybrid_search env_three (u "deep") None None None 1 0
             default_weights None None)
  ++ hit_ids (hybrid_search env_three (u "deep") None None None 1 1
                default_weights None None)
  = [u "a"; u "b"]
  /\ hit_ids (hybrid_search env_three (u "deep") None None None 2 0
                default_weights None None)
     = [u "a"; u "c"]
  /\ total_of (hybrid_search env_three (u "deep") None None None 1 0
                 default_weights None None) = 2%nat
  /\ total_of (hybrid_search env_three (u "deep") None None None 2 0
                 default_weights None None) = 3%nat.
Proof. repeat split; vm_compute; reflexivity. Qed.

(** C5 (amended).  On the fused path, if the backends answer the request
    for [2k] hits made by a page of size [k] and the request for [4k]
    hits made by a page of size [2k] with the same hits, then the pages
    at offsets 0 and [k] of size [k] concatenate to the page at offset 0
    of size [2k], and the three calls report the same total. *)
Theorem pagination_consistent (E : backends) (q : pystr) (sy ey : option Z)
  (src : option pystr) (k : Z) (W : weights) (up tt : option (list pystr))
  (p1 p2 : list hit) (t1 t2 : nat) :
  (0 < k)%Z ->
  bm25_hits E q sy ey src (k + k) = bm25_hits E q sy ey src k ->
  vec_hits E q (k + k) = vec_hits E q k ->
  (index_exists E || index_ready E) = true ->
  id_scores (gather E q sy ey src k) <> [] ->
  hybrid_search E q sy ey src k 0 W up tt = Some (p1, t1) ->
  hybrid_search E q sy ey src k k W up tt = Some (p2, t2) ->
  hybrid_search E q sy ey src (k + k) 0 W up tt = Some (p1 ++ p2, t1)
  /\ t2 = t1.
Proof.
  intros Hk Hb Hv Hav Hne Hs1 Hs2.
  assert (Hg : gather E q sy ey src (k + k) = gather E q sy ey src k).
  { unfold gather. rewrite Hb, Hv. reflexivity. }
  destruct (hybrid_search_fused _ _ _ _ _ _ _ _ _ _ _ _ Hav Hne Hs1)
    as (c1 & Hc1 & Hr1 & Ht1).
  destruct (hybrid_search_fused _ _ _ _ _ _ _ _ _ _ _ _ Hav Hne Hs2)
    as (c2 & Hc2 & Hr2 & Ht2).
  rewrite Hc1 in Hc2. injection Hc2 as <-.
  split; [|congruence].
  destruct (fused_candidates_fuse _ _ _ _ _ _ _ _ _ _ Hc1) as [Hf Hfu].
  unfold hybrid_search. rewrite Hav, Hg.
  destruct (id_scores (gather E q sy ey src k)) as [|c0 d] eqn:Hd;
    [congruence|].
  rewrite Hf, Hfu.
  f_equal. f_equal.
  - rewrite Hr1, Hr2, <- page_results_app. f_equal.
    unfold page_window. rewrite <- List.map_app. f_equal.
    apply eq_sym, py_slice_pages. exact Hk.
  - rewrite Ht1. unfold sort_by_score_desc. apply stable_sort_length.
Qed.

Lemma pagination_consistent_witness :
  hybrid_search env_three (u "deep") None None None (2 + 2) 0 default_weights
    None None
  = Some
      (hits_of (hybrid_search env_three (u "deep") None None None 2 0
                  default_weights None None)
       ++ hits_of (hybrid_search env_three (u "deep") None None None 2 2
                     default_weights None None), 3%nat)
  /\ 3%nat = 3%nat.
Proof.
  apply (pagination_consistent env_three (u "deep") None None None 2
           default_weights None None).
  - lia.
  - vm_compute. reflexivity.
  - vm_compute. reflexivity.
  - reflexivity.
  - vm_compute. discriminate.
  - vm_compute. reflexivity.
  - vm_compute. reflexivity.
Defined.

Lemma page_results_length (meta : gmap pystr paper) (c : list (pystr * Q))
  (pids : list pystr) :
  (length (page_results meta c pids) <= length pids)%nat.
Proof.
  induction pids as [|pid pids IH]; simpl; [lia|].
  destruct (meta !! pid); simpl; lia.
Qed.

Lemma page_results_short (meta : gmap pystr paper) (c : list (pystr * Q))
  (pids : list pystr) (pid : pystr) :
  In pid pids -> meta !! pid = None ->
  (length (page_results meta c pids) < length pids)%nat.
Proof.
  intros Hin Hnone. induction pids as [|p pids IH]; simpl; [destruct Hin|].
  destruct Hin as [->|Hin].
  - rewrite Hnone. pose proof (page_results_length meta c pids). lia.
  - specialize (IH Hin). destruct (meta !! p); simpl; lia.
Qed.

Lemma page_results_from_meta (meta : gmap pystr paper)
  (c : list (pystr * Q)) (pids : list pystr) (h : hit) :
  In h (page_results meta c pids) ->
  exists pid, In pid pids /\ meta !! pid = Some (hit_paper h).
Proof.
  induction pids as [|p pids IH]; simpl; [intros []|].
  destruct (meta !! p) as [x|] eqn:Hp.
  - intros [<-|Hin].
    + exists p. split; [left; reflexivity | exact Hp].
    + destruct (IH Hin) as (pid & H1 & H2). exists pid. auto.
  - intros Hin. destruct (IH Hin) as (pid & H1 & H2). exists pid. auto.
Qed.

Lemma page_window_length {A} (l : list A) (limit offset : Z) :
  (0 <= limit)%Z ->
  (Z.of_nat (length (py_slice l offset (offset + limit))) <= limit)%Z.
Proof.
  intros Hl. unfold py_slice, slice_index.
  rewrite length_firstn, length_skipn.
  destruct (offset <? 0)%Z eqn:Ho, (offset + limit <? 0)%Z eqn:Hol;
    rewrite ?Z.ltb_lt, ?Z.ltb_ge in *; lia.
Qed.

Lemma page_results_ids (meta : gmap pystr paper) (c : list (pystr * Q))
  (pids : list pystr) :
  (forall k p, meta !! k = Some p -> paper_id p = k) ->
  List.map hit_id (page_results meta c pids)
  = List.filter (has_metadata meta) pids.
Proof.
  intros Hkey. unfold has_metadata.
  induction pids as [|p pids IH]; simpl; [reflexivity|].
  destruct (meta !! p) as [x|] eqn:Hp; simpl; [|exact IH].
  unfold hit_id at 1. simpl. rewrite (Hkey _ _ Hp), IH. reflexivity.
Qed.

(** A slice with a non-negative offset and length. *)
Lemma py_slice_nonneg {A} (l : list A) (offset limit : Z) :
  (0 <= offset)%Z -> (0 <= limit)%Z ->
  py_slice l offset (offset + limit)
  = firstn (Z.to_nat limit) (skipn (Z.to_nat offset) l).
Proof.
  intros Ho Hl. unfold py_slice, slice_index.
  destruct (offset <? 0)%Z eqn:E1; [apply Z.ltb_lt in E1; lia|].
  destruct (offset + limit <? 0)%Z eqn:E2; [apply Z.ltb_lt in E2; lia|].
  destruct (Z_lt_le_dec offset (Z.of_nat (length l))) as [Hlt|Hge].
  - rewrite (Z.min_l offset) by lia.
    destruct (Z_le_gt_dec (offset + limit) (Z.of_nat (length l)))
      as [Hin|Hout].
    + rewrite Z.min_l by lia. f_equal. lia.
    + rewrite Z.min_r by lia.
      rewrite !List.firstn_all2; [reflexivity| |];
        rewrite length_skipn; lia.
  - rewrite !List.skipn_all2 by lia.
    rewrite !List.firstn_nil. reflexivity.
Qed.

(** C10.  On the fused path without year or source filter, a paper id
    that a backend returned but that has no row in the metadata store
    passes the filters: it has a rank in the ranking of all candidates,
    and the total counts it.  The page window is the part of the ranking
    from [offset] on, up to [limit] ids, and the returned page holds the
    ids of the window that have metadata.  So when the rank of the id
    lies within the window, the id occupies a slot of the window and is
    not returned: the page is shorter than the window and shorter than
    [limit], although the total says that more candidates remain. *)
Theorem absent_metadata_counted_not_returned (E : backends) (q : pystr)
  (src : option pystr) (limit offset : Z) (W : weights)
  (up tt : option (list pystr)) (results : list hit) (total : nat)
  (pid : pystr) :
  (index_exists E || index_ready E) = true ->
  (src = None \/ src = Some []) ->
  (0 <= offset)%Z -> (0 <= limit)%Z ->
  In pid (List.map fst (id_scores (gather E q None None src limit))) ->
  candidates_meta E (gather E q None None src limit) !! pid = None ->
  hybrid_search E q None None src limit offset W up tt
  = Some (results, total) ->
  let meta := candidates_meta E (gather E q None None src limit) in
  let ranked :=
    ranking E q None None src limit W
      (match up with Some l => l | None => [] end) tt in
  let window := page_window ranked limit offset in
  Permutation (List.map fst ranked)
    (List.map fst (id_scores (gather E q None None src limit)))
  /\ total = length ranked
  /\ (exists i, List.map fst ranked !! i = Some pid)
  /\ window
     = firstn (Z.to_nat limit)
         (skipn (Z.to_nat offset) (List.map fst ranked))
  /\ List.map hit_id results = List.filter (has_metadata meta) window
  /\ (forall h, In h results -> hit_id h <> pid)
  /\ forall i,
       List.map fst ranked !! i = Some pid ->
       (offset <= Z.of_nat i < offset + limit)%Z ->
       In pid window
       /\ (length results < length window)%nat
       /\ (Z.of_nat (length results) < limit)%Z
       /\ (offset + Z.of_nat (length results) < Z.of_nat total)%Z.
Proof.
  intros Hav Hsrc Hoff Hlim Hin Hnone Hs meta ranked window.
  assert (Hne : id_scores (gather E q None None src limit) <> []).
  { intros H0. rewrite H0 in Hin. destruct Hin. }
  destruct (hybrid_search_fused _ _ _ _ _ _ _ _ _ _ _ _ Hav Hne Hs)
    as (combined & Hc & Hr & Ht).
  assert (Hrk : ranked = sort_by_score_desc combined).
  { unfold ranked, ranking. rewrite Hc. reflexivity. }
  fold meta in Hr. rewrite <- Hrk in Hr. fold window in Hr.
  assert (Hkeys : List.map fst combined
                  = List.map fst (id_scores (gather E q None None src limit))).
  { rewrite (fuse_keys _ _ _ _ _
               (proj2 (fused_candidates_fuse _ _ _ _ _ _ _ _ _ _ Hc))).
    f_equal.
    apply List.forallb_filter_id. apply List.forallb_forall. intros x _.
    unfold passes_filters. simpl.
    destruct Hsrc as [->| ->]; reflexivity. }
  assert (Hperm : Permutation (List.map fst ranked) (List.map fst combined)).
  { rewrite Hrk. apply Permutation_map. apply stable_sort_perm. }
  assert (Hlen : total = length ranked).
  { rewrite Ht, Hrk. symmetry. apply stable_sort_length. }
  assert (Hwin : window
                 = firstn (Z.to_nat limit)
                     (skipn (Z.to_nat offset) (List.map fst ranked))).
  { unfold window, page_window.
    rewrite (py_slice_nonneg _ _ _ Hoff Hlim), List.skipn_map, List.firstn_map.
    reflexivity. }
  assert (Hids : List.map hit_id results
                 = List.filter (has_metadata meta) window).
  { rewrite Hr. apply page_results_ids. apply candidates_meta_key. }
  split; [rewrite <- Hkeys; exact Hperm|].
  split; [exact Hlen|].
  split.
  { apply list_elem_of_lookup_1, list_elem_of_In.
    eapply Permutation_in; [symmetry; exact Hperm|].
    rewrite Hkeys. exact Hin. }
  split; [exact Hwin|]. split; [exact Hids|]. split.
  { intros h Hh Heq.
    assert (Hf : In pid (List.filter (has_metadata meta) window)).
    { rewrite <- Hids, <- Heq. apply List.in_map, Hh. }
    apply List.filter_In in Hf. destruct Hf as [_ Hf].
    unfold has_metadata, meta in Hf. rewrite Hnone in Hf. discriminate. }
  intros i Hi Hrange.
  assert (Hw : In pid window).
  { apply list_elem_of_In, (list_elem_of_lookup_2 _ (i - Z.to_nat offset)).
    rewrite Hwin.
    change (@firstn pystr) with (@take pystr).
    change (@skipn pystr) with (@drop pystr).
    rewrite lookup_take_lt by lia. rewrite lookup_drop.
    replace (Z.to_nat offset + (i - Z.to_nat offset))%nat with i by lia.
    exact Hi. }
  split; [exact Hw|].
  pose proof (page_results_short meta ranked window pid Hw Hnone) as Hlt.
  rewrite <- Hr in Hlt.
  assert (Hwl : (length window <= Z.to_nat limit)%nat
                /\ (length window <= length ranked - Z.to_nat offset)%nat).
  { rewrite Hwin, length_firstn, length_skipn, length_map. lia. }
  split; [exact Hlt|]. split; lia.
Qed.

(** A page of size 2 over three candidates, the second of which has no
    metadata: it takes the second slot of the window, one item is
    returned, and the total says 3. *)
Lemma absent_metadata_counted_not_returned_witness :
  let ranked :=
    ranking env_ghost (u "x") None None None 2 default_weights [] None in
  let results :=
    hits_of (hybrid_search env_ghost (u "x") None None None 2 0
               default_weights None None) in
  List.map fst ranked = [u "a"; u "ghost"; u "c"]
  /\ page_window ranked 2 0 = [u "a"; u "ghost"]
  /\ In (u "ghost") (page_window ranked 2 0)
  /\ (length results < length (page_window ranked 2 0))%nat
  /\ (Z.of_nat (length results) < 2)%Z
  /\ (0 + Z.of_nat (length results) < Z.of_nat 3)%Z.
Proof.
  intros ranked results.
  split; [vm_compute; reflexivity|].
  split; [vm_compute; reflexivity|].
  assert (H0 : (0 <= 0)%Z) by lia.
  assert (H2 : (0 <= 2)%Z) by lia.
  assert (Hg : In (u "ghost")
                 (List.map fst
                    (id_scores
                       (gather env_ghost (u "x") None None None 2)))).
  { vm_compute. right. left. reflexivity. }
  destruct (absent_metadata_counted_not_returned env_ghost (u "x") None 2 0
              default_weights None None results 3%nat (u "ghost")
              eq_refl (or_introl eq_refl) H0 H2 Hg eq_refl eq_refl)
    as (_ & _ & _ & _ & _ & _ & H).
  apply (H 1%nat); [vm_compute; reflexivity|lia].
Defined.

Example ghost_page :
  hit_ids (hybrid_search env_ghost (u "x") None None None 2 0
             default_weights None None) = [u "a"]
  /\ total_of (hybrid_search env_ghost (u "x") None None None 2 0
                 default_weights None None) = 3%nat.
Proof. split; vm_compute; reflexivity. Qed.

(* ================================================================== *)
(** * Regular expressions                                              *)
(* ================================================================== *)

Lemma forallb_weaken {A} (f g : A -> bool) (l : list A) :
  (forall x, f x = true -> g x = true) ->
  forallb f l = true -> forallb g l = true.
Proof.
  intros Hfg. induction l as [|x l IH]; simpl; [reflexivity|].
  rewrite !andb_true_iff. intros [H1 H2]. split; auto.
Qed.

(** What a successful match consumes is a prefix of the input made of
    characters of the expression, and the continuation succeeded on the
    rest. *)
Lemma star_match_consumes {R} (f : N -> bool) (s : pystr) :
  forall (prev : option N) (k : option N -> pystr -> option R) (x : R),
    star_match f prev s k = Some x ->
    exists w rest p,
      s = w ++ rest /\ forallb f w = true /\ k p rest = Some x.
Proof.
  induction s as [|c s IH]; intros prev k x; simpl.
  - intros H. exists [], [], prev. auto.
  - destruct (f c) eqn:Hc.
    + destruct (star_match f (Some c) s k) as [y|] eqn:Hs.
      * intros [= <-]. destruct (IH _ _ _ Hs) as (w & rest & p & -> & Hw & Hk).
        exists (c :: w), rest, p. simpl. rewrite Hc, Hw. auto.
      * intros H. exists [], (c :: s), prev. auto.
    + intros H. exists [], (c :: s), prev. auto.
Qed.

Lemma rmatch_consumes {R} (ci : bool) (r : regex) :
  forall (prev : option N) (s : pystr)
         (k : option N -> pystr -> option R) (x : R),
    rmatch ci r prev s k = Some x ->
    exists w rest p,
      s = w ++ rest /\ forallb (re_chars ci r) w = true
      /\ k p rest = Some x.
Proof.
  induction r as [|c|f|r1 IH1 r2 IH2|r1 IH1 r2 IH2|r1 IH1|f|];
    intros prev s k x; simpl.
  - intros H. exists [], s, prev. auto.
  - destruct s as [|d s]; [discriminate|].
    destruct (char_matches ci c d) eqn:Hc; [|discriminate].
    intros H. exists [d], s, (Some d). simpl. rewrite Hc. auto.
  - destruct s as [|d s]; [discriminate|].
    destruct (f d) eqn:Hc; [|discriminate].
    intros H. exists [d], s, (Some d). simpl. rewrite Hc. auto.
  - intros H.
    destruct (IH1 _ _ _ _ H) as (w1 & rest1 & p1 & -> & Hw1 & H1).
    destruct (IH2 _ _ _ _ H1) as (w2 & rest & p & -> & Hw2 & Hk).
    exists (w1 ++ w2), rest, p. rewrite <- app_assoc.
    split; [reflexivity|]. split; [|exact Hk].
    rewrite forallb_app. apply andb_true_iff. split.
    + eapply forallb_weaken; [|exact Hw1]. intros c ->. reflexivity.
    + eapply forallb_weaken; [|exact Hw2]. intros c ->. apply orb_true_r.
  - destruct (rmatch ci r1 prev s k) as [y|] eqn:H1.
    + intros [= <-].
      destruct (IH1 _ _ _ _ H1) as (w & rest & p & -> & Hw & Hk).
      exists w, rest, p. split; [reflexivity|]. split; [|exact Hk].
      eapply forallb_weaken; [|exact Hw]. intros c ->. reflexivity.
    + intros H2.
      destruct (IH2 _ _ _ _ H2) as (w & rest & p & -> & Hw & Hk).
      exists w, rest, p. split; [reflexivity|]. split; [|exact Hk].
      eapply forallb_weaken; [|exact Hw]. intros c ->. apply orb_true_r.
  - destruct (rmatch ci r1 prev s k) as [y|] eqn:H1.
    + intros [= <-]. apply (IH1 _ _ _ _ H1).
    + intros H. exists [], s, prev. auto.
  - apply star_match_consumes.
  - destruct (xorb _ _); [|discriminate].
    intros H. exists [], s, prev. auto.
Qed.

Lemma match_here_prefix (ci : bool) (r : regex) (prev : option N)
  (s : pystr) (n : nat) :
  match_here ci r prev s = Some n ->
  forallb (re_chars ci r) (firstn n s) = true.
Proof.
  unfold match_here.
  destruct (rmatch ci r prev s (fun _ rest => Some rest)) as [rest|] eqn:H;
    [|discriminate].
  intros [= <-].
  destruct (rmatch_consumes _ _ _ _ _ _ H) as (w & rest' & p & -> & Hw & Hk).
  injection Hk as ->.
  rewrite length_app.
  replace (length w + length rest - length rest)%nat with (length w) by lia.
  rewrite firstn_app, Nat.sub_diag, firstn_all. simpl.
  rewrite app_nil_r. exact Hw.
Qed.

Lemma findall_from_chars (ci : bool) (r : regex) (s : pystr) :
  forall (prev : option N) (skip : nat),
    Forall (fun t => forallb (re_chars ci r) t = true)
      (findall_from ci r prev s skip).
Proof.
  induction s as [|c s IH]; intros prev skip; simpl; [constructor|].
  destruct skip as [|n]; [|apply IH].
  destruct (match_here ci r prev (c :: s)) as [[|n]|] eqn:Hm; try apply IH.
  constructor; [|apply IH].
  apply (match_here_prefix _ _ _ _ _ Hm).
Qed.



(* ================================================================== *)
(** * Properties of [parse_query]                                      *)
(* ================================================================== *)

Lemma parse_query_terms (raw : pystr) :
  topic_terms (parse_query raw)
  = match tokenized_terms raw with
    | [] => if truthy (strip (strip raw)) then [firstn 50 (strip (strip raw))]
            else []
    | ts => ts
    end.
Proof.
  unfold parse_query, tokenized_terms, remaining_text.
  destruct (detect_language _) as [lang remaining]. simpl.
  destruct (List.filter _ _); reflexivity.
Qed.

(** The scenario of the specification: the year range is recognised and
    cut out, and the topic terms hold no digit. *)
Example parse_query_scenario :
  let pq := parse_query (u "数字治理 2018-2023") in
  start_year pq = Some 2018%Z /\ end_year pq = Some 2023%Z
  /\ topic_terms pq = [u "数字治理"].
Proof. repeat split; vm_compute; reflexivity. Qed.

Example parse_query_language :
  let pq := parse_query (u "Deep Learning SINCE 2018 English papers") in
  start_year pq = Some 2018%Z /\ end_year pq = None
  /\ language pq = Some (u "en")
  /\ topic_terms pq = [u "Deep"; u "Learning"; u "papers"].
Proof. repeat split; vm_compute; reflexivity. Qed.





(* ================================================================== *)
(** * Counters and distributions                                       *)
(* ================================================================== *)

Lemma list_sum_perm (l1 l2 : list nat) :
  Permutation l1 l2 -> list_sum l1 = list_sum l2.
Proof. induction 1; simpl; lia. Qed.

Lemma sum_counts_perm {K} (c1 c2 : list (K * nat)) :
  Permutation c1 c2 -> sum_counts c1 = sum_counts c2.
Proof.
  intros H. unfold sum_counts. apply list_sum_perm, Permutation_map, H.
Qed.

Lemma sum_counts_firstn {K} (n : nat) (c : list (K * nat)) :
  (sum_counts (firstn n c) <= sum_counts c)%nat.
Proof.
  unfold sum_counts. revert n; induction c as [|kv c IH]; intros [|n]; simpl;
    try lia.
  specialize (IH n). lia.
Qed.

Lemma counter_incr_sum {K} (eqb : K -> K -> bool) (k : K)
  (c : list (K * nat)) :
  sum_counts (counter_incr eqb k c) = S (sum_counts c).
Proof.
  unfold sum_counts. induction c as [|[k' n] c IH]; simpl; [reflexivity|].
  destruct (eqb k' k); simpl; lia.
Qed.

Lemma count_year_sum (results : list hit) (c : list (Z * nat)) :
  sum_counts (fold_left count_year results c)
  = (sum_counts c + length (List.filter has_year results))%nat.
Proof.
  revert c; induction results as [|r results IH]; intros c; simpl; [lia|].
  rewrite IH. unfold count_year, has_year.
  destruct (year_int (year (hit_paper r))); simpl.
  - rewrite counter_incr_sum. lia.
  - reflexivity.
Qed.

Lemma count_topic_sum (feats : gmap pystr features) (results : list hit)
  (c : list (pystr * nat)) :
  sum_counts (fold_left (count_topic feats) results c)
  = (sum_counts c
     + length (List.filter (fun r => truthy (topic_of feats r)) results))%nat.
Proof.
  revert c; induction results as [|r results IH]; intros c; simpl; [lia|].
  rewrite IH. unfold count_topic.
  destruct (truthy (topic_of feats r)); simpl.
  - rewrite counter_incr_sum. lia.
  - reflexivity.
Qed.

(** The year table is in ascending order of the year. *)
Lemma sorted_items_sorted (c : list (Z * nat)) :
  StronglySorted (fun x y => (fst x <= fst y)%Z) (sorted_items c).
Proof.
  unfold sorted_items. apply stable_sort_sorted.
  - intros x y z. lia.
  - intros y x H. apply orb_true_iff in H. destruct H as [H|H].
    + apply Z.ltb_lt in H. lia.
    + apply andb_true_iff in H. destruct H as [H _].
      apply Z.eqb_eq in H. lia.
  - intros y x H. apply orb_false_iff in H. destruct H as [H _].
    apply Z.ltb_ge in H. exact H.
Qed.

(* ================================================================== *)
(** * Properties of [search_with_distributions]                        *)
(* ================================================================== *)

Lemma year_table_sum (results : list hit) :
  sum_counts (sorted_items (fold_left count_year results []))
  = length (List.filter has_year results).
Proof.
  rewrite (sum_counts_perm (sorted_items _) (fold_left count_year results [])).
  - rewrite count_year_sum. reflexivity.
  - apply stable_sort_perm.
Qed.

Lemma topic_table_sum (E : backends) (results : list hit) :
  (sum_counts
     (most_common 20
        (fold_left (count_topic (page_features E results)) results []))
   <= length (List.filter (has_topic E results) results))%nat.
Proof.
  unfold most_common.
  eapply Nat.le_trans; [apply sum_counts_firstn|].
  rewrite (sum_counts_perm _ _ (stable_sort_perm _ _)).
  rewrite count_topic_sum. apply Nat.le_refl.
Qed.

(** C4 (counterexample).  Two papers match and both have a year; with
    [limit = 1] the total is 2, but the year table counts one paper and
    the topic table one topic: the tables describe the returned page.
    With an offset behind the last match the total itself is reported
    as 0. *)
Lemma distributions_ignore_unreturned_matches :
  (exists out,
     search_with_distributions env_three (u "") None None None 1 0 true
     = Some out
     /\ List.map (fun r => paper_id (hit_paper r)) (out_results out)
        = [u "a"]
     /\ out_total out = 2%nat
     /\ out_year_distribution out = [(2020%Z, 1%nat)]
     /\ out_topic_distribution out = [(u "t1", 1%nat)]
     /\ option_map (List.map fst)
          (fused_candidates env_three (u "") None None None 1
             default_weights [] None)
        = Some [u "a"; u "b"]
     /\ List.map
          (fun pid =>
             match
               fetch_papers_by_ids (json_loads env_three)
                 (papers_table env_three) [u "a"; u "b"]
             with
             | Some meta => option_map (fun p => year_int (year p)) (meta !! pid)
             | None => None
             end)
          [u "a"; u "b"]
        = [Some (Some 2020%Z); Some (Some 2021%Z)])
  /\ (exists out,
        search_with_distributions env_three (u "") None None None 1 5 true
        = Some out
        /\ out_total out = 0%nat
        /\ total_of (hybrid_search env_three (u "") None None None 1 5
                       default_weights None None) = 2%nat).
Proof.
  split; eexists; (split; [vm_compute; reflexivity|]);
    repeat split; vm_compute; reflexivity.
Qed.

(** C4 (amended).  For every search call that returns: when the returned
    page is not empty, the total is the one of [hybrid_search], which on
    the fused path is the number of filtered candidates before
    pagination; the topic and year tables are computed over the returned
    page: the year counts sum exactly to the number of papers of the page
    with a present year that [int] accepts, the years ascend, and the
    topic counts sum to at most the number of papers of the page with a
    non-empty topic id. *)
Theorem distributions_describe_returned_page (E : backends) (q : pystr)
  (sy0 ey0 : option Z) (src : option pystr) (limit offset : Z)
  (use_query_understanding : bool) (out : search_output) :
  search_with_distributions E q sy0 ey0 src limit offset
    use_query_understanding = Some out ->
  (out_results out <> [] ->
   exists topic_str sy ey terms,
     understood_query use_query_understanding q sy0 ey0
     = (topic_str, sy, ey, terms)
     /\ hybrid_search E topic_str sy ey src limit offset default_weights
          None terms = Some (out_results out, out_total out)
     /\ ((index_exists E || index_ready E) = true ->
         id_scores (gather E topic_str sy ey src limit) <> [] ->
         exists combined,
           fused_candidates E topic_str sy ey src limit default_weights []
             terms = Some combined
           /\ out_total out = length combined))
  /\ sum_counts (out_year_distribution out)
     = length (List.filter has_year (out_results out))
  /\ StronglySorted (fun x y => (fst x <= fst y)%Z)
       (out_year_distribution out)
  /\ (sum_counts (out_topic_distribution out)
      <= length (List.filter (has_topic E (out_results out))
                   (out_results out)))%nat.
Proof.
  unfold search_with_distributions.
  destruct (understood_query use_query_understanding q sy0 ey0)
    as [[[topic_str sy] ey] terms] eqn:Hu.
  destruct (hybrid_search E topic_str sy ey src limit offset default_weights
              None terms) as [[results total]|] eqn:Hs; [|discriminate].
  destruct results as [|r results].
  - intros [= <-]. simpl. split; [congruence|].
    split; [reflexivity|]. split; [constructor|]. apply Nat.le_refl.
  - intros [= <-]. cbn [out_results out_total out_year_distribution
                         out_topic_distribution].
    split; [|split; [|split]].
    + intros _. exists topic_str, sy, ey, terms.
      split; [reflexivity|]. split; [exact Hs|].
      intros Hav Hne.
      destruct (hybrid_search_fused _ _ _ _ _ _ _ _ _ _ _ _ Hav Hne Hs)
        as (combined & Hc & _ & Ht).
      exists combined. auto.
    + exact (year_table_sum (r :: results)).
    + apply sorted_items_sorted.
    + exact (topic_table_sum E (r :: results)).
Qed.

Lemma distributions_describe_returned_page_witness :
  let out :=
    output_of
      (search_with_distributions env_three (u "") None None None 10 0 true) in
  (out_results out <> [] ->
   exists topic_str sy ey terms,
     understood_query true (u "") None None = (topic_str, sy, ey, terms)
     /\ hybrid_search env_three topic_str sy ey None 10 0 default_weights
          None terms = Some (out_results out, out_total out)
     /\ ((index_exists env_three || index_ready env_three) = true ->
         id_scores (gather env_three topic_str sy ey None 10) <> [] ->
         exists combined,
           fused_candidates env_three topic_str sy ey None 10
             default_weights [] terms = Some combined
           /\ out_total out = length combined))
  /\ sum_counts (out_year_distribution out)
     = length (List.filter has_year (out_results out))
  /\ StronglySorted (fun x y => (fst x <= fst y)%Z)
       (out_year_distribution out)
  /\ (sum_counts (out_topic_distribution out)
      <= length (List.filter (has_topic env_three (out_results out))
                   (out_results out)))%nat.
Proof.
  apply (distributions_describe_returned_page env_three (u "") None None
           None 10 0 true).
  vm_compute. reflexivity.
Defined.

Example distributions_env_three :
  option_map
    (fun out => (out_total out, out_topic_distribution out,
                 out_year_distribution out))
    (search_with_distributions env_three (u "") None None None 10 0 true)
  = Some (3%nat, [(u "t1", 2%nat); (u "t2", 1%nat)],
          [(2020%Z, 1%nat); (2021%Z, 2%nat)]).
Proof. vm_compute. reflexivity. Qed.

(* ================================================================== *)
(** * Heap computations                                                *)
(* ================================================================== *)

Lemma bind_Some {A B} (m : M A) (k : A -> M B) (h h' : heap) (b : B) :
  bind m k h = Some (b, h') ->
  exists a h1, m h = Some (a, h1) /\ k a h1 = Some (b, h').
Proof.
  unfold bind. destruct (m h) as [[a h1]|]; [|discriminate].
  intros H. exists a, h1. auto.
Qed.

Lemma build_cooccurrence_network_spec (P : processor) (papers : list loc)
  (min_weight : Z) (h h' : heap) (net : network) :
  build_cooccurrence_network P papers min_weight h = Some (net, h') ->
  enriched P papers h = Some (enriched_papers P papers h, h')
  /\ net = cooccurrence (enriched_papers P papers h) min_weight.
Proof.
  unfold build_cooccurrence_network, enriched_papers. intros H.
  apply bind_Some in H. destruct H as (ps & h1 & Hps & Hret).
  rewrite Hps. injection Hret as <- <-. auto.
Qed.

(* ================================================================== *)
(** * Keyword pairs                                                    *)
(* ================================================================== *)

Lemma str_leb_total (a b : pystr) : str_leb a b = false -> str_leb b a = true.
Proof.
  revert b; induction a as [|c a IH]; intros [|d b]; simpl; try congruence.
  destruct (c <? d)%N eqn:E1; [discriminate|].
  destruct (d <? c)%N eqn:E2; [reflexivity|]. apply IH.
Qed.

Lemma str_leb_antisym (a b : pystr) :
  str_leb a b = true -> str_leb b a = true -> a = b.
Proof.
  revert b; induction a as [|c a IH]; intros [|d b]; simpl; try congruence.
  destruct (c <? d)%N eqn:E1, (d <? c)%N eqn:E2; try discriminate.
  - apply N.ltb_lt in E1, E2. lia.
  - intros H1 H2. apply N.ltb_ge in E1, E2.
    assert (c = d) by lia. subst. f_equal. apply IH; assumption.
Qed.

(** The key of a pair does not depend on the order of its members. *)
Lemma sorted_pair_sym (a b : pystr) : sorted_pair a b = sorted_pair b a.
Proof.
  unfold sorted_pair.
  destruct (str_leb a b) eqn:E1, (str_leb b a) eqn:E2; try reflexivity.
  - rewrite (str_leb_antisym a b E1 E2). reflexivity.
  - apply str_leb_total in E1. congruence.
Qed.

Lemma sorted_pair_ordered (a b : pystr) :
  str_leb (fst (sorted_pair a b)) (snd (sorted_pair a b)) = true.
Proof.
  unfold sorted_pair. destruct (str_leb a b) eqn:E; simpl; [exact E|].
  apply str_leb_total, E.
Qed.

Lemma sorted_pair_distinct (a b : pystr) :
  a <> b -> fst (sorted_pair a b) <> snd (sorted_pair a b).
Proof.
  unfold sorted_pair. destruct (str_leb a b); simpl; congruence.
Qed.

Lemma pair_eqb_eq (x y : pystr * pystr) : pair_eqb x y = true <-> x = y.
Proof.
  unfold pair_eqb. destruct x as [x1 x2], y as [y1 y2]. simpl.
  rewrite andb_true_iff, !str_eqb_eq. split.
  - intros [-> ->]. reflexivity.
  - intros [= -> ->]. auto.
Qed.

Section Counter.
Context {K : Type} (eqb : K -> K -> bool).

Lemma counter_incr_keys (Pk : K -> Prop) (k : K) (c : list (K * nat)) :
  Pk k -> Forall (fun kv => Pk (fst kv)) c ->
  Forall (fun kv => Pk (fst kv)) (counter_incr eqb k c).
Proof.
  intros Hk. induction 1 as [|[k' n] c Hk' Hc IH]; simpl.
  - repeat constructor. exact Hk.
  - destruct (eqb k' k); constructor; auto.
Qed.

Hypothesis eqb_eq : forall x y, eqb x y = true <-> x = y.

Lemma counter_incr_In (k k0 : K) (c : list (K * nat)) :
  In k0 (List.map fst (counter_incr eqb k c)) ->
  k0 = k \/ In k0 (List.map fst c).
Proof.
  induction c as [|[k' n] c IH]; simpl.
  - intros [<-|[]]. left. reflexivity.
  - destruct (eqb k' k); simpl.
    + intros [<-|H]; auto.
    + intros [<-|H]; auto. destruct (IH H); auto.
Qed.

Lemma counter_incr_NoDup (k : K) (c : list (K * nat)) :
  List.NoDup (List.map fst c) -> List.NoDup (List.map fst (counter_incr eqb k c)).
Proof.
  induction c as [|[k' n] c IH]; simpl; intros Hnd.
  - repeat constructor. intros [].
  - inversion Hnd as [|? ? Hnotin Hnd']; subst.
    destruct (eqb k' k) eqn:E; simpl.
    + constructor; assumption.
    + constructor; [|apply IH, Hnd'].
      intros Hin. apply counter_incr_In in Hin. destruct Hin as [->|Hin].
      * assert (eqb k k = true) by (apply eqb_eq; reflexivity). congruence.
      * contradiction.
Qed.

End Counter.

Section Pairs.
Context (Pk : pystr * pystr -> Prop).

Lemma count_row_keys (a : pystr) (rest : list pystr)
  (c : list (pystr * pystr * nat)) :
  Forall (fun b => Pk (sorted_pair a b)) rest ->
  Forall (fun kv => Pk (fst kv)) c ->
  Forall (fun kv => Pk (fst kv))
    (fold_left (fun c b => counter_incr pair_eqb (sorted_pair a b) c) rest c).
Proof.
  revert c. induction rest as [|b rest IH]; intros c Hrest Hc; simpl.
  - exact Hc.
  - inversion Hrest; subst. apply IH; [assumption|].
    apply counter_incr_keys; assumption.
Qed.

Lemma count_pairs_keys (kws : list pystr) (c : list (pystr * pystr * nat)) :
  ForallOrdPairs (fun a b => Pk (sorted_pair a b)) kws ->
  Forall (fun kv => Pk (fst kv)) c ->
  Forall (fun kv => Pk (fst kv)) (count_pairs kws c).
Proof.
  intros H. revert c. induction H as [|a rest Ha Hrest IH]; intros c Hc; simpl.
  - exact Hc.
  - apply IH. apply count_row_keys; assumption.
Qed.

Lemma pair_counts_keys (ps : list pdict) (c : list (pystr * pystr * nat)) :
  Forall
    (fun p =>
       ForallOrdPairs (fun a b => Pk (sorted_pair a b)) (paper_keywords p))
    ps ->
  Forall (fun kv => Pk (fst kv)) c ->
  Forall (fun kv => Pk (fst kv))
    (fold_left (fun c p => count_pairs (paper_keywords p) c) ps c).
Proof.
  intros H. revert c. induction H as [|p ps Hp Hps IH]; intros c Hc; simpl.
  - exact Hc.
  - apply IH. apply count_pairs_keys; assumption.
Qed.

End Pairs.

Lemma all_pairs (R : pystr -> pystr -> Prop) (l : list pystr) :
  (forall a b, R a b) -> ForallOrdPairs R l.
Proof.
  intros H. induction l as [|a l IH]; constructor; [|exact IH].
  apply List.Forall_forall. intros b _. apply H.
Qed.

Lemma NoDup_pairs (l : list pystr) :
  List.NoDup l -> ForallOrdPairs (fun a b => a <> b) l.
Proof.
  induction 1 as [|a l Hnotin Hnd IH]; constructor; [|exact IH].
  apply List.Forall_forall. intros b Hb ->. contradiction.
Qed.

Lemma count_row_NoDup (a : pystr) (rest : list pystr)
  (c : list (pystr * pystr * nat)) :
  List.NoDup (List.map fst c) ->
  List.NoDup
    (List.map fst
       (fold_left (fun c b => counter_incr pair_eqb (sorted_pair a b) c)
          rest c)).
Proof.
  revert c. induction rest as [|b rest IH]; intros c Hc; simpl; [exact Hc|].
  apply IH. apply counter_incr_NoDup; [apply pair_eqb_eq | exact Hc].
Qed.

Lemma count_pairs_NoDup (kws : list pystr) (c : list (pystr * pystr * nat)) :
  List.NoDup (List.map fst c) -> List.NoDup (List.map fst (count_pairs kws c)).
Proof.
  revert c. induction kws as [|a rest IH]; intros c Hc; simpl; [exact Hc|].
  apply IH, count_row_NoDup, Hc.
Qed.

Lemma pair_counts_NoDup (ps : list pdict) (c : list (pystr * pystr * nat)) :
  List.NoDup (List.map fst c) ->
  List.NoDup
    (List.map fst
       (fold_left (fun c p => count_pairs (paper_keywords p) c) ps c)).
Proof.
  revert c. induction ps as [|p ps IH]; intros c Hc; simpl; [exact Hc|].
  apply IH, count_pairs_NoDup, Hc.
Qed.

Lemma NoDup_map_filter {A B} (f : A -> B) (g : A -> bool) (l : list A) :
  List.NoDup (List.map f l) -> List.NoDup (List.map f (List.filter g l)).
Proof.
  induction l as [|x l IH]; simpl; intros H; [constructor|].
  inversion H as [|? ? Hnotin Hnd]; subst.
  destruct (g x); simpl; [|apply IH, Hnd].
  constructor; [|apply IH, Hnd].
  intros Hin. apply Hnotin. apply List.in_map_iff in Hin.
  destruct Hin as (y & Hy & Hin). apply List.filter_In in Hin.
  apply List.in_map_iff. exists y. tauto.
Qed.

(** The links of the graph, in terms of the pair counter. *)
Lemma links_keys (Pk : pystr * pystr -> Prop) (ps : list pdict)
  (min_weight : Z) :
  Forall
    (fun p =>
       ForallOrdPairs (fun a b => Pk (sorted_pair a b)) (paper_keywords p))
    ps ->
  Forall (fun e => Pk (link_key e)) (links (cooccurrence ps min_weight)).
Proof.
  intros H. unfold cooccurrence. simpl.
  apply List.Forall_forall. intros e He.
  apply List.in_map_iff in He. destruct He as (kv & <- & Hkv).
  apply List.filter_In in Hkv. destruct Hkv as [Hkv _].
  pose proof (pair_counts_keys Pk ps [] H (List.Forall_nil _)) as Hall.
  rewrite List.Forall_forall in Hall. specialize (Hall kv Hkv).
  unfold link_key. simpl. destruct kv as [[a b] n]. exact Hall.
Qed.

Lemma links_NoDup (ps : list pdict) (min_weight : Z) :
  List.NoDup (List.map link_key (links (cooccurrence ps min_weight))).
Proof.
  unfold cooccurrence. simpl. rewrite List.map_map.
  unfold link_key. simpl.
  erewrite List.map_ext; [apply NoDup_map_filter|].
  - apply (pair_counts_NoDup ps []). constructor.
  - intros [[a b] n]. reflexivity.
Qed.

Lemma NoDup_map_injective_on {A B} (f : A -> B) (l : list A) (x y : A) :
  List.NoDup (List.map f l) -> In x l -> In y l -> f x = f y -> x = y.
Proof.
  induction l as [|z l IH]; simpl; [intros _ []|].
  intros H. inversion H as [|? ? Hnotin Hnd]; subst.
  intros [->|Hx] [->|Hy] Heq; auto.
  - exfalso. apply Hnotin. rewrite Heq. apply List.in_map, Hy.
  - exfalso. apply Hnotin. rewrite <- Heq. apply List.in_map, Hx.
Qed.

(* ================================================================== *)
(** * Properties of [build_cooccurrence_network]                       *)
(* ================================================================== *)

(** C7 (counterexample).  A paper whose keyword list names "ai" twice
    yields the edge from "ai" to "ai". *)
Lemma duplicate_keyword_makes_self_loop :
  exists net h',
    build_cooccurrence_network offline_processor [0%nat] 1
      heap_duplicate_keyword = Some (net, h')
    /\ links net
       = [{| link_source := u "ai"; link_target := u "ai";
             link_value := 1 |}].
Proof. do 2 eexists. split; [vm_compute; reflexivity|reflexivity]. Qed.

(** C7 (amended).  Edges are undirected for every input: a pair is
    counted under a key that does not depend on the order of its members,
    every edge runs from the smaller to the larger keyword, no key occurs
    twice, and so no two distinct edges are the reverse of each other.  If
    no paper's keyword list (after enrichment) contains a duplicate
    entry, the graph has no self-loop. *)
Theorem cooccurrence_edges_undirected (P : processor) (papers : list loc)
  (min_weight : Z) (h h' : heap) (net : network) :
  build_cooccurrence_network P papers min_weight h = Some (net, h') ->
  (forall a b, sorted_pair a b = sorted_pair b a)
  /\ Forall (fun e => str_leb (link_source e) (link_target e) = true)
       (links net)
  /\ List.NoDup (List.map link_key (links net))
  /\ (forall e1 e2,
        In e1 (links net) -> In e2 (links net) ->
        link_source e1 = link_target e2 ->
        link_target e1 = link_source e2 -> e1 = e2)
  /\ (Forall (fun p => List.NoDup (paper_keywords p))
        (enriched_papers P papers h) ->
      Forall (fun e => link_source e <> link_target e) (links net)).
Proof.
  intros H. apply build_cooccurrence_network_spec in H.
  destruct H as [_ ->].
  set (ps := enriched_papers P papers h).
  assert (Hord : Forall
                   (fun e => str_leb (link_source e) (link_target e) = true)
                   (links (cooccurrence ps min_weight))).
  { apply (links_keys (fun k => str_leb (fst k) (snd k) = true)).
    apply List.Forall_forall. intros p _. apply all_pairs.
    intros a b. apply sorted_pair_ordered. }
  pose proof (links_NoDup ps min_weight) as Hnd.
  split; [exact sorted_pair_sym|]. split; [exact Hord|].
  split; [exact Hnd|]. split.
  - intros e1 e2 H1 H2 Hst Hts.
    rewrite List.Forall_forall in Hord.
    pose proof (Hord e1 H1) as O1. pose proof (Hord e2 H2) as O2.
    rewrite Hst, Hts in O1.
    pose proof (str_leb_antisym _ _ O2 O1) as Heq.
    apply (NoDup_map_injective_on link_key _ e1 e2 Hnd H1 H2).
    unfold link_key. congruence.
  - intros Hkw.
    apply (links_keys (fun k => fst k <> snd k)).
    eapply List.Forall_impl; [|exact Hkw].
    intros p Hp. apply NoDup_pairs in Hp.
    induction Hp as [|a l Ha Hl IH]; constructor; [|exact IH].
    eapply List.Forall_impl; [|exact Ha].
    intros b Hab. apply sorted_pair_distinct, Hab.
Qed.

Lemma cooccurrence_edges_undirected_witness :
  let net :=
    value_of {| nodes := []; links := [] |}
      (build_cooccurrence_network offline_processor [0%nat; 1%nat] 1
         heap_two_papers) in
  (forall a b, sorted_pair a b = sorted_pair b a)
  /\ Forall (fun e => str_leb (link_source e) (link_target e) = true)
       (links net)
  /\ List.NoDup (List.map link_key (links net))
  /\ (forall e1 e2,
        In e1 (links net) -> In e2 (links net) ->
        link_source e1 = link_target e2 ->
        link_target e1 = link_source e2 -> e1 = e2)
  /\ (Forall (fun p => List.NoDup (paper_keywords p))
        (enriched_papers offline_processor [0%nat; 1%nat] heap_two_papers) ->
      Forall (fun e => link_source e <> link_target e) (links net)).
Proof.
  apply (cooccurrence_edges_undirected offline_processor [0%nat; 1%nat] 1
           heap_two_papers
           (heap_of heap_two_papers
              (build_cooccurrence_network offline_processor [0%nat; 1%nat] 1
                 heap_two_papers))).
  vm_compute. reflexivity.
Defined.

(** The two papers of [heap_two_papers] list "ai" and "law" in opposite
    orders; the pair is one edge of weight 2. *)
Example shared_pair_is_one_edge :
  List.map (fun e => (link_source e, link_target e, link_value e))
    (links
       (value_of {| nodes := []; links := [] |}
          (build_cooccurrence_network offline_processor [0%nat; 1%nat] 1
             heap_two_papers)))
  = [(u "ai", u "law", 2%nat); (u "ai", u "ethics", 1%nat);
     (u "ethics", u "law", 1%nat)].
Proof. vm_compute. reflexivity. Qed.

(* ================================================================== *)
(** * Enrichment and the caller's dictionaries                         *)
(* ================================================================== *)

Lemma frame_refl (n : nat) (h : heap) :
  (n <= length (h_papers h))%nat -> frame n h h.
Proof. intros H. repeat split; auto. Qed.

Lemma frame_trans (n : nat) (h1 h2 h3 : heap) :
  frame n h1 h2 -> frame n h2 h3 -> frame n h1 h3.
Proof.
  intros (A1 & A2 & A3) (B1 & B2 & B3). repeat split; try lia.
  intros l Hl. rewrite B3, A3 by exact Hl. reflexivity.
Qed.

Lemma read_paper_same (l : loc) (h h' : heap) (p : pdict) :
  read_paper l h = Some (p, h') -> h' = h.
Proof.
  unfold read_paper. destruct (h_papers h !! l); [|discriminate].
  intros [= _ <-]. reflexivity.
Qed.

Lemma copy_paper_frame (n : nat) (l l' : loc) (h h' : heap) :
  (n <= length (h_papers h))%nat ->
  copy_paper l h = Some (l', h') ->
  frame n h h' /\ (n <= l')%nat /\ h_feats h' = h_feats h.
Proof.
  unfold copy_paper. intros Hn.
  destruct (h_papers h !! l) as [p|]; [|discriminate].
  intros [= <- <-]. simpl. repeat split; simpl; auto.
  - rewrite length_app. lia.
  - intros k Hk. apply lookup_app_l. lia.
Qed.

Lemma write_paper_frame (n : nat) (l : loc) (f : pdict -> pdict)
  (h h' : heap) (x : unit) :
  (n <= length (h_papers h))%nat -> (n <= l)%nat ->
  write_paper l f h = Some (x, h') ->
  frame n h h' /\ h_feats h' = h_feats h.
Proof.
  unfold write_paper. intros Hn Hl.
  destruct (h_papers h !! l) as [p|]; [|discriminate].
  intros [= _ <-]. simpl. repeat split; simpl; auto.
  - rewrite length_insert. lia.
  - intros k Hk. apply list_lookup_insert_ne. lia.
Qed.

Lemma read_feats_same (l : loc) (h h' : heap) (d : feat_dict) :
  read_feats l h = Some (d, h') -> h' = h /\ h_feats h !! l = Some d.
Proof.
  unfold read_feats. destruct (h_feats h !! l); [|discriminate].
  intros [= <- <-]. auto.
Qed.

Lemma new_feats_papers (d : feat_dict) (l : loc) (h h' : heap) :
  new_feats d h = Some (l, h') -> h_papers h' = h_papers h.
Proof. unfold new_feats. intros [= _ <-]. reflexivity. Qed.

Lemma write_feats_papers (l : loc) (f : feat_dict -> feat_dict)
  (h h' : heap) (x : unit) :
  write_feats l f h = Some (x, h') -> h_papers h' = h_papers h.
Proof.
  unfold write_feats. destruct (h_feats h !! l); [|discriminate].
  intros [= _ <-]. reflexivity.
Qed.

Lemma frame_same_papers (n : nat) (h h' : heap) :
  (n <= length (h_papers h))%nat -> h_papers h' = h_papers h -> frame n h h'.
Proof. intros Hn E. unfold frame. rewrite E. repeat split; auto. Qed.

Lemma frame_length (n : nat) (h h' : heap) :
  frame n h h' -> (n <= length (h_papers h'))%nat.
Proof. intros (A & B & _). lia. Qed.

(** One iteration of the enrichment writes to dictionaries that it has
    allocated itself. *)
Lemma enrich_one_frame (P : processor) (n : nat) (l : loc) (h h' : heap)
  (o : option loc) :
  (n <= length (h_papers h))%nat ->
  enrich_one P l h = Some (o, h') -> frame n h h'.
Proof.
  intros Hn H. unfold enrich_one in H.
  apply bind_Some in H. destruct H as (p0 & h0 & Hr0 & H).
  apply read_paper_same in Hr0. subst h0.
  destruct (or_opt (pd_paper_id p0) (pd_id p0)) as [pid|];
    [|injection H as _ <-; apply frame_refl, Hn].
  destruct (negb (truthy pid));
    [injection H as _ <-; apply frame_refl, Hn|].
  apply bind_Some in H. destruct H as (l1 & h1 & Hk & H).
  assert (F1 : frame n h h1).
  { destruct (keywords_missing p0).
    - apply bind_Some in Hk. destruct Hk as (l' & hc & Hc & Hk).
      apply bind_Some in Hk. destruct Hk as (x & hw & Hw & Hk).
      injection Hk as _ <-.
      destruct (copy_paper_frame n _ _ _ _ Hn Hc) as (Fc & Hl' & _).
      destruct (write_paper_frame n _ _ _ _ _ (frame_length _ _ _ Fc) Hl' Hw)
        as (Fw & _).
      eapply frame_trans; eassumption.
    - injection Hk as _ <-. apply frame_refl, Hn. }
  apply bind_Some in H. destruct H as (p1 & h1' & Hr1 & H).
  apply read_paper_same in Hr1. subst h1'.
  apply bind_Some in H. destruct H as (l2 & h2 & Hv & H).
  assert (F2 : frame n h h2).
  { destruct (pd_vector p1).
    - injection Hv as _ <-. exact F1.
    - apply bind_Some in Hv. destruct Hv as (l' & hc & Hc & Hv).
      apply bind_Some in Hv. destruct Hv as (x & hw & Hw & Hv).
      injection Hv as _ <-.
      destruct (copy_paper_frame n _ _ _ _ (frame_length _ _ _ F1) Hc)
        as (Fc & Hl' & _).
      destruct (write_paper_frame n _ _ _ _ _ (frame_length _ _ _ Fc) Hl' Hw)
        as (Fw & _).
      eapply frame_trans; [exact F1|]. eapply frame_trans; eassumption. }
  apply bind_Some in H. destruct H as (p2 & h2' & Hr2 & H).
  apply read_paper_same in Hr2. subst h2'.
  apply bind_Some in H. destruct H as (missing & hm & Hm & H).
  assert (hm = h2).
  { unfold features_missing in Hm. destruct (pd_features p2).
    - apply bind_Some in Hm. destruct Hm as (d & hd & Hd & Hm).
      apply read_feats_same in Hd. destruct Hd as [-> _].
      injection Hm as _ <-. reflexivity.
    - injection Hm as _ <-. reflexivity. }
  subst hm.
  apply bind_Some in H. destruct H as (l3 & h3 & Hc3 & H).
  destruct (copy_paper_frame n _ _ _ _ (frame_length _ _ _ F2) Hc3)
    as (F3 & Hl3 & _).
  assert (F3' : frame n h h3) by (eapply frame_trans; eassumption).
  apply bind_Some in H. destruct H as (p3 & h3' & Hr3 & H).
  apply read_paper_same in Hr3. subst h3'.
  apply bind_Some in H. destruct H as (x & h4 & Hf & H).
  assert (F4 : frame n h h4).
  { destruct missing.
    - apply bind_Some in Hf. destruct Hf as (fl & hn & Hnew & Hf).
      apply new_feats_papers in Hnew.
      assert (Fn : frame n h3 hn)
        by (apply frame_same_papers; [apply (frame_length _ _ _ F3')|exact Hnew]).
      destruct (write_paper_frame n _ _ _ _ _ (frame_length _ _ _ Fn) Hl3 Hf)
        as (Fw & _).
      eapply frame_trans; [exact F3'|]. eapply frame_trans; eassumption.
    - destruct (pd_features p3) as [fl|]; [|discriminate].
      apply bind_Some in Hf. destruct Hf as (d & hd & Hd & Hf).
      apply read_feats_same in Hd. destruct Hd as [-> _].
      apply bind_Some in Hf. destruct Hf as (y & hw & Hw & Hf).
      apply write_feats_papers in Hw.
      apply bind_Some in Hf. destruct Hf as (d' & hd' & Hd' & Hf).
      apply read_feats_same in Hd'. destruct Hd' as [-> _].
      apply write_feats_papers in Hf.
      eapply frame_trans; [exact F3'|].
      apply frame_same_papers; [apply (frame_length _ _ _ F3')|].
      congruence. }
  apply bind_Some in H. destruct H as (z & h5 & Hw5 & H).
  injection H as _ <-.
  destruct (write_paper_frame n _ _ _ _ _ (frame_length _ _ _ F4) Hl3 Hw5)
    as (F5 & _).
  eapply frame_trans; eassumption.
Qed.

Lemma mapM_enrich_frame (P : processor) (n : nat) (papers : list loc) :
  forall (h h' : heap) (out : list (option loc)),
    (n <= length (h_papers h))%nat ->
    mapM (enrich_one P) papers h = Some (out, h') -> frame n h h'.
Proof.
  induction papers as [|l papers IH]; intros h h' out Hn H; simpl in H.
  - injection H as _ <-. apply frame_refl, Hn.
  - apply bind_Some in H. destruct H as (o & h1 & H1 & H).
    apply bind_Some in H. destruct H as (os & h2 & H2 & H).
    injection H as _ <-.
    pose proof (enrich_one_frame _ _ _ _ _ _ Hn H1) as F1.
    eapply frame_trans; [exact F1|].
    eapply IH; [apply (frame_length _ _ _ F1)|exact H2].
Qed.

Lemma mapM_read_same (ls : list loc) :
  forall (h h' : heap) (ps : list pdict),
    mapM read_paper ls h = Some (ps, h') -> h' = h.
Proof.
  induction ls as [|l ls IH]; intros h h' ps H; simpl in H.
  - injection H as _ <-. reflexivity.
  - apply bind_Some in H. destruct H as (p & h1 & H1 & H).
    apply bind_Some in H. destruct H as (ps' & h2 & H2 & H).
    injection H as _ <-.
    apply read_paper_same in H1. subst h1. apply (IH _ _ _ H2).
Qed.

(** The part of the frame property that the code keeps: whatever the
    analyses do, every paper dictionary of the caller is afterwards what
    it was before. *)
Lemma enrich_papers_keeps_paper_dicts (P : processor) (papers : list loc)
  (h h' : heap) (out : list loc) (l : loc) (p : pdict) :
  _enrich_papers P papers h = Some (out, h') ->
  h_papers h !! l = Some p -> h_papers h' !! l = Some p.
Proof.
  unfold _enrich_papers. intros H Hl.
  apply bind_Some in H. destruct H as (os & h1 & H1 & H).
  injection H as _ <-.
  destruct (mapM_enrich_frame P (length (h_papers h)) papers h h1 os
              (Nat.le_refl _) H1) as (_ & _ & F).
  rewrite F; [exact Hl|]. apply lookup_lt_Some in Hl. exact Hl.
Qed.

Lemma enriched_keeps_paper_dicts (P : processor) (papers : list loc)
  (h h' : heap) (ps : list pdict) (l : loc) (p : pdict) :
  enriched P papers h = Some (ps, h') ->
  h_papers h !! l = Some p -> h_papers h' !! l = Some p.
Proof.
  unfold enriched. intros H Hl.
  apply bind_Some in H. destruct H as (ls & h1 & H1 & H).
  apply mapM_read_same in H. subst h'.
  eapply enrich_papers_keeps_paper_dicts; eassumption.
Qed.

Lemma cooccurrence_keeps_paper_dicts (P : processor) (papers : list loc)
  (min_weight : Z) (h h' : heap) (net : network) (l : loc) (p : pdict) :
  build_cooccurrence_network P papers min_weight h = Some (net, h') ->
  h_papers h !! l = Some p -> h_papers h' !! l = Some p.
Proof.
  intros H. apply build_cooccurrence_network_spec in H.
  destruct H as [H _]. eapply enriched_keeps_paper_dicts, H.
Qed.

(** C8 (failing input).  The caller's paper carries a non-empty features
    dictionary.  After the call the caller's paper dictionary is what it
    was, but the features dictionary it refers to has a new attitude and
    a new key; clustering, the co-occurrence graph, the trends and the
    attitude evolution all start with the same enrichment and leave the
    same heap. *)
Theorem enrichment_writes_into_callers_features :
  exists out h',
    _enrich_papers offline_processor [0%nat] heap_labelled = Some (out, h')
    /\ out = [1%nat]
    /\ h_papers h' !! 0%nat = h_papers heap_labelled !! 0%nat
    /\ option_map pd_features (h_papers heap_labelled !! 0%nat)
       = Some (Some 0%nat)
    /\ h_feats heap_labelled !! 0%nat
       = Some {| fd_attitude := Some (VStr (u "optimistic"));
                 fd_methods_label := None;
                 fd_other_keys := false |}
    /\ h_feats h' !! 0%nat
       = Some {| fd_attitude := Some (VStr (u "critical"));
                 fd_methods_label := Some (VStr []);
                 fd_other_keys := false |}
    /\ heap_of heap_labelled
         (build_cooccurrence_network offline_processor [0%nat] 1
            heap_labelled) = h'
    /\ heap_of heap_labelled
         (perform_clustering offline_processor kmeans_single [0%nat] 5
            heap_labelled) = h'
    /\ heap_of heap_labelled
         (analyze_trends offline_processor [0%nat] heap_labelled) = h'
    /\ heap_of heap_labelled
         (analyze_attitude_evolution offline_processor [0%nat] heap_labelled)
       = h'.
Proof.
  do 2 eexists. split; [vm_compute; reflexivity|].
  repeat split; vm_compute; reflexivity.
Qed.

(** The series of the two example collections. *)
Example trends_two_papers :
  option_map
    (fun r =>
       (years (fst r),
        List.map (fun x => (series_name x, series_data x))
          (all_series (fst r))))
    (analyze_trends offline_processor [0%nat; 1%nat] heap_two_papers)
  = Some ([2020%Z],
          [(VStr (u "law"), [2%nat]); (VStr (u "ai"), [2%nat]);
           (VStr (u "ethics"), [1%nat])]).
Proof. vm_compute. reflexivity. Qed.

Example attitude_evolution_labelled :
  option_map
    (fun r =>
       (years (fst r),
        List.map (fun x => (series_name x, series_data x))
          (all_series (fst r))))
    (analyze_attitude_evolution offline_processor [0%nat] heap_labelled)
  = Some ([2020%Z], [(VStr (u "critical"), [1%nat])]).
Proof. vm_compute. reflexivity. Qed.

(* ================================================================== *)
(** * Properties of [perform_clustering]                               *)
(* ================================================================== *)

Section Groups.
Context {V : Type}.

Lemma group_append_sizes (k : Z) (v : V) (g : list (Z * list V)) :
  group_sizes (group_append k v g) = S (group_sizes g).
Proof.
  unfold group_sizes. induction g as [|[k' vs] g IH]; simpl; [reflexivity|].
  destruct (k' =? k)%Z; simpl.
  - rewrite length_app. simpl. lia.
  - lia.
Qed.

Lemma group_append_In (k k0 : Z) (v : V) (g : list (Z * list V)) :
  In k0 (List.map fst (group_append k v g)) ->
  k0 = k \/ In k0 (List.map fst g).
Proof.
  induction g as [|[k' vs] g IH]; simpl.
  - intros [<-|[]]. left. reflexivity.
  - destruct (k' =? k)%Z; simpl.
    + intros [<-|H]; auto.
    + intros [<-|H]; auto. destruct (IH H); auto.
Qed.

Lemma group_append_NoDup (k : Z) (v : V) (g : list (Z * list V)) :
  List.NoDup (List.map fst g) ->
  List.NoDup (List.map fst (group_append k v g)).
Proof.
  induction g as [|[k' vs] g IH]; simpl; intros Hnd.
  - repeat constructor. intros [].
  - inversion Hnd as [|? ? Hnotin Hnd']; subst.
    destruct (k' =? k)%Z eqn:E; simpl.
    + constructor; assumption.
    + constructor; [|apply IH, Hnd'].
      intros Hin. apply group_append_In in Hin. destruct Hin as [->|Hin].
      * rewrite Z.eqb_refl in E. discriminate.
      * contradiction.
Qed.

Lemma assign_labels_spec (labels : list Z) :
  forall (valid : list V) (g g' : list (Z * list V)),
    assign_labels labels valid g = Some g' ->
    group_sizes g' = (group_sizes g + length labels)%nat
    /\ (List.NoDup (List.map fst g) -> List.NoDup (List.map fst g'))
    /\ (forall k, In k (List.map fst g') ->
                  In k labels \/ In k (List.map fst g)).
Proof.
  induction labels as [|lab labels IH]; intros valid g g'; simpl.
  - intros [= <-]. repeat split; auto; simpl; lia.
  - destruct valid as [|v valid]; [discriminate|].
    intros H. destruct (IH _ _ _ H) as (Hs & Hnd & Hk).
    rewrite group_append_sizes in Hs. split; [lia|]. split.
    + intros Hg. apply Hnd, group_append_NoDup, Hg.
    + intros k Hin. destruct (Hk k Hin) as [Hl|Hg]; [auto|].
      apply group_append_In in Hg. destruct Hg as [->|Hg]; auto.
Qed.

Lemma assign_labels_returns (labels : list Z) :
  forall (valid : list V) (g : list (Z * list V)),
    (length labels <= length valid)%nat ->
    exists g', assign_labels labels valid g = Some g'.
Proof.
  induction labels as [|lab labels IH]; intros valid g Hlen; simpl.
  - eauto.
  - destruct valid as [|v valid]; simpl in Hlen; [lia|].
    apply IH. lia.
Qed.

End Groups.

(** At most [n] distinct labels lie in [[0, n)]. *)
Lemma distinct_labels_bounded (ks : list Z) (n : Z) :
  (0 <= n)%Z ->
  List.NoDup ks -> Forall (fun k => (0 <= k < n)%Z) ks ->
  (Z.of_nat (length ks) <= n)%Z.
Proof.
  intros Hn Hnd Hr.
  assert (Hnd' : List.NoDup (List.map Z.to_nat ks)).
  { clear -Hnd Hr. induction Hnd as [|k ks Hnotin Hnd IH]; simpl;
      [constructor|].
    inversion Hr as [|? ? Hk Hks]; subst.
    constructor; [|apply IH, Hks].
    intros Hin. apply List.in_map_iff in Hin.
    destruct Hin as (k' & Heq & Hin').
    rewrite List.Forall_forall in Hks. specialize (Hks k' Hin').
    assert (k' = k) by lia. subst. contradiction. }
  assert (Hincl : incl (List.map Z.to_nat ks) (List.seq 0 (Z.to_nat n))).
  { intros x Hx. apply List.in_map_iff in Hx. destruct Hx as (k & <- & Hin).
    rewrite List.Forall_forall in Hr. specialize (Hr k Hin).
    apply List.in_seq. lia. }
  pose proof (List.NoDup_incl_length Hnd' Hincl) as Hlen.
  rewrite length_map, List.length_seq in Hlen. lia.
Qed.

(** The two ways in which [perform_clustering] returns. *)
Lemma perform_clustering_cases (P : processor) (L : ml) (papers : list loc)
  (n_clusters : Z) (h h' : heap) (cs : list cluster) :
  perform_clustering P L papers n_clusters h = Some (cs, h') ->
  let valid := usable_papers P papers h in
  (cs = [] /\ (valid = [] \/ ml_available L = false))
  \/ (valid <> [] /\ ml_available L = true
      /\ exists labels groups,
           fit_predict L (Z.min n_clusters (Z.of_nat (length valid)))
             (List.map vector_of valid) = Some labels
           /\ assign_labels labels valid [] = Some groups
           /\ cs = List.map (fun kv => summarize (fst kv) (snd kv))
                     (stable_sort (fun y x => (fst y <? fst x)%Z) groups)).
Proof.
  unfold perform_clustering, usable_papers, enriched_papers. intros H.
  cbv zeta.
  apply bind_Some in H. destruct H as (ps & h1 & Hps & H).
  rewrite Hps.
  destruct ps as [|p ps].
  { injection H as <- <-. left. auto. }
  destruct (ml_available L) eqn:Hml; simpl negb in H; cbv iota in H.
  2:{ injection H as <- <-. left. auto. }
  remember (List.filter usable_vector (p :: ps)) as vs eqn:Hvs.
  destruct vs as [|v vs'].
  { injection H as <- <-. left. auto. }
  right. split; [discriminate|]. split; [reflexivity|].
  remember (v :: vs') as vs eqn:Hcons.
  assert (Hlen : length (List.map vector_of vs) = length vs)
    by apply length_map.
  destruct (List.map vector_of vs) as [|x xs] eqn:Hx.
  { subst vs. discriminate. }
  rewrite Hlen in H.
  destruct (fit_predict L _ (x :: xs)) as [labels|] eqn:Hfit;
    [|discriminate].
  destruct (assign_labels labels vs []) as [groups|] eqn:Hassign;
    [|discriminate].
  injection H as <- <-. exists labels, groups. auto.
Qed.

(** C6 (counterexample).  One paper has a usable embedding and five
    clusters are asked for: the effective count is 1, below 2, and the
    call returns a cluster that holds the paper. *)
Lemma single_usable_paper_is_clustered :
  exists c h',
    perform_clustering offline_processor kmeans_single [0%nat] 5
      heap_duplicate_keyword = Some ([c], h')
    /\ length (usable_papers offline_processor [0%nat]
                 heap_duplicate_keyword) = 1%nat
    /\ (Z.min 5 1 < 2)%Z
    /\ cluster_id c = 0%Z /\ count c = 1%nat
    /\ paper_ids c = [Some (u "p1")].
Proof.
  do 2 eexists. split; [vm_compute; reflexivity|].
  repeat split; vm_compute; reflexivity.
Qed.

(** C6 (amended).  The effective cluster count is
    [min(k, number of papers with a usable embedding)]: it is the number
    of clusters k-means is asked for, and the call returns at most that
    many clusters, which together hold every paper with a usable
    embedding.  The call returns the empty list when no paper has a
    usable embedding; with at least one such paper (and scikit-learn
    present) the list is not empty. *)
Theorem clustering_effective_count (P : processor) (L : ml)
  (papers : list loc) (k : Z) (h h' : heap) (cs : list cluster) :
  kmeans_contract L ->
  perform_clustering P L papers k h = Some (cs, h') ->
  let valid := usable_papers P papers h in
  let n := Z.min k (Z.of_nat (length valid)) in
  (valid = [] -> cs = [])
  /\ (valid <> [] -> ml_available L = true ->
      (exists labels,
         fit_predict L n (List.map vector_of valid) = Some labels)
      /\ cs <> []
      /\ (Z.of_nat (length cs) <= n)%Z
      /\ list_sum (List.map count cs) = length valid).
Proof.
  intros Hk H valid n.
  destruct (perform_clustering_cases _ _ _ _ _ _ _ H)
    as [[-> Hc]|(Hv & Hml & labels & groups & Hfit & Hassign & ->)].
  - split; [reflexivity|]. intros Hv Hml.
    destruct Hc as [Hc|Hc]; [contradiction|].
    rewrite Hc in Hml. discriminate.
  - fold valid in Hv, Hfit, Hassign. fold n in Hfit.
    split; [intros Hv'; contradiction|]. intros _ _.
    destruct (Hk _ _ _ Hfit) as [Hlen Hrange].
    rewrite length_map in Hlen.
    destruct (assign_labels_spec _ _ _ _ Hassign) as (Hsz & Hnd & Hkeys).
    pose proof (stable_sort_perm (fun y x : Z * list pdict =>
                                    (fst y <? fst x)%Z) groups) as Hperm.
    assert (Hsum : list_sum
                     (List.map count
                        (List.map (fun kv => summarize (fst kv) (snd kv))
                           (stable_sort (fun y x => (fst y <? fst x)%Z)
                              groups))) = length valid).
    { rewrite List.map_map. simpl.
      rewrite (list_sum_perm _ (List.map (fun kv => length (snd kv)) groups)).
      - fold (group_sizes groups). rewrite Hsz. unfold group_sizes. simpl.
        exact Hlen.
      - apply Permutation_map, Hperm. }
    split; [eauto|]. split; [|split; [|exact Hsum]].
    + intros Hnil. rewrite Hnil in Hsum. simpl in Hsum.
      destruct valid; [congruence|discriminate].
    + rewrite length_map, stable_sort_length.
      rewrite <- (length_map fst groups).
      apply distinct_labels_bounded.
      * destruct labels as [|l0 labels].
        -- simpl in Hlen. destruct valid; [congruence|discriminate].
        -- inversion Hrange; subst. lia.
      * apply Hnd. constructor.
      * apply List.Forall_forall. intros x Hx.
        destruct (Hkeys x Hx) as [Hl|[]].
        rewrite List.Forall_forall in Hrange. apply Hrange, Hl.
Qed.

Lemma clustering_effective_count_witness :
  let cs :=
    value_of []
      (perform_clustering offline_processor kmeans_single [0%nat; 1%nat] 1
         heap_two_papers) in
  let valid := usable_papers offline_processor [0%nat; 1%nat] heap_two_papers in
  let n := Z.min 1 (Z.of_nat (length valid)) in
  (valid = [] -> cs = [])
  /\ (valid <> [] -> ml_available kmeans_single = true ->
      (exists labels,
         fit_predict kmeans_single n (List.map vector_of valid) = Some labels)
      /\ cs <> []
      /\ (Z.of_nat (length cs) <= n)%Z
      /\ list_sum (List.map count cs) = length valid).
Proof.
  apply (clustering_effective_count offline_processor kmeans_single
           [0%nat; 1%nat] 1 heap_two_papers
           (heap_of heap_two_papers
              (perform_clustering offline_processor kmeans_single
                 [0%nat; 1%nat] 1 heap_two_papers))).
  - intros n X labels. simpl. destruct (n =? 1)%Z eqn:E; [|discriminate].
    intros [= <-]. rewrite length_map. split; [reflexivity|].
    apply Z.eqb_eq in E. subst n.
    apply List.Forall_forall. intros x Hx.
    apply List.in_map_iff in Hx. destruct Hx as (_ & <- & _). lia.
  - vm_compute. reflexivity.
Defined.

(* ################################################################## *)
(** * Part III: further properties of the code                         *)
(* ################################################################## *)

(* ================================================================== *)
(** * Dictionaries in insertion order                                  *)
(* ================================================================== *)

Lemma assoc_In {V} (d : list (pystr * V)) (k : pystr) (v : V) :
  assoc d k = Some v -> In (k, v) d.
Proof.
  unfold assoc. destruct (List.find _ d) as [[k' v']|] eqn:Hf; [|discriminate].
  intros [= <-]. apply List.find_some in Hf. destruct Hf as [Hin Hk].
  apply str_eqb_eq in Hk. simpl in Hk. subst. exact Hin.
Qed.

Lemma In_assoc {V} (d : list (pystr * V)) (k : pystr) (v : V) :
  List.NoDup (List.map fst d) -> In (k, v) d -> assoc d k = Some v.
Proof.
  unfold assoc. induction d as [|[k' v'] d IH]; simpl; [intros _ []|].
  intros Hnd. inversion Hnd as [|? ? Hnotin Hnd']; subst.
  intros [[= -> ->]|Hin].
  - rewrite str_eqb_refl. reflexivity.
  - destruct (str_eqb k' k) eqn:E.
    + apply str_eqb_eq in E. subst. exfalso. apply Hnotin.
      apply (List.in_map fst) in Hin. exact Hin.
    + apply IH; assumption.
Qed.

Lemma assoc_None {V} (d : list (pystr * V)) (k : pystr) :
  assoc d k = None <-> ~ In k (List.map fst d).
Proof.
  unfold assoc. induction d as [|[k' v'] d IH]; simpl.
  - tauto.
  - destruct (str_eqb k' k) eqn:E; simpl.
    + apply str_eqb_eq in E. subst. split; [discriminate|]. intros H.
      exfalso. apply H. left. reflexivity.
    + apply str_eqb_neq in E. rewrite IH. tauto.
Qed.

Lemma assoc_set_signal (upd : signals -> signals) (pid k : pystr)
  (d : list (pystr * signals)) :
  assoc (set_signal upd pid d) k
  = if str_eqb pid k
    then Some (upd (match assoc d pid with Some v => v | None => no_signals end))
    else assoc d k.
Proof.
  unfold assoc. induction d as [|[k' v'] d IH]; simpl.
  - destruct (str_eqb pid k); reflexivity.
  - destruct (str_eqb k' pid) eqn:E1; simpl.
    + apply str_eqb_eq in E1. subst k'.
      destruct (str_eqb pid k); reflexivity.
    + destruct (str_eqb k' k) eqn:E2; simpl.
      * apply str_eqb_eq in E2. subst k'. rewrite str_eqb_sym, E1.
        reflexivity.
      * rewrite IH. reflexivity.
Qed.

Lemma set_signal_In (upd : signals -> signals) (pid k : pystr)
  (d : list (pystr * signals)) :
  In k (List.map fst (set_signal upd pid d))
  <-> k = pid \/ In k (List.map fst d).
Proof.
  induction d as [|[k' v'] d IH]; simpl.
  - intuition congruence.
  - destruct (str_eqb k' pid) eqn:E; simpl.
    + apply str_eqb_eq in E. subst. intuition congruence.
    + rewrite IH. intuition congruence.
Qed.

Lemma set_signal_NoDup (upd : signals -> signals) (pid : pystr)
  (d : list (pystr * signals)) :
  List.NoDup (List.map fst d) ->
  List.NoDup (List.map fst (set_signal upd pid d)).
Proof.
  induction d as [|[k' v'] d IH]; simpl; intros Hnd.
  - repeat constructor. intros [].
  - inversion Hnd as [|? ? Hnotin Hnd']; subst.
    destruct (str_eqb k' pid) eqn:E; simpl.
    + constructor; assumption.
    + constructor; [|apply IH, Hnd'].
      rewrite set_signal_In. intros [->|H]; [|contradiction].
      rewrite str_eqb_refl in E. discriminate.
Qed.

Lemma record_hits_In (upd : Q -> signals -> signals)
  (hits : list (pystr * Q)) :
  forall (d : list (pystr * signals)) (k : pystr),
    In k (List.map fst (record_hits upd hits d))
    <-> In k (List.map fst hits) \/ In k (List.map fst d).
Proof.
  unfold record_hits. induction hits as [|h hits IH]; intros d k; simpl.
  - tauto.
  - rewrite IH, set_signal_In. intuition congruence.
Qed.

Lemma record_hits_NoDup (upd : Q -> signals -> signals)
  (hits : list (pystr * Q)) :
  forall d : list (pystr * signals),
    List.NoDup (List.map fst d) ->
    List.NoDup (List.map fst (record_hits upd hits d)).
Proof.
  unfold record_hits. induction hits as [|h hits IH]; intros d Hd; simpl.
  - exact Hd.
  - apply IH, set_signal_NoDup, Hd.
Qed.

(** One pass over the hits of a backend, seen through a reader [get] of
    the signal that the pass writes. *)
Lemma record_hits_written (upd : Q -> signals -> signals)
  (get : signals -> option Q) (hits : list (pystr * Q)) :
  (forall s x, get (upd s x) = Some s) ->
  forall (d : list (pystr * signals)) (k : pystr),
    match assoc (record_hits upd hits d) k with
    | Some sc => get sc
    | None => None
    end
    = match last_score hits k with
      | Some s => Some s
      | None => match assoc d k with Some sc => get sc | None => None end
      end.
Proof.
  intros Hget. unfold record_hits.
  induction hits as [|h hits IH]; intros d k; simpl.
  - reflexivity.
  - rewrite IH. destruct (last_score hits k); [reflexivity|].
    rewrite assoc_set_signal. destruct (str_eqb (fst h) k) eqn:E.
    + apply Hget.
    + reflexivity.
Qed.

Lemma record_hits_kept (upd : Q -> signals -> signals)
  (get : signals -> option Q) (hits : list (pystr * Q)) :
  (forall s x, get (upd s x) = get x) -> get no_signals = None ->
  forall (d : list (pystr * signals)) (k : pystr),
    match assoc (record_hits upd hits d) k with
    | Some sc => get sc
    | None => None
    end
    = match assoc d k with Some sc => get sc | None => None end.
Proof.
  intros Hget Hno. unfold record_hits.
  induction hits as [|h hits IH]; intros d k; simpl.
  - reflexivity.
  - rewrite IH, assoc_set_signal. destruct (str_eqb (fst h) k) eqn:E.
    + apply str_eqb_eq in E. subst k. rewrite Hget.
      destruct (assoc d (fst h)); [reflexivity|]. exact Hno.
    + reflexivity.
Qed.

Lemma last_score_Some_In (hits : list (pystr * Q)) (k : pystr) (s : Q) :
  last_score hits k = Some s -> In (k, s) hits.
Proof.
  induction hits as [|h hits IH]; simpl; [discriminate|].
  destruct (last_score hits k) as [s'|].
  - intros [= <-]. right. apply IH. reflexivity.
  - destruct (str_eqb (fst h) k) eqn:E; [|discriminate].
    apply str_eqb_eq in E. intros [= <-]. left. subst k.
    destruct h; reflexivity.
Qed.

Lemma In_last_score (hits : list (pystr * Q)) (k : pystr) :
  In k (List.map fst hits) -> last_score hits k <> None.
Proof.
  induction hits as [|h hits IH]; simpl; [intros []|].
  intros [<-|Hin].
  - destruct (last_score hits (fst h)); [discriminate|].
    rewrite str_eqb_refl. discriminate.
  - specialize (IH Hin). destruct (last_score hits k); [discriminate|].
    congruence.
Qed.

Lemma last_score_None (hits : list (pystr * Q)) (k : pystr) :
  last_score hits k = None <-> ~ In k (List.map fst hits).
Proof.
  split.
  - intros Hn Hin. exact (In_last_score hits k Hin Hn).
  - intros Hnin. destruct (last_score hits k) as [s|] eqn:E; [|reflexivity].
    exfalso. apply Hnin. apply last_score_Some_In in E.
    apply (List.in_map fst) in E. exact E.
Qed.

(* ================================================================== *)
(** * Candidate collection, continued                                  *)
(* ================================================================== *)

Lemma gather_keys_NoDup (E : backends) (q : pystr) (sy ey : option Z)
  (src : option pystr) (limit : Z) :
  List.NoDup (List.map fst (id_scores (gather E q sy ey src limit))).
Proof.
  unfold gather. cbn [id_scores].
  apply record_hits_NoDup, record_hits_NoDup. constructor.
Qed.

(** The candidates of a call are the papers that either backend
    returned, each once, in the order of their first appearance; the
    signals recorded for a candidate are the scores of its last hit in
    each backend's answer, and a signal is absent exactly when that
    backend did not return the paper. *)
Theorem candidates_are_the_union_of_hits (E : backends) (q : pystr)
  (sy ey : option Z) (src : option pystr) (limit : Z) :
  let g := gather E q sy ey src limit in
  let bh := bm25_hits E q sy ey src limit in
  let vh := vec_hits E q limit in
  List.NoDup (List.map fst (id_scores g))
  /\ (forall pid,
        In pid (List.map fst (id_scores g))
        <-> In pid (List.map fst bh) \/ In pid (List.map fst vh))
  /\ (forall pid sc,
        In (pid, sc) (id_scores g) ->
        bm25 sc = last_score bh pid /\ vec sc = last_score vh pid
        /\ (bm25 sc = None <-> ~ In pid (List.map fst bh))
        /\ (vec sc = None <-> ~ In pid (List.map fst vh))).
Proof.
  pose proof (gather_keys_NoDup E q sy ey src limit) as Hnd.
  intros g bh vh. subst g. unfold gather in *. cbn [id_scores] in *.
  fold bh vh in Hnd |- *.
  split; [exact Hnd|]. split.
  - intros pid. rewrite !record_hits_In. simpl. tauto.
  - intros pid sc Hin.
    pose proof (In_assoc _ _ _ Hnd Hin) as Ha.
    assert (Hb : bm25 sc = last_score bh pid).
    { pose proof (record_hits_kept set_vec bm25 vh (fun _ _ => eq_refl)
                    eq_refl (record_hits set_bm25 bh []) pid) as H1.
      rewrite Ha in H1. rewrite H1.
      rewrite (record_hits_written set_bm25 bm25 bh (fun _ _ => eq_refl)).
      destruct (last_score bh pid); reflexivity. }
    assert (Hv : vec sc = last_score vh pid).
    { pose proof (record_hits_written set_vec vec vh (fun _ _ => eq_refl)
                    (record_hits set_bm25 bh []) pid) as H1.
      rewrite Ha in H1. rewrite H1.
      destruct (last_score vh pid); [reflexivity|].
      rewrite (record_hits_kept set_bm25 vec bh (fun _ _ => eq_refl) eq_refl).
      reflexivity. }
    split; [exact Hb|]. split; [exact Hv|].
    rewrite Hb, Hv. split; apply last_score_None.
Qed.

(* ================================================================== *)
(** * The fused path, continued                                        *)
(* ================================================================== *)


Lemma In_firstn {A} (n : nat) (l : list A) (x : A) :
  In x (firstn n l) -> In x l.
Proof.
  revert n. induction l as [|y l IH]; intros [|n]; simpl; try tauto.
  intros [H|H]; [left; exact H | right; apply (IH n H)].
Qed.

Lemma In_skipn {A} (n : nat) (l : list A) (x : A) :
  In x (skipn n l) -> In x l.
Proof.
  revert n. induction l as [|y l IH]; intros [|n]; simpl; try tauto.
  intros H. right. apply (IH n H).
Qed.

Lemma py_slice_In {A} (l : list A) (a b : Z) (x : A) :
  In x (py_slice l a b) -> In x l.
Proof.
  unfold py_slice. intros H.
  apply In_firstn in H. apply In_skipn in H. exact H.
Qed.

Lemma firstn_sublist_NoDup {A} (n : nat) (l : list A) :
  List.NoDup l -> List.NoDup (firstn n l).
Proof.
  revert n. induction l as [|x l IH]; intros [|n] H; simpl;
    try constructor.
  - inversion H; subst. intros Hin. apply In_firstn in Hin.
    contradiction.
  - inversion H; subst. apply IH. assumption.
Qed.

Lemma skipn_sublist_NoDup {A} (n : nat) (l : list A) :
  List.NoDup l -> List.NoDup (skipn n l).
Proof.
  revert n. induction l as [|x l IH]; intros [|n] H; simpl; auto.
  inversion H; subst. apply IH. assumption.
Qed.

Lemma map_py_slice {A B} (f : A -> B) (l : list A) (a b : Z) :
  List.map f (py_slice l a b) = py_slice (List.map f l) a b.
Proof.
  unfold py_slice. rewrite length_map, List.skipn_map, List.firstn_map.
  reflexivity.
Qed.

Lemma py_slice_NoDup {A} (l : list A) (a b : Z) :
  List.NoDup l -> List.NoDup (py_slice l a b).
Proof.
  intros H. unfold py_slice.
  apply firstn_sublist_NoDup, skipn_sublist_NoDup, H.
Qed.

Lemma firstn_StronglySorted {A} (R : A -> A -> Prop) (n : nat) (l : list A) :
  StronglySorted R l -> StronglySorted R (firstn n l).
Proof.
  intros H. revert n. induction H as [|x l Hs IH Hx]; intros [|n]; simpl;
    try constructor.
  - apply IH.
  - apply List.Forall_forall. intros y Hy. apply In_firstn in Hy.
    rewrite List.Forall_forall in Hx. apply Hx, Hy.
Qed.

Lemma skipn_StronglySorted {A} (R : A -> A -> Prop) (n : nat) (l : list A) :
  StronglySorted R l -> StronglySorted R (skipn n l).
Proof.
  intros H. revert n. induction H as [|x l Hs IH Hx]; intros [|n]; simpl;
    try constructor; auto.
Qed.

Lemma py_slice_StronglySorted {A} (R : A -> A -> Prop) (l : list A)
  (a b : Z) :
  StronglySorted R l -> StronglySorted R (py_slice l a b).
Proof.
  intros H. unfold py_slice.
  apply firstn_StronglySorted, skipn_StronglySorted, H.
Qed.

(** Length of a page window for non-negative offset and limit. *)
Lemma py_slice_length {A} (l : list A) (offset limit : Z) :
  (0 <= offset)%Z -> (0 <= limit)%Z ->
  Z.of_nat (length (py_slice l offset (offset + limit)))
  = Z.min limit (Z.max 0 (Z.of_nat (length l) - offset)).
Proof.
  intros Ho Hl. unfold py_slice, slice_index.
  rewrite length_firstn, length_skipn.
  destruct (offset <? 0)%Z eqn:E1; [apply Z.ltb_lt in E1; lia|].
  destruct (offset + limit <? 0)%Z eqn:E2; [apply Z.ltb_lt in E2; lia|].
  lia.
Qed.

Lemma first_score_unique (combined : list (pystr * Q)) (pid : pystr)
  (s : Q) :
  List.NoDup (List.map fst combined) -> In (pid, s) combined ->
  first_score combined pid = s.
Proof.
  intros Hnd Hin. unfold first_score.
  pose proof (In_assoc combined pid s Hnd Hin) as Ha. unfold assoc in Ha.
  destruct (List.find _ combined) as [c|]; [|discriminate].
  injection Ha as <-. reflexivity.
Qed.

Lemma page_results_In (meta : gmap pystr paper) (c : list (pystr * Q))
  (pids : list pystr) (h : hit) :
  In h (page_results meta c pids) ->
  exists pid,
    In pid pids /\ meta !! pid = Some (hit_paper h)
    /\ hit_score h = Some (first_score c pid).
Proof.
  induction pids as [|p pids IH]; simpl; [intros []|].
  destruct (meta !! p) as [x|] eqn:Hp.
  - intros [<-|Hin].
    + exists p. simpl. auto.
    + destruct (IH Hin) as (pid & H1 & H2). exists pid. auto.
  - intros Hin. destruct (IH Hin) as (pid & H1 & H2). exists pid. auto.
Qed.

(** The ids of a page are the ids of its window that have metadata, in
    the same order. *)
Lemma page_results_full (meta : gmap pystr paper) (c : list (pystr * Q))
  (pids : list pystr) :
  (forall pid, In pid pids -> meta !! pid <> None) ->
  length (page_results meta c pids) = length pids.
Proof.
  induction pids as [|p pids IH]; simpl; [reflexivity|]. intros H.
  destruct (meta !! p) eqn:Hp.
  - simpl. rewrite IH; [reflexivity|]. intros pid Hin. apply H. auto.
  - exfalso. apply (H p); auto.
Qed.

Lemma NoDup_filter {A} (f : A -> bool) (l : list A) :
  List.NoDup l -> List.NoDup (List.filter f l).
Proof.
  intros H. rewrite <- (List.map_id (List.filter f l)).
  apply NoDup_map_filter. rewrite List.map_id. exact H.
Qed.

Lemma page_results_sorted (meta : gmap pystr paper) (c sl : list (pystr * Q)) :
  List.NoDup (List.map fst c) -> (forall x, In x sl -> In x c) ->
  StronglySorted (fun x y => (snd y <= snd x)%Q) sl ->
  StronglySorted (fun a b => (score_of b <= score_of a)%Q)
    (page_results meta c (List.map fst sl)).
Proof.
  intros Hnd Hsub Hs. induction Hs as [|[pid s] sl Hs IH Hx]; simpl.
  - constructor.
  - assert (IH' : StronglySorted (fun a b => (score_of b <= score_of a)%Q)
                    (page_results meta c (List.map fst sl))).
    { apply IH. intros x Hin. apply Hsub. right. exact Hin. }
    destruct (meta !! pid) as [p|]; [|exact IH'].
    constructor; [exact IH'|].
    apply List.Forall_forall. intros h Hh.
    destruct (page_results_In _ _ _ _ Hh) as (pid' & Hin & _ & Hsc).
    apply List.in_map_iff in Hin. destruct Hin as ([pid2 s'] & Heq & Hin).
    simpl in Heq. subst pid2.
    unfold score_of. rewrite Hsc. simpl.
    rewrite (first_score_unique c pid' s' Hnd) by (apply Hsub; right; exact Hin).
    rewrite (first_score_unique c pid s Hnd) by (apply Hsub; left; reflexivity).
    rewrite List.Forall_forall in Hx. apply (Hx _ Hin).
Qed.

Section FusedPath.
Context (E : backends) (q : pystr) (sy ey : option Z) (src : option pystr)
        (limit offset : Z) (W : weights) (up tt : option (list pystr)).

Local Abbreviation g := (gather E q sy ey src limit).
Local Abbreviation meta := (candidates_meta E (gather E q sy ey src limit)).
Local Abbreviation pref := (match up with Some l => l | None => [] end).

Context (results : list hit) (total : nat).
Hypothesis Hav : (index_exists E || index_ready E) = true.
Hypothesis Hne : id_scores g <> [].
Hypothesis Hs :
  hybrid_search E q sy ey src limit offset W up tt = Some (results, total).

(** What the fused path establishes about the ranking it pages. *)
Lemma ranking_spec :
  exists combined,
    fused_candidates E q sy ey src limit W pref tt = Some combined
    /\ results
       = page_results meta (sort_by_score_desc combined)
           (page_window (sort_by_score_desc combined) limit offset)
    /\ total = length combined
    /\ List.NoDup (List.map fst combined)
    /\ List.NoDup (List.map fst (sort_by_score_desc combined))
    /\ StronglySorted (fun x y => (snd y <= snd x)%Q)
         (sort_by_score_desc combined)
    /\ (forall x, In x (sort_by_score_desc combined) <-> In x combined).
Proof.
  destruct (hybrid_search_fused _ _ _ _ _ _ _ _ _ _ _ _ Hav Hne Hs)
    as (combined & Hc & Hr & Ht).
  exists combined. split; [exact Hc|]. split; [exact Hr|].
  split; [exact Ht|].
  assert (Hnd : List.NoDup (List.map fst combined)).
  { rewrite (fuse_keys _ _ _ _ _
               (proj2 (fused_candidates_fuse _ _ _ _ _ _ _ _ _ _ Hc))). apply NoDup_map_filter.
    apply gather_keys_NoDup. }
  pose proof (stable_sort_perm
                (fun y x : pystr * Q => Qlt_bool (snd x) (snd y)) combined)
    as Hperm.
  split; [exact Hnd|]. split; [|split].
  - eapply Permutation_NoDup; [|exact Hnd].
    apply Permutation_map. symmetry. exact Hperm.
  - unfold sort_by_score_desc. apply stable_sort_sorted.
    + intros x y z Hxy Hyz. eapply Qle_trans; eassumption.
    + intros y x H. apply Qlt_bool_iff in H. apply Qlt_le_weak, H.
    + intros y x H. apply Qlt_bool_false in H. exact H.
  - intros x. split; intros Hin.
    + eapply Permutation_in; [exact Hperm|exact Hin].
    + eapply Permutation_in; [symmetry; exact Hperm|exact Hin].
Qed.

(** What the fused path establishes about each returned item. *)
Lemma returned_item_spec (h : hit) :
  In h results ->
  meta !! hit_id h = Some (hit_paper h)
  /\ exists s sc,
       hit_score h = Some s
       /\ In (hit_id h, sc) (id_scores g)
       /\ passes_filters sy ey src (Some (hit_paper h)) = true
       /\ fused_score W g pref tt q (Some (hit_paper h)) sc = Some s.
Proof.
  intros Hin.
  destruct ranking_spec as (combined & Hc & Hr & _ & _ & Hnd & _ & Hmem).
  rewrite Hr in Hin.
  destruct (page_results_In _ _ _ _ Hin) as (pid & Hw & Hm & Hsc).
  pose proof (candidates_meta_key _ _ _ _ Hm) as Hkey.
  unfold hit_id. rewrite Hkey. split; [exact Hm|].
  unfold page_window in Hw. apply List.in_map_iff in Hw.
  destruct Hw as ([pid' s] & Heq & Hsl). simpl in Heq. subst pid'.
  apply py_slice_In in Hsl.
  rewrite (first_score_unique _ pid s Hnd Hsl) in Hsc.
  apply Hmem in Hsl.
  destruct (fuse_In _ _ _ _ _ pid s
                (proj2 (fused_candidates_fuse _ _ _ _ _ _ _ _ _ _ Hc)) Hsl) as (sc & Hd & Hk & Hf).
  rewrite Hm in Hk, Hf. exists s, sc. auto.
Qed.


(** The score attached to a returned paper is the weighted sum of the
    signals recorded for that very paper. *)
Theorem returned_score_is_fused_score :
  List.Forall
    (fun h =>
       exists s sc,
         hit_score h = Some s
         /\ In (hit_id h, sc) (id_scores g)
         /\ fused_score W g pref tt q (Some (hit_paper h)) sc = Some s)
    results.
Proof.
  apply List.Forall_forall. intros h Hin.
  destruct (returned_item_spec h Hin) as (_ & s & sc & H1 & H2 & _ & H3).
  exists s, sc. auto.
Qed.

(** The page is in descending order of the score, and no paper occurs
    on it twice. *)
Theorem page_descends_without_repetition :
  StronglySorted (fun a b => (score_of b <= score_of a)%Q) results
  /\ List.NoDup (List.map hit_id results).
Proof.
  destruct ranking_spec as (combined & Hc & Hr & _ & _ & Hnd & Hsorted & _).
  rewrite Hr. split.
  - unfold page_window. apply page_results_sorted.
    + exact Hnd.
    + intros x. apply py_slice_In.
    + apply py_slice_StronglySorted, Hsorted.
  - rewrite page_results_ids by apply candidates_meta_key.
    apply NoDup_filter. unfold page_window. rewrite map_py_slice.
    apply py_slice_NoDup, Hnd.
Qed.

(** The total is the number of collected candidates that pass the hard
    filters; it depends neither on the offset nor on the weights. *)
Theorem total_counts_filtered_candidates :
  total
  = length
      (List.filter (fun c => passes_filters sy ey src (meta !! fst c))
         (id_scores g)).
Proof.
  destruct ranking_spec as (combined & Hc & _ & Ht & _).
  rewrite Ht, <- (length_map fst combined), (fuse_keys _ _ _ _ _
               (proj2 (fused_candidates_fuse _ _ _ _ _ _ _ _ _ _ Hc))).
  apply length_map.
Qed.

(** For a non-negative offset and limit the page holds at most [limit]
    items and at most the candidates left behind the offset, so it is
    empty when the offset reaches the total; it holds exactly that many
    when every candidate has a row in the metadata store. *)
Theorem page_length :
  (0 <= offset)%Z -> (0 <= limit)%Z ->
  (Z.of_nat (length results)
   <= Z.min limit (Z.max 0 (Z.of_nat total - offset)))%Z
  /\ ((forall pid,
         In pid (List.map fst (id_scores (gather E q sy ey src limit))) ->
         candidates_meta E (gather E q sy ey src limit) !! pid <> None) ->
      Z.of_nat (length results)
      = Z.min limit (Z.max 0 (Z.of_nat total - offset))).
Proof.
  intros Ho Hl.
  destruct ranking_spec as (combined & Hc & Hr & Ht & _ & _ & _ & Hmem).
  assert (Hw : Z.of_nat
                 (length (page_window (sort_by_score_desc combined)
                            limit offset))
               = Z.min limit (Z.max 0 (Z.of_nat total - offset))).
  { unfold page_window. rewrite length_map, py_slice_length by assumption.
    unfold sort_by_score_desc. rewrite stable_sort_length, Ht. reflexivity. }
  split.
  - rewrite <- Hw, Hr.
    pose proof (page_results_length meta (sort_by_score_desc combined)
                  (page_window (sort_by_score_desc combined) limit offset)).
    lia.
  - intros Hall. rewrite <- Hw, Hr. f_equal. apply page_results_full.
    intros pid Hin. apply Hall.
    unfold page_window in Hin. apply List.in_map_iff in Hin.
    destruct Hin as ([pid' s] & Heq & Hsl). simpl in Heq. subst pid'.
    apply py_slice_In, Hmem in Hsl.
    destruct (fuse_In _ _ _ _ _ pid s
                (proj2 (fused_candidates_fuse _ _ _ _ _ _ _ _ _ _ Hc)) Hsl) as (sc & Hd & _).
    apply (List.in_map fst) in Hd. exact Hd.
Qed.

End FusedPath.


Lemma returned_score_is_fused_score_witness :
  List.Forall
    (fun h =>
       exists s sc,
         hit_score h = Some s
         /\ In (hit_id h, sc)
              (id_scores (gather env_three (u "deep") None None None 10))
         /\ fused_score default_weights
              (gather env_three (u "deep") None None None 10) [] None
              (u "deep") (Some (hit_paper h)) sc = Some s)
    (hits_of (hybrid_search env_three (u "deep") None None None 10 0
                default_weights None None)).
Proof.
  apply (returned_score_is_fused_score env_three (u "deep") None None None
           10 0 default_weights None None _ 3%nat).
  - reflexivity.
  - discriminate.
  - vm_compute. reflexivity.
Defined.

Lemma page_descends_without_repetition_witness :
  StronglySorted (fun a b => (score_of b <= score_of a)%Q)
    (hits_of (hybrid_search env_three (u "deep") None None None 10 0
                default_weights None None))
  /\ List.NoDup
       (List.map hit_id
          (hits_of (hybrid_search env_three (u "deep") None None None 10 0
                      default_weights None None))).
Proof.
  apply (page_descends_without_repetition env_three (u "deep") None None None
           10 0 default_weights None None _ 3%nat).
  - reflexivity.
  - discriminate.
  - vm_compute. reflexivity.
Defined.

Lemma total_counts_filtered_candidates_witness :
  2%nat
  = length
      (List.filter
         (fun c =>
            passes_filters (Some 2021%Z) None None
              (candidates_meta env_three
                 (gather env_three (u "x") (Some 2021%Z) None None 10)
               !! fst c))
         (id_scores (gather env_three (u "x") (Some 2021%Z) None None 10))).
Proof.
  apply (total_counts_filtered_candidates env_three (u "x") (Some 2021%Z)
           None None 10 1 default_weights None None
           (hits_of (hybrid_search env_three (u "x") (Some 2021%Z) None None
                       10 1 default_weights None None)) 2%nat).
  - reflexivity.
  - discriminate.
  - vm_compute. reflexivity.
Defined.

(** Three candidates, all with a row, paged by two from offset one:
    exactly two items come back. *)
Lemma page_length_witness :
  (Z.of_nat
     (length (hits_of (hybrid_search env_three (u "x") None None None 2 1
                         default_weights None None)))
   <= Z.min 2 (Z.max 0 (Z.of_nat 3 - 1)))%Z
  /\ Z.of_nat
       (length (hits_of (hybrid_search env_three (u "x") None None None 2 1
                           default_weights None None)))
     = Z.min 2 (Z.max 0 (Z.of_nat 3 - 1)).
Proof.
  destruct (page_length env_three (u "x") None None None 2 1 default_weights
              None None
              (hits_of (hybrid_search env_three (u "x") None None None 2 1
                          default_weights None None)) 3%nat) as [Hle Heq].
  - reflexivity.
  - discriminate.
  - vm_compute. reflexivity.
  - lia.
  - lia.
  - split; [exact Hle|]. apply Heq.
    intros pid Hin. vm_compute in Hin.
    destruct Hin as [<-|[<-|[<-|[]]]]; vm_compute; discriminate.
Defined.

Lemma authors_of_column_None (loads : json_decoder) (c : option pystr) :
  authors_of_column loads c = None
  <-> exists s, c = Some s /\ s <> [] /\ loads s = None.
Proof.
  unfold authors_of_column. destruct c as [a|].
  - destruct a as [|x a]; simpl.
    + split; [discriminate|]. intros (s & [= <-] & Hne & _). congruence.
    + split.
      * intros H. exists (x :: a). split; [reflexivity|].
        split; [discriminate|exact H].
      * intros (s & [= <-] & _ & H). exact H.
  - split; [discriminate|]. intros (s & H & _). discriminate.
Qed.

Lemma year_of_column_None (c : option pystr) :
  year_of_column c = None
  <-> exists s,
        c = Some s /\ isdigit s = true
        /\ (forallb is_decimal s = false
            \/ (int_max_str_digits < length s)%nat).
Proof.
  unfold year_of_column. destruct c as [y|].
  - destruct (isdigit y) eqn:Hy.
    + assert (Ht : truthy y = true).
      { unfold isdigit in Hy. apply andb_true_iff in Hy. tauto. }
      rewrite Ht. simpl.
      pose proof (int_of_digit_string y Hy) as Hi.
      destruct (int_of_str y) as [z|]; simpl.
      * split; [discriminate|]. intros (s & [= <-] & _ & H).
        apply Hi in H. discriminate.
      * split; [|reflexivity]. intros _. exists y.
        split; [reflexivity|]. split; [exact Hy|]. apply Hi. reflexivity.
    + rewrite andb_false_r. split; [discriminate|].
      intros (s & [= <-] & Hd & _). congruence.
  - split; [discriminate|]. intros (s & H & _). discriminate.
Qed.

Lemma paper_of_row_None (loads : json_decoder) (r : row) :
  paper_of_row loads r = None <-> unreadable_row loads r.
Proof.
  unfold unreadable_row.
  rewrite <- authors_of_column_None, <- year_of_column_None.
  unfold paper_of_row.
  destruct (authors_of_column loads (row_authors r)) as [a|].
  - destruct (year_of_column (row_year r)) as [y|].
    + split; [discriminate|]. intros [H|H]; discriminate.
    + split; [auto|reflexivity].
  - split; [auto|reflexivity].
Qed.






(* ================================================================== *)
(** * Counters, continued                                              *)
(* ================================================================== *)

Section Tally.
Context {A K : Type} (eqb : K -> K -> bool).
Hypothesis eqb_eq : forall x y, eqb x y = true <-> x = y.

Lemma eqb_same (k : K) : eqb k k = true.
Proof. apply eqb_eq. reflexivity. Qed.

Lemma count_of_incr (k k' : K) (c : list (K * nat)) :
  count_of eqb (counter_incr eqb k c) k'
  = if eqb k k' then S (count_of eqb c k') else count_of eqb c k'.
Proof.
  unfold count_of. induction c as [|[k1 n] c IH]; simpl.
  - destruct (eqb k k'); reflexivity.
  - destruct (eqb k1 k) eqn:E1; simpl.
    + apply eqb_eq in E1. subst k1. destruct (eqb k k'); reflexivity.
    + destruct (eqb k1 k') eqn:E2; [|exact IH].
      apply eqb_eq in E2. subst k1.
      destruct (eqb k k') eqn:E3; [|reflexivity].
      apply eqb_eq in E3. subst k'. rewrite eqb_same in E1. discriminate.
Qed.

Lemma counter_incr_positive (k : K) (c : list (K * nat)) :
  List.Forall (fun kv => (1 <= snd kv)%nat) c ->
  List.Forall (fun kv => (1 <= snd kv)%nat) (counter_incr eqb k c).
Proof.
  induction 1 as [|[k1 n] c H1 Hc IH]; simpl.
  - repeat constructor.
  - destruct (eqb k1 k); constructor; simpl in *; auto; lia.
Qed.

Lemma In_count_of (c : list (K * nat)) (k : K) (n : nat) :
  List.NoDup (List.map fst c) -> In (k, n) c -> count_of eqb c k = n.
Proof.
  unfold count_of. induction c as [|[k1 n1] c IH]; simpl; [intros _ []|].
  intros Hnd Hin. inversion Hnd as [|? ? Hnotin Hnd']; subst.
  destruct Hin as [[= -> ->]|Hin].
  - rewrite eqb_same. reflexivity.
  - destruct (eqb k1 k) eqn:E1.
    + apply eqb_eq in E1. subst k1. exfalso. apply Hnotin.
      apply (List.in_map fst) in Hin. exact Hin.
    + apply IH; assumption.
Qed.

Lemma count_of_In (c : list (K * nat)) (k : K) :
  (1 <= count_of eqb c k)%nat -> In (k, count_of eqb c k) c.
Proof.
  unfold count_of.
  destruct (List.find (fun kv => eqb (fst kv) k) c) as [[k1 n]|] eqn:Hf;
    simpl; [|lia].
  intros _. apply List.find_some in Hf. destruct Hf as [Hin Heq].
  simpl in Heq. apply eqb_eq in Heq. subst k1. exact Hin.
Qed.

Context (key : A -> option K) (step : list (K * nat) -> A -> list (K * nat)).
Hypothesis step_eq :
  forall c r,
    step c r
    = match key r with Some k => counter_incr eqb k c | None => c end.

Lemma tally_count (rs : list A) (c : list (K * nat)) (k : K) :
  count_of eqb (fold_left step rs c) k
  = (count_of eqb c k + occurrences eqb key k rs)%nat.
Proof.
  unfold occurrences. revert c.
  induction rs as [|r rs IH]; intros c; simpl; [lia|].
  rewrite IH, step_eq. destruct (key r) as [k1|]; [|reflexivity].
  rewrite count_of_incr. destruct (eqb k1 k); simpl; lia.
Qed.

Lemma tally_positive (rs : list A) (c : list (K * nat)) :
  List.Forall (fun kv => (1 <= snd kv)%nat) c ->
  List.Forall (fun kv => (1 <= snd kv)%nat) (fold_left step rs c).
Proof.
  revert c. induction rs as [|r rs IH]; intros c Hc; simpl; [exact Hc|].
  apply IH. rewrite step_eq. destruct (key r); [|exact Hc].
  apply counter_incr_positive, Hc.
Qed.

Lemma tally_NoDup (rs : list A) (c : list (K * nat)) :
  List.NoDup (List.map fst c) ->
  List.NoDup (List.map fst (fold_left step rs c)).
Proof.
  revert c. induction rs as [|r rs IH]; intros c Hc; simpl; [exact Hc|].
  apply IH. rewrite step_eq. destruct (key r); [|exact Hc].
  apply (counter_incr_NoDup eqb eqb_eq), Hc.
Qed.

(** A counter filled by a loop lists a key exactly when some item was
    counted under it, with the number of those items. *)
Lemma tally_spec (rs : list A) :
  List.NoDup (List.map fst (fold_left step rs []))
  /\ forall k n,
       In (k, n) (fold_left step rs [])
       <-> (1 <= n)%nat /\ n = occurrences eqb key k rs.
Proof.
  pose proof (tally_NoDup rs [] (List.NoDup_nil _)) as Hnd.
  split; [exact Hnd|]. intros k n. split.
  - intros Hin.
    pose proof (tally_positive rs [] (List.Forall_nil _)) as Hpos.
    rewrite List.Forall_forall in Hpos. specialize (Hpos _ Hin).
    split; [exact Hpos|].
    rewrite <- (In_count_of _ _ _ Hnd Hin), tally_count. reflexivity.
  - intros [Hn ->].
    pose proof (tally_count rs [] k) as Hc. simpl in Hc.
    rewrite <- Hc. apply count_of_In. rewrite Hc. exact Hn.
Qed.

End Tally.

Lemma Zeqb_eq (x y : Z) : (x =? y)%Z = true <-> x = y.
Proof. apply Z.eqb_eq. Qed.

Lemma sorted_distinct_strict {V} (l : list (Z * V)) :
  StronglySorted (fun x y => (fst x <= fst y)%Z) l ->
  List.NoDup (List.map fst l) ->
  StronglySorted (fun x y => (fst x < fst y)%Z) l.
Proof.
  induction 1 as [|x l Hs IH Hx]; simpl; intros Hnd; [constructor|].
  inversion Hnd as [|? ? Hnotin Hnd']; subst.
  constructor; [apply IH, Hnd'|].
  rewrite List.Forall_forall in Hx |- *. intros y Hy.
  specialize (Hx y Hy).
  assert (fst x <> fst y).
  { intros Heq. apply Hnotin. rewrite Heq. apply List.in_map, Hy. }
  lia.
Qed.

Lemma StronglySorted_app_cross {A} (R : A -> A -> Prop) (l1 l2 : list A) :
  StronglySorted R (l1 ++ l2) ->
  forall x y, In x l1 -> In y l2 -> R x y.
Proof.
  induction l1 as [|a l1 IH]; simpl; intros Hs x y Hx Hy; [destruct Hx|].
  inversion Hs as [|? ? Hs' Ha]; subst.
  destruct Hx as [<-|Hx].
  - rewrite List.Forall_forall in Ha. apply Ha, List.in_or_app. auto.
  - apply (IH Hs' x y Hx Hy).
Qed.

Lemma most_common_sorted {K} (n : nat) (c : list (K * nat)) :
  StronglySorted (fun x y => (snd y <= snd x)%nat) (most_common n c).
Proof.
  unfold most_common. apply firstn_StronglySorted, stable_sort_sorted.
  - intros x y z. lia.
  - intros y x H. apply Nat.ltb_lt in H. lia.
  - intros y x H. apply Nat.ltb_ge in H. exact H.
Qed.

(** The year table of a page. *)
Lemma year_table_spec (results : list hit) :
  StronglySorted (fun x y => (fst x < fst y)%Z)
    (sorted_items (fold_left count_year results []))
  /\ forall y n,
       In (y, n) (sorted_items (fold_left count_year results []))
       <-> (1 <= n)%nat /\ n = occurrences Z.eqb result_year y results.
Proof.
  destruct (tally_spec Z.eqb Zeqb_eq result_year count_year
              (fun c r => eq_refl) results) as [Hnd Hin].
  pose proof (stable_sort_perm
                (fun y x : Z * nat =>
                   (fst y <? fst x)%Z
                   || ((fst y =? fst x)%Z && (snd y <? snd x)%nat))
                (fold_left count_year results [])) as Hperm.
  fold (sorted_items (fold_left count_year results [])) in Hperm.
  split.
  - apply sorted_distinct_strict; [apply sorted_items_sorted|].
    eapply Permutation_NoDup; [|exact Hnd].
    apply Permutation_map. symmetry. exact Hperm.
  - intros y n. rewrite <- Hin. split; intros H.
    + eapply Permutation_in; [exact Hperm|exact H].
    + eapply Permutation_in; [symmetry; exact Hperm|exact H].
Qed.

Lemma count_topic_step (feats : gmap pystr features)
  (c : list (pystr * nat)) (r : hit) :
  count_topic feats c r
  = match result_topic feats r with
    | Some k => counter_incr str_eqb k c
    | None => c
    end.
Proof.
  unfold count_topic, result_topic. simpl.
  destruct (truthy (topic_of feats r)); reflexivity.
Qed.

Lemma str_eqb_iff (x y : pystr) : str_eqb x y = true <-> x = y.
Proof.
  split; [apply str_eqb_eq|]. intros ->. apply str_eqb_refl.
Qed.

Lemma occurrences_topic_nonempty (feats : gmap pystr features)
  (results : list hit) (t : pystr) :
  (1 <= occurrences str_eqb (result_topic feats) t results)%nat -> t <> [].
Proof.
  unfold occurrences. intros H.
  destruct (List.filter _ results) as [|r l] eqn:Hf; [simpl in H; lia|].
  assert (Hr : In r (r :: l)) by (left; reflexivity).
  rewrite <- Hf in Hr. apply List.filter_In in Hr. destruct Hr as [_ Hr].
  unfold result_topic in Hr. simpl in Hr.
  destruct (truthy (topic_of feats r)) eqn:Ht; [|discriminate].
  apply str_eqb_eq in Hr. subst t. intros H0. rewrite H0 in Ht. discriminate.
Qed.

(** The topic table of a page. *)
Lemma topic_table_spec (feats : gmap pystr features) (results : list hit) :
  let tbl := most_common 20 (fold_left (count_topic feats) results []) in
  (length tbl <= 20)%nat
  /\ StronglySorted (fun x y => (snd y <= snd x)%nat) tbl
  /\ List.NoDup (List.map fst tbl)
  /\ (forall t n,
        In (t, n) tbl ->
        t <> [] /\ (1 <= n)%nat
        /\ n = occurrences str_eqb (result_topic feats) t results)
  /\ (forall t,
        (1 <= occurrences str_eqb (result_topic feats) t results)%nat ->
        ~ In t (List.map fst tbl) ->
        length tbl = 20%nat
        /\ forall t' n',
             In (t', n') tbl ->
             (occurrences str_eqb (result_topic feats) t results <= n')%nat).
Proof.
  intros tbl.
  destruct (tally_spec str_eqb str_eqb_iff (result_topic feats)
              (count_topic feats) (count_topic_step feats) results)
    as [Hnd Hin].
  set (cnt := fold_left (count_topic feats) results []) in *.
  set (sorted := stable_sort (fun y x : pystr * nat => (snd x <? snd y)%nat)
                   cnt).
  assert (Hperm : Permutation sorted cnt) by apply stable_sort_perm.
  assert (Hsorted : StronglySorted (fun x y => (snd y <= snd x)%nat) sorted).
  { apply stable_sort_sorted.
    - intros x y z. lia.
    - intros y x H. apply Nat.ltb_lt in H. lia.
    - intros y x H. apply Nat.ltb_ge in H. exact H. }
  assert (Hnds : List.NoDup (List.map fst sorted)).
  { eapply Permutation_NoDup; [|exact Hnd].
    apply Permutation_map. symmetry. exact Hperm. }
  assert (Htbl : tbl = firstn 20 sorted) by reflexivity.
  split; [rewrite Htbl; apply List.firstn_le_length|].
  split; [apply most_common_sorted|].
  split.
  { rewrite Htbl, <- List.firstn_map. apply firstn_sublist_NoDup, Hnds. }
  split.
  - intros t n Ht. rewrite Htbl in Ht. apply In_firstn in Ht.
    apply (Permutation_in _ Hperm), Hin in Ht. destruct Ht as [Hn ->].
    split; [|split; [exact Hn|reflexivity]].
    apply (occurrences_topic_nonempty feats results t Hn).
  - intros t Hocc Hnot.
    assert (Hs : In (t, occurrences str_eqb (result_topic feats) t results)
                   sorted).
    { apply (Permutation_in _ (Permutation_sym Hperm)), Hin. auto. }
    rewrite <- (List.firstn_skipn 20 sorted) in Hs, Hsorted.
    apply List.in_app_or in Hs. destruct Hs as [Hs|Hs].
    { exfalso. apply Hnot. rewrite Htbl.
      apply (List.in_map fst) in Hs. exact Hs. }
    split.
    + rewrite Htbl. apply List.firstn_length_le.
      destruct (Nat.le_gt_cases 20 (length sorted)) as [H|H]; [exact H|].
      rewrite List.skipn_all2 in Hs by lia. destruct Hs.
    + intros t' n' Ht'. rewrite Htbl in Ht'.
      apply (StronglySorted_app_cross _ _ _ Hsorted _ _ Ht' Hs).
Qed.

(** The year table of a search lists the years of the returned page in
    strictly ascending order, each with the number of returned papers
    whose year [int] reads as that number; a year is listed exactly when
    there is such a paper. *)
Theorem year_table_counts_page_years (E : backends) (q : pystr)
  (sy0 ey0 : option Z) (src : option pystr) (limit offset : Z)
  (use_query_understanding : bool) (out : search_output) :
  search_with_distributions E q sy0 ey0 src limit offset
    use_query_understanding = Some out ->
  StronglySorted (fun x y => (fst x < fst y)%Z) (out_year_distribution out)
  /\ forall y n,
       In (y, n) (out_year_distribution out)
       <-> (1 <= n)%nat
           /\ n = occurrences Z.eqb result_year y (out_results out).
Proof.
  unfold search_with_distributions.
  destruct (understood_query use_query_understanding q sy0 ey0)
    as [[[topic_str sy] ey] terms].
  destruct (hybrid_search E topic_str sy ey src limit offset default_weights
              None terms) as [[results total]|]; [|discriminate].
  destruct results as [|r results].
  - intros [= <-]. simpl. split; [constructor|].
    intros y n. unfold occurrences. simpl. split; [intros []|lia].
  - intros [= <-].
    cbn [out_results out_year_distribution].
    exact (year_table_spec (r :: results)).
Qed.

(** The topic table of a search holds at most twenty topics, each once,
    in descending order of their counts; a listed count is the number of
    returned papers with that non-empty topic id, and a topic of the page
    that is not listed is no more frequent than any listed one, the table
    then being full. *)
Theorem topic_table_counts_page_topics (E : backends) (q : pystr)
  (sy0 ey0 : option Z) (src : option pystr) (limit offset : Z)
  (use_query_understanding : bool) (out : search_output) :
  search_with_distributions E q sy0 ey0 src limit offset
    use_query_understanding = Some out ->
  let feats := page_features E (out_results out) in
  let tbl := out_topic_distribution out in
  (length tbl <= 20)%nat
  /\ StronglySorted (fun x y => (snd y <= snd x)%nat) tbl
  /\ List.NoDup (List.map fst tbl)
  /\ (forall t n,
        In (t, n) tbl ->
        t <> [] /\ (1 <= n)%nat
        /\ n = occurrences str_eqb (result_topic feats) t (out_results out))
  /\ (forall t,
        (1 <= occurrences str_eqb (result_topic feats) t (out_results out))%nat ->
        ~ In t (List.map fst tbl) ->
        length tbl = 20%nat
        /\ forall t' n',
             In (t', n') tbl ->
             (occurrences str_eqb (result_topic feats) t (out_results out)
              <= n')%nat).
Proof.
  unfold search_with_distributions.
  destruct (understood_query use_query_understanding q sy0 ey0)
    as [[[topic_str sy] ey] terms].
  destruct (hybrid_search E topic_str sy ey src limit offset default_weights
              None terms) as [[results total]|]; [|discriminate].
  destruct results as [|r results].
  - intros [= <-]. exact (topic_table_spec (page_features E []) []).
  - intros [= <-].
    exact (topic_table_spec (page_features E (r :: results)) (r :: results)).
Qed.

Lemma year_table_counts_page_years_witness :
  let out :=
    output_of
      (search_with_distributions env_three (u "") None None None 10 0 true) in
  StronglySorted (fun x y => (fst x < fst y)%Z) (out_year_distribution out)
  /\ forall y n,
       In (y, n) (out_year_distribution out)
       <-> (1 <= n)%nat
           /\ n = occurrences Z.eqb result_year y (out_results out).
Proof.
  apply (year_table_counts_page_years env_three (u "") None None None 10 0
           true).
  vm_compute. reflexivity.
Defined.

Lemma topic_table_counts_page_topics_witness :
  let out :=
    output_of
      (search_with_distributions env_three (u "") None None None 10 0 true) in
  let feats := page_features env_three (out_results out) in
  let tbl := out_topic_distribution out in
  (length tbl <= 20)%nat
  /\ StronglySorted (fun x y => (snd y <= snd x)%nat) tbl
  /\ List.NoDup (List.map fst tbl)
  /\ (forall t n,
        In (t, n) tbl ->
        t <> [] /\ (1 <= n)%nat
        /\ n = occurrences str_eqb (result_topic feats) t (out_results out))
  /\ (forall t,
        (1 <= occurrences str_eqb (result_topic feats) t (out_results out))%nat ->
        ~ In t (List.map fst tbl) ->
        length tbl = 20%nat
        /\ forall t' n',
             In (t', n') tbl ->
             (occurrences str_eqb (result_topic feats) t (out_results out)
              <= n')%nat).
Proof.
  apply (topic_table_counts_page_topics env_three (u "") None None None 10 0
           true).
  vm_compute. reflexivity.
Defined.




(* ================================================================== *)
(** * Properties of [parse_query], continued                           *)
(* ================================================================== *)

Lemma lstrip_clean (s : pystr) :
  match s with c :: _ => is_space c = false | [] => True end ->
  lstrip s = s.
Proof.
  destruct s as [|c s]; simpl; [reflexivity|]. intros ->. reflexivity.
Qed.

Lemma lstrip_head (s : pystr) :
  match lstrip s with c :: _ => is_space c = false | [] => True end.
Proof.
  induction s as [|c s IH]; simpl; [exact I|].
  destruct (is_space c) eqn:Hc; [exact IH|exact Hc].
Qed.

Lemma lstrip_idem (s : pystr) : lstrip (lstrip s) = lstrip s.
Proof. apply lstrip_clean, lstrip_head. Qed.

Lemma lstrip_snoc (l : pystr) (c : N) :
  is_space c = false -> lstrip (l ++ [c]) = lstrip l ++ [c].
Proof.
  intros Hc. induction l as [|d l IH]; simpl.
  - rewrite Hc. reflexivity.
  - destruct (is_space d); [exact IH|reflexivity].
Qed.

Lemma rstrip_cons (c : N) (s : pystr) :
  is_space c = false -> rstrip (c :: s) = c :: rstrip s.
Proof.
  intros Hc. unfold rstrip. simpl.
  rewrite (lstrip_snoc _ _ Hc), rev_app_distr. reflexivity.
Qed.

Lemma rstrip_idem (s : pystr) : rstrip (rstrip s) = rstrip s.
Proof. unfold rstrip. rewrite rev_involutive, lstrip_idem. reflexivity. Qed.

(** [strip] is idempotent. *)
Lemma strip_idem (s : pystr) : strip (strip s) = strip s.
Proof.
  unfold strip. pose proof (lstrip_head s) as Hh.
  destruct (lstrip s) as [|c t]; [reflexivity|].
  rewrite (rstrip_cons _ _ Hh).
  rewrite (lstrip_clean (c :: rstrip t)) by exact Hh.
  rewrite (rstrip_cons _ _ Hh), rstrip_idem. reflexivity.
Qed.

Lemma parse_query_blank (raw : pystr) :
  strip raw = [] ->
  parse_query raw
  = {| topic_terms := []; start_year := None; end_year := None;
       language := None; journal_level := None; raw_query := [] |}.
Proof.
  intros H. unfold parse_query. rewrite H. vm_compute. reflexivity.
Qed.

(** A query that is not blank always yields at least one topic term, and
    a blank one yields nothing at all; no topic term is empty; the terms
    are either the tokens of the text that are not stop words or, when
    there is none, the first fifty characters of the stripped query. *)
Theorem parse_query_topic_terms (raw : pystr) :
  let pq := parse_query raw in
  (topic_terms pq = [] <-> strip raw = [])
  /\ (strip raw = [] ->
      start_year pq = None /\ end_year pq = None /\ language pq = None)
  /\ List.Forall (fun t => t <> []) (topic_terms pq)
  /\ ((topic_terms pq = tokenized_terms raw
       /\ List.Forall (fun t => ~ In t stop) (topic_terms pq))
      \/ (tokenized_terms raw = []
          /\ topic_terms pq = [firstn 50 (strip raw)])).
Proof.
  intros pq. subst pq.
  assert (Htok : List.Forall
                   (fun t => t <> [] /\ ~ In t stop) (tokenized_terms raw)).
  { unfold tokenized_terms. apply List.Forall_forall. intros t Ht.
    apply List.filter_In in Ht. destruct Ht as [_ Ht].
    apply andb_true_iff in Ht. destruct Ht as [Ht Hs]. split.
    - intros ->. discriminate.
    - apply negb_true_iff in Hs. intros Hin.
      assert (existsb (str_eqb t) stop = true); [|congruence].
      apply List.existsb_exists. exists t. split; [exact Hin|].
      apply str_eqb_refl. }
  destruct (strip raw) as [|c s] eqn:Hs.
  - rewrite (parse_query_blank raw Hs). simpl.
    split; [tauto|]. split; [auto|]. split; [constructor|].
    left. split; [|constructor].
    pose proof (parse_query_terms raw) as H.
    rewrite (parse_query_blank raw Hs), Hs in H. simpl in H.
    destruct (tokenized_terms raw); [reflexivity|discriminate].
  - pose proof (parse_query_terms raw) as H.
    rewrite strip_idem, Hs in H. cbn [truthy] in H.
    split; [|split; [discriminate|]].
    + split; [|discriminate]. rewrite H.
      destruct (tokenized_terms raw); discriminate.
    + rewrite H. destruct (tokenized_terms raw) as [|t ts] eqn:Ht.
      * split; [repeat constructor; discriminate|].
        right. split; reflexivity.
      * split.
        -- eapply List.Forall_impl; [|exact Htok]. intros x [Hx _]. exact Hx.
        -- left. split; [reflexivity|].
           eapply List.Forall_impl; [|exact Htok]. intros x [_ Hx]. exact Hx.
Qed.

Lemma findall_from_matches (ci : bool) (r : regex) (s : pystr) :
  forall (prev : option N) (skip : nat),
    List.Forall
      (fun t => exists p s' n, match_here ci r p s' = Some n /\ t = firstn n s')
      (findall_from ci r prev s skip).
Proof.
  induction s as [|c s IH]; intros prev skip; simpl; [constructor|].
  destruct skip as [|n]; [|apply IH].
  destruct (match_here ci r prev (c :: s)) as [[|n]|] eqn:Hm; try apply IH.
  constructor; [|apply IH]. exists prev, (c :: s), (S n). auto.
Qed.

(** What [19\d{2}|20\d{2}] matches. *)
Lemma year_number_match (prev : option N) (s : pystr) (n : nat) :
  match_here false year_number prev s = Some n ->
  exists c1 c2 d1 d2,
    firstn n s = [c1; c2; d1; d2]
    /\ ((c1 = 49%N /\ c2 = 57%N) \/ (c1 = 50%N /\ c2 = 48%N))
    /\ is_decimal d1 = true /\ is_decimal d2 = true.
Proof.
  assert (Hr : year_number
               = Alt (Seq (Seq (Lit 49) (Lit 57))
                        (Seq (Cls is_decimal) (Cls is_decimal)))
                     (Seq (Seq (Lit 50) (Lit 48))
                        (Seq (Cls is_decimal) (Cls is_decimal))))
    by reflexivity.
  rewrite Hr. unfold match_here.
  destruct s as [|c1 [|c2 [|d1 [|d2 rest]]]];
    cbn [rmatch char_matches andb];
    repeat match goal with
           | |- context [(?a =? ?b)%N] =>
               destruct (N.eqb_spec a b)
           | |- context [is_decimal ?d] => destruct (is_decimal d) eqn:?
           end;
    try discriminate;
    intros [= <-];
    cbn [length];
    (replace (S (S (S (S (length rest)))) - length rest)%nat with 4%nat
       by lia);
    exists c1, c2, d1, d2;
    (split; [reflexivity|]);
    (split; [|split; assumption]);
    ((left; split; congruence) || (right; split; congruence)).
Qed.

Lemma year_string_value (c1 c2 d1 d2 : N) :
  (c1 = 49%N /\ c2 = 57%N) \/ (c1 = 50%N /\ c2 = 48%N) ->
  is_decimal d1 = true -> is_decimal d2 = true ->
  exists z, int_of_str [c1; c2; d1; d2] = Some z /\ (1900 <= z <= 2099)%Z.
Proof.
  intros Hc H1 H2.
  destruct (decimal_int_char _ H1) as (v1 & Hv1 & E1).
  destruct (decimal_int_char _ H2) as (v2 & Hv2 & E2).
  assert (Hi : int_of_str [c1; c2; d1; d2]
               = match
                   rev (drop_while is_ascii_space
                          (rev (drop_while is_ascii_space
                                  [c1; c2; (48 + v1)%N; (48 + v2)%N])))
                 with
                 | 45%N :: s' => option_map Z.opp (int_unsigned s')
                 | 43%N :: s' => int_unsigned s'
                 | s' => int_unsigned s'
                 end).
  { unfold int_of_str. cbn [int_chars]. rewrite E1, E2.
    destruct Hc as [[-> ->]|[-> ->]]; reflexivity. }
  rewrite Hi. simpl in Hv1, Hv2.
  destruct Hc as [[-> ->]|[-> ->]];
    repeat match goal with
           | H : _ \/ _ |- _ => destruct H as [<-|H]
           | H : False |- _ => destruct H
           end;
    (eexists; split; [vm_compute; reflexivity|lia]).
Qed.

Lemma year_numbers_range (s : pystr) :
  List.Forall (fun z => (1900 <= z <= 2099)%Z)
    (ints_of (re_findall false year_number s)).
Proof.
  unfold ints_of, re_findall.
  pose proof (findall_from_matches false year_number s None 0) as H.
  induction H as [|t ts Ht _ IH]; simpl; [constructor|].
  destruct Ht as (p & s' & n & Hm & ->).
  destruct (year_number_match _ _ _ Hm) as (c1 & c2 & d1 & d2 & -> & Hc & H1 & H2).
  destruct (year_string_value c1 c2 d1 d2 Hc H1 H2) as (z & -> & Hz).
  constructor; assumption.
Qed.

Lemma list_min_range (lo hi z : Z) (l : list Z) :
  (lo <= z <= hi)%Z -> List.Forall (fun x => (lo <= x <= hi)%Z) l ->
  (lo <= list_min z l <= hi)%Z.
Proof.
  unfold list_min. intros Hz Hl. revert z Hz.
  induction Hl as [|x l Hx _ IH]; intros z Hz; simpl; [exact Hz|].
  apply IH. lia.
Qed.

Lemma list_max_range (lo hi z : Z) (l : list Z) :
  (lo <= z <= hi)%Z -> List.Forall (fun x => (lo <= x <= hi)%Z) l ->
  (lo <= list_max z l <= hi)%Z.
Proof.
  unfold list_max. intros Hz Hl. revert z Hz.
  induction Hl as [|x l Hx _ IH]; intros z Hz; simpl; [exact Hz|].
  apply IH. lia.
Qed.

Lemma year_step_range (st : year_state) (pk : regex * year_kind) :
  (forall y, ys_start st = Some y -> (1900 <= y <= 2099)%Z) ->
  (forall y, ys_end st = Some y -> (1900 <= y <= 2099)%Z) ->
  (forall y, ys_start (year_step st pk) = Some y -> (1900 <= y <= 2099)%Z)
  /\ (forall y, ys_end (year_step st pk) = Some y -> (1900 <= y <= 2099)%Z).
Proof.
  intros Hs He. unfold year_step.
  destruct (re_search true (fst pk) (ys_remaining st)) as [[ms me]|];
    [|split; assumption].
  pose proof (year_numbers_range
                (firstn (me - ms) (skipn ms (ys_remaining st)))) as Hn.
  destruct (ints_of _) as [|n1 ns].
  - destruct (snd pk); simpl; split; assumption.
  - inversion Hn as [|? ? H1 Hn']; subst.
    destruct (snd pk).
    + destruct ns as [|n2 ns]; cbn [ys_start ys_end]; [split; assumption|].
      split; intros y [= <-].
      * apply (list_min_range 1900 2099 n1 (n2 :: ns)); assumption.
      * apply (list_max_range 1900 2099 n1 (n2 :: ns)); assumption.
    + cbn [ys_start ys_end]. split; [|assumption]. intros y [= <-].
      apply list_max_range; assumption.
    + cbn [ys_start ys_end]. split; [assumption|]. intros y [= <-].
      apply list_min_range; assumption.
Qed.

Lemma year_steps_range (pks : list (regex * year_kind)) (st : year_state) :
  (forall y, ys_start st = Some y -> (1900 <= y <= 2099)%Z) ->
  (forall y, ys_end st = Some y -> (1900 <= y <= 2099)%Z) ->
  (forall y, ys_start (fold_left year_step pks st) = Some y ->
             (1900 <= y <= 2099)%Z)
  /\ (forall y, ys_end (fold_left year_step pks st) = Some y ->
                (1900 <= y <= 2099)%Z).
Proof.
  revert st. induction pks as [|pk pks IH]; intros st Hs He; simpl.
  - split; assumption.
  - destruct (year_step_range st pk Hs He). apply IH; assumption.
Qed.

(** Every year bound that [parse_query] extracts lies between 1900 and
    2099. *)
Theorem parse_query_years_in_range (raw : pystr) :
  (forall y, start_year (parse_query raw) = Some y -> (1900 <= y <= 2099)%Z)
  /\ (forall y, end_year (parse_query raw) = Some y -> (1900 <= y <= 2099)%Z).
Proof.
  unfold parse_query. destruct (detect_language _) as [lang remaining].
  cbn [start_year end_year].
  apply year_steps_range; simpl; discriminate.
Qed.

(* ================================================================== *)
(** * The metadata store, continued                                    *)
(* ================================================================== *)

Lemma find_row_None (table : list row) (k : pystr) :
  ~ In k (List.map row_paper_id table) ->
  List.find (fun r => str_eqb (row_paper_id r) k) table = None.
Proof.
  induction table as [|r table IH]; simpl; [reflexivity|]. intros Hn.
  destruct (str_eqb (row_paper_id r) k) eqn:E.
  - apply str_eqb_eq in E. exfalso. apply Hn. left. exact E.
  - apply IH. intros H. apply Hn. right. exact H.
Qed.

Lemma fetch_rows_lookup (loads : json_decoder) (ids : list pystr)
  (table : list row) :
  List.NoDup (List.map row_paper_id table) ->
  forall (out d : gmap pystr paper) (k : pystr),
    fold_left (fetch_row loads ids) table (Some out) = Some d ->
    d !! k
    = match List.find (fun r => str_eqb (row_paper_id r) k) table with
      | Some r =>
          if existsb (str_eqb k) ids then paper_of_row loads r
          else out !! k
      | None => out !! k
      end.
Proof.
  induction table as [|r table IH]; intros Hnd out d k; simpl.
  { intros [= <-]. reflexivity. }
  inversion Hnd as [|? ? Hnotin Hnd']; subst.
  destruct (existsb (str_eqb (row_paper_id r)) ids) eqn:Hex.
  - destruct (paper_of_row loads r) as [p|] eqn:Hp;
      [|rewrite fetch_row_None; discriminate].
    intros Hd. rewrite (IH Hnd' _ _ k Hd).
    destruct (str_eqb (row_paper_id r) k) eqn:E.
    + apply str_eqb_eq in E. subst k.
      rewrite (find_row_None _ _ Hnotin), Hex, Hp.
      apply lookup_insert_eq.
    + assert (Hne : row_paper_id r <> k).
      { intros H. rewrite H, str_eqb_refl in E. discriminate. }
      rewrite (lookup_insert_ne _ _ _ _ Hne). reflexivity.
  - intros Hd. rewrite (IH Hnd' _ _ k Hd).
    destruct (str_eqb (row_paper_id r) k) eqn:E; [|reflexivity].
    apply str_eqb_eq in E. subst k.
    rewrite (find_row_None _ _ Hnotin), Hex. reflexivity.
Qed.

(** [fetch_papers_by_ids] raises exactly when a row that was asked for
    cannot be turned into a dictionary.  When it returns, over a table
    whose keys are distinct, as the primary key of [papers] makes them,
    its dictionary holds under [k] the paper built from the row of [k],
    exactly when [k] was asked for and has a row. *)
Theorem fetch_papers_by_ids_lookup (loads : json_decoder)
  (table : list row) (ids : list pystr) :
  List.NoDup (List.map row_paper_id table) ->
  (fetch_papers_by_ids loads table ids = None
   <-> exists r,
         In r table /\ In (row_paper_id r) ids /\ unreadable_row loads r)
  /\ forall d,
       fetch_papers_by_ids loads table ids = Some d ->
       forall k p,
         d !! k = Some p
         <-> In k ids
             /\ exists r,
                  In r table /\ row_paper_id r = k
                  /\ paper_of_row loads r = Some p.
Proof.
  intros Hnd. split.
  { destruct ids as [|i ids]; simpl.
    - split; [discriminate|]. intros (r & _ & [] & _).
    - unfold fetch_rows. rewrite fetch_rows_None. split.
      + intros (r & H1 & H2 & H3). exists r.
        split; [exact H1|]. split; [exact H2|]. apply paper_of_row_None, H3.
      + intros (r & H1 & H2 & H3). exists r.
        split; [exact H1|]. split; [exact H2|]. apply paper_of_row_None, H3. }
  intros d Hd k p. destruct ids as [|i ids].
  { simpl in Hd. injection Hd as <-. rewrite lookup_empty.
    split; [discriminate|]. intros [[] _]. }
  unfold fetch_papers_by_ids, fetch_rows in Hd.
  rewrite (fetch_rows_lookup loads (i :: ids) table Hnd ∅ d k Hd),
    lookup_empty.
  destruct (List.find (fun r => str_eqb (row_paper_id r) k) table)
    as [r|] eqn:Hf.
  - apply List.find_some in Hf. destruct Hf as [Hin Heq].
    apply str_eqb_eq in Heq.
    destruct (existsb (str_eqb k) (i :: ids)) eqn:Hex.
    + apply existsb_str_eqb in Hex. split.
      * intros Hp. split; [exact Hex|]. exists r. auto.
      * intros (_ & r' & Hin' & Heq' & Hp).
        assert (Hrr : r' = r).
        { subst k. clear Hex Hd.
          induction table as [|r0 table IH]; [destruct Hin|].
          inversion Hnd as [|? ? Hnotin Hnd']; subst.
          destruct Hin as [->|Hin], Hin' as [->|Hin']; try reflexivity.
          - exfalso. apply Hnotin. rewrite <- Heq'.
            apply List.in_map, Hin'.
          - exfalso. apply Hnotin. rewrite Heq'.
            apply List.in_map, Hin.
          - apply (IH Hnd' Hin Hin'). }
        subst r'. exact Hp.
    + split; [discriminate|]. intros (Hk & _).
      apply existsb_str_eqb in Hk. congruence.
  - split; [discriminate|]. intros (_ & r & Hin & Heq & _).
    exfalso.
    apply (List.find_none _ _ Hf) in Hin. simpl in Hin.
    rewrite Heq, str_eqb_refl in Hin. discriminate.
Qed.

(** The table of three papers, asked for [a] and for an id without a
    row: the call returns, and its dictionary is as described. *)
Lemma fetch_papers_by_ids_lookup_witness :
  exists d,
    fetch_papers_by_ids loads_empty_list (papers_table env_three)
      [u "a"; u "zz"] = Some d
    /\ forall k p,
         d !! k = Some p
         <-> In k [u "a"; u "zz"]
             /\ exists r,
                  In r (papers_table env_three) /\ row_paper_id r = k
                  /\ paper_of_row loads_empty_list r = Some p.
Proof.
  assert (Hnd : List.NoDup (List.map row_paper_id (papers_table env_three))).
  { vm_compute. repeat constructor; simpl; intuition discriminate. }
  destruct (fetch_papers_by_ids_lookup loads_empty_list
              (papers_table env_three) [u "a"; u "zz"] Hnd) as [_ H].
  destruct (fetch_papers_by_ids loads_empty_list (papers_table env_three)
              [u "a"; u "zz"]) as [d|] eqn:Hd.
  - exists d. split; [reflexivity|]. apply H. reflexivity.
  - vm_compute in Hd. discriminate.
Defined.

(* ================================================================== *)
(** * Keywords through the store                                       *)
(* ================================================================== *)

Lemma split_comma_aux_app (t cur s : pystr) :
  comma_free t = true ->
  split_comma_aux cur (t ++ s) = split_comma_aux (rev t ++ cur) s.
Proof.
  revert cur. induction t as [|c t IH]; intros cur; simpl; [reflexivity|].
  intros H. apply andb_true_iff in H. destruct H as [Hc Ht].
  apply negb_true_iff in Hc. rewrite Hc, (IH _ Ht), <- app_assoc.
  reflexivity.
Qed.

Lemma split_comma_word (t : pystr) :
  comma_free t = true -> split_comma t = [t].
Proof.
  intros H. unfold split_comma.
  rewrite <- (app_nil_r t) at 1. rewrite (split_comma_aux_app _ _ _ H).
  simpl. rewrite app_nil_r, rev_involutive. reflexivity.
Qed.

(** [",".join(ks).split(",") == ks] for keywords without a comma. *)
Lemma split_comma_join (ks : list pystr) :
  ks <> [] -> List.Forall (fun k => comma_free k = true) ks ->
  split_comma (join [44%N] ks) = ks.
Proof.
  intros Hne H. induction H as [|t ts Ht Hts IH]; [congruence|].
  destruct ts as [|t' ts].
  - simpl. apply split_comma_word, Ht.
  - change (join [44%N] (t :: t' :: ts))
      with (t ++ 44%N :: join [44%N] (t' :: ts)).
    unfold split_comma. rewrite (split_comma_aux_app _ _ _ Ht).
    simpl. rewrite app_nil_r, rev_involutive. f_equal.
    apply IH. discriminate.
Qed.

Lemma split_comma_aux_length (cur s : pystr) :
  length (split_comma_aux cur s)
  = S (length (List.filter (fun c => (c =? 44)%N) s)).
Proof.
  revert cur. induction s as [|c s IH]; intros cur; simpl; [reflexivity|].
  destruct (c =? 44)%N; simpl; rewrite IH; reflexivity.
Qed.

Lemma commas_join (ks : list pystr) :
  length (List.filter (fun c => (c =? 44)%N) (join [44%N] ks))
  = (list_sum (List.map (fun k => length (List.filter (fun c => (c =? 44)%N) k)) ks)
     + (length ks - 1))%nat.
Proof.
  induction ks as [|t ts IH]; [reflexivity|].
  destruct ts as [|t' ts].
  - simpl. lia.
  - change (join [44%N] (t :: t' :: ts))
      with (t ++ 44%N :: join [44%N] (t' :: ts)).
    rewrite List.filter_app, length_app.
    change (List.filter (fun c => (c =? 44)%N)
              (44%N :: join [44%N] (t' :: ts)))
      with (44%N :: List.filter (fun c => (c =? 44)%N)
                      (join [44%N] (t' :: ts))).
    cbn [length]. rewrite IH. cbn [List.map length].
    unfold list_sum. cbn [fold_right]. lia.
Qed.

Lemma no_commas_comma_free (k : pystr) :
  length (List.filter (fun c => (c =? 44)%N) k) = 0%nat -> comma_free k = true.
Proof.
  unfold comma_free. induction k as [|c k IH]; simpl; [reflexivity|].
  destruct (c =? 44)%N; simpl; [discriminate|].
  exact IH.
Qed.

Lemma list_sum_zero (l : list nat) :
  list_sum l = 0%nat -> List.Forall (fun n => n = 0%nat) l.
Proof.
  induction l as [|n l IH]; simpl; [constructor|]. intros H.
  constructor; [lia|apply IH; lia].
Qed.

Lemma paper_of_row_keywords (loads : json_decoder) (r : row) (p : paper) :
  paper_of_row loads r = Some p ->
  keywords p = keywords_of_column (row_keywords r).
Proof.
  unfold paper_of_row.
  destruct (authors_of_column loads (row_authors r)); [|discriminate].
  destruct (year_of_column (row_year r)); [|discriminate].
  intros [= <-]. reflexivity.
Qed.

(** What the store gives back for a list of keywords. *)
Lemma stored_keywords_spec (ks : list pystr) :
  keywords_of_column (keywords_column ks) = ks
  <-> List.Forall (fun k => comma_free k = true) ks /\ ks <> [[]].
Proof.
  unfold keywords_of_column.
  assert (Hu : u "," = [44%N]) by reflexivity.
  destruct ks as [|k ks].
  { simpl. split; [|reflexivity]. intros _.
    split; [constructor|discriminate]. }
  unfold keywords_column. rewrite Hu.
  remember (k :: ks) as l eqn:Hl0.
  assert (Hne : l <> []) by (subst l; discriminate).
  destruct (truthy (join [44%N] l)) eqn:Ht.
  - split.
    + intros Heq. split.
      * pose proof (f_equal (@length pystr) Heq) as Hl.
        unfold split_comma in Hl.
        rewrite split_comma_aux_length, commas_join in Hl.
        assert (Hpos : (1 <= length l)%nat).
        { subst l. simpl. lia. }
        assert (H0 : list_sum
                       (List.map
                          (fun k =>
                             length (List.filter (fun c => (c =? 44)%N) k))
                          l) = 0%nat) by lia.
        apply list_sum_zero in H0.
        rewrite List.Forall_map in H0.
        eapply List.Forall_impl; [|exact H0].
        intros x. apply no_commas_comma_free.
      * intros H. rewrite H in Ht. discriminate.
    + intros [Hf _]. apply split_comma_join; assumption.
  - split.
    + intros H. congruence.
    + intros [_ Hn]. exfalso. subst l.
      destruct ks as [|k' ks].
      * simpl in Ht. destruct k; [apply Hn; reflexivity|discriminate].
      * change (join [44%N] (k :: k' :: ks))
          with (k ++ 44%N :: join [44%N] (k' :: ks)) in Ht.
        destruct k; discriminate.
Qed.

(** A list of keywords written by [run_import] is read back unchanged by
    [fetch_papers_by_ids] exactly when no keyword contains a comma and the
    list is not the single empty keyword. *)
Theorem keywords_round_trip (loads : json_decoder) (ks : list pystr)
  (r : row) :
  row_keywords r = keywords_column ks ->
  (keywords_of_column (row_keywords r) = ks
   <-> List.Forall (fun k => comma_free k = true) ks /\ ks <> [[]])
  /\ forall p,
       paper_of_row loads r = Some p ->
       keywords p = ks
       <-> List.Forall (fun k => comma_free k = true) ks /\ ks <> [[]].
Proof.
  intros Hr. split.
  - rewrite Hr. apply stored_keywords_spec.
  - intros p Hp. rewrite (paper_of_row_keywords _ _ _ Hp), Hr.
    apply stored_keywords_spec.
Qed.

Lemma keywords_round_trip_witness :
  let r :=
    {| row_paper_id := u "p"; row_title := None; row_authors := None;
       row_year := Some (u "2020"); row_journal := None;
       row_abstract := None; row_keywords := Some (u "ai,law");
       row_field := None; row_source := None; row_pdf_path := None |} in
  exists p,
    paper_of_row loads_empty_list r = Some p
    /\ (keywords p = [u "ai"; u "law"]
        <-> List.Forall (fun k => comma_free k = true) [u "ai"; u "law"]
            /\ [u "ai"; u "law"] <> [[]]).
Proof.
  intros r.
  assert (Hr : row_keywords r = keywords_column [u "ai"; u "law"])
    by reflexivity.
  destruct (keywords_round_trip loads_empty_list [u "ai"; u "law"] r Hr)
    as [_ H].
  destruct (paper_of_row loads_empty_list r) as [p|] eqn:Hp.
  - exists p. split; [reflexivity|]. apply H. reflexivity.
  - vm_compute in Hp. discriminate.
Defined.

Lemma forallb_lstrip (P : N -> bool) (s : pystr) :
  forallb P s = true -> forallb P (lstrip s) = true.
Proof.
  induction s as [|c s IH]; simpl; [reflexivity|]. intros H.
  destruct (is_space c); [|exact H].
  apply andb_true_iff in H. apply IH, H.
Qed.

Lemma forallb_strip (P : N -> bool) (s : pystr) :
  forallb P s = true -> forallb P (strip s) = true.
Proof.
  intros H. unfold strip, rstrip.
  rewrite forallb_rev. apply forallb_lstrip.
  rewrite forallb_rev. apply forallb_lstrip, H.
Qed.

Section SplitWhere.
Context (sep : N -> bool).

Lemma split_where_aux_app (t cur s : pystr) :
  forallb (fun c => negb (sep c)) t = true ->
  split_where_aux sep cur (t ++ s) = split_where_aux sep (rev t ++ cur) s.
Proof.
  revert cur. induction t as [|c t IH]; intros cur; simpl; [reflexivity|].
  intros H. apply andb_true_iff in H. destruct H as [Hc Ht].
  apply negb_true_iff in Hc. rewrite Hc, (IH _ Ht), <- app_assoc.
  reflexivity.
Qed.

Lemma split_where_join (ks : list pystr) :
  sep 44%N = true -> ks <> [] ->
  List.Forall (fun k => forallb (fun c => negb (sep c)) k = true) ks ->
  split_where sep (join [44%N] ks) = ks.
Proof.
  intros H44 Hne H. induction H as [|t ts Ht Hts IH]; [exfalso; apply Hne; reflexivity|].
  unfold split_where in *. destruct ts as [|t' ts].
  - simpl. rewrite <- (app_nil_r t) at 1.
    rewrite (split_where_aux_app _ _ _ Ht). simpl.
    rewrite app_nil_r, rev_involutive. reflexivity.
  - change (join [44%N] (t :: t' :: ts))
      with (t ++ 44%N :: join [44%N] (t' :: ts)).
    rewrite (split_where_aux_app _ _ _ Ht).
    cbn [split_where_aux]. rewrite H44, app_nil_r, rev_involutive.
    f_equal. apply IH. discriminate.
Qed.

Lemma split_where_aux_free (cur s : pystr) :
  forallb (fun c => negb (sep c)) cur = true ->
  List.Forall (fun p => forallb (fun c => negb (sep c)) p = true)
    (split_where_aux sep cur s).
Proof.
  revert cur. induction s as [|c s IH]; intros cur Hcur; simpl.
  - repeat constructor. rewrite forallb_rev. exact Hcur.
  - destruct (sep c) eqn:Hc.
    + constructor; [rewrite forallb_rev; exact Hcur|].
      apply IH. reflexivity.
    + apply IH. simpl. rewrite Hc. exact Hcur.
Qed.

End SplitWhere.

Lemma separator_free_comma_free (k : pystr) :
  separator_free k = true -> comma_free k = true.
Proof.
  unfold separator_free, comma_free. apply forallb_weaken.
  intros c. unfold is_keyword_separator.
  destruct (c =? 44)%N; [discriminate|reflexivity].
Qed.

(** The list comprehension of [normalize_keywords] leaves a list of
    non-empty, stripped strings as it is. *)
Lemma clean_fixed (ks : list pystr) :
  List.Forall (fun k => k <> [] /\ strip k = k) ks ->
  List.map strip
    (List.filter (fun p => truthy p && truthy (strip p)) ks) = ks.
Proof.
  induction 1 as [|k ks [Hk Hs] _ IH]; simpl; [reflexivity|].
  rewrite Hs. destruct k as [|c k]; [exfalso; apply Hk; reflexivity|]. simpl.
  rewrite Hs, IH. reflexivity.
Qed.

Lemma clean_spec (P : N -> bool) (parts : list pystr) :
  List.Forall (fun p => forallb P p = true) parts ->
  List.Forall (fun k => k <> [] /\ strip k = k /\ forallb P k = true)
    (List.map strip
       (List.filter (fun p => truthy p && truthy (strip p)) parts)).
Proof.
  induction 1 as [|p parts Hp _ IH]; simpl; [constructor|].
  destruct (truthy p && truthy (strip p)) eqn:Ht; [|exact IH].
  simpl. constructor; [|exact IH].
  apply andb_true_iff in Ht. destruct Ht as [_ Ht].
  split; [|split].
  - intros H0. rewrite H0 in Ht. discriminate.
  - apply strip_idem.
  - apply forallb_strip, Hp.
Qed.

(** The keywords that [normalize_keywords] makes of a string are not
    empty, stripped and free of separators; normalising them again, as a
    list or joined by commas as [process_pdf] does, changes nothing, and
    the store gives them back as they were written. *)
Theorem normalized_keywords_are_stable (s : pystr) :
  let ks := normalize_keywords (KStr s) in
  List.Forall
    (fun k => k <> [] /\ strip k = k /\ separator_free k = true) ks
  /\ normalize_keywords (KList ks) = ks
  /\ normalize_keywords (KStr (join (u ",") ks)) = ks
  /\ keywords_of_column (keywords_column ks) = ks
  /\ forall loads r p,
       row_keywords r = keywords_column ks ->
       paper_of_row loads r = Some p ->
       keywords p = ks.
Proof.
  intros ks.
  assert (Hks : List.Forall
                  (fun k => k <> [] /\ strip k = k
                            /\ separator_free k = true) ks).
  { subst ks. unfold normalize_keywords.
    destruct (truthy s); [|constructor].
    apply (clean_spec (fun c => negb (is_keyword_separator c))).
    apply split_where_aux_free. reflexivity. }
  assert (Hfix : List.Forall (fun k => k <> [] /\ strip k = k) ks).
  { eapply List.Forall_impl; [|exact Hks]. intros k (H1 & H2 & _). auto. }
  assert (Hlist : List.map strip
                    (List.filter (fun p => truthy p && truthy (strip p)) ks)
                  = ks) by apply clean_fixed, Hfix.
  clearbody ks.
  split; [exact Hks|]. split; [exact Hlist|]. split.
  - assert (Hu : u "," = [44%N]) by reflexivity. rewrite Hu.
    unfold normalize_keywords at 1.
    destruct ks as [|k ks'] eqn:Hk; [reflexivity|].
    rewrite <- Hk in *.
    assert (Ht : truthy (join [44%N] ks) = true).
    { rewrite Hk. rewrite Hk in Hks.
      inversion Hks as [|? ? Hh _]; subst. destruct Hh as (Hne & _).
      destruct k as [|c k]; [exfalso; apply Hne; reflexivity|].
      destruct ks'; reflexivity. }
    rewrite Ht, split_where_join; [exact Hlist|reflexivity| |].
    + rewrite Hk. discriminate.
    + eapply List.Forall_impl; [|exact Hks]. intros x (_ & _ & H). exact H.
  - assert (Hst : keywords_of_column (keywords_column ks) = ks).
    { apply stored_keywords_spec. split.
      + eapply List.Forall_impl; [|exact Hks]. intros x (_ & _ & H).
        apply separator_free_comma_free, H.
      + intros H. rewrite H in Hks. inversion Hks as [|? ? Hh _].
        destruct Hh as (Hne & _).
        apply Hne. reflexivity. }
    split; [exact Hst|].
    intros loads r p Hr Hp.
    rewrite (paper_of_row_keywords _ _ _ Hp), Hr. exact Hst.
Qed.

(* ================================================================== *)
(** * The enrichment on a well-formed heap                             *)
(* ================================================================== *)

Lemma bind_eq {A B} (m : M A) (k : A -> M B) (h h1 : heap) (a : A) :
  m h = Some (a, h1) -> bind m k h = k a h1.
Proof. unfold bind. intros ->. reflexivity. Qed.

Lemma read_paper_eq (l : loc) (h : heap) (p : pdict) :
  h_papers h !! l = Some p -> read_paper l h = Some (p, h).
Proof. unfold read_paper. intros ->. reflexivity. Qed.

Lemma read_feats_eq (l : loc) (h : heap) (d : feat_dict) :
  h_feats h !! l = Some d -> read_feats l h = Some (d, h).
Proof. unfold read_feats. intros ->. reflexivity. Qed.

Lemma lookup_snoc {A} (l : list A) (x : A) : (l ++ [x]) !! length l = Some x.
Proof. apply list_lookup_middle. reflexivity. Qed.

Lemma insert_snoc {A} (l : list A) (x y : A) :
  <[length l := y]> (l ++ [x]) = l ++ [y].
Proof.
  rewrite insert_app_r_alt by lia. rewrite Nat.sub_diag. reflexivity.
Qed.

(** [p = dict(p); p[key] = value] *)
Lemma copy_then_write (l : loc) (f : pdict -> pdict) (h : heap) (p : pdict) :
  h_papers h !! l = Some p ->
  (do l' <- copy_paper l; do _ <- write_paper l' f; ret l') h
  = Some (length (h_papers h),
          {| h_papers := h_papers h ++ [f p]; h_feats := h_feats h |}).
Proof.
  intros Hl. unfold bind, copy_paper, write_paper, ret. rewrite Hl. simpl.
  rewrite lookup_snoc, insert_snoc. reflexivity.
Qed.

Lemma feats_kept_refl (h : heap) : feats_kept h h.
Proof. split; [lia|]. intros fl d Hd Hl. exists d. auto. Qed.

Lemma feats_kept_trans (h1 h2 h3 : heap) :
  feats_kept h1 h2 -> feats_kept h2 h3 -> feats_kept h1 h3.
Proof.
  intros [A1 A2] [B1 B2]. split; [lia|].
  intros fl d Hd Hl. destruct (A2 _ _ Hd Hl) as (d' & Hd' & Hl').
  apply (B2 _ _ Hd' Hl').
Qed.

Lemma enriched_paper_kept (h h' : heap) (p : pdict) :
  feats_kept h h' -> enriched_paper h p -> enriched_paper h' p.
Proof.
  intros [_ K] (Hid & Hkw & fl & d & Hf & Hd & Hl).
  split; [exact Hid|]. split; [exact Hkw|].
  destruct (K _ _ Hd Hl) as (d' & Hd' & Hl'). exists fl, d'. auto.
Qed.

Lemma write_feats_eq (l : loc) (f : feat_dict -> feat_dict) (h : heap)
  (d : feat_dict) :
  h_feats h !! l = Some d ->
  write_feats l f h
  = Some (tt, {| h_papers := h_papers h;
                 h_feats := <[l := f d]> (h_feats h) |}).
Proof. unfold write_feats. intros ->. reflexivity. Qed.

Lemma write_paper_eq (l : loc) (f : pdict -> pdict) (h : heap) (p : pdict) :
  h_papers h !! l = Some p ->
  write_paper l f h
  = Some (tt, {| h_papers := <[l := f p]> (h_papers h);
                 h_feats := h_feats h |}).
Proof. unfold write_paper. intros ->. reflexivity. Qed.

Lemma wf_heap_Forall (h : heap) :
  wf_heap h
  <-> List.Forall
        (fun p => forall fl, pd_features p = Some fl ->
                             (fl < length (h_feats h))%nat)
        (h_papers h).
Proof.
  unfold wf_heap. rewrite List.Forall_forall. split.
  - intros H p Hin fl Hfl. apply list_elem_of_In in Hin.
    apply list_elem_of_lookup in Hin. destruct Hin as (l & Hl).
    apply (H _ _ _ Hl Hfl).
  - intros H l p fl Hl Hfl. apply (H p); [|exact Hfl].
    apply list_elem_of_In. apply list_elem_of_lookup. eauto.
Qed.

Lemma enrich_one_spec (P : processor) (l : loc) (h : heap) (p0 : pdict) :
  wf_heap h -> h_papers h !! l = Some p0 ->
  exists o h',
    enrich_one P l h = Some (o, h')
    /\ wf_heap h' /\ feats_kept h h'
    /\ match o with
       | None => effective_id p0 = None
       | Some l3 =>
           (length (h_papers h) <= l3)%nat
           /\ exists p3,
                h_papers h' !! l3 = Some p3 /\ enriched_paper h' p3
                /\ pd_id p3 = effective_id p0
       end
    /\ match o with
       | None => h_feats h' = h_feats h
       | Some _ =>
           forall fl d,
             pd_features p0 = Some fl -> h_feats h !! fl = Some d ->
             feats_empty d = false ->
             h_feats h' = <[fl := relabel p0 d]> (h_feats h)
       end.
Proof.
  intros Hwf Hl. unfold enrich_one.
  rewrite (bind_eq _ _ _ _ _ (read_paper_eq _ _ _ Hl)).
  destruct (or_opt (pd_paper_id p0) (pd_id p0)) as [pid|] eqn:Hpid.
  2:{ exists None, h. split; [reflexivity|]. split; [exact Hwf|].
      split; [apply feats_kept_refl|]. split; [|reflexivity].
      unfold effective_id. rewrite Hpid. reflexivity. }
  destruct (truthy pid) eqn:Htp; cbn [negb].
  2:{ exists None, h. split; [reflexivity|]. split; [exact Hwf|].
      split; [apply feats_kept_refl|]. split; [|reflexivity].
      unfold effective_id. rewrite Hpid, Htp. reflexivity. }
  set (full := or_str (pd_title p0) [] ++ u ". " ++ or_str (pd_abstract p0) []).
  set (stage := fun (hi : heap) (li : loc) (pi : pdict) =>
         h_papers hi !! li = Some pi
         /\ h_feats hi = h_feats h
         /\ (exists extra,
               h_papers hi = h_papers h ++ extra
               /\ List.Forall (fun p => pd_features p = pd_features p0) extra)
         /\ pd_features pi = pd_features p0
         /\ pd_attitude_label pi = pd_attitude_label p0
         /\ pd_methods_label pi = pd_methods_label p0).
  (* keywords *)
  assert (S1 : exists l1 h1 p1,
             (if keywords_missing p0
              then
                do l' <- copy_paper l;
                do _ <- write_paper l'
                          (set_keywords (extract_keywords P full 5));
                ret l'
              else ret l) h = Some (l1, h1)
             /\ stage h1 l1 p1
             /\ exists kws, pd_keywords p1 = Some kws).
  { destruct (keywords_missing p0) eqn:Hk.
    - eexists _, _, (set_keywords (extract_keywords P full 5) p0).
      split; [apply copy_then_write, Hl|].
      split; [|eexists; reflexivity].
      split; [cbn; apply lookup_snoc|]. split; [reflexivity|].
      split; [|repeat split].
      eexists. split; [reflexivity|]. repeat constructor.
    - exists l, h, p0. split; [reflexivity|]. split.
      + split; [exact Hl|]. split; [reflexivity|]. split; [|repeat split].
        exists []. rewrite app_nil_r. split; [reflexivity|constructor].
      + unfold keywords_missing in Hk.
        destruct (pd_keywords p0) as [[|k ks]|]; try discriminate. eauto. }
  destruct S1
    as (l1 & h1 & p1 & E1
        & (Hl1 & Hf1 & (x1 & Hx1 & Fx1) & Hp1 & Ha1 & Hm1) & Hkw1).
  rewrite (bind_eq _ _ _ _ _ E1).
  rewrite (bind_eq _ _ _ _ _ (read_paper_eq _ _ _ Hl1)).
  (* vector *)
  assert (S2 : exists l2 h2 p2,
             match pd_vector p1 with
             | Some _ => ret l1
             | None =>
                 do l' <- copy_paper l1;
                 do _ <- write_paper l' (set_vector (get_embedding P full));
                 ret l'
             end h1 = Some (l2, h2)
             /\ stage h2 l2 p2
             /\ (exists kws, pd_keywords p2 = Some kws)
             /\ pd_attitude_label p2 = pd_attitude_label p1).
  { destruct (pd_vector p1) eqn:Hv.
    - exists l1, h1, p1. split; [reflexivity|]. split; [|auto].
      split; [exact Hl1|]. split; [exact Hf1|]. split; [|auto].
      exists x1. auto.
    - eexists _, _, (set_vector (get_embedding P full) p1).
      split; [apply copy_then_write, Hl1|].
      split; [|split; [exact Hkw1|reflexivity]].
      split; [cbn; apply lookup_snoc|]. split; [exact Hf1|].
      split; [|repeat split; assumption]. cbn.
      exists (x1 ++ [set_vector (get_embedding P full) p1]).
      rewrite Hx1, <- app_assoc. split; [reflexivity|].
      apply List.Forall_app. split; [exact Fx1|].
      repeat constructor. exact Hp1. }
  destruct S2
    as (l2 & h2 & p2 & E2
        & (Hl2 & Hf2 & (x2 & Hx2 & Fx2) & Hp2 & Ha2 & Hm2) & Hkw2 & _).
  rewrite (bind_eq _ _ _ _ _ E2).
  rewrite (bind_eq _ _ _ _ _ (read_paper_eq _ _ _ Hl2)).
  (* the features of the paper, where it has any *)
  assert (Hfl : forall fl, pd_features p2 = Some fl ->
                           exists d, h_feats h2 !! fl = Some d).
  { intros fl Hfl. rewrite Hp2 in Hfl. rewrite Hf2.
    apply lookup_lt_is_Some_2. apply (Hwf _ _ _ Hl Hfl). }
  assert (S3 : exists missing,
             features_missing p2 h2 = Some (missing, h2)
             /\ (missing = false ->
                 exists fl d, pd_features p2 = Some fl
                              /\ h_feats h2 !! fl = Some d)
             /\ (forall fl d,
                   pd_features p2 = Some fl -> h_feats h2 !! fl = Some d ->
                   missing = feats_empty d)).
  { unfold features_missing. destruct (pd_features p2) as [fl|] eqn:Hf.
    - destruct (Hfl fl eq_refl) as (d & Hd).
      exists (feats_empty d).
      rewrite (bind_eq _ _ _ _ _ (read_feats_eq _ _ _ Hd)).
      split; [reflexivity|]. split.
      + intros _. exists fl, d. auto.
      + intros fl' d' Hfl' Hd'. injection Hfl' as <-.
        rewrite Hd in Hd'. injection Hd' as <-. reflexivity.
    - exists true. split; [reflexivity|].
      split; [discriminate|]. intros fl d Hf'. discriminate. }
  destruct S3 as (missing & E3 & Hmiss & Hmiss').
  rewrite (bind_eq _ _ _ _ _ E3).
  unfold copy_paper at 1. unfold bind at 1. rewrite Hl2.
  set (h3 := {| h_papers := h_papers h2 ++ [p2]; h_feats := h_feats h2 |}).
  assert (Hl3 : h_papers h3 !! length (h_papers h2) = Some p2)
    by apply lookup_snoc.
  rewrite (bind_eq _ _ _ _ _ (read_paper_eq _ _ _ Hl3)).
  assert (S4 : exists h4 p4,
             (if missing
              then
                do fl <-
                  new_feats
                    {| fd_attitude :=
                         Some
                           (VStr
                              match or_opt (pd_attitude_label p2) None with
                              | Some a => a
                              | None =>
                                  classify_attitude P
                                    (if truthy (or_str (pd_abstract p0) [])
                                     then or_str (pd_abstract p0) []
                                     else or_str (pd_title p0) [])
                              end);
                       fd_methods_label :=
                         Some match pd_methods_label p2 with
                              | Some v => v
                              | None => VStr []
                              end;
                       fd_other_keys := false |};
                write_paper (length (h_papers h2)) (set_features fl)
              else
                match pd_features p2 with
                | Some fl =>
                    do d <- read_feats fl;
                    do _ <-
                      write_feats fl
                        (set_attitude
                           (VStr
                              match
                                or_opt (pd_attitude_label p2)
                                  (val_truthy (fd_attitude d))
                              with
                              | Some a => a
                              | None => u "谨慎中性"
                              end));
                    do d' <- read_feats fl;
                    write_feats fl
                      (set_methods_label
                         match val_truthy (pd_methods_label p2) with
                         | Some m => VStr m
                         | None =>
                             match fd_methods_label d' with
                             | Some v => v
                             | None => VStr []
                             end
                         end)
                | None => raise
                end) h3 = Some (tt, h4)
             /\ h_papers h4 = h_papers h2 ++ [p4]
             /\ pd_keywords p4 = pd_keywords p2
             /\ feats_kept h h4
             /\ (forall fl d,
                   pd_features p0 = Some fl -> h_feats h !! fl = Some d ->
                   feats_empty d = false ->
                   h_feats h4 = <[fl := relabel p0 d]> (h_feats h))
             /\ exists fl d,
                  pd_features p4 = Some fl /\ h_feats h4 !! fl = Some d
                  /\ labelled d).
  { destruct missing.
    - eexists _, (set_features (length (h_feats h2)) p2).
      split.
      { unfold bind, new_feats, write_paper. cbn.
        rewrite lookup_snoc, insert_snoc. reflexivity. }
      unfold feats_kept, h3. cbn [h_feats h_papers].
      split; [reflexivity|]. split; [reflexivity|]. split.
      + rewrite Hf2. split; [rewrite length_app; lia|].
        intros fl d Hd Hlab. exists d. split; [|exact Hlab].
        apply lookup_app_l_Some, Hd.
      + split.
        { intros fl d Hfl0 Hd0 He. rewrite <- Hp2 in Hfl0.
          rewrite <- Hf2 in Hd0. rewrite <- (Hmiss' _ _ Hfl0 Hd0) in He.
          discriminate. }
        eexists _, _. split; [reflexivity|]. split; [apply lookup_snoc|].
        split; [eauto|discriminate].
    - destruct (Hmiss eq_refl) as (fl & d & Hfeat & Hd).
      rewrite Hfeat.
      assert (Hlt : (fl < length (h_feats h2))%nat)
        by (apply lookup_lt_Some in Hd; exact Hd).
      assert (Hd3 : h_feats h3 !! fl = Some d) by exact Hd.
      rewrite (bind_eq _ _ _ _ _ (read_feats_eq _ _ _ Hd3)).
      rewrite (bind_eq _ _ _ _ _ (write_feats_eq _ _ _ _ Hd3)).
      match goal with
      | |- context [bind (read_feats fl) _ ?hw] =>
          assert (Hdw : h_feats hw !! fl
                        = Some (set_attitude
                                  (VStr
                                     match
                                       or_opt (pd_attitude_label p2)
                                         (val_truthy (fd_attitude d))
                                     with
                                     | Some a => a
                                     | None => u "谨慎中性"
                                     end) d))
            by (apply list_lookup_insert_eq; exact Hlt)
      end.
      rewrite (bind_eq _ _ _ _ _ (read_feats_eq _ _ _ Hdw)).
      rewrite (write_feats_eq _ _ _ _ Hdw).
      eexists _, p2. split; [reflexivity|].
      unfold feats_kept, h3. cbn [h_feats h_papers].
      split; [reflexivity|]. split; [reflexivity|].
      assert (Hnew : forall (x y : feat_dict),
                 <[fl := x]> (<[fl := y]> (h_feats h2)) !! fl = Some x).
      { intros x y. apply list_lookup_insert_eq.
        rewrite length_insert. exact Hlt. }
      assert (Hlab' : forall a m (d0 : feat_dict),
                 labelled
                   (set_methods_label
                      match m with
                      | Some m' => VStr m'
                      | None =>
                          match fd_methods_label (set_attitude (VStr a) d0) with
                          | Some v => v
                          | None => VStr []
                          end
                      end (set_attitude (VStr a) d0))).
      { intros a m d0. split; [eexists; reflexivity|discriminate]. }
      split.
      + rewrite Hf2. split; [rewrite !length_insert; lia|].
        intros fl' d' Hd' Hlab.
        destruct (decide (fl' = fl)) as [->|Hne].
        * eexists. rewrite <- Hf2. split; [apply Hnew|apply Hlab'].
        * exists d'. split; [|exact Hlab].
          rewrite !list_lookup_insert_ne by auto. exact Hd'.
      + split.
        { intros fl0 d0 Hfl0 Hd0 _. rewrite <- Hp2, Hfeat in Hfl0.
          injection Hfl0 as <-. rewrite <- Hf2, Hd in Hd0.
          injection Hd0 as <-.
          rewrite list_insert_insert_eq, <- Hf2.
          unfold relabel. rewrite <- Ha2, <- Hm2. reflexivity. }
        eexists fl, _. split; [exact Hfeat|].
        split; [apply Hnew|apply Hlab']. }
  destruct S4
    as (h4 & p4 & E4 & Hp4 & Hkw4 & K4 & Hre & fl & d & Hfeat & Hd & Hlab).
  rewrite (bind_eq _ _ _ _ _ E4).
  assert (Hl4 : h_papers h4 !! length (h_papers h2) = Some p4).
  { rewrite Hp4. apply lookup_snoc. }
  rewrite (bind_eq _ _ _ _ _ (write_paper_eq _ _ _ _ Hl4)). unfold ret.
  eexists _, _. split; [reflexivity|].
  unfold feats_kept, enriched_paper. cbn [h_papers h_feats].
  rewrite Hp4, insert_snoc.
  destruct K4 as [K4a K4b].
  split; [|split; [split; assumption|split; [|exact Hre]]].
  - apply wf_heap_Forall. cbn [h_papers h_feats].
    apply wf_heap_Forall in Hwf.
    rewrite Hx2, <- app_assoc. apply List.Forall_app. split.
    + eapply List.Forall_impl; [|exact Hwf]. cbn beta.
      intros p Hp fl' Hfl'. specialize (Hp fl' Hfl'). lia.
    + apply List.Forall_app. split.
      * eapply List.Forall_impl; [|exact Fx2]. cbn beta.
        intros p Hp fl' Hfl'. rewrite Hp in Hfl'.
        apply wf_heap_Forall in Hwf.
        pose proof (Hwf _ _ _ Hl Hfl'). lia.
      * repeat constructor. intros fl' Hfl'.
        assert (fl' = fl) by (cbn in Hfl'; congruence). subst fl'.
        apply lookup_lt_Some in Hd. exact Hd.
  - split.
    + rewrite Hx2, length_app. lia.
    + exists (set_id pid p4). split; [apply lookup_snoc|].
      split; [split; [|split]|].
      * exists pid. split; [reflexivity|]. intros ->. discriminate.
      * cbn. rewrite Hkw4. exact Hkw2.
      * exists fl, d. auto.
      * unfold effective_id. rewrite Hpid, Htp. reflexivity.
Qed.

Lemma kept_ids_frame (h h' : heap) (ls : list loc) :
  frame (length (h_papers h)) h h' ->
  List.Forall (fun l => (l < length (h_papers h))%nat) ls ->
  kept_ids h' ls = kept_ids h ls.
Proof.
  intros (_ & _ & F) H. unfold kept_ids.
  induction H as [|l ls Hl _ IH]; cbn [flat_map]; [reflexivity|].
  unfold loc in *. rewrite (F l Hl), IH. reflexivity.
Qed.

Lemma ids_at_cons (h : heap) (l : loc) (ls : list loc) :
  ids_at h (l :: ls)
  = match h_papers h !! l with Some p => pd_id p | None => None end
    :: ids_at h ls.
Proof. reflexivity. Qed.

Lemma kept_ids_cons (h : heap) (l : loc) (ls : list loc) :
  kept_ids h (l :: ls)
  = match h_papers h !! l with
    | Some p =>
        match effective_id p with Some pid => [Some pid] | None => [] end
    | None => []
    end ++ kept_ids h ls.
Proof. reflexivity. Qed.

(** The loop of [_enrich_papers] over a well-formed heap. *)
Lemma mapM_enrich_spec (P : processor) (papers : list loc) :
  forall h,
    wf_heap h ->
    List.Forall (fun l => (l < length (h_papers h))%nat) papers ->
    exists os h',
      mapM (enrich_one P) papers h = Some (os, h')
      /\ wf_heap h' /\ feats_kept h h'
      /\ let out :=
           flat_map (fun o => match o with Some l => [l] | None => [] end)
             os in
         List.Forall
           (fun l =>
              (length (h_papers h) <= l)%nat
              /\ exists p, h_papers h' !! l = Some p /\ enriched_paper h' p)
           out
         /\ StronglySorted lt out
         /\ ids_at h' out = kept_ids h papers.
Proof.
  induction papers as [|l papers IH]; intros h Hwf Hv.
  - exists [], h. split; [reflexivity|]. split; [exact Hwf|].
    split; [apply feats_kept_refl|]. simpl.
    split; [constructor|]. split; [constructor|reflexivity].
  - inversion Hv as [|? ? Hl Hv']; subst.
    destruct (lookup_lt_is_Some_2 _ _ Hl) as (p0 & Hp0).
    destruct (enrich_one_spec P l h p0 Hwf Hp0)
      as (o & h1 & E1 & Hwf1 & K1 & Ho & _).
    pose proof (enrich_one_frame P _ _ _ _ _ (Nat.le_refl _) E1) as F1.
    assert (Hv1 : List.Forall (fun l => (l < length (h_papers h1))%nat)
                    papers).
    { eapply List.Forall_impl; [|exact Hv']. cbn beta. intros x Hx.
      destruct F1 as (_ & F1 & _). lia. }
    destruct (IH h1 Hwf1 Hv1) as (os & h' & E2 & Hwf' & K2 & Hout & Hs & Hids).
    pose proof (mapM_enrich_frame P _ _ _ _ _ (Nat.le_refl _) E2) as F2.
    exists (o :: os), h'. split.
    { simpl. rewrite (bind_eq _ _ _ _ _ E1), (bind_eq _ _ _ _ _ E2).
      reflexivity. }
    split; [exact Hwf'|].
    split; [eapply feats_kept_trans; eassumption|].
    assert (Hlen : (length (h_papers h) <= length (h_papers h1))%nat)
      by (destruct F1 as (_ & F1 & _); exact F1).
    assert (Hout' : List.Forall
                      (fun l =>
                         (length (h_papers h) <= l)%nat
                         /\ exists p, h_papers h' !! l = Some p
                                      /\ enriched_paper h' p)
                      (flat_map
                         (fun o => match o with Some l => [l] | None => [] end)
                         os)).
    { eapply List.Forall_impl; [|exact Hout]. cbn beta.
      intros x [Hx Hp]. split; [lia|exact Hp]. }
    assert (Hrest : kept_ids h1 papers = kept_ids h papers)
      by (apply kept_ids_frame; assumption).
    cbn zeta. cbn [flat_map].
    destruct o as [l3|].
    + destruct Ho as (Hl3 & p3 & Hp3 & He3 & Hid3).
      assert (Hlt3 : (l3 < length (h_papers h1))%nat)
        by (apply lookup_lt_Some in Hp3; exact Hp3).
      assert (Hp3' : h_papers h' !! l3 = Some p3).
      { destruct F2 as (_ & _ & F2). unfold loc in *.
        rewrite (F2 l3 Hlt3). exact Hp3. }
      split; [|split].
      * constructor; [|exact Hout'].
        split; [exact Hl3|]. exists p3. split; [exact Hp3'|].
        eapply enriched_paper_kept; eassumption.
      * constructor; [exact Hs|].
        eapply List.Forall_impl; [|exact Hout]. cbn beta.
        intros x [Hx _]. lia.
      * change (ids_at h' (l3 :: flat_map
                                    (fun o => match o with
                                              | Some l => [l]
                                              | None => []
                                              end) os)
                = kept_ids h (l :: papers)).
        rewrite ids_at_cons, kept_ids_cons, Hids, Hrest.
        unfold loc in *. rewrite Hp3', Hp0, <- Hid3.
        destruct He3 as ((pid & Hpid & _) & _).
        rewrite Hpid. reflexivity.
    + split; [exact Hout'|]. split; [exact Hs|].
      change (ids_at h' (flat_map
                           (fun o => match o with
                                     | Some l => [l]
                                     | None => []
                                     end) os)
              = kept_ids h (l :: papers)).
      rewrite kept_ids_cons, Hids, Hrest.
      unfold loc in *. rewrite Hp0, Ho. reflexivity.
Qed.

Lemma StronglySorted_lt_NoDup (l : list nat) :
  StronglySorted lt l -> List.NoDup l.
Proof.
  induction 1 as [|x l Hs IH Hx]; constructor; [|exact IH].
  intros Hin. rewrite List.Forall_forall in Hx.
  specialize (Hx x Hin). lia.
Qed.

(** On a heap in which every reference of the papers points to a
    dictionary, [_enrich_papers] returns.  It returns one new dictionary
    for every paper with a non-empty id, in the order of the papers and
    under that id, each with a list of keywords and with a features
    dictionary that holds a string attitude and a methods label. *)
Theorem enrichment_returns_enriched_papers (P : processor)
  (papers : list loc) (h : heap) :
  wf_heap h ->
  List.Forall (fun l => (l < length (h_papers h))%nat) papers ->
  exists out h',
    _enrich_papers P papers h = Some (out, h')
    /\ ids_at h' out = kept_ids h papers
    /\ List.NoDup out
    /\ List.Forall
         (fun l =>
            (length (h_papers h) <= l)%nat
            /\ exists p, h_papers h' !! l = Some p /\ enriched_paper h' p)
         out
    /\ wf_heap h'.
Proof.
  intros Hwf Hv.
  destruct (mapM_enrich_spec P papers h Hwf Hv)
    as (os & h' & E & Hwf' & _ & Hout & Hs & Hids).
  eexists _, h'. split.
  { unfold _enrich_papers. rewrite (bind_eq _ _ _ _ _ E). reflexivity. }
  split; [exact Hids|]. split; [apply StronglySorted_lt_NoDup, Hs|].
  split; [exact Hout|exact Hwf'].
Qed.

(** One paper with a features dictionary of its own: the enrichment
    returns one new dictionary under the id [p1]. *)
Lemma enrichment_returns_enriched_papers_witness :
  exists out h',
    _enrich_papers offline_processor [0%nat] heap_labelled = Some (out, h')
    /\ ids_at h' out = kept_ids heap_labelled [0%nat]
    /\ List.NoDup out
    /\ List.Forall
         (fun l =>
            (length (h_papers heap_labelled) <= l)%nat
            /\ exists p, h_papers h' !! l = Some p /\ enriched_paper h' p)
         out
    /\ wf_heap h'.
Proof.
  apply (enrichment_returns_enriched_papers offline_processor [0%nat]
           heap_labelled).
  - apply wf_heap_Forall. unfold heap_labelled. cbn [h_papers h_feats].
    constructor; [|constructor].
    intros fl Hfl. injection Hfl as <-. cbn. lia.
  - repeat constructor.
Defined.

(* ================================================================== *)
(** * The analyses and the caller's dictionaries                       *)
(* ================================================================== *)

Lemma attitude_of_same (p : pdict) (h h' : heap) (a : pyval) :
  attitude_of p h = Some (a, h') -> h' = h.
Proof.
  unfold attitude_of. destruct (pd_features p) as [fl|].
  - intros H. apply bind_Some in H. destruct H as (d & h1 & Hd & H).
    apply read_feats_same in Hd. destruct Hd as [-> _].
    injection H as _ <-. reflexivity.
  - intros [= _ <-]. reflexivity.
Qed.

Lemma mapM_attitude_same (ps : list pdict) :
  forall (h h' : heap) (atts : list (pdict * pyval)),
    mapM (fun p => do a <- attitude_of p; ret (p, a)) ps h = Some (atts, h') ->
    h' = h.
Proof.
  induction ps as [|p ps IH]; intros h h' atts H; simpl in H.
  - injection H as _ <-. reflexivity.
  - apply bind_Some in H. destruct H as (pa & h1 & H1 & H).
    apply bind_Some in H. destruct H as (pas & h2 & H2 & H).
    injection H as _ <-.
    apply bind_Some in H1. destruct H1 as (a & h0 & Ha & H1).
    apply attitude_of_same in Ha. subst h0. injection H1 as _ <-.
    apply (IH _ _ _ H2).
Qed.

Lemma enriched_heap (P : processor) (papers : list loc) (h h' : heap)
  (ps : list pdict) :
  enriched P papers h = Some (ps, h') ->
  exists out, _enrich_papers P papers h = Some (out, h').
Proof.
  unfold enriched. intros H.
  apply bind_Some in H. destruct H as (ls & h1 & H1 & H).
  apply mapM_read_same in H. subst h'. eauto.
Qed.

Lemma perform_clustering_heap (P : processor) (L : ml) (papers : list loc)
  (n : Z) (h h' : heap) (cs : list cluster) :
  perform_clustering P L papers n h = Some (cs, h') ->
  exists ps, enriched P papers h = Some (ps, h').
Proof.
  unfold perform_clustering. intros H.
  apply bind_Some in H. destruct H as (ps & h1 & Hps & H).
  exists ps. rewrite Hps. f_equal. f_equal.
  destruct ps as [|p ps]; [injection H as _ <-; reflexivity|].
  destruct (negb (ml_available L)); [injection H as _ <-; reflexivity|].
  destruct (List.map vector_of (List.filter usable_vector (p :: ps)));
    [injection H as _ <-; reflexivity|].
  destruct (fit_predict L _ _); [|discriminate].
  destruct (assign_labels _ _ _); [|discriminate].
  injection H as _ <-. reflexivity.
Qed.

Lemma analyze_trends_heap (P : processor) (papers : list loc) (h h' : heap)
  (t : timeline) :
  analyze_trends P papers h = Some (t, h') ->
  enriched P papers h = Some (enriched_papers P papers h, h')
  /\ t = trends (enriched_papers P papers h).
Proof.
  unfold analyze_trends, enriched_papers. intros H.
  apply bind_Some in H. destruct H as (ps & h1 & Hps & H).
  rewrite Hps. injection H as <- <-. auto.
Qed.

Lemma analyze_attitude_evolution_heap (P : processor) (papers : list loc)
  (h h' : heap) (t : timeline) :
  analyze_attitude_evolution P papers h = Some (t, h') ->
  exists ps, enriched P papers h = Some (ps, h').
Proof.
  unfold analyze_attitude_evolution. intros H.
  apply bind_Some in H. destruct H as (ps & h1 & Hps & H).
  apply bind_Some in H. destruct H as (atts & h2 & Ha & H).
  apply mapM_attitude_same in Ha. subst h2.
  destruct (attitude_evolution atts); [|discriminate].
  injection H as _ <-. eauto.
Qed.

(** Whichever analysis is run, the heap it leaves is the one that
    [_enrich_papers] leaves: every paper dictionary of the caller is what
    it was before the call, and no features dictionary has
    disappeared. *)
Theorem analyses_keep_callers_paper_dicts (P : processor) (L : ml)
  (papers : list loc) (n min_weight : Z) (h h' : heap) :
  (exists cs, perform_clustering P L papers n h = Some (cs, h'))
  \/ (exists net,
        build_cooccurrence_network P papers min_weight h = Some (net, h'))
  \/ (exists t, analyze_trends P papers h = Some (t, h'))
  \/ (exists t, analyze_attitude_evolution P papers h = Some (t, h')) ->
  (exists out, _enrich_papers P papers h = Some (out, h'))
  /\ (forall l p, h_papers h !! l = Some p -> h_papers h' !! l = Some p)
  /\ (length (h_papers h) <= length (h_papers h'))%nat.
Proof.
  intros H.
  assert (He : exists ps, enriched P papers h = Some (ps, h')).
  { destruct H as [(cs & H)|[(net & H)|[(t & H)|(t & H)]]].
    - eapply perform_clustering_heap, H.
    - apply build_cooccurrence_network_spec in H. destruct H as [H _]. eauto.
    - apply analyze_trends_heap in H. destruct H as [H _]. eauto.
    - eapply analyze_attitude_evolution_heap, H. }
  destruct He as (ps & He).
  destruct (enriched_heap _ _ _ _ _ He) as (out & Ho).
  split; [eauto|]. split.
  - intros l p Hl. eapply enrich_papers_keeps_paper_dicts; eassumption.
  - unfold _enrich_papers in Ho.
    apply bind_Some in Ho. destruct Ho as (os & h1 & H1 & Ho).
    injection Ho as _ <-.
    destruct (mapM_enrich_frame P _ _ _ _ _ (Nat.le_refl _) H1)
      as (_ & Hlen & _).
    exact Hlen.
Qed.

Lemma analyses_keep_callers_paper_dicts_witness :
  (exists out,
     _enrich_papers offline_processor [0%nat; 1%nat] heap_two_papers
     = Some (out,
             heap_of heap_two_papers
               (analyze_trends offline_processor [0%nat; 1%nat]
                  heap_two_papers)))
  /\ (forall l p,
        h_papers heap_two_papers !! l = Some p ->
        h_papers
          (heap_of heap_two_papers
             (analyze_trends offline_processor [0%nat; 1%nat]
                heap_two_papers)) !! l = Some p)
  /\ (length (h_papers heap_two_papers)
      <= length
           (h_papers
              (heap_of heap_two_papers
                 (analyze_trends offline_processor [0%nat; 1%nat]
                    heap_two_papers))))%nat.
Proof.
  apply (analyses_keep_callers_paper_dicts offline_processor kmeans_single
           [0%nat; 1%nat] 1 1 heap_two_papers).
  right. right. left. eexists. vm_compute. reflexivity.
Defined.

(* ================================================================== *)
(** * Clusters                                                         *)
(* ================================================================== *)

Section GroupsContents.
Context {V : Type}.

Lemma group_append_nonempty (k : Z) (v : V) (g : list (Z * list V)) :
  List.Forall (fun kv => snd kv <> []) g ->
  List.Forall (fun kv => snd kv <> []) (group_append k v g).
Proof.
  induction 1 as [|[k' vs] g Hk Hg IH]; simpl.
  - repeat constructor. discriminate.
  - destruct (k' =? k)%Z; constructor; simpl in *; auto.
    destruct vs; discriminate.
Qed.

Lemma group_append_flat (k : Z) (v : V) (g : list (Z * list V)) :
  Permutation (flat_map snd (group_append k v g)) (flat_map snd g ++ [v]).
Proof.
  induction g as [|[k' vs] g IH]; simpl; [reflexivity|].
  destruct (k' =? k)%Z; simpl.
  - rewrite <- !app_assoc. apply Permutation_app_head, Permutation_app_comm.
  - rewrite IH, app_assoc. reflexivity.
Qed.

Lemma assign_labels_contents (labels : list Z) :
  forall (valid : list V) (g g' : list (Z * list V)),
    assign_labels labels valid g = Some g' ->
    (List.Forall (fun kv => snd kv <> []) g ->
     List.Forall (fun kv => snd kv <> []) g')
    /\ Permutation (flat_map snd g')
         (flat_map snd g ++ firstn (length labels) valid).
Proof.
  induction labels as [|lab labels IH]; intros valid g g' H; simpl in H.
  - injection H as <-. simpl. rewrite app_nil_r. auto.
  - destruct valid as [|v valid]; [discriminate|].
    destruct (IH _ _ _ H) as [Hne Hp]. split.
    + intros Hg. apply Hne, group_append_nonempty, Hg.
    + rewrite Hp, group_append_flat, <- app_assoc. reflexivity.
Qed.

End GroupsContents.

Lemma flat_map_paper_ids (groups : list (Z * list pdict)) :
  flat_map paper_ids
    (List.map (fun kv => summarize (fst kv) (snd kv)) groups)
  = List.map (fun it => or_opt (pd_paper_id it) (pd_id it))
      (flat_map snd groups).
Proof.
  induction groups as [|[k items] groups IH]; simpl; [reflexivity|].
  rewrite IH, List.map_app. reflexivity.
Qed.

(** The clusters are listed by strictly ascending label and none is
    empty; every paper id in a cluster is the id of a paper with a usable
    embedding, and when k-means answers one label per embedding, the
    clusters together hold each of those papers exactly once. *)
Theorem clusters_partition_usable_papers (P : processor) (L : ml)
  (papers : list loc) (n : Z) (h h' : heap) (cs : list cluster) :
  perform_clustering P L papers n h = Some (cs, h') ->
  let ids :=
    List.map (fun it => or_opt (pd_paper_id it) (pd_id it))
      (usable_papers P papers h) in
  StronglySorted (fun a b => (cluster_id a < cluster_id b)%Z) cs
  /\ List.Forall
       (fun c => (1 <= count c)%nat /\ length (paper_ids c) = count c) cs
  /\ (forall i, In i (flat_map paper_ids cs) -> In i ids)
  /\ (kmeans_contract L -> ml_available L = true ->
      Permutation (flat_map paper_ids cs) ids).
Proof.
  intros H ids. subst ids.
  destruct (perform_clustering_cases _ _ _ _ _ _ _ H)
    as [[-> Hc]|(Hv & Hml & labels & groups & Hfit & Hassign & ->)].
  { split; [constructor|]. split; [constructor|].
    split; [intros i []|]. intros _ Hml.
    destruct Hc as [->|Hc]; [reflexivity|congruence]. }
  set (valid := usable_papers P papers h) in *.
  destruct (assign_labels_spec _ _ _ _ Hassign) as (_ & Hnd & _).
  destruct (assign_labels_contents _ _ _ _ Hassign) as [Hne Hp].
  specialize (Hnd (List.NoDup_nil _)). specialize (Hne (List.Forall_nil _)).
  simpl in Hp.
  set (sorted := stable_sort (fun y x : Z * list pdict => (fst y <? fst x)%Z)
                   groups).
  assert (Hperm : Permutation sorted groups) by apply stable_sort_perm.
  assert (Hs : StronglySorted (fun x y => (fst x < fst y)%Z) sorted).
  { apply sorted_distinct_strict.
    - apply stable_sort_sorted.
      + intros x y z. lia.
      + intros y x E. apply Z.ltb_lt in E. lia.
      + intros y x E. apply Z.ltb_ge in E. exact E.
    - eapply Permutation_NoDup; [|exact Hnd].
      apply Permutation_map. symmetry. exact Hperm. }
  assert (Hids : Permutation
                   (flat_map paper_ids
                      (List.map (fun kv => summarize (fst kv) (snd kv))
                         sorted))
                   (List.map (fun it => or_opt (pd_paper_id it) (pd_id it))
                      (firstn (length labels) valid))).
  { rewrite flat_map_paper_ids. apply Permutation_map.
    rewrite <- Hp. apply Permutation_flat_map, Hperm. }
  split; [|split; [|split]].
  - clear -Hs. induction Hs as [|x l Hs IH Hx]; simpl; constructor.
    + exact IH.
    + rewrite List.Forall_map. exact Hx.
  - rewrite List.Forall_map. apply List.Forall_forall. intros [k items] Hin.
    simpl. rewrite length_map. split; [|reflexivity].
    apply (Permutation_in _ Hperm) in Hin.
    rewrite List.Forall_forall in Hne. specialize (Hne _ Hin). simpl in Hne.
    destruct items; [congruence|simpl; lia].
  - intros i Hi. apply (Permutation_in _ Hids) in Hi.
    apply List.in_map_iff in Hi. destruct Hi as (p & <- & Hin).
    apply In_firstn in Hin.
    apply (List.in_map (fun it => or_opt (pd_paper_id it) (pd_id it)) _ _ Hin).
  - intros Hk _. destruct (Hk _ _ _ Hfit) as [Hlen _].
    rewrite length_map in Hlen. rewrite Hlen, List.firstn_all in Hids.
    exact Hids.
Qed.

(** Two papers, one of them with an embedding, and one cluster asked
    for. *)
Lemma clusters_partition_usable_papers_witness :
  let cs :=
    value_of []
      (perform_clustering offline_processor kmeans_single [0%nat; 1%nat] 1
         heap_two_papers) in
  let ids :=
    List.map (fun it => or_opt (pd_paper_id it) (pd_id it))
      (usable_papers offline_processor [0%nat; 1%nat] heap_two_papers) in
  StronglySorted (fun a b => (cluster_id a < cluster_id b)%Z) cs
  /\ List.Forall
       (fun c => (1 <= count c)%nat /\ length (paper_ids c) = count c) cs
  /\ (forall i, In i (flat_map paper_ids cs) -> In i ids)
  /\ (kmeans_contract kmeans_single -> ml_available kmeans_single = true ->
      Permutation (flat_map paper_ids cs) ids).
Proof.
  apply (clusters_partition_usable_papers offline_processor kmeans_single
           [0%nat; 1%nat] 1 heap_two_papers
           (heap_of heap_two_papers
              (perform_clustering offline_processor kmeans_single
                 [0%nat; 1%nat] 1 heap_two_papers))).
  vm_compute. reflexivity.
Defined.

(* ================================================================== *)
(** * The co-occurrence graph, continued                               *)
(* ================================================================== *)

Lemma fold_left_flat_map {A B C} (f : C -> B -> C) (g : A -> list B)
  (l : list A) (c : C) :
  fold_left f (flat_map g l) c
  = fold_left (fun c a => fold_left f (g a) c) l c.
Proof.
  revert c. induction l as [|a l IH]; intros c; simpl; [reflexivity|].
  rewrite List.fold_left_app. apply IH.
Qed.

Lemma count_pairs_fold (kws : list pystr) (c : list (pystr * pystr * nat)) :
  count_pairs kws c
  = fold_left (fun c pr => counter_incr pair_eqb pr c) (ordered_pairs kws) c.
Proof.
  revert c. induction kws as [|a rest IH]; intros c; simpl; [reflexivity|].
  rewrite List.fold_left_app, IH. f_equal.
  clear IH. revert c. induction rest as [|b rest IH]; intros c; simpl.
  - reflexivity.
  - apply IH.
Qed.

Lemma pair_counts_fold (ps : list pdict) :
  fold_left (fun c p => count_pairs (paper_keywords p) c) ps []
  = fold_left (fun c pr => counter_incr pair_eqb pr c) (keyword_pairs ps) [].
Proof.
  unfold keyword_pairs. rewrite fold_left_flat_map.
  generalize (@nil (pystr * pystr * nat)).
  induction ps as [|p ps IH]; intros c; simpl; [reflexivity|].
  rewrite count_pairs_fold. apply IH.
Qed.

Lemma word_counts_fold (ps : list pdict) :
  fold_left (fun c p => count_words (paper_keywords p) c) ps []
  = fold_left (fun c k => counter_incr str_eqb k c) (all_keywords ps) [].
Proof.
  unfold all_keywords. rewrite fold_left_flat_map. reflexivity.
Qed.

Lemma set_add_In (x y : pystr) (s : list pystr) :
  In x (set_add y s) <-> x = y \/ In x s.
Proof.
  unfold set_add. destruct (existsb (str_eqb y) s) eqn:E.
  - split; [auto|]. intros [->|H]; [|exact H].
    apply existsb_str_eqb, E.
  - rewrite List.in_app_iff. simpl. intuition auto.
Qed.

Lemma set_add_NoDup (y : pystr) (s : list pystr) :
  List.NoDup s -> List.NoDup (set_add y s).
Proof.
  intros H. unfold set_add. destruct (existsb (str_eqb y) s) eqn:E; [exact H|].
  apply List.NoDup_app; [exact H|repeat constructor; intros []|].
  intros x Hx [Heq|[]]. subst x.
  assert (existsb (str_eqb y) s = true) by (apply existsb_str_eqb, Hx).
  congruence.
Qed.

Lemma valid_nodes_spec (kept : list (pystr * pystr * nat)) :
  forall s,
    List.NoDup s ->
    let nodes :=
      fold_left
        (fun s kv => set_add (snd (fst kv)) (set_add (fst (fst kv)) s))
        kept s in
    List.NoDup nodes
    /\ forall n,
         In n nodes
         <-> In n s
             \/ exists kv, In kv kept
                           /\ (n = fst (fst kv) \/ n = snd (fst kv)).
Proof.
  induction kept as [|kv kept IH]; intros s Hs; simpl.
  - split; [exact Hs|]. intros n. split; [auto|].
    intros [H|(kv & [] & _)]. exact H.
  - destruct (IH (set_add (snd (fst kv)) (set_add (fst (fst kv)) s)))
      as [Hnd Hin].
    { apply set_add_NoDup, set_add_NoDup, Hs. }
    split; [exact Hnd|]. intros n. rewrite Hin, !set_add_In. split.
    + intros [[->|[->|H]]|(kv' & Hk & Hn)]; eauto 6.
    + intros [H|(kv' & [<-|Hk] & Hn)]; [auto| |eauto].
      destruct Hn as [->| ->]; auto.
Qed.

(** The links of the graph are the keyword pairs that occur together at
    least [min_weight] times, each with the number of its occurrences;
    the nodes are the end points of the links, each once, with the number
    of times the keyword is listed by the papers. *)
Theorem cooccurrence_graph_counts (P : processor) (papers : list loc)
  (min_weight : Z) (h h' : heap) (net : network) :
  build_cooccurrence_network P papers min_weight h = Some (net, h') ->
  let ps := enriched_papers P papers h in
  (forall e,
     In e (links net)
     <-> (1 <= link_value e)%nat
         /\ (min_weight <= Z.of_nat (link_value e))%Z
         /\ link_value e
            = occurrences pair_eqb Some (link_key e) (keyword_pairs ps))
  /\ List.NoDup (List.map node_id (nodes net))
  /\ (forall n,
        In n (List.map node_id (nodes net))
        <-> exists e,
              In e (links net) /\ (n = link_source e \/ n = link_target e))
  /\ List.Forall
       (fun nd =>
          node_value nd
          = occurrences str_eqb Some (node_id nd) (all_keywords ps)
          /\ node_name nd = truncate 12 (node_id nd))
       (nodes net).
Proof.
  intros H ps. apply build_cooccurrence_network_spec in H.
  destruct H as [_ ->]. fold ps. unfold cooccurrence.
  cbn [links nodes]. rewrite pair_counts_fold, word_counts_fold.
  destruct (tally_spec pair_eqb pair_eqb_eq Some
              (fun c pr => counter_incr pair_eqb pr c)
              (fun c r => eq_refl) (keyword_pairs ps)) as [_ Hpc].
  set (pc := fold_left (fun c pr => counter_incr pair_eqb pr c)
               (keyword_pairs ps) []) in *.
  set (kept := List.filter (heavy min_weight) pc).
  assert (Hlinks : forall e,
             In e (List.map
                     (fun kv => {| link_source := fst (fst kv);
                                   link_target := snd (fst kv);
                                   link_value := snd kv |}) kept)
             <-> (1 <= link_value e)%nat
                 /\ (min_weight <= Z.of_nat (link_value e))%Z
                 /\ link_value e
                    = occurrences pair_eqb Some (link_key e)
                        (keyword_pairs ps)).
  { intros e. rewrite List.in_map_iff. split.
    - intros ([[a b] n] & <- & Hin). unfold kept in Hin.
      apply List.filter_In in Hin. destruct Hin as [Hin Hh].
      apply Hpc in Hin. destruct Hin as [Hn Ho].
      unfold heavy in Hh. apply Z.leb_le in Hh. simpl in *. auto.
    - intros (Hn & Hw & Ho). destruct e as [a b n]. simpl in *.
      exists ((a, b), n). split; [reflexivity|].
      unfold kept. apply List.filter_In. split.
      + apply Hpc. auto.
      + unfold heavy. apply Z.leb_le. exact Hw. }
  destruct (valid_nodes_spec kept [] (List.NoDup_nil _)) as [Hnd Hnodes].
  set (vn := fold_left
               (fun s kv => set_add (snd (fst kv)) (set_add (fst (fst kv)) s))
               kept []) in *.
  split; [exact Hlinks|].
  rewrite List.map_map. cbn [node_id]. rewrite List.map_id.
  split; [exact Hnd|]. split.
  - intros n. rewrite Hnodes. split.
    + intros [[]|(kv & Hk & Hn)].
      exists {| link_source := fst (fst kv); link_target := snd (fst kv);
                link_value := snd kv |}.
      split; [|exact Hn].
      apply (List.in_map
               (fun kv => {| link_source := fst (fst kv);
                             link_target := snd (fst kv);
                             link_value := snd kv |}) _ _ Hk).
    + intros (e & He & Hn). right.
      apply List.in_map_iff in He. destruct He as (kv & <- & Hk).
      exists kv. auto.
  - rewrite List.Forall_map. apply List.Forall_forall. intros n _.
    cbn [node_value node_id node_name]. split; [|reflexivity].
    change (counter_get ?c n) with (count_of str_eqb c n).
    rewrite (tally_count str_eqb str_eqb_iff Some
               (fun c k => counter_incr str_eqb k c) (fun c r => eq_refl)).
    reflexivity.
Qed.

Lemma cooccurrence_graph_counts_witness :
  let net :=
    value_of {| nodes := []; links := [] |}
      (build_cooccurrence_network offline_processor [0%nat; 1%nat] 1
         heap_two_papers) in
  let ps := enriched_papers offline_processor [0%nat; 1%nat] heap_two_papers in
  (forall e,
     In e (links net)
     <-> (1 <= link_value e)%nat
         /\ (1 <= Z.of_nat (link_value e))%Z
         /\ link_value e
            = occurrences pair_eqb Some (link_key e) (keyword_pairs ps))
  /\ List.NoDup (List.map node_id (nodes net))
  /\ (forall n,
        In n (List.map node_id (nodes net))
        <-> exists e,
              In e (links net) /\ (n = link_source e \/ n = link_target e))
  /\ List.Forall
       (fun nd =>
          node_value nd
          = occurrences str_eqb Some (node_id nd) (all_keywords ps)
          /\ node_name nd = truncate 12 (node_id nd))
       (nodes net).
Proof.
  apply (cooccurrence_graph_counts offline_processor [0%nat; 1%nat] 1
           heap_two_papers
           (heap_of heap_two_papers
              (build_cooccurrence_network offline_processor [0%nat; 1%nat] 1
                 heap_two_papers))).
  vm_compute. reflexivity.
Defined.

(* ================================================================== *)
(** * Counters per year                                                *)
(* ================================================================== *)

Lemma year_val_eqb_eq (a b : year_val) : year_val_eqb a b = true <-> a = b.
Proof.
  destruct a, b; simpl; split; try discriminate; try reflexivity.
  - intros H. apply Z.eqb_eq in H. congruence.
  - intros [= ->]. apply Z.eqb_refl.
  - intros H. apply str_eqb_eq in H. congruence.
  - intros [= ->]. apply str_eqb_refl.
Qed.

Lemma pyval_eqb_eq (a b : pyval) : pyval_eqb a b = true <-> a = b.
Proof.
  destruct a, b; simpl; split; try discriminate; try reflexivity.
  - intros H. apply str_eqb_eq in H. congruence.
  - intros [= ->]. apply str_eqb_refl.
Qed.

Section Nested.
Context {K : Type} (eqb : K -> K -> bool).
Hypothesis eqb_eq : forall x y, eqb x y = true <-> x = y.

Lemma nested_get_count (d : list (year_val * list (K * nat))) (y : year_val)
  (k : K) :
  nested_get eqb d y k
  = match List.find (fun yc => year_val_eqb (fst yc) y) d with
    | Some yc => count_of eqb (snd yc) k
    | None => 0%nat
    end.
Proof. reflexivity. Qed.

Lemma nested_get_incr (y y' : year_val) (k k' : K)
  (d : list (year_val * list (K * nat))) :
  nested_get eqb (nested_incr eqb y k d) y' k'
  = (nested_get eqb d y' k'
     + if year_val_eqb y y' && eqb k k' then 1 else 0)%nat.
Proof.
  rewrite !nested_get_count.
  induction d as [|[y1 c] d IH]; cbn [nested_incr List.find fst snd].
  - destruct (year_val_eqb y y'); cbn [andb]; [|reflexivity].
    unfold count_of. cbn [List.find fst snd].
    destruct (eqb k k'); reflexivity.
  - destruct (year_val_eqb y1 y) eqn:E1; cbn [List.find fst snd].
    + apply year_val_eqb_eq in E1. subst y1.
      destruct (year_val_eqb y y'); cbn [andb fst snd]; [|lia].
      rewrite (count_of_incr eqb eqb_eq). destruct (eqb k k'); lia.
    + destruct (year_val_eqb y1 y') eqn:E2; [|exact IH].
      apply year_val_eqb_eq in E2. subst y1.
      destruct (year_val_eqb y y') eqn:E3; cbn [andb]; [|lia].
      apply year_val_eqb_eq in E3. subst y'.
      assert (year_val_eqb y y = true) by (apply year_val_eqb_eq; reflexivity).
      congruence.
Qed.

Lemma dated_eqb_eq (a b : Z * K) : dated_eqb eqb a b = true <-> a = b.
Proof.
  unfold dated_eqb. destruct a as [y k], b as [y' k']. simpl.
  rewrite andb_true_iff, Z.eqb_eq, eqb_eq. split.
  - intros [-> ->]. reflexivity.
  - intros [= -> ->]. auto.
Qed.

End Nested.

Lemma year_key_int (yv : year_val) (y : Z) :
  yv <> YNone ->
  year_val_eqb (year_key yv) (YInt y)
  = match year_int yv with Some z => (z =? y)%Z | None => false end.
Proof.
  intros Hn. unfold year_key. destruct (year_int yv) as [z|] eqn:E.
  - reflexivity.
  - destruct yv; [congruence|discriminate|reflexivity].
Qed.

(** [sorted(years_set)] lists the years that [int] reads from the
    papers, each once, in ascending order. *)
Lemma sorted_years_spec (ys : list year_val) :
  StronglySorted Z.lt (sorted_years ys)
  /\ forall y, In y (sorted_years ys)
               <-> exists yv, In yv ys /\ year_int yv = Some y.
Proof.
  unfold sorted_years.
  set (step := fun (s : list Z) (y : year_val) =>
                 match year_int y with
                 | Some z => if existsb (Z.eqb z) s then s else s ++ [z]
                 | None => s
                 end).
  assert (G : forall s,
             List.NoDup s ->
             List.NoDup (fold_left step ys s)
             /\ forall y, In y (fold_left step ys s)
                          <-> In y s
                              \/ exists yv, In yv ys /\ year_int yv = Some y).
  { induction ys as [|yv ys IH]; intros s Hs; simpl.
    - split; [exact Hs|]. intros y. split; [auto|].
      intros [H|(yv & [] & _)]. exact H.
    - assert (Hstep : List.NoDup (step s yv)
                      /\ forall y, In y (step s yv)
                                   <-> In y s \/ year_int yv = Some y).
      { unfold step. destruct (year_int yv) as [z|] eqn:Ez.
        - destruct (existsb (Z.eqb z) s) eqn:Ex.
          + split; [exact Hs|]. intros y. split; [auto|].
            intros [H|[= <-]]; [exact H|].
            apply List.existsb_exists in Ex.
            destruct Ex as (x & Hx & Hzx). apply Z.eqb_eq in Hzx.
            subst x. exact Hx.
          + split.
            * apply List.NoDup_app; [exact Hs|repeat constructor; intros []|].
              intros x Hx [Heq|[]]. subst x.
              assert (existsb (Z.eqb z) s = true); [|congruence].
              apply List.existsb_exists. exists z.
              split; [exact Hx|apply Z.eqb_refl].
            * intros y. rewrite List.in_app_iff. simpl. split.
              -- intros [H|[<-|[]]]; auto.
              -- intros [H|[= <-]]; auto.
        - split; [exact Hs|]. intros y. split; [auto|].
          intros [H|H]; [exact H|discriminate]. }
      destruct Hstep as [Hnd Hin].
      destruct (IH _ Hnd) as [Hnd' Hin']. split; [exact Hnd'|].
      intros y. rewrite Hin', Hin. split.
      + intros [[H|H]|(yv' & Hyv & Hy)]; eauto.
      + intros [H|(yv' & [<-|Hyv] & Hy)]; eauto. }
  destruct (G [] (List.NoDup_nil _)) as [Hnd Hin].
  pose proof (stable_sort_perm (fun y x => (y <? x)%Z) (fold_left step ys []))
    as Hperm.
  split.
  - assert (Hle : StronglySorted Z.le
                    (stable_sort (fun y x => (y <? x)%Z)
                       (fold_left step ys []))).
    { apply stable_sort_sorted.
      - intros x y z. lia.
      - intros y x H. apply Z.ltb_lt in H. lia.
      - intros y x H. apply Z.ltb_ge in H. exact H. }
    assert (Hnd' : List.NoDup
                     (stable_sort (fun y x => (y <? x)%Z)
                        (fold_left step ys []))).
    { eapply Permutation_NoDup; [symmetry; exact Hperm|exact Hnd]. }
    clear -Hle Hnd'.
    induction Hle as [|x l Hs IH Hx]; [constructor|].
    inversion Hnd' as [|? ? Hnotin Hnd'']; subst.
    constructor; [apply IH, Hnd''|].
    rewrite List.Forall_forall in Hx |- *. intros y Hy.
    specialize (Hx y Hy).
    assert (x <> y) by (intros ->; contradiction). lia.
  - intros y. rewrite <- (or_False (exists yv, _)), (or_comm _ False).
    rewrite <- (Hin y). split; intros H.
    + eapply Permutation_in; [exact Hperm|exact H].
    + eapply Permutation_in; [symmetry; exact Hperm|exact H].
Qed.

(* ================================================================== *)
(** * Trends                                                           *)
(* ================================================================== *)

Lemma occurrences_app {A K} (eqb : K -> K -> bool) (key : A -> option K)
  (k : K) (l1 l2 : list A) :
  occurrences eqb key k (l1 ++ l2)
  = (occurrences eqb key k l1 + occurrences eqb key k l2)%nat.
Proof. unfold occurrences. rewrite List.filter_app, length_app. reflexivity. Qed.

Lemma occurrences_dated {K} (eqb : K -> K -> bool) (z y : Z) (k : K)
  (ks : list K) :
  occurrences (dated_eqb eqb) Some (y, k) (List.map (pair z) ks)
  = if (z =? y)%Z then occurrences eqb Some k ks else 0%nat.
Proof.
  unfold occurrences, dated_eqb.
  induction ks as [|k1 ks IH]; simpl.
  - destruct (z =? y)%Z; reflexivity.
  - destruct (z =? y)%Z; simpl in *.
    + destruct (eqb k1 k); simpl; rewrite IH; reflexivity.
    + exact IH.
Qed.

Lemma keywords_of_year_get (yk : year_val) (y : Z) (kw0 : pystr)
  (kws : list pystr) :
  forall d,
    nested_get str_eqb
      (fold_left (fun d kw => nested_incr str_eqb yk kw d) kws d)
      (YInt y) kw0
    = (nested_get str_eqb d (YInt y) kw0
       + if year_val_eqb yk (YInt y)
         then occurrences str_eqb Some kw0 kws else 0)%nat.
Proof.
  unfold occurrences.
  induction kws as [|kw kws IH]; intros d; simpl.
  - destruct (year_val_eqb yk (YInt y)); lia.
  - rewrite IH, (nested_get_incr str_eqb str_eqb_iff).
    destruct (year_val_eqb yk (YInt y)); simpl; [|lia].
    destruct (str_eqb kw kw0); simpl; lia.
Qed.

Lemma year_kw_get (ps : list pdict) (y : Z) (kw0 : pystr) :
  forall d,
    nested_get str_eqb
      (fold_left
         (fun d p =>
            match pd_year p with
            | YNone => d
            | yv =>
                fold_left
                  (fun d kw => nested_incr str_eqb (year_key yv) kw d)
                  (paper_keywords p) d
            end) ps d)
      (YInt y) kw0
    = (nested_get str_eqb d (YInt y) kw0
       + occurrences (dated_eqb str_eqb) Some (y, kw0) (dated_keywords ps))%nat.
Proof.
  induction ps as [|p ps IH]; intros d.
  - simpl. unfold occurrences. simpl. lia.
  - cbn [fold_left]. rewrite IH.
    change (dated_keywords (p :: ps))
      with (match paper_year p with
            | Some z => List.map (pair z) (paper_keywords p)
            | None => []
            end ++ dated_keywords ps).
    rewrite occurrences_app. unfold paper_year.
    assert (Hp : nested_get str_eqb
                   match pd_year p with
                   | YNone => d
                   | _ =>
                       fold_left
                         (fun d kw =>
                            nested_incr str_eqb (year_key (pd_year p)) kw d)
                         (paper_keywords p) d
                   end (YInt y) kw0
                 = (nested_get str_eqb d (YInt y) kw0
                    + occurrences (dated_eqb str_eqb) Some (y, kw0)
                        match year_int (pd_year p) with
                        | Some z => List.map (pair z) (paper_keywords p)
                        | None => []
                        end)%nat).
    { destruct (pd_year p) as [|z|s] eqn:Ey.
      - simpl. unfold occurrences. simpl. lia.
      - rewrite keywords_of_year_get, year_key_int by discriminate.
        simpl year_int. cbv iota. rewrite occurrences_dated. reflexivity.
      - rewrite keywords_of_year_get, year_key_int by discriminate.
        destruct (year_int (YStr s)) as [z|].
        + rewrite occurrences_dated. reflexivity.
        + unfold occurrences. simpl. reflexivity. }
    destruct (pd_year p); rewrite Hp; lia.
Qed.

Lemma counter_add_In (k k0 : pystr) (n : nat) (c : list (pystr * nat)) :
  In k0 (List.map fst (counter_add k n c)) ->
  k0 = k \/ In k0 (List.map fst c).
Proof.
  induction c as [|[k' m] c IH]; simpl.
  - intros [<-|[]]. left. reflexivity.
  - destruct (str_eqb k' k); simpl.
    + intros [<-|H]; auto.
    + intros [<-|H]; auto. destruct (IH H); auto.
Qed.

Lemma counter_add_NoDup (k : pystr) (n : nat) (c : list (pystr * nat)) :
  List.NoDup (List.map fst c) ->
  List.NoDup (List.map fst (counter_add k n c)).
Proof.
  induction c as [|[k' m] c IH]; simpl; intros Hnd.
  - repeat constructor. intros [].
  - inversion Hnd as [|? ? Hnotin Hnd']; subst.
    destruct (str_eqb k' k) eqn:E; simpl.
    + constructor; assumption.
    + constructor; [|apply IH, Hnd'].
      intros Hin. apply counter_add_In in Hin. destruct Hin as [->|Hin].
      * rewrite str_eqb_refl in E. discriminate.
      * contradiction.
Qed.

Lemma counter_update_NoDup (c all : list (pystr * nat)) :
  List.NoDup (List.map fst all) ->
  List.NoDup (List.map fst (counter_update c all)).
Proof.
  unfold counter_update. revert all.
  induction c as [|kv c IH]; intros all H; simpl; [exact H|].
  apply IH, counter_add_NoDup, H.
Qed.

Lemma all_kw_NoDup (year_kw : list (year_val * list (pystr * nat))) :
  forall all,
    List.NoDup (List.map fst all) ->
    List.NoDup
      (List.map fst
         (fold_left (fun all yc => counter_update (snd yc) all) year_kw all)).
Proof.
  induction year_kw as [|yc d IH]; intros all H; simpl; [exact H|].
  apply IH, counter_update_NoDup, H.
Qed.

Lemma most_common_keys_NoDup {K} (n : nat) (c : list (K * nat)) :
  List.NoDup (List.map fst c) ->
  List.NoDup (List.map fst (most_common n c)).
Proof.
  intros H. unfold most_common. rewrite <- List.firstn_map.
  apply firstn_sublist_NoDup.
  eapply Permutation_NoDup; [|exact H].
  apply Permutation_map. symmetry. apply stable_sort_perm.
Qed.

Lemma trends_spec (ps : list pdict) :
  let t := trends ps in
  StronglySorted Z.lt (years t)
  /\ (forall y, In y (years t) <-> exists p, In p ps /\ paper_year p = Some y)
  /\ (length (all_series t) <= 10)%nat
  /\ List.NoDup (List.map series_name (all_series t))
  /\ List.Forall
       (fun s =>
          exists kw,
            series_name s = VStr kw
            /\ series_data s
               = List.map
                   (fun y =>
                      occurrences (dated_eqb str_eqb) Some (y, kw)
                        (dated_keywords ps))
                   (years t))
       (all_series t).
Proof.
  destruct ps as [|p0 ps0].
  { simpl. split; [constructor|]. split.
    - intros y. split; [intros []|intros (p & [] & _)].
    - split; [lia|]. split; constructor. }
  unfold trends. cbv beta iota zeta. cbn [years all_series].
  set (ps := p0 :: ps0).
  destruct (sorted_years_spec (List.map pd_year ps)) as [Hs Hin].
  split; [exact Hs|]. split.
  { intros y. rewrite Hin. split.
    - intros (yv & Hyv & Hy). apply List.in_map_iff in Hyv.
      destruct Hyv as (p & <- & Hp). exists p. auto.
    - intros (p & Hp & Hy). exists (pd_year p). split; [|exact Hy].
      apply List.in_map, Hp. }
  split.
  { rewrite !length_map. unfold most_common. apply List.firstn_le_length. }
  split.
  { rewrite !List.map_map. cbn [series_name].
    rewrite <- (List.map_map fst VStr).
    apply List.NoDup_map_NoDup_ForallPairs;
      [intros a b _ _ [= ->]; reflexivity|].
    apply most_common_keys_NoDup, all_kw_NoDup. constructor. }
  rewrite List.Forall_map. apply List.Forall_forall. intros kw _.
  exists kw. cbn [series_name series_data]. split; [reflexivity|].
  apply List.map_ext. intros y. rewrite year_kw_get. reflexivity.
Qed.

(** The trends of a collection: the years are those that [int] reads
    from the papers, each once and ascending; there are at most ten
    series, one per keyword, and the value of a series for a year is the
    number of times the keyword is listed by the papers of that year. *)
Theorem trends_count_keywords_by_year (P : processor) (papers : list loc)
  (h h' : heap) (t : timeline) :
  analyze_trends P papers h = Some (t, h') ->
  let ps := enriched_papers P papers h in
  StronglySorted Z.lt (years t)
  /\ (forall y, In y (years t) <-> exists p, In p ps /\ paper_year p = Some y)
  /\ (length (all_series t) <= 10)%nat
  /\ List.NoDup (List.map series_name (all_series t))
  /\ List.Forall
       (fun s =>
          exists kw,
            series_name s = VStr kw
            /\ series_data s
               = List.map
                   (fun y =>
                      occurrences (dated_eqb str_eqb) Some (y, kw)
                        (dated_keywords ps))
                   (years t))
       (all_series t).
Proof.
  intros H ps. apply analyze_trends_heap in H. destruct H as [_ ->].
  apply trends_spec.
Qed.

Lemma trends_count_keywords_by_year_witness :
  let t :=
    value_of {| years := []; all_series := [] |}
      (analyze_trends offline_processor [0%nat; 1%nat] heap_two_papers) in
  let ps := enriched_papers offline_processor [0%nat; 1%nat] heap_two_papers in
  StronglySorted Z.lt (years t)
  /\ (forall y, In y (years t) <-> exists p, In p ps /\ paper_year p = Some y)
  /\ (length (all_series t) <= 10)%nat
  /\ List.NoDup (List.map series_name (all_series t))
  /\ List.Forall
       (fun s =>
          exists kw,
            series_name s = VStr kw
            /\ series_data s
               = List.map
                   (fun y =>
                      occurrences (dated_eqb str_eqb) Some (y, kw)
                        (dated_keywords ps))
                   (years t))
       (all_series t).
Proof.
  apply (trends_count_keywords_by_year offline_processor [0%nat; 1%nat]
           heap_two_papers
           (heap_of heap_two_papers
              (analyze_trends offline_processor [0%nat; 1%nat]
                 heap_two_papers))).
  vm_compute. reflexivity.
Defined.

(* ================================================================== *)
(** * Attitude evolution                                               *)
(* ================================================================== *)

Lemma str_leb_trans (a b c : pystr) :
  str_leb a b = true -> str_leb b c = true -> str_leb a c = true.
Proof.
  revert b c. induction a as [|x a IH]; intros b c; [reflexivity|].
  destruct b as [|y b]; [discriminate|].
  destruct c as [|z c]; [simpl; intros _ H; discriminate|].
  simpl.
  destruct (x <? y)%N eqn:Exy, (y <? x)%N eqn:Eyx,
           (y <? z)%N eqn:Eyz, (z <? y)%N eqn:Ezy,
           (x <? z)%N eqn:Exz, (z <? x)%N eqn:Ezx;
    rewrite ?N.ltb_lt, ?N.ltb_ge in *; try discriminate; try reflexivity;
    try lia.
  apply IH.
Qed.

Lemma attitude_of_enriched (h : heap) (p : pdict) :
  enriched_paper h p -> exists a, attitude_of p h = Some (VStr a, h).
Proof.
  intros (_ & _ & fl & d & Hf & Hd & (a & Ha) & _).
  exists a. unfold attitude_of. rewrite Hf.
  rewrite (bind_eq _ _ _ _ _ (read_feats_eq _ _ _ Hd)).
  unfold ret, feats_empty. rewrite Ha. reflexivity.
Qed.

Lemma mapM_attitude_spec (h : heap) (ps : list pdict) :
  List.Forall (enriched_paper h) ps ->
  exists atts,
    mapM (fun p => do a <- attitude_of p; ret (p, a)) ps h = Some (atts, h)
    /\ List.map fst atts = ps
    /\ List.Forall
         (fun pa =>
            attitude_of (fst pa) h = Some (snd pa, h)
            /\ exists a, snd pa = VStr a) atts.
Proof.
  induction 1 as [|p ps Hp _ IH].
  - exists []. simpl. auto.
  - destruct IH as (atts & E & Hfst & Hstr).
    destruct (attitude_of_enriched h p Hp) as (a & Ha).
    exists ((p, VStr a) :: atts). split.
    + cbn [mapM]. rewrite (bind_eq _ _ _ _ _ (bind_eq _ _ _ _ _ Ha)).
      unfold ret at 1. rewrite (bind_eq _ _ _ _ _ E). reflexivity.
    + simpl. rewrite Hfst. split; [reflexivity|].
      constructor; [eauto|exact Hstr].
Qed.

Lemma mapM_read_spec (Q : pdict -> Prop) (h : heap) (ls : list loc) :
  List.Forall (fun l => exists p, h_papers h !! l = Some p /\ Q p) ls ->
  exists ps,
    mapM read_paper ls h = Some (ps, h)
    /\ List.Forall Q ps /\ List.map pd_id ps = ids_at h ls.
Proof.
  induction 1 as [|l ls (p & Hl & Hq) _ IH].
  - exists []. simpl. auto.
  - destruct IH as (ps & E & HQ & Hid).
    exists (p :: ps). split.
    + cbn [mapM]. rewrite (bind_eq _ _ _ _ _ (read_paper_eq _ _ _ Hl)).
      rewrite (bind_eq _ _ _ _ _ E). reflexivity.
    + split; [constructor; assumption|].
      rewrite ids_at_cons. unfold loc in *. rewrite Hl. simpl.
      rewrite Hid. reflexivity.
Qed.

(** The enrichment as the analyses see it, on a well-formed heap. *)
Lemma enriched_spec (P : processor) (papers : list loc) (h : heap) :
  wf_heap h ->
  List.Forall (fun l => (l < length (h_papers h))%nat) papers ->
  exists ps h',
    enriched P papers h = Some (ps, h')
    /\ List.Forall (enriched_paper h') ps
    /\ List.map pd_id ps = kept_ids h papers.
Proof.
  intros Hwf Hv.
  destruct (mapM_enrich_spec P papers h Hwf Hv)
    as (os & h' & E & _ & _ & Hout & _ & Hids).
  cbv zeta in *.
  destruct (mapM_read_spec (enriched_paper h') h'
              (flat_map (fun o => match o with Some l => [l] | None => [] end)
                 os)) as (ps & Er & HQ & Hid).
  { eapply List.Forall_impl; [|exact Hout]. cbn beta.
    intros l [_ Hp]. exact Hp. }
  exists ps, h'. split.
  - unfold enriched, _enrich_papers.
    rewrite (bind_eq _ _ _ _ _ (bind_eq _ _ _ _ _ E)). exact Er.
  - split; [exact HQ|]. rewrite Hid. exact Hids.
Qed.

Lemma counter_incr_keys_iff {K} (eqb : K -> K -> bool) (k k0 : K)
  (c : list (K * nat)) :
  (forall x y, eqb x y = true <-> x = y) ->
  In k0 (List.map fst (counter_incr eqb k c))
  <-> k0 = k \/ In k0 (List.map fst c).
Proof.
  intros eqb_eq. split; [apply counter_incr_In|].
  induction c as [|[k' n] c IH]; simpl.
  - intros [->|[]]. auto.
  - destruct (eqb k' k) eqn:E; simpl.
    + apply eqb_eq in E. subst k'. intros [->|[<-|H]]; auto.
    + intros [->|[<-|H]]; auto.
Qed.

Lemma inner_keys_incr {K} (eqb : K -> K -> bool) (y : year_val) (k k0 : K)
  (d : list (year_val * list (K * nat))) :
  (forall x y, eqb x y = true <-> x = y) ->
  In k0 (inner_keys (nested_incr eqb y k d))
  <-> k0 = k \/ In k0 (inner_keys d).
Proof.
  intros eqb_eq. unfold inner_keys.
  induction d as [|[y1 c] d IH]; cbn [nested_incr flat_map fst snd List.map].
  - simpl. split; intros [->|[]]; auto.
  - destruct (year_val_eqb y1 y); cbn [flat_map fst snd];
      rewrite !List.in_app_iff.
    + rewrite (counter_incr_keys_iff eqb k k0 c eqb_eq). tauto.
    + rewrite IH. tauto.
Qed.

Lemma set_add_val_In (x y : pyval) (s : list pyval) :
  In x (set_add_val y s) <-> x = y \/ In x s.
Proof.
  unfold set_add_val. destruct (existsb (pyval_eqb y) s) eqn:E.
  - split; [auto|]. intros [->|H]; [|exact H].
    apply List.existsb_exists in E. destruct E as (z & Hz & Hyz).
    apply pyval_eqb_eq in Hyz. subst z. exact Hz.
  - rewrite List.in_app_iff. simpl. intuition auto.
Qed.

Lemma set_add_val_NoDup (y : pyval) (s : list pyval) :
  List.NoDup s -> List.NoDup (set_add_val y s).
Proof.
  intros H. unfold set_add_val.
  destruct (existsb (pyval_eqb y) s) eqn:E; [exact H|].
  apply List.NoDup_app; [exact H|repeat constructor; intros []|].
  intros x Hx [Heq|[]]. subst x.
  assert (existsb (pyval_eqb y) s = true); [|congruence].
  apply List.existsb_exists. exists y. split; [exact Hx|].
  apply pyval_eqb_eq. reflexivity.
Qed.

Lemma all_att_spec (d : list (year_val * list (pyval * nat))) :
  forall s,
    List.NoDup s ->
    let all :=
      fold_left
        (fun s yc =>
           fold_left (fun s kv => set_add_val (fst kv) s) (snd yc) s)
        d s in
    List.NoDup all
    /\ forall v, In v all <-> In v s \/ In v (inner_keys d).
Proof.
  assert (Inner : forall (c : list (pyval * nat)) s,
             List.NoDup s ->
             List.NoDup (fold_left (fun s kv => set_add_val (fst kv) s) c s)
             /\ forall v,
                  In v (fold_left (fun s kv => set_add_val (fst kv) s) c s)
                  <-> In v s \/ In v (List.map fst c)).
  { induction c as [|kv c IH]; intros s Hs; simpl.
    - split; [exact Hs|]. tauto.
    - destruct (IH _ (set_add_val_NoDup (fst kv) s Hs)) as [Hnd Hin].
      split; [exact Hnd|]. intros v. rewrite Hin, set_add_val_In.
      split; [intros [[->|H]|H]; auto|intros [H|[<-|H]]; auto]. }
  unfold inner_keys.
  induction d as [|yc d IH]; intros s Hs; cbn [fold_left flat_map].
  - split; [exact Hs|]. simpl. tauto.
  - destruct (Inner (snd yc) s Hs) as [Hnd Hin].
    destruct (IH _ Hnd) as [Hnd' Hin'].
    split; [exact Hnd'|]. intros v.
    rewrite Hin', Hin, List.in_app_iff. tauto.
Qed.

Lemma year_att_spec (atts : list (pdict * pyval)) :
  forall d,
    let year_att :=
      fold_left
        (fun d pa =>
           match pd_year (fst pa) with
           | YNone => d
           | y => nested_incr pyval_eqb (year_key y) (snd pa) d
           end) atts d in
    (forall y cat,
       nested_get pyval_eqb year_att (YInt y) cat
       = (nested_get pyval_eqb d (YInt y) cat
          + occurrences (dated_eqb pyval_eqb) Some (y, cat)
              (dated_attitudes atts))%nat)
    /\ forall v,
         In v (inner_keys year_att)
         <-> In v (inner_keys d)
             \/ exists pa,
                  In pa atts /\ pd_year (fst pa) <> YNone /\ snd pa = v.
Proof.
  induction atts as [|pa atts IH]; intros d; cbn [fold_left].
  - split.
    + intros y cat. unfold occurrences. simpl. lia.
    + intros v. split; [auto|]. intros [H|(pa & [] & _)]. exact H.
  - match goal with
    | |- context [fold_left _ atts ?d0] => remember d0 as d1 eqn:Hd1
    end.
    assert (Hget1 : forall y cat,
               nested_get pyval_eqb d1 (YInt y) cat
               = (nested_get pyval_eqb d (YInt y) cat
                  + occurrences (dated_eqb pyval_eqb) Some (y, cat)
                      match paper_year (fst pa) with
                      | Some z => [(z, snd pa)]
                      | None => []
                      end)%nat).
    { intros y cat. subst d1. unfold paper_year.
      destruct (pd_year (fst pa)) as [|z|s] eqn:Ey.
      - unfold occurrences. simpl. lia.
      - rewrite (nested_get_incr pyval_eqb pyval_eqb_eq).
        rewrite year_key_int by discriminate.
        unfold occurrences, dated_eqb. simpl.
        destruct ((z =? y)%Z && pyval_eqb (snd pa) cat); simpl; lia.
      - rewrite (nested_get_incr pyval_eqb pyval_eqb_eq).
        rewrite year_key_int by discriminate.
        destruct (year_int (YStr s)) as [z|].
        + unfold occurrences, dated_eqb. simpl.
          destruct ((z =? y)%Z && pyval_eqb (snd pa) cat); simpl; lia.
        + unfold occurrences. simpl. lia. }
    assert (Hkeys1 : forall v,
               In v (inner_keys d1)
               <-> In v (inner_keys d)
                   \/ (pd_year (fst pa) <> YNone /\ snd pa = v)).
    { intros v. subst d1. destruct (pd_year (fst pa)) eqn:Ey.
      - split; [auto|]. intros [H|[H _]]; [exact H|congruence].
      - rewrite (inner_keys_incr pyval_eqb _ _ _ _ pyval_eqb_eq).
        split.
        + intros [->|H]; auto.
        + intros [H|[_ <-]]; auto.
      - rewrite (inner_keys_incr pyval_eqb _ _ _ _ pyval_eqb_eq).
        split.
        + intros [->|H]; auto.
        + intros [H|[_ <-]]; auto. }
    clear Hd1. destruct (IH d1) as [Hget Hkeys]. split.
    + intros y cat.
      change (dated_attitudes (pa :: atts))
        with (match paper_year (fst pa) with
              | Some z => [(z, snd pa)]
              | None => []
              end ++ dated_attitudes atts).
      rewrite occurrences_app, Hget, Hget1. lia.
    + intros v. rewrite Hkeys, Hkeys1. split.
      * intros [[H|[H1 H2]]|(pa' & Hin & H)]; eauto 6.
        -- right. exists pa. simpl. auto.
        -- right. exists pa'. simpl. tauto.
      * intros [H|(pa' & [<-|Hin] & H1 & H2)]; eauto 6.
Qed.

Lemma strings_of_VStr (s : list pyval) :
  List.Forall (fun v => exists a, v = VStr a) s ->
  List.map VStr (strings_of s) = s
  /\ forallb (fun v => match v with VStr _ => true | VNone => false end) s
     = true.
Proof.
  unfold strings_of. induction 1 as [|v s (a & ->) _ [IH1 IH2]]; simpl.
  - auto.
  - rewrite IH1, IH2. auto.
Qed.

(** [sorted(all_att)] on a set of strings. *)
Lemma sorted_attitudes_spec (s : list pyval) :
  List.Forall (fun v => exists a, v = VStr a) s -> List.NoDup s ->
  exists names,
    sorted_attitudes s = Some (List.map VStr names)
    /\ Permutation (List.map VStr names) s
    /\ StronglySorted (fun a b => str_leb a b = true) names
    /\ List.NoDup names.
Proof.
  intros Hs Hnd. destruct (strings_of_VStr s Hs) as [Hmap Hall].
  assert (Hnames : List.NoDup (strings_of s)).
  { apply (List.NoDup_map_inv VStr). rewrite Hmap. exact Hnd. }
  assert (Hsorted : StronglySorted (fun a b => str_leb a b = true)
                      (stable_sort (fun y x => negb (str_leb x y))
                         (strings_of s))).
  { apply stable_sort_sorted.
    - intros x y z. apply str_leb_trans.
    - intros y x H. apply negb_true_iff in H. apply str_leb_total, H.
    - intros y x H. apply negb_false_iff in H. exact H. }
  pose proof (stable_sort_perm (fun y x => negb (str_leb x y)) (strings_of s))
    as Hperm.
  destruct s as [|v1 [|v2 s']].
  - exists []. simpl. repeat split; constructor.
  - exists (strings_of [v1]). unfold sorted_attitudes. rewrite Hmap.
    split; [reflexivity|]. split; [reflexivity|]. split; [|exact Hnames].
    inversion Hs as [|? ? (a & ->) _]. simpl. repeat constructor.
  - exists (stable_sort (fun y x => negb (str_leb x y))
              (strings_of (v1 :: v2 :: s'))).
    unfold sorted_attitudes. rewrite Hall.
    split; [reflexivity|]. split.
    + rewrite <- Hmap at 2. apply Permutation_map, Hperm.
    + split; [exact Hsorted|].
      eapply Permutation_NoDup; [symmetry; exact Hperm|exact Hnames].
Qed.

Lemma attitude_evolution_spec (atts : list (pdict * pyval)) :
  List.Forall (fun pa => exists a, snd pa = VStr a) atts ->
  exists t names,
    attitude_evolution atts = Some t
    /\ StronglySorted Z.lt (years t)
    /\ (forall y,
          In y (years t)
          <-> exists pa, In pa atts /\ paper_year (fst pa) = Some y)
    /\ List.map series_name (all_series t) = List.map VStr names
    /\ StronglySorted (fun a b => str_leb a b = true) names
    /\ List.NoDup names
    /\ (forall a,
          In a names
          <-> exists pa,
                In pa atts /\ pd_year (fst pa) <> YNone /\ snd pa = VStr a)
    /\ List.Forall
         (fun s =>
            series_data s
            = List.map
                (fun y =>
                   occurrences (dated_eqb pyval_eqb) Some (y, series_name s)
                     (dated_attitudes atts))
                (years t))
         (all_series t).
Proof.
  intros Hstr. destruct atts as [|pa0 atts0].
  { exists {| years := []; all_series := [] |}, []. simpl.
    split; [reflexivity|]. split; [constructor|]. split.
    - intros y. split; [intros []|intros (pa & [] & _)].
    - split; [reflexivity|]. split; [constructor|]. split; [constructor|].
      split; [|constructor].
      intros a. split; [intros []|intros (pa & [] & _)]. }
  unfold attitude_evolution. cbv beta iota zeta.
  set (atts := pa0 :: atts0) in *.
  destruct (year_att_spec atts []) as [Hget Hkeys]. cbv zeta in Hget, Hkeys.
  set (year_att :=
         fold_left
           (fun d pa =>
              match pd_year (fst pa) with
              | YNone => d
              | y => nested_incr pyval_eqb (year_key y) (snd pa) d
              end) atts []) in *.
  destruct (all_att_spec year_att [] (List.NoDup_nil _)) as [Hnd Hall].
  cbv zeta in Hnd, Hall.
  set (all_att :=
         fold_left
           (fun s yc =>
              fold_left (fun s kv => set_add_val (fst kv) s) (snd yc) s)
           year_att []) in *.
  assert (Hmem : forall v,
             In v all_att
             <-> exists pa,
                   In pa atts /\ pd_year (fst pa) <> YNone /\ snd pa = v).
  { intros v. rewrite Hall, Hkeys. simpl. tauto. }
  assert (Hvs : List.Forall (fun v => exists a, v = VStr a) all_att).
  { apply List.Forall_forall. intros v Hv. apply Hmem in Hv.
    destruct Hv as (pa & Hin & _ & <-).
    rewrite List.Forall_forall in Hstr. apply Hstr, Hin. }
  destruct (sorted_attitudes_spec all_att Hvs Hnd)
    as (names & Hsa & Hperm & Hsorted & Hndn).
  rewrite Hsa.
  destruct (sorted_years_spec (List.map (fun pa => pd_year (fst pa)) atts))
    as [Hys Hyin].
  eexists _, names. split; [reflexivity|]. cbn [years all_series].
  split; [exact Hys|]. split.
  { intros y. rewrite Hyin. split.
    - intros (yv & Hyv & Hy). apply List.in_map_iff in Hyv.
      destruct Hyv as (pa & <- & Hp). exists pa. auto.
    - intros (pa & Hp & Hy). exists (pd_year (fst pa)). split; [|exact Hy].
      apply (List.in_map (fun pa => pd_year (fst pa)) _ _ Hp). }
  split.
  { rewrite List.map_map. cbn [series_name]. apply List.map_id. }
  split; [exact Hsorted|]. split; [exact Hndn|]. split.
  { intros a. rewrite <- Hmem. split.
    - intros Ha. apply (Permutation_in _ Hperm).
      apply List.in_map, Ha.
    - intros Ha. apply (Permutation_in _ (Permutation_sym Hperm)) in Ha.
      apply List.in_map_iff in Ha. destruct Ha as (b & [= ->] & Hb).
      exact Hb. }
  rewrite List.Forall_map. apply List.Forall_forall. intros cat _.
  cbn [series_name series_data]. apply List.map_ext. intros y.
  rewrite Hget. reflexivity.
Qed.

(** On a well-formed heap the attitude evolution returns.  Every
    attitude it reads after the enrichment is a string, so the categories
    can be sorted: they are the attitudes of the papers that have a
    year, each once and in ascending order; the years are those that
    [int] reads from the papers, and the value of a category for a year
    is the number of papers of that year with that attitude. *)
Theorem attitude_evolution_counts_papers_by_year (P : processor)
  (papers : list loc) (h : heap) :
  wf_heap h ->
  List.Forall (fun l => (l < length (h_papers h))%nat) papers ->
  exists t h' atts names,
    analyze_attitude_evolution P papers h = Some (t, h')
    /\ List.map fst atts = enriched_papers P papers h
    /\ List.Forall
         (fun pa => attitude_of (fst pa) h' = Some (snd pa, h')) atts
    /\ StronglySorted Z.lt (years t)
    /\ (forall y,
          In y (years t)
          <-> exists pa, In pa atts /\ paper_year (fst pa) = Some y)
    /\ List.map series_name (all_series t) = List.map VStr names
    /\ StronglySorted (fun a b => str_leb a b = true) names
    /\ List.NoDup names
    /\ (forall a,
          In a names
          <-> exists pa,
                In pa atts /\ pd_year (fst pa) <> YNone /\ snd pa = VStr a)
    /\ List.Forall
         (fun s =>
            series_data s
            = List.map
                (fun y =>
                   occurrences (dated_eqb pyval_eqb) Some (y, series_name s)
                     (dated_attitudes atts))
                (years t))
         (all_series t).
Proof.
  intros Hwf Hv.
  destruct (enriched_spec P papers h Hwf Hv) as (ps & h' & E & Hps & _).
  destruct (mapM_attitude_spec h' ps Hps) as (atts & Ea & Hfst & Hatts).
  assert (Hstr : List.Forall (fun pa => exists a, snd pa = VStr a) atts).
  { eapply List.Forall_impl; [|exact Hatts]. intros pa [_ H]. exact H. }
  destruct (attitude_evolution_spec atts Hstr) as (t & names & Et & Hshape).
  exists t, h', atts, names. split.
  { unfold analyze_attitude_evolution.
    rewrite (bind_eq _ _ _ _ _ E), (bind_eq _ _ _ _ _ Ea), Et. reflexivity. }
  split.
  { unfold enriched_papers. rewrite E. exact Hfst. }
  split; [|exact Hshape].
  eapply List.Forall_impl; [|exact Hatts]. intros pa [H _]. exact H.
Qed.

Lemma attitude_evolution_counts_papers_by_year_witness :
  exists t h' atts names,
    analyze_attitude_evolution offline_processor [0%nat] heap_labelled
    = Some (t, h')
    /\ List.map fst atts
       = enriched_papers offline_processor [0%nat] heap_labelled
    /\ List.Forall
         (fun pa => attitude_of (fst pa) h' = Some (snd pa, h')) atts
    /\ StronglySorted Z.lt (years t)
    /\ (forall y,
          In y (years t)
          <-> exists pa, In pa atts /\ paper_year (fst pa) = Some y)
    /\ List.map series_name (all_series t) = List.map VStr names
    /\ StronglySorted (fun a b => str_leb a b = true) names
    /\ List.NoDup names
    /\ (forall a,
          In a names
          <-> exists pa,
                In pa atts /\ pd_year (fst pa) <> YNone /\ snd pa = VStr a)
    /\ List.Forall
         (fun s =>
            series_data s
            = List.map
                (fun y =>
                   occurrences (dated_eqb pyval_eqb) Some (y, series_name s)
                     (dated_attitudes atts))
                (years t))
         (all_series t).
Proof.
  apply (attitude_evolution_counts_papers_by_year offline_processor [0%nat]
           heap_labelled).
  - apply wf_heap_Forall. unfold heap_labelled. cbn [h_papers h_feats].
    constructor; [|constructor].
    intros fl Hfl. injection Hfl as <-. cbn. lia.
  - repeat constructor.
Defined.

(* ================================================================== *)
(** * When the analyses return                                         *)
(* ================================================================== *)

Lemma assign_labels_raises {V} (labels : list Z) :
  forall (valid : list V) (g : list (Z * list V)),
    assign_labels labels valid g = None
    <-> (length valid < length labels)%nat.
Proof.
  induction labels as [|lab labels IH]; intros valid g; simpl.
  - split; [discriminate|lia].
  - destruct valid as [|v valid]; simpl.
    + split; [lia|reflexivity].
    + rewrite IH. lia.
Qed.

(** On a well-formed heap the co-occurrence graph and the trends are
    always returned, and the clustering raises exactly when scikit-learn
    is present, some paper has a usable embedding, and k-means either
    raises or answers more labels than there are embeddings. *)
Theorem analyses_return_on_well_formed_heap (P : processor) (L : ml)
  (papers : list loc) (n min_weight : Z) (h : heap) :
  wf_heap h ->
  List.Forall (fun l => (l < length (h_papers h))%nat) papers ->
  (exists net h',
     build_cooccurrence_network P papers min_weight h = Some (net, h'))
  /\ (exists t h', analyze_trends P papers h = Some (t, h'))
  /\ (perform_clustering P L papers n h = None
      <-> let valid := usable_papers P papers h in
          ml_available L = true /\ valid <> []
          /\ (fit_predict L (Z.min n (Z.of_nat (length valid)))
                (List.map vector_of valid) = None
              \/ exists labels,
                   fit_predict L (Z.min n (Z.of_nat (length valid)))
                     (List.map vector_of valid) = Some labels
                   /\ (length valid < length labels)%nat)).
Proof.
  intros Hwf Hv.
  destruct (enriched_spec P papers h Hwf Hv) as (ps & h' & E & _ & _).
  split; [|split].
  - eexists _, h'. unfold build_cooccurrence_network.
    rewrite (bind_eq _ _ _ _ _ E). reflexivity.
  - eexists _, h'. unfold analyze_trends.
    rewrite (bind_eq _ _ _ _ _ E). reflexivity.
  - unfold usable_papers, enriched_papers, perform_clustering.
    rewrite (bind_eq _ _ _ _ _ E), E. cbv zeta.
    destruct ps as [|p ps'].
    { simpl. split; [discriminate|]. intros (_ & H & _). congruence. }
    cbv iota. set (ps := p :: ps') in *.
    destruct (ml_available L); cbn [negb].
    2:{ split; [discriminate|]. intros (H & _). discriminate. }
    set (valid := List.filter usable_vector ps).
    rewrite (length_map vector_of valid).
    destruct (List.map vector_of valid) as [|x xs] eqn:Hm.
    { split; [discriminate|]. intros (_ & H & _).
      apply List.map_eq_nil in Hm. congruence. }
    assert (Hvalid : valid <> []).
    { intros H0. rewrite H0 in Hm. discriminate. }
    destruct (fit_predict L (Z.min n (Z.of_nat (length valid))) (x :: xs))
      as [labels|] eqn:Hfit.
    + destruct (assign_labels labels valid []) as [groups|] eqn:Ha.
      * split; [discriminate|].
        intros (_ & _ & [H|(labels' & Hl' & Hl)]); [discriminate|].
        injection Hl' as <-.
        apply (assign_labels_raises labels valid []) in Hl.
        rewrite Ha in Hl. discriminate.
      * split; [|reflexivity]. intros _. split; [reflexivity|].
        split; [exact Hvalid|]. right. exists labels.
        split; [reflexivity|]. apply (assign_labels_raises _ _ []), Ha.
    + split; [|reflexivity]. intros _. split; [reflexivity|].
      split; [exact Hvalid|]. left. reflexivity.
Qed.

Lemma analyses_return_on_well_formed_heap_witness :
  (exists net h',
     build_cooccurrence_network offline_processor [0%nat; 1%nat] 1
       heap_two_papers = Some (net, h'))
  /\ (exists t h',
        analyze_trends offline_processor [0%nat; 1%nat] heap_two_papers
        = Some (t, h'))
  /\ (perform_clustering offline_processor kmeans_single [0%nat; 1%nat] 1
        heap_two_papers = None
      <-> let valid :=
            usable_papers offline_processor [0%nat; 1%nat] heap_two_papers in
          ml_available kmeans_single = true /\ valid <> []
          /\ (fit_predict kmeans_single (Z.min 1 (Z.of_nat (length valid)))
                (List.map vector_of valid) = None
              \/ exists labels,
                   fit_predict kmeans_single
                     (Z.min 1 (Z.of_nat (length valid)))
                     (List.map vector_of valid) = Some labels
                   /\ (length valid < length labels)%nat)).
Proof.
  apply (analyses_return_on_well_formed_heap offline_processor kmeans_single
           [0%nat; 1%nat] 1 1 heap_two_papers).
  - apply wf_heap_Forall. unfold heap_two_papers. cbn [h_papers h_feats].
    repeat constructor; intros fl Hfl; discriminate.
  - repeat constructor.
Defined.

(* ================================================================== *)
(** * Papers prepared by the search tool                               *)
(* ================================================================== *)

Lemma mapM_enrich_prefilled (P : processor) (papers : list loc) :
  forall h,
    wf_heap h -> List.Forall (prefilled h) papers ->
    exists os h',
      mapM (enrich_one P) papers h = Some (os, h')
      /\ h_feats h' = h_feats h.
Proof.
  induction papers as [|l papers IH]; intros h Hwf Hpre.
  - exists [], h. auto.
  - inversion Hpre as [|? ? Hl Hrest]; subst.
    destruct Hl as (p & fl & d & Hp & Hfl & Hd & He & Hre).
    destruct (enrich_one_spec P l h p Hwf Hp)
      as (o & h1 & E1 & Hwf1 & _ & _ & Hfe).
    assert (Hf1 : h_feats h1 = h_feats h).
    { destruct o; [|exact Hfe].
      rewrite (Hfe fl d Hfl Hd He), Hre. apply list_insert_id, Hd. }
    pose proof (enrich_one_frame P _ _ _ _ _ (Nat.le_refl _) E1)
      as (_ & _ & F1).
    assert (Hpre1 : List.Forall (prefilled h1) papers).
    { eapply List.Forall_impl; [|exact Hrest]. cbn beta.
      intros l' (p' & fl' & d' & Hp' & Hfl' & Hd' & He' & Hre').
      exists p', fl', d'. rewrite Hf1. unfold loc in *.
      rewrite F1 by (apply lookup_lt_Some in Hp'; exact Hp'). auto. }
    destruct (IH h1 Hwf1 Hpre1) as (os & h' & E2 & Hf2).
    exists (o :: os), h'. split; [|congruence].
    simpl. rewrite (bind_eq _ _ _ _ _ E1), (bind_eq _ _ _ _ _ E2).
    reflexivity.
Qed.

Lemma session_features_fixed (f : option features) (fl : loc) (r : hit) :
  feats_empty (session_features f) = false
  /\ relabel (session_paper f fl r) (session_features f) = session_features f.
Proof.
  split; [reflexivity|].
  unfold relabel, session_features, session_paper.
  cbn [pd_attitude_label pd_methods_label fd_attitude fd_methods_label
       set_attitude set_methods_label or_opt val_truthy].
  assert (Hdef : truthy (u "谨慎中性") = true) by reflexivity.
  destruct (truthy (label_of f attitude_label)) eqn:Ea;
    destruct (truthy (label_of f methods_label)) eqn:Em;
    rewrite ?Ea, ?Em, ?Hdef; reflexivity.
Qed.

Lemma search_papers_heap (E : backends) (topic : pystr) (sy ey : option Z)
  (src : option pystr) (limit : Z) (results : list hit) (h : heap) :
  search_papers E topic sy ey src limit = Some (results, h) ->
  length (h_papers h) = length results
  /\ wf_heap h
  /\ List.Forall (prefilled h) (List.seq 0 (length results)).
Proof.
  unfold search_papers.
  destruct (search_with_distributions E topic sy ey src limit 0 true)
    as [out|]; [|discriminate].
  intros [= <- <-]. set (results := out_results out).
  set (feats := fetch_features (features_table E)
                  (List.map (fun r => paper_id (hit_paper r)) results)).
  cbn [h_papers h_feats].
  split; [apply length_imap|]. split.
  - intros l p fl Hl Hfl. cbn [h_papers h_feats] in *.
    rewrite length_map. rewrite list_lookup_imap in Hl.
    destruct (results !! l) as [r|] eqn:Hr; [|discriminate].
    simpl in Hl. injection Hl as <-. simpl in Hfl. injection Hfl as <-.
    apply lookup_lt_Some in Hr. exact Hr.
  - apply List.Forall_forall. intros l Hin. apply List.in_seq in Hin.
    destruct (lookup_lt_is_Some_2 results l) as (r & Hr); [lia|].
    exists (session_paper (feats !! paper_id (hit_paper r)) l r), l,
           (session_features (feats !! paper_id (hit_paper r))).
    cbn [h_papers h_feats].
    split; [rewrite list_lookup_imap, Hr; reflexivity|].
    split; [reflexivity|].
    split; [rewrite list_lookup_fmap, Hr; reflexivity|].
    apply session_features_fixed.
Qed.

(** The papers that the search tool prepares survive every analysis
    untouched: the enrichment returns, and afterwards every paper
    dictionary and every features dictionary of the session is what it
    was. *)
Theorem prepared_papers_survive_analysis (P : processor) (E : backends)
  (topic : pystr) (sy ey : option Z) (src : option pystr) (limit : Z)
  (results : list hit) (h : heap) :
  search_papers E topic sy ey src limit = Some (results, h) ->
  exists out h',
    _enrich_papers P (List.seq 0 (length results)) h = Some (out, h')
    /\ h_feats h' = h_feats h
    /\ (forall l p, h_papers h !! l = Some p -> h_papers h' !! l = Some p).
Proof.
  intros Hs. destruct (search_papers_heap _ _ _ _ _ _ _ _ Hs)
    as (_ & Hwf & Hpre).
  destruct (mapM_enrich_prefilled P _ h Hwf Hpre) as (os & h' & E1 & Hf).
  assert (Eo : _enrich_papers P (List.seq 0 (length results)) h
               = Some (flat_map
                         (fun o => match o with Some l => [l] | None => [] end)
                         os, h')).
  { unfold _enrich_papers. rewrite (bind_eq _ _ _ _ _ E1). reflexivity. }
  eexists _, h'. split; [exact Eo|]. split; [exact Hf|].
  intros l p Hl. eapply enrich_papers_keeps_paper_dicts; eassumption.
Qed.

(** The search over three indexed papers with an empty query, and the
    enrichment of the three prepared papers. *)
Lemma prepared_papers_survive_analysis_witness :
  let r := search_papers env_three (u "") None None None 10 in
  let results := match r with Some (rs, _) => rs | None => [] end in
  let h :=
    match r with
    | Some (_, h) => h
    | None => {| h_papers := []; h_feats := [] |}
    end in
  exists out h',
    _enrich_papers offline_processor (List.seq 0 (length results)) h
    = Some (out, h')
    /\ h_feats h' = h_feats h
    /\ (forall l p, h_papers h !! l = Some p -> h_papers h' !! l = Some p).
Proof.
  apply (prepared_papers_survive_analysis offline_processor env_three (u "")
           None None None 10).
  vm_compute. reflexivity.
Defined.

(* ================================================================== *)
(** * The dashboard                                                    *)
(* ================================================================== *)

Section MostCommon.
Context {A K : Type} (eqb : K -> K -> bool).
Hypothesis eqb_eq : forall x y, eqb x y = true <-> x = y.
Context (key : A -> option K) (step : list (K * nat) -> A -> list (K * nat)).
Hypothesis step_eq :
  forall c r,
    step c r
    = match key r with Some k => counter_incr eqb k c | None => c end.


End MostCommon.









(* ================================================================== *)
(** * Keywords without KeyBERT                                         *)
(* ================================================================== *)

Lemma plain_word_match (prev : option N) (s : pystr) (n : nat) :
  match_here false plain_word prev s = Some n -> (2 <= n)%nat.
Proof.
  unfold match_here, plain_word. cbn [seq rmatch].
  destruct (xorb (is_word_before prev) (is_word_at s)); [|discriminate].
  destruct s as [|c1 [|c2 s]]; try discriminate.
  - destruct (is_word_letter c1); discriminate.
  - destruct (is_word_letter c1); [|discriminate].
    destruct (is_word_letter c2); [|discriminate].
    destruct (star_match is_word_letter (Some c2) s
                (fun p s' =>
                   if xorb (is_word_before p) (is_word_at s')
                   then Some s' else None)) as [rest|] eqn:Hs; [|discriminate].
    intros [= <-].
    destruct (star_match_consumes _ _ _ _ _ Hs) as (w & rest' & p & -> & _ & Hk).
    destruct (xorb _ _); [|discriminate]. injection Hk as ->.
    cbn [length]. rewrite length_app. lia.
Qed.

Lemma plain_word_chars (c : N) :
  re_chars false plain_word c = true -> is_word_letter c = true.
Proof.
  unfold plain_word. cbn [seq re_chars].
  destruct (is_word_letter c); [reflexivity|]. simpl. auto.
Qed.

Lemma plain_words_spec (s : pystr) :
  List.Forall
    (fun t => (2 <= length t)%nat /\ forallb is_word_letter t = true)
    (re_findall false plain_word s).
Proof.
  unfold re_findall.
  pose proof (findall_from_matches false plain_word s None 0) as Hm.
  pose proof (findall_from_chars false plain_word s None 0) as Hc.
  rewrite List.Forall_forall in *. intros t Ht. split.
  - destruct (Hm t Ht) as (p & s' & n & Hn & ->).
    pose proof (plain_word_match _ _ _ Hn) as H2.
    assert (Hle : (n <= length s')%nat).
    { unfold match_here in Hn.
      destruct (rmatch false plain_word p s' (fun _ rest => Some rest))
        as [rest|]; [|discriminate].
      injection Hn as <-. lia. }
    rewrite List.length_firstn. lia.
  - eapply forallb_weaken; [|apply (Hc t Ht)]. apply plain_word_chars.
Qed.

Lemma counter_of_keys (xs : list pystr) :
  List.NoDup (List.map fst (counter_of xs))
  /\ forall k, In k (List.map fst (counter_of xs)) -> In k xs.
Proof.
  unfold counter_of.
  destruct (tally_spec str_eqb str_eqb_iff Some
              (fun c x => counter_incr str_eqb x c) (fun c r => eq_refl) xs)
    as [Hnd Hin].
  split; [exact Hnd|]. intros k Hk.
  apply List.in_map_iff in Hk. destruct Hk as ([k' n] & Hk' & Hk).
  simpl in Hk'. subst k'. apply Hin in Hk. destruct Hk as [Hn ->].
  unfold occurrences in Hn.
  destruct (List.filter _ xs) as [|x l] eqn:Hf; [simpl in Hn; lia|].
  assert (Hx : In x (x :: l)) by (left; reflexivity).
  rewrite <- Hf in Hx. apply List.filter_In in Hx. destruct Hx as [Hx He].
  apply str_eqb_eq in He. subst x. exact Hx.
Qed.

(** The keywords that the processor finds without KeyBERT: none for a
    blank text, at most [top_n], no keyword twice, and each a word of at
    least two letters or ideographs. *)
Theorem fallback_keywords_are_distinct_words (text : pystr) (top_n : nat) :
  let ks := fallback_extract_keywords text top_n in
  (strip text = [] -> ks = [])
  /\ (length ks <= top_n)%nat
  /\ List.NoDup ks
  /\ List.Forall
       (fun k => (2 <= length k)%nat /\ forallb is_word_letter k = true) ks.
Proof.
  intros ks. subst ks. unfold fallback_extract_keywords.
  destruct (negb (truthy text) || negb (truthy (strip text))) eqn:Hb.
  { split; [reflexivity|]. split; [simpl; lia|]. split; constructor. }
  apply orb_false_iff in Hb. destruct Hb as [_ Hs].
  apply negb_false_iff in Hs.
  destruct (counter_of_keys (re_findall false plain_word text)) as [Hnd Hin].
  split.
  { intros H0. rewrite H0 in Hs. discriminate. }
  split.
  { rewrite length_map. unfold most_common. apply List.firstn_le_length. }
  split; [apply most_common_keys_NoDup, Hnd|].
  apply List.Forall_forall. intros k Hk.
  assert (Hk' : In k (List.map fst
                        (counter_of (re_findall false plain_word text)))).
  { unfold most_common in Hk. rewrite <- List.firstn_map in Hk.
    apply In_firstn in Hk.
    eapply Permutation_in; [|exact Hk].
    apply Permutation_map, stable_sort_perm. }
  pose proof (plain_words_spec text) as Hw.
  rewrite List.Forall_forall in Hw. apply Hw, Hin, Hk'.
Qed.

(* ================================================================== *)
(** * The preference signal                                            *)
(* ================================================================== *)

Lemma filter_none_length {A} (f : A -> bool) (l : list A) :
  length (List.filter f l) = 0%nat <-> forall x, In x l -> f x = false.
Proof.
  induction l as [|a l IH]; simpl.
  - split; [intros _ x []|reflexivity].
  - destruct (f a) eqn:Ea; simpl.
    + split; [discriminate|]. intros H. specialize (H a (or_introl eq_refl)).
      congruence.
    + rewrite IH. split.
      * intros H x [<-|Hx]; auto.
      * intros H x Hx. apply H. right. exact Hx.
Qed.

(** With preference terms configured, the preference signal of a candidate
    in the fused ranking is [1/2 + hits / (2 * number of terms)]: never
    below one half, and exactly one half when no term occurs in the title
    or the abstract. *)
Theorem preference_signal_floor (pref : list pystr) (md : option paper) :
  pref <> [] ->
  let text := md_text title md ++ u " " ++ md_text abstract md in
  let hits :=
    length (List.filter (fun p => str_in (lower p) (lower text)) pref) in
  let up := _user_pref_score text pref in
  (up == (1 # 2) + inject_Z (Z.of_nat hits)
                   / inject_Z (2 * Z.of_nat (length pref)))%Q
  /\ ((1 # 2) <= up <= 1)%Q
  /\ ((up == 1 # 2)%Q <->
      forall p, In p pref -> str_in (lower p) (lower text) = false).
Proof.
  intros Hne text hits up.
  assert (Ht : negb (truthy text) = false).
  { subst text. destruct (md_text title md); reflexivity. }
  assert (Hup : up = Qmin 1
            (inject_Z (Z.of_nat hits)
             / inject_Z (Z.max 1 (Z.of_nat (length pref)))
             * (1 # 2) + (1 # 2))%Q).
  { subst up. unfold _user_pref_score. rewrite Ht.
    destruct pref; [exfalso; apply Hne; reflexivity|reflexivity]. }
  assert (Hlen : (1 <= length pref)%nat).
  { destruct pref; [exfalso; apply Hne; reflexivity|simpl; lia]. }
  assert (Hhits : (hits <= length pref)%nat).
  { subst hits. apply List.filter_length_le. }
  rewrite Z.max_r in Hup by lia.
  set (n := Z.of_nat (length pref)) in *.
  set (k := Z.of_nat hits) in *.
  assert (Hn : (0 < inject_Z n)%Q).
  { replace 0%Q with (inject_Z 0) by reflexivity. rewrite <- Zlt_Qlt.
    subst n. lia. }
  assert (Hk0 : (0 <= inject_Z k)%Q).
  { replace 0%Q with (inject_Z 0) by reflexivity. rewrite <- Zle_Qle.
    subst k. lia. }
  assert (Hkn : (inject_Z k <= inject_Z n)%Q).
  { rewrite <- Zle_Qle. subst k n. lia. }
  assert (Hd0 : (0 <= inject_Z k / inject_Z n)%Q).
  { apply Qle_shift_div_l; [exact Hn|]. rewrite Qmult_0_l. exact Hk0. }
  assert (Hd1 : (inject_Z k / inject_Z n <= 1)%Q).
  { apply Qle_shift_div_r; [exact Hn|]. rewrite Qmult_1_l. exact Hkn. }
  assert (Hmin : (up == inject_Z k / inject_Z n * (1 # 2) + (1 # 2))%Q).
  { rewrite Hup. apply Q.min_r. lra. }
  assert (H2 : (inject_Z k / inject_Z (2 * n)
                == inject_Z k / inject_Z n * (1 # 2))%Q).
  { rewrite inject_Z_mult. field.
    intros H. rewrite H in Hn. apply (Qlt_irrefl _ Hn). }
  split; [rewrite Hmin, H2; lra|].
  split; [rewrite Hmin; lra|].
  rewrite <- (filter_none_length (fun p => str_in (lower p) (lower text)) pref).
  fold hits. rewrite Hmin. split.
  - intros H.
    assert (Hz : (inject_Z k / inject_Z n == 0)%Q) by lra.
    assert (Hk : (inject_Z k == 0)%Q).
    { rewrite <- (Qmult_div_r (inject_Z k) (inject_Z n)).
      - rewrite Hz. ring.
      - intros H0. rewrite H0 in Hn. apply (Qlt_irrefl _ Hn). }
    change 0%Q with (inject_Z 0) in Hk. apply (proj1 (inject_Z_injective _ _)) in Hk.
    unfold k, hits in Hk. lia.
  - intros H. subst k. rewrite H. simpl inject_Z. unfold Qdiv.
    rewrite Qmult_0_l. lra.
Qed.

Lemma preference_signal_floor_witness :
  [u "ai"] <> []
  /\ (_user_pref_score
        (md_text title None ++ u " " ++ md_text abstract None) [u "ai"]
      == 1 # 2)%Q.
Proof.
  assert (Hne : [u "ai"] <> []) by discriminate.
  split; [exact Hne|].
  destruct (preference_signal_floor [u "ai"] None Hne) as (_ & _ & H).
  apply H. intros p [<-|[]]. vm_compute. reflexivity.
Defined.
